(* ===== verification/_CoqProject ===== *)
-Q . S2P
Prelude.v
Wire.v
CswpTypes.v
MemapFlags.v
CswpBuffer.v
Memory.v
ClientCommands.v
ClientState.v
ClientComplete.v
ClientTransact.v
ClientApi.v
ClientBatch.v
ClientInvariant.v
ClientMessages.v
ClientReading.v
ClientReceive.v
ClientSession.v
DummyServer.v
ServerParse.v
EndToEnd.v
ServerReply.v
CcuIn.v
UsbIf.v
UsbDev.v
UsbScript.v
UsbDevInv.v
UsbDrain.v
Trace.v
TraceRun.v
TraceScript.v
TraceQueue.v
TraceDetach.v
TraceInv.v
TraceOrder.v
TraceData.v
TraceStream.v
PlatIf.v
MemTarget.v
CcuCswp.v
CcuMem.v
CcuAccess.v
CcuTrace.v
LinuxTrace.v
CcuCapture.v
CcuAsync.v
CcuOut.v
CcuText.v
CcuShow.v
ServerMain.v
CdebugC.v
CcuLink.v
TcpSession.v
UsbSession.v
UsbSync.v
UsbTransport.v
UsbJoin.v
