(* ===== verification/Prelude.v ===== *)
(** * CSWP: client library, test server, transports, trace streaming and utility

    This library models the CoreSight Wire Protocol client of the repository
    and the programs around it, and proves them correct as far as they are.
    Paths are below [src/].

    ** The program and the model

    A debugger talks to a target over CSWP messages.  The client library encodes
    commands, one or a batch per message, sends them through function pointers
    and stores what the responses carry in the caller's memory.  The platform
    transport implements the pointers over TCP or USB, with a thread that sorts
    what arrives into responses and asynchronous messages.  Trace data comes
    over USB endpoints of its own, to a data thread.  A command line utility
    drives all of it, and a test server answers its messages.

    - [Wire]: the wire format as functions on byte lists, the specification that
      both sides are proved against.
    - [CswpTypes]: codes, commands and sizes
      ([client/cdebug/include/cswp_types.h]); [MemapFlags] has the flags of memory
      accesses, whose fields are proved independent.
    - [CswpBuffer]: the encoding buffer ([client/cdebug/cswp_buffer.c]).  The
      heap block is a list of bytes; [size], [used] and [pos] are 64-bit.
    - [Memory]: the caller's memory as objects with bounds.
    - [ClientCommands]: encoders and decoders ([cswp_client_commands.c],
      [cswp_client_common.c], [cswp_client_nv_ext_commands.c]), with the type
      [request] of messages as their specification.
    - [ClientState], [ClientComplete], [ClientTransact], [ClientApi]: the client
      ([client/cdebug/cswp_client.c]).  Its private data is
      [cswp_client_priv_t], a pending response the value of a completion function with its arguments,
      the transport the class [Transport].
    - [ClientBatch], [ClientInvariant], [ClientReceive], [ClientSession]: its
      theorems.  [ClientReading] says what each of the eleven completions does
      with a response, [ClientMessages] puts a transport under the client that
      keeps a log of what is sent.
    - [DummyServer]: the test server
      ([client_utility/dummy_server_main.cpp]), as a function from the bytes of
      a message to the packet it sends; [ServerParse] and [EndToEnd] put client
      and server together: over any transport of the class [ServerLink], and over
      [network], which runs the code of the server on each message.
      [ServerReply] says what the server replies to a message, failures and
      cancellations among it.  [ServerMain] is its process: the configuration,
      the sockets as a class, the loop over messages.
    - [PlatIf]: the platform transport
      ([client/cdebug/cswp_client_plat_if.cpp]); [listen] is one iteration of
      the reading thread, and [plat_steps] interleaves it with the client.
    - [UsbTransport]: the transport class on the USB device class: the reading
      thread and the caller of [send] and [disconnect] in any interleaving, both
      in [completeTransfer_forToken].  A turn is what a thread does between two
      releases of the lock of the device, in libusb one event.  [UsbJoin] proves
      that the wait in [disconnect] ends.
    - [CdebugC]: the C interface ([client/cdebug/cdebug_c_wrapper.cpp]) with its
      configuration strings; the objects behind the handles live in a heap.
    - [UsbIf]: the USB device class
      ([client/plat_usb_if/include/usb_device.h]) as an interface: the class
      [USBDevice] of operations and [USBDeviceLaws] of what a device promises.
    - [UsbDev]: its implementation ([client/plat_usb_if/usb_device_linux.cpp])
      over a class of libusb operations, an instance of [USBDevice];
      [UsbDevInv] proves that it accounts for every transfer, and the promise
      ([linux_laws]), [UsbSync] that device and libusb agree on what is in
      flight, so that what is cancelled comes back ([UsbDrain]).  [UsbScript] is
      a libusb to run examples on.
    - [Trace], [TraceRun]: trace streaming ([client/cstrace/]).  The three
      classes are one object, a call or the stretch of a thread between two
      releases of its lock is a [turn], and [run] executes any sequence of turns.
      [TraceScript] is a device to run examples on.  [TraceQueue], [TraceInv],
      [TraceOrder], [TraceData], [TraceDetach] and [TraceStream] hold the
      theorems.  Besides the order of transfers they rely on two laws of the
      device, that connecting it raises at most its exceptions and that a queued
      submission does ([USBDeviceLaws]).
    - [CcuIn]: the command line input of the utility
      ([client_utility/ccu_in.cpp]).
    - [MemTarget], [CcuCswp]: what a target with memory promises, and the
      commands of the utility ([client_utility/ccu_cswp.cpp], the dispatch of
      [client_utility/main.cpp]); [CcuMem] and [CcuAccess] prove that the memory
      commands move exactly the bytes asked for, [CcuAsync] what the user sees
      of the asynchronous messages.  Files, signals and output are the class
      [CcuEnv].
    - [CcuTrace]: the trace command.  It runs against [TraceRun] under a
      schedule that says who goes next, the data thread, the command or the user;
      [CcuCapture] proves what its file holds.  The number of turns taken
      ([p_turns]) is a record that nothing reads.  [LinuxTrace] puts it on
      [UsbDev] and runs a capture from arguments to file over a libusb.
    - [CcuOut]: the text that the utility prints ([client_utility/ccu_out.cpp],
      the messages of [main.cpp]) over a model of the output stream; [CcuText]
      reads the text of a memory access back, [CcuShow] puts commands and output
      together.
    - [CcuLink], [TcpSession], [UsbSession]: a register command of the utility
      over any [ServerLink]; the utility and the server as two processes on one
      machine, connected through the transport class; and the same over USB,
      while the target sends asynchronous messages too.

    ** How code becomes definitions

    C and C++ functions run in one of two monads ([Prelude]).  In [E S A] a
    function returns a value, or fails with a code (an error code that the
    caller passes on, or an exception); in both, [None] is undefined behaviour
    of the language or the end of the process.  State that the code mutates is
    explicit: the buffer, the client and the caller's memory, the trace object.
    Machine integers are [Z] with [u8], [u16], [u32], [u64] and [int32] where
    the code converts.  What is not under [src/] (sockets, libusb, the server
    behind a transport, files) is a class whose laws are stated where they are
    used, with an instance that shows that they can hold.

    ** What is proved

    - Wire format: fields and requests round trip, encoders write exactly the
      bytes of their request or a proper prefix with [CSWP_BUFFER_FULL], decoders
      on arbitrary bytes stay inside the data received ([CswpBuffer],
      [ClientCommands]).
    - Client: every public command is the generic command on its request, a
      command outside a batch sends one frame, a batch of any commands sends the
      requests that fit in order in one frame, a call sends at most one message
      and that of the wire format, a well-formed answer stores all results
      whichever the completions, an error answer stops at its position, nested
      sessions end with the last [cswp_term], and under all calls and all input
      the private data stays well formed, with one pending response for each
      command counted.
    - Client and server: the server finds in a message what the client encoded,
      a batch returns what the handlers of the server answer, and the register
      command of the utility prints it, from the arguments and the two
      configuration files to the exit codes of both processes; over USB it prints
      the values first and then the asynchronous messages that came with the
      response.
    - Platform transport: responses and asynchronous messages are delivered in
      order and once, in every interleaving of thread and client; what a call of
      [receive] returns is determined by what arrives before its deadline; over
      the USB device, as long as libusb reports no error to a thread that waits,
      every transfer has a thread that waits for it, no wake-up is lost for good,
      and [disconnect] returns, unless the thread was about to submit, with the
      thread joined and no transfer left.
    - Trace: tokens are unique, buffers come back in order, the data handed to
      the callback is that of the oldest pending buffer, for every schedule; one
      buffer at most is lost when the data thread leaves its loop.
    - USB device: every token given is returned once or still owed, the counters
      are exact, and after a cancellation everything is returned, as long as no
      transfer had to wait in the queue of the device.
    - Trace, end to end: a client that submits no buffer that is in use receives
      exactly the bytes the device delivered while the data thread is in its
      loop, and all but those of one delivery at most once it has left; the
      capture command, for a sink that a 32-bit mask can name, writes a prefix of
      them to its file, whatever fails and whoever is scheduled.
    - Utility: accepted arguments are valid, each memory command reads or
      writes exactly its range, divided as the code divides it, up to the text on
      the screen, which determines addresses and bytes, and the file of a dump,
      which gives back what was filled in (a file whose last chunk leaves no room
      for its headers is not written), and asynchronous messages are shown once
      and in order.
    - Processes: a session of the server replies to every message of commands
      that it parses right, and ends with its sockets closed; the C interface
      reads its configuration strings as they are written.

    Where the code does less than it means to, the theorem states what it does;
    these are among the properties of kind "error".

    ** Fuel

    Loops that are not structural take fuel.  A varint of the client has at most
    eleven bytes before the shift is undefined ([VARINT_FUEL]); the encoder of
    the server writes at most ten ([encode_varint]), its parser is structural in
    the data.  The division of an access into requests takes one more than the
    length of the request array, the chunks of an access its number of bytes,
    since each chunk moves at least one; the loops over the queues of a trace
    sink take the length of the queue.  The loop of the server counts the
    messages read, that of [rd_async_msg] the rounds until the user interrupts
    ([env_rounds]); digits of 64-bit numbers take 20.  The theorems state outcomes, so they show that
    the fuel is enough, and not what holds if it is.

    ** Not modelled

    Diagnostic output (the lines of the utility that start with its name, and
    the console output of the server), condition variables and time, which are
    choices of the schedule, and sockets, libusb, files and signals, which are
    classes.  Allocation does not fail, but for the buffers of the trace
    command ([te_malloc]). *)
From stdpp Require Export base tactics list gmap strings numbers.
From Stdlib Require Export ZArith Lia Bool.
Open Scope Z_scope.

Declare Scope cswp_scope.
Delimit Scope cswp_scope with cswp.
Open Scope cswp_scope.

(** ** Machine integers *)

Definition u8 (z : Z) : Z := z mod 2 ^ 8.
Definition u16 (z : Z) : Z := z mod 2 ^ 16.
Definition u32 (z : Z) : Z := z mod 2 ^ 32.
Definition u64 (z : Z) : Z := z mod 2 ^ 64.
(** Conversion to a 32-bit [int] (two's complement). *)
Definition int32 (z : Z) : Z := (z + 2 ^ 31) mod 2 ^ 32 - 2 ^ 31.

Definition is_byte (z : Z) : Prop := 0 <= z < 256.
Definition is_u32 (z : Z) : Prop := 0 <= z < 2 ^ 32.
Definition is_u64 (z : Z) : Prop := 0 <= z < 2 ^ 64.

Abbreviation bytes_ok := (Forall is_byte).
(** Length of a list as an integer. *)
Abbreviation len l := (Z.of_nat (length l)).

Create HintDb cswp.
Create Rewrite HintDb cswp_len.

Lemma u8_byte z : is_byte (u8 z).
Proof. unfold is_byte, u8. apply Z.mod_pos_bound. lia. Qed.
Lemma u32_range z : is_u32 (u32 z).
Proof. unfold is_u32, u32. apply Z.mod_pos_bound. lia. Qed.
Lemma u64_range z : is_u64 (u64 z).
Proof. unfold is_u64, u64. apply Z.mod_pos_bound. lia. Qed.
Lemma u8_small z : 0 <= z < 256 -> u8 z = z.
Proof. intros. unfold u8. apply Z.mod_small. lia. Qed.
Lemma u32_small z : 0 <= z < 2 ^ 32 -> u32 z = z.
Proof. intros. unfold u32. apply Z.mod_small. lia. Qed.
Lemma u64_small z : 0 <= z < 2 ^ 64 -> u64 z = z.
Proof. intros. unfold u64. apply Z.mod_small. lia. Qed.
Lemma int32_small z : - 2 ^ 31 <= z < 2 ^ 31 -> int32 z = z.
Proof. intros. unfold int32. rewrite Z.mod_small by lia. lia. Qed.
#[export] Hint Resolve u8_byte u32_range u64_range : cswp.

(** ** Bit operations as arithmetic *)

Lemma land_mask n v : 0 <= n -> Z.land v (2 ^ n - 1) = v mod 2 ^ n.
Proof.
  intros. rewrite <- Z.land_ones by done. f_equal. rewrite Z.ones_equiv. lia.
Qed.
Lemma land_127 v : Z.land v 127 = v mod 128.
Proof. apply (land_mask 7). lia. Qed.
Lemma land_255 v : Z.land v 255 = v mod 256.
Proof. apply (land_mask 8). lia. Qed.
Lemma shiftr_7 v : Z.shiftr v 7 = v / 128.
Proof. rewrite Z.shiftr_div_pow2 by lia. done. Qed.

(** Or-ing disjoint bit fields is addition. *)
Lemma land_shiftl_disjoint a b n :
  0 <= n -> 0 <= a < 2 ^ n -> Z.land a (Z.shiftl b n) = 0.
Proof.
  intros Hn Ha. apply Z.bits_inj'. intros i Hi.
  rewrite Z.land_spec, Z.bits_0, Z.shiftl_spec by done.
  destruct (Z.ltb_spec i n).
  - rewrite (Z.testbit_neg_r b) by lia. apply andb_false_r.
  - replace a with (a mod 2 ^ n) by (apply Z.mod_small; done).
    rewrite Z.mod_pow2_bits_high by lia. done.
Qed.

Lemma lor_shiftl_add a b n :
  0 <= n -> 0 <= a < 2 ^ n -> Z.lor a (Z.shiftl b n) = a + b * 2 ^ n.
Proof.
  intros Hn Ha. rewrite <- Z.shiftl_mul_pow2 by done.
  rewrite <- (Z.add_lor_land a), land_shiftl_disjoint by done. lia.
Qed.

(** Turn an or of byte fields, innermost first, into a sum. *)
Ltac lor_fields :=
  repeat match goal with
  | |- context [Z.lor ?a (Z.shiftl ?b ?n)] =>
      lazymatch a with
      | context [Z.lor] => fail
      | _ => rewrite (lor_shiftl_add a b n) by lia
      end
  end.

Lemma lor_128 a : 0 <= a < 128 -> Z.lor 128 a = a + 128.
Proof.
  intros. rewrite Z.lor_comm. change 128 with (Z.shiftl 1 7) at 1.
  rewrite lor_shiftl_add by lia. lia.
Qed.

(** The continuation bit of a byte. *)
Lemma land_128 b : is_byte b -> Z.land b 128 = if b <? 128 then 0 else 128.
Proof.
  intros Hb. unfold is_byte in Hb.
  assert (Hall : forallb (fun n => Z.land (Z.of_nat n) 128 =?
                   (if Z.of_nat n <? 128 then 0 else 128)) (seq 0 256) = true)
    by (vm_compute; done).
  rewrite forallb_forall in Hall. specialize (Hall (Z.to_nat b)).
  rewrite Z2Nat.id in Hall by lia. apply Z.eqb_eq, Hall, in_seq. lia.
Qed.

(** Adding the next group of bits to a 64-bit accumulator. *)
Lemma lor_shiftl_u64 v b s :
  0 <= s < 64 -> 0 <= v < 2 ^ s ->
  Z.lor v (u64 (Z.shiftl b s)) = u64 (v + b * 2 ^ s).
Proof.
  intros Hs Hv. unfold u64. rewrite Z.shiftl_mul_pow2 by lia.
  assert (Hp : 2 ^ 64 = 2 ^ (64 - s) * 2 ^ s) by (rewrite <- Z.pow_add_r by lia; f_equal; lia).
  assert (0 < 2 ^ s) by (apply Z.pow_pos_nonneg; lia).
  assert (0 < 2 ^ (64 - s)) by (apply Z.pow_pos_nonneg; lia).
  assert (Hm : (b * 2 ^ s) mod 2 ^ 64 = (b mod 2 ^ (64 - s)) * 2 ^ s)
    by (rewrite Hp, Z.mul_mod_distr_r by lia; done).
  rewrite Hm, <- Z.shiftl_mul_pow2, lor_shiftl_add by lia.
  rewrite <- Z.add_mod_idemp_r, Hm by lia. symmetry. apply Z.mod_small.
  rewrite Hp. pose proof (Z.mod_pos_bound b (2 ^ (64 - s))). nia.
Qed.

(** ** Lists *)

Lemma bytes_ok_app l1 l2 : bytes_ok (l1 ++ l2) <-> bytes_ok l1 /\ bytes_ok l2.
Proof. apply Forall_app. Qed.

(** The bytes of a string literal. *)
Fixpoint bytes_of (s : string) : list Z :=
  match s with
  | EmptyString => []
  | String a s' => Z.of_N (Ascii.N_of_ascii a) :: bytes_of s'
  end.

(** [splice l off src] is the effect of [memcpy(&l[off], src, |src|)]. *)
Definition splice {A} (l : list A) (off : nat) (src : list A) : list A :=
  take off l ++ src ++ drop (off + length src) l.

Section splice.
Context {A : Type}.
Implicit Types l src : list A.

Lemma length_splice l off src :
  (off + length src <= length l)%nat -> length (splice l off src) = length l.
Proof.
  intros. unfold splice. rewrite !length_app, length_take, length_drop. lia.
Qed.

Lemma splice_nil l off : splice l off [] = l.
Proof. unfold splice. rewrite Nat.add_0_r. apply take_drop. Qed.

Lemma insert_splice l off x :
  (off < length l)%nat -> <[off := x]> l = splice l off [x].
Proof.
  intros. unfold splice. simpl. rewrite Nat.add_1_r.
  apply insert_take_drop. done.
Qed.

Lemma splice_splice l off s1 s2 :
  (off + length s1 + length s2 <= length l)%nat ->
  splice (splice l off s1) (off + length s1) s2 = splice l off (s1 ++ s2).
Proof.
  intros. unfold splice. rewrite !app_assoc, length_app. f_equal.
  - f_equal. rewrite take_app_le by (rewrite length_app, length_take; lia).
    rewrite take_ge; [done|]. rewrite length_app, length_take. lia.
  - rewrite drop_app_ge by (rewrite length_app, length_take; lia).
    rewrite drop_drop, length_app, length_take. f_equal. lia.
Qed.

Lemma take_splice l off src :
  (off <= length l)%nat ->
  take (off + length src) (splice l off src) = take off l ++ src.
Proof.
  intros. unfold splice. rewrite app_assoc.
  rewrite take_app_le by (rewrite length_app, length_take; lia).
  apply take_ge. rewrite length_app, length_take. lia.
Qed.

Lemma take_splice_le l off src n :
  (n <= off)%nat -> (off <= length l)%nat ->
  take n (splice l off src) = take n l.
Proof.
  intros. unfold splice. rewrite take_app_le by (rewrite length_take; lia).
  rewrite take_take. f_equal. lia.
Qed.

Lemma splice_overwrite l off s1 s2 :
  length s1 = length s2 -> (off + length s1 <= length l)%nat ->
  splice (splice l off s1) off s2 = splice l off s2.
Proof.
  intros Heq Hle. unfold splice. f_equal; [|f_equal].
  - rewrite take_app_le by (rewrite length_take; lia).
    rewrite take_take. f_equal. lia.
  - rewrite app_assoc, drop_app_ge by (rewrite length_app, length_take; lia).
    rewrite drop_drop, length_app, length_take. f_equal. lia.
Qed.
End splice.

Lemma bytes_ok_splice l off src :
  bytes_ok l -> bytes_ok src -> bytes_ok (splice l off src).
Proof.
  intros. unfold splice. rewrite !bytes_ok_app.
  auto using Forall_take, Forall_drop.
Qed.
#[export] Hint Resolve bytes_ok_splice : cswp.

(** ** State monads

    [M S A]: a computation over state [S]; [None] is undefined behaviour of the
    C code (an access outside an object, an uninitialised read, a shift by the
    width of its operand or more).  [E S A]: the same with the result codes of
    the C functions; its bind is the [__CSWP_CHECK] macro: a failing call makes
    the caller return that code, keeping the state changes made so far. *)

Inductive result (A : Type) : Type :=
  | Val (a : A)
  | Fail (code : Z).
Arguments Val {A} a.
Arguments Fail {A} code.

#[export] Instance result_eq_dec {A} `{EqDecision A} : EqDecision (result A).
Proof. solve_decision. Defined.

Definition M (S A : Type) : Type := S -> option (A * S).
Definition E (S A : Type) : Type := S -> option (result A * S).

#[export] Instance M_ret S : MRet (M S) := fun A a s => Some (a, s).
#[export] Instance M_bind S : MBind (M S) := fun A B f m s =>
  match m s with Some (a, s') => f a s' | None => None end.
#[export] Instance E_ret S : MRet (E S) := fun A a s => Some (Val a, s).
#[export] Instance E_bind S : MBind (E S) := fun A B f m s =>
  match m s with
  | Some (Val a, s') => f a s'
  | Some (Fail c, s') => Some (Fail c, s')
  | None => None
  end.

Definition ub {S A} : M S A := fun _ => None.
Definition gets {S A} (f : S -> A) : M S A := fun s => Some (f s, s).
Definition modify {S} (f : S -> S) : M S unit := fun s => Some (tt, f s).

Definition e_ub {S A} : E S A := fun _ => None.
Definition e_fail {S A} (c : Z) : E S A := fun s => Some (Fail c, s).
Definition e_gets {S A} (f : S -> A) : E S A := fun s => Some (Val (f s), s).
Definition e_modify {S} (f : S -> S) : E S unit := fun s => Some (Val tt, f s).

(** [arr[i]] for an array whose elements are [l]: outside it is undefined. *)
Definition e_index {S A} (l : list A) (i : Z) : E S A :=
  if decide (0 <= i) then
    match l !! Z.to_nat i with Some a => mret a | None => e_ub end
  else e_ub.

(** [for (i = start; i < start + n; ++i) body(i)] *)
Fixpoint e_for {S} (n : nat) (i : Z) (body : Z -> E S unit) : E S unit :=
  match n with
  | O => mret tt
  | S n' => body i;; e_for n' (i + 1) body
  end.

(** The [int] a C function returns for a result. *)
Definition code_of {A} (r : result A) : Z :=
  match r with Val _ => 0 | Fail c => c end.

(** Run a computation on a component of the state. *)
Definition zoom {S T A} (get : S -> T) (set : T -> S -> S) (m : M T A) : M S A :=
  fun s => match m (get s) with Some (a, t) => Some (a, set t s) | None => None end.

Section monad_laws.
Context {S : Type}.

Lemma M_bind_eq {A B} (m : M S A) (f : A -> M S B) s a s' :
  m s = Some (a, s') -> (m ≫= f) s = f a s'.
Proof. unfold mbind, M_bind. by intros ->. Qed.
Lemma M_bind_ret {A B} (a : A) (f : A -> M S B) s : ((mret a : M S A) ≫= f) s = f a s.
Proof. done. Qed.
Lemma M_bind_ub {A B} (m : M S A) (f : A -> M S B) s :
  m s = None -> (m ≫= f) s = None.
Proof. unfold mbind, M_bind. by intros ->. Qed.
Lemma M_bind_inv {A B} (m : M S A) (f : A -> M S B) s r :
  (m ≫= f) s = Some r -> exists a s', m s = Some (a, s') /\ f a s' = Some r.
Proof. unfold mbind, M_bind. destruct (m s) as [[a s']|]; naive_solver. Qed.

(** The first three steps of a computation. *)
Lemma M_bind_assoc3 {A B C D} (m1 : M S A) (m2 : M S B) (m3 : M S C) (k : C -> M S D)
    s c s' :
  (m1;; m2;; m3) s = Some (c, s') -> (m1;; m2;; x ← m3; k x) s = k c s'.
Proof.
  unfold mbind, M_bind. destruct (m1 s) as [[a s1]|]; [|done].
  destruct (m2 s1) as [[b s2]|]; [|done]. by intros ->.
Qed.

Lemma E_bind_val {A B} (m : E S A) (f : A -> E S B) s a s' :
  m s = Some (Val a, s') -> (m ≫= f) s = f a s'.
Proof. unfold mbind, E_bind. by intros ->. Qed.
Lemma E_bind_fail {A B} (m : E S A) (f : A -> E S B) s c s' :
  m s = Some (Fail c, s') -> (m ≫= f) s = Some (Fail c, s').
Proof. unfold mbind, E_bind. by intros ->. Qed.
Lemma E_bind_ub {A B} (m : E S A) (f : A -> E S B) s :
  m s = None -> (m ≫= f) s = None.
Proof. unfold mbind, E_bind. by intros ->. Qed.
Lemma E_bind_assoc {A B C} (m : E S A) (f : A -> E S B) (g : B -> E S C) s :
  ((m ≫= f) ≫= g) s = (m ≫= (fun a => f a ≫= g)) s.
Proof. unfold mbind, E_bind. by destruct (m s) as [[[a|c] s']|]. Qed.
Lemma E_ret_eq {A} (a : A) s : (mret a : E S A) s = Some (Val a, s).
Proof. done. Qed.
Lemma e_index_eq {A} (l : list A) i a s :
  0 <= i -> l !! Z.to_nat i = Some a -> @e_index S A l i s = Some (Val a, s).
Proof. intros. unfold e_index. rewrite decide_True by done. by simplify_option_eq. Qed.
End monad_laws.

Lemma E_bind_cases {S A B} (m : E S A) (f : A -> E S B) s r s' :
  (m ≫= f) s = Some (r, s') ->
  (exists a s1, m s = Some (Val a, s1) /\ f a s1 = Some (r, s')) \/
  (exists c, m s = Some (Fail c, s') /\ r = Fail c).
Proof.
  unfold mbind, E_bind. destruct (m s) as [[[a|c] s1]|]; [|intros [= <- <-]|done].
  - intros Hr. left. eauto.
  - right. eauto.
Qed.

(** ** Reasoning about a computation as a whole *)

(** Whatever [m] does relates the state before to the state after. *)
Definition within {S A} (R : S -> S -> Prop) (m : E S A) : Prop :=
  forall s r s', m s = Some (r, s') -> R s s'.

Section within.
Context {S : Type} {R : S -> S -> Prop} `{!PreOrder R}.

Lemma within_ret {A} (a : A) : within R (mret a).
Proof. intros s r s' [= <- <-]. reflexivity. Qed.
Lemma within_fail {A} c : within R (e_fail c : E S A).
Proof. intros s r s' [= <- <-]. reflexivity. Qed.
Lemma within_ub {A} : within R (e_ub : E S A).
Proof. intros s r s'. done. Qed.
Lemma within_gets {A} (f : S -> A) : within R (e_gets f).
Proof. intros s r s' [= <- <-]. reflexivity. Qed.
Lemma within_modify f : (forall s, R s (f s)) -> within R (e_modify f).
Proof. intros Hf s r s' [= <- <-]. apply Hf. Qed.
Lemma within_bind {A B} (m : E S A) (f : A -> E S B) :
  within R m -> (forall a, within R (f a)) -> within R (m ≫= f).
Proof.
  intros Hm Hf s r s' Hs. apply E_bind_cases in Hs as [(a & s1 & H1 & H2)|(c & H1 & ->)].
  - etrans; [by eapply Hm|by eapply Hf].
  - by eapply Hm.
Qed.
Lemma within_index {A} (l : list A) i : within R (e_index l i : E S A).
Proof.
  unfold e_index. case_decide; [|apply within_ub].
  destruct (l !! _); [apply within_ret|apply within_ub].
Qed.
Lemma within_for n i (body : Z -> E S unit) :
  (forall j, within R (body j)) -> within R (e_for n i body).
Proof.
  intros Hb. revert i. induction n as [|n IH]; intros i; simpl; [apply within_ret|].
  apply within_bind; [done|intros _; apply IH].
Qed.
End within.

Lemma within_weaken {S A} (R1 R2 : S -> S -> Prop) (m : E S A) :
  (forall s s', R1 s s' -> R2 s s') -> within R1 m -> within R2 m.
Proof. intros HR Hm s r s' Hs. eapply HR, Hm, Hs. Qed.

(** Every exception of [m] has a code that satisfies [Q]. *)
Definition raises {S A} (Q : Z -> Prop) (m : E S A) : Prop :=
  forall s c s', m s = Some (Fail c, s') -> Q c.

Section raises.
Context {S : Type} {Q : Z -> Prop}.

Lemma raises_ret {A} (a : A) : raises Q (mret a : E S A).
Proof. by intros s c s'. Qed.
Lemma raises_fail {A} c : Q c -> raises Q (e_fail c : E S A).
Proof. by intros Hc s c' s' [= <- _]. Qed.
Lemma raises_ub {A} : raises Q (e_ub : E S A).
Proof. by intros s c s'. Qed.
Lemma raises_gets {A} (f : S -> A) : raises Q (e_gets f).
Proof. by intros s c s'. Qed.
Lemma raises_modify (f : S -> S) : raises Q (e_modify f).
Proof. by intros s c s'. Qed.
Lemma raises_bind {A B} (m : E S A) (f : A -> E S B) :
  raises Q m -> (forall a, raises Q (f a)) -> raises Q (m ≫= f).
Proof.
  intros Hm Hf s c s' Hs. apply E_bind_cases in Hs as [(a & s1 & _ & Hs)|(x & Hs & [= ->])];
    [by eapply Hf|by eapply Hm].
Qed.
Lemma raises_index {A} (l : list A) i : raises Q (e_index l i : E S A).
Proof. unfold e_index. case_decide; [|apply raises_ub]. destruct (l !! _); [apply raises_ret|apply raises_ub]. Qed.
End raises.

Ltac raises_with solver :=
  repeat first
    [ solve [solver]
    | apply raises_ret | apply raises_ub | apply raises_gets | apply raises_modify | apply raises_index
    | apply raises_fail; solve [done | solver]
    | apply raises_bind; [|intros ?]
    | case_match ].

Create HintDb within.
#[export] Hint Extern 1 (within _ _) =>
  first [apply within_ret | apply within_fail | apply within_ub | apply within_gets
        | apply within_index] : within.

(** A computation is taken apart down to the steps that [solver] knows. *)
Ltac within_with solver :=
  repeat first
    [ solve [solver]
    | apply within_bind; [|intros ?]
    | apply within_for; intros ?
    | apply within_modify; intros ?; solve [done | solver]
    | case_match ].
