(* ===== verification/Wire.v ===== *)
(** The wire format of CSWP messages as pure functions on byte lists: the
    abstract specification that the buffer routines of the client
    ([cswp_buffer.c]) and the encoders and parsers of the test server
    ([dummy_server_main.cpp]) are each proved to implement.  Fixed-width
    integers are little endian, a varint is little-endian base 128 with a
    continuation bit, a string is a varint length followed by its bytes. *)
From S2P Require Import Prelude.

(** ** Little-endian integers *)

Fixpoint le_bytes (n : nat) (v : Z) : list Z :=
  match n with
  | O => []
  | S n' => v mod 256 :: le_bytes n' (v / 256)
  end.

Fixpoint le_val (l : list Z) : Z :=
  match l with
  | [] => 0
  | b :: l' => b + 256 * le_val l'
  end.

Lemma length_le_bytes n v : length (le_bytes n v) = n.
Proof. revert v. induction n; intros; simpl; auto. Qed.

Lemma le_bytes_ok n v : bytes_ok (le_bytes n v).
Proof.
  revert v. induction n; intros; simpl; constructor; auto.
  unfold is_byte. apply Z.mod_pos_bound. lia.
Qed.

Lemma le_val_range l : bytes_ok l -> 0 <= le_val l < 256 ^ len l.
Proof.
  induction 1 as [|b l Hb _ IH]; [simpl; lia|].
  rewrite length_cons, Nat2Z.inj_succ, Z.pow_succ_r by lia.
  simpl. unfold is_byte in Hb. lia.
Qed.

(** Decoding the bytes of an integer gives the integer back. *)
Lemma le_val_bytes n v : le_val (le_bytes n v) = v mod 256 ^ Z.of_nat n.
Proof.
  revert v. induction n as [|n IH]; intros v.
  - simpl. rewrite Z.mod_1_r. done.
  - rewrite Nat2Z.inj_succ, Z.pow_succ_r by lia. simpl. rewrite IH.
    rewrite Z.rem_mul_r by lia. lia.
Qed.

Lemma le_bytes_val l : bytes_ok l -> le_bytes (length l) (le_val l) = l.
Proof.
  induction 1 as [|b l Hb _ IH]; [done|]. unfold is_byte in Hb. simpl.
  rewrite (Z.mul_comm 256), Z.mod_add, Z.mod_small by lia.
  rewrite Z.div_add, Z.div_small by lia. rewrite Z.add_0_l, IH. done.
Qed.

(** ** Varints *)

(** [fuel] bounds the number of continuation bytes: nine are enough for a
    64-bit value ([varint_enc_val]). *)
Fixpoint varint_bytes (fuel : nat) (v : Z) : list Z :=
  match fuel with
  | O => [v mod 128]
  | S f => if 127 <? v then (v mod 128 + 128) :: varint_bytes f (v / 128)
           else [v mod 128]
  end.

Definition varint_enc (v : Z) : list Z := varint_bytes 9 v.

(** The value denoted by the bytes of a varint. *)
Fixpoint varint_val (l : list Z) : Z :=
  match l with
  | [] => 0
  | b :: l' => b mod 128 + 128 * varint_val l'
  end.

(** A complete varint: every byte but the last has the continuation bit. *)
Inductive is_varint : list Z -> Prop :=
  | is_varint_last b : 0 <= b < 128 -> is_varint [b]
  | is_varint_more b l : 128 <= b < 256 -> is_varint l -> is_varint (b :: l).

(** Looking for a varint of at most [k] bytes at the head of [l]: its bytes, or
    no byte without the continuation bit in [l], or more than [k] bytes. *)
Inductive varint_scan :=
  | ScanVal (p : list Z)
  | ScanEmpty
  | ScanOverlong.

Fixpoint scan_varint (k : nat) (l : list Z) : varint_scan :=
  match l with
  | [] => ScanEmpty
  | x :: l' =>
      match k with
      | O => ScanOverlong
      | S k' =>
          if x <? 128 then ScanVal [x]
          else match scan_varint k' l' with ScanVal p => ScanVal (x :: p) | r => r end
      end
  end.

Lemma varint_bytes_wf f v : 0 <= v -> is_varint (varint_bytes f v).
Proof.
  revert v. induction f as [|f IH]; intros v Hv; simpl.
  - constructor. apply Z.mod_pos_bound. lia.
  - pose proof (Z.mod_pos_bound v 128). case_match; constructor; try lia.
    apply IH. apply Z.div_pos; lia.
Qed.

Lemma varint_fuel_step f v :
  0 <= v < 128 ^ (Z.of_nat (S f) + 1) -> 0 <= v / 128 < 128 ^ (Z.of_nat f + 1).
Proof.
  intros Hv. rewrite Nat2Z.inj_succ, <- Z.add_1_r, (Z.pow_add_r _ (Z.of_nat f + 1)) in Hv by lia.
  split; [apply Z.div_pos; lia|]. apply Z.div_lt_upper_bound; lia.
Qed.

Lemma varint_enc_wf v : 0 <= v -> is_varint (varint_enc v).
Proof. apply varint_bytes_wf. Qed.

Lemma is_varint_bytes l : is_varint l -> bytes_ok l.
Proof. induction 1; repeat constructor; unfold is_byte in *; auto; lia. Qed.

Lemma varint_bytes_val f v :
  0 <= v < 128 ^ (Z.of_nat f + 1) -> varint_val (varint_bytes f v) = v.
Proof.
  revert v. induction f as [|f IH]; intros v Hv.
  - simpl in *. rewrite !Z.mod_mod, Z.mod_small; lia.
  - rewrite Nat2Z.inj_succ, <- Z.add_1_r, Z.pow_add_r in Hv by lia.
    simpl. destruct (Z.ltb_spec 127 v); simpl.
    + rewrite IH.
      * pose proof (Z.div_mod v 128). replace (v mod 128 + 128) with (v mod 128 + 1 * 128) by lia.
        rewrite Z.mod_add, Z.mod_mod by lia. lia.
      * split; [apply Z.div_pos; lia|]. apply Z.div_lt_upper_bound; lia.
    + rewrite Z.mod_mod, Z.mod_small; lia.
Qed.

Lemma varint_enc_val v : is_u64 v -> varint_val (varint_enc v) = v.
Proof.
  intros Hv. apply varint_bytes_val. unfold is_u64 in Hv.
  assert (2 ^ 64 < 128 ^ (Z.of_nat 9 + 1)) by (vm_compute; done). lia.
Qed.

Lemma varint_bytes_length f v :
  (1 <= length (varint_bytes f v) <= f + 1)%nat.
Proof.
  revert v. induction f as [|f IH]; intros v; simpl; [lia|].
  case_match; simpl; [|lia]. specialize (IH (v / 128)). lia.
Qed.

Lemma varint_enc_length v : (1 <= length (varint_enc v) <= 10)%nat.
Proof. apply (varint_bytes_length 9). Qed.

(** Small values take few bytes. *)
Lemma varint_bytes_short f k v :
  0 <= v < 128 ^ (Z.of_nat k + 1) -> (length (varint_bytes f v) <= k + 1)%nat.
Proof.
  revert k v. induction f as [|f IH]; intros k v Hv; simpl; [lia|].
  destruct (Z.ltb_spec 127 v); simpl; [|lia]. destruct k as [|k].
  { simpl in Hv. lia. }
  apply varint_fuel_step in Hv. specialize (IH k _ Hv). lia.
Qed.

Lemma varint_enc_short k v :
  0 <= v < 128 ^ (Z.of_nat k + 1) -> len (varint_enc v) <= Z.of_nat k + 1.
Proof. intros Hv. pose proof (varint_bytes_short 9 k v Hv). unfold varint_enc. lia. Qed.

Lemma varint_enc_bytes v : 0 <= v -> bytes_ok (varint_enc v).
Proof. eauto using is_varint_bytes, varint_enc_wf. Qed.

(** A value below [2 ^ (7 k)] needs at most [k] bytes. *)
Lemma varint_bytes_length_le f v k :
  (0 < k)%nat -> 0 <= v < 128 ^ Z.of_nat k -> (length (varint_bytes f v) <= k)%nat.
Proof.
  revert v k. induction f as [|f IH]; intros v k Hk Hv; simpl; [lia|].
  destruct (Z.ltb_spec 127 v); simpl; [|lia].
  destruct k as [|[|k]]; [lia|simpl in Hv; lia|].
  apply le_n_S, IH; [lia|].
  rewrite Nat2Z.inj_succ, Z.pow_succ_r in Hv by lia.
  split; [apply Z.div_pos; lia|]. apply Z.div_lt_upper_bound; lia.
Qed.

Lemma varint_enc_length_le v k :
  (0 < k)%nat -> 0 <= v < 128 ^ Z.of_nat k -> (length (varint_enc v) <= k)%nat.
Proof. apply varint_bytes_length_le. Qed.

Lemma varint_enc_small v : 0 <= v < 128 -> varint_enc v = [v].
Proof.
  intros. unfold varint_enc. cbn [varint_bytes].
  destruct (Z.ltb_spec 127 v); [lia|]. by rewrite ?Z.mod_small by lia.
Qed.

Lemma is_varint_nonempty l : is_varint l -> l <> [].
Proof. by inversion 1. Qed.

Lemma varint_val_range l :
  is_varint l -> 0 <= varint_val l < 128 ^ len l.
Proof.
  induction 1 as [b Hb|b l Hb Hl IH].
  - simpl. rewrite Z.mod_small by lia. lia.
  - rewrite length_cons, Nat2Z.inj_succ, Z.pow_succ_r by lia. simpl.
    pose proof (Z.mod_pos_bound b 128). lia.
Qed.

Lemma scan_varint_app k p rest :
  is_varint p -> (length p <= k)%nat -> scan_varint k (p ++ rest) = ScanVal p.
Proof.
  intros Hp. revert k. induction Hp as [x Hx|x p Hx Hp IH]; intros [|k] Hk; simpl in *;
    try lia; destruct (Z.ltb_spec x 128); try lia; [done|].
  rewrite IH by lia. done.
Qed.

Lemma scan_varint_val k l p :
  bytes_ok l -> scan_varint k l = ScanVal p ->
  is_varint p /\ (length p <= k)%nat /\ exists rest, l = p ++ rest.
Proof.
  intros Hl. revert k p. induction Hl as [|x l Hx Hl IH]; intros [|k] p Hs; simplify_eq/=.
  unfold is_byte in Hx. destruct (Z.ltb_spec x 128); simplify_eq.
  - repeat split; [constructor; lia|simpl; lia|by exists l].
  - destruct (scan_varint k l) as [q| |] eqn:Hq; simplify_eq.
    destruct (IH k q Hq) as (? & ? & rest & ->).
    repeat split; [constructor; auto; lia|simpl; lia|by exists rest].
Qed.

Lemma scan_varint_overlong k l : scan_varint k l = ScanOverlong -> (k < length l)%nat.
Proof.
  revert k. induction l as [|x l IH]; intros [|k] Hs; simpl in *; simplify_eq; [lia|].
  destruct (x <? 128); simplify_eq. destruct (scan_varint k l) eqn:Hk; simplify_eq.
  apply IH in Hk. lia.
Qed.

(** Varints are self-delimiting: none is a proper prefix of another. *)
Lemma is_varint_prefix l1 l2 r1 r2 :
  is_varint l1 -> is_varint l2 -> l1 ++ r1 = l2 ++ r2 -> l1 = l2 /\ r1 = r2.
Proof.
  intros H1. revert l2. induction H1 as [b Hb|b l Hb Hl IH]; intros l2 H2 Heq.
  - inversion H2; simplify_eq/=; [done|lia].
  - inversion H2 as [|? l2' ? Hl2]; simplify_eq/=; [lia|].
    destruct (IH l2') as [-> ->]; auto.
Qed.

Lemma varint_enc_inj v w : is_u64 v -> is_u64 w -> varint_enc v = varint_enc w -> v = w.
Proof.
  intros Hv Hw Heq. rewrite <- (varint_enc_val v), <- (varint_enc_val w) by done.
  by rewrite Heq.
Qed.

(** ** Strings *)

Definition string_enc (s : list Z) : list Z := varint_enc (len s) ++ s.

Lemma string_enc_bytes s : bytes_ok s -> bytes_ok (string_enc s).
Proof.
  intros. unfold string_enc. apply bytes_ok_app. split; [|done].
  apply varint_enc_bytes. lia.
Qed.

#[export] Hint Resolve le_bytes_ok varint_enc_bytes varint_enc_wf string_enc_bytes : cswp.
#[export] Hint Rewrite length_le_bytes @length_app @length_cons @length_nil : cswp_len.
