(* ===== verification/CswpTypes.v ===== *)
(** The constants and enumerations of [client/cdebug/include/cswp_types.h]:
    result codes, protocol versions, command identifiers, access sizes,
    capability bits and the fixed sizes of the NVSEC commands.  Enumerations
    that the code stores and dispatches on are inductive types with their C
    value; result codes are integers, because the code mixes them with the
    error codes received from the server. *)
From S2P Require Import Prelude.

(** ** Result codes ([cswp_result_t]) *)

Definition CSWP_SUCCESS : Z := 0x0000.
Definition CSWP_FAILED : Z := 0x0001.
Definition CSWP_CANCELLED : Z := 0x0002.
Definition CSWP_NOT_INITIALIZED : Z := 0x0003.
Definition CSWP_ASYNC_MSG_LOG : Z := 0x0004.
Definition CSWP_ASYNC_MSG_END : Z := 0x0005.
Definition CSWP_NVSEC_TOKEN_REQ_ERR : Z := 0x0006.
Definition CSWP_NVSEC_SIGNED_TOKEN_ERR : Z := 0x0007.
Definition CSWP_NVSEC_SIGNATURE_ERR : Z := 0x0008.
Definition CSWP_NVSEC_PUBLIC_KEY_ERR : Z := 0x0009.
Definition CSWP_BUFFER_FULL : Z := 0x0010.
Definition CSWP_BUFFER_EMPTY : Z := 0x0011.
Definition CSWP_OUTPUT_BUFFER_OVERFLOW : Z := 0x0012.
Definition CSWP_UNEXPECTED_RESPONSE : Z := 0x0013.
Definition CSWP_RESPONSE_SIZE_ERR : Z := 0x0014.
Definition CSWP_COMMS : Z := 0x0020.
Definition CSWP_INCOMPATIBLE : Z := 0x0021.
Definition CSWP_TIMEOUT : Z := 0x0022.
Definition CSWP_UNSUPPORTED : Z := 0x0023.
Definition CSWP_DEVICE_UNSUPPORTED : Z := 0x0024.
Definition CSWP_INVALID_DEVICE : Z := 0x0025.
Definition CSWP_BAD_ARGS : Z := 0x0026.
Definition CSWP_NOT_PERMITTED : Z := 0x0027.
Definition CSWP_REG_FAILED : Z := 0x0200.
Definition CSWP_REG_PARTIAL : Z := 0x0201.
Definition CSWP_MEM_FAILED : Z := 0x0300.
Definition CSWP_MEM_INVALID_ADDRESS : Z := 0x0301.
Definition CSWP_MEM_BAD_ACCESS_SIZE : Z := 0x0302.
Definition CSWP_MEM_POLL_NO_MATCH : Z := 0x0303.
Definition CSWP_TXFAILED : Z := 0xF000.

(** ** Command identifiers ([cswp_commands_t]) *)

Inductive cswp_commands_t :=
  | CSWP_NONE
  | CSWP_INIT | CSWP_TERM | CSWP_CLIENT_INFO | CSWP_SET_DEVICES
  | CSWP_GET_DEVICES | CSWP_GET_SYSTEM_DESCRIPTION
  | CSWP_DEVICE_OPEN | CSWP_DEVICE_CLOSE | CSWP_SET_CONFIG | CSWP_GET_CONFIG
  | CSWP_GET_DEVICE_CAPABILITIES
  | CSWP_REG_LIST | CSWP_REG_READ | CSWP_REG_WRITE
  | CSWP_MEM_READ | CSWP_MEM_WRITE | CSWP_MEM_POLL
  | CSWP_ASYNC_MESSAGE
  | CSWP_NVSEC_UNLOCK | CSWP_NVSEC_TOKEN | CSWP_NVSEC_VERIFY | CSWP_NVSEC_ENCRYPT
  | CSWP_IMPLEMENTATION_DEFINED_END.

#[export] Instance cswp_commands_t_eq_dec : EqDecision cswp_commands_t.
Proof. solve_decision. Defined.

Definition cmd_id (c : cswp_commands_t) : Z :=
  match c with
  | CSWP_NONE => 0x0
  | CSWP_INIT => 0x1
  | CSWP_TERM => 0x2
  | CSWP_CLIENT_INFO => 0x5
  | CSWP_SET_DEVICES => 0x10
  | CSWP_GET_DEVICES => 0x11
  | CSWP_GET_SYSTEM_DESCRIPTION => 0x12
  | CSWP_DEVICE_OPEN => 0x100
  | CSWP_DEVICE_CLOSE => 0x101
  | CSWP_SET_CONFIG => 0x102
  | CSWP_GET_CONFIG => 0x103
  | CSWP_GET_DEVICE_CAPABILITIES => 0x104
  | CSWP_REG_LIST => 0x200
  | CSWP_REG_READ => 0x201
  | CSWP_REG_WRITE => 0x202
  | CSWP_MEM_READ => 0x300
  | CSWP_MEM_WRITE => 0x301
  | CSWP_MEM_POLL => 0x302
  | CSWP_ASYNC_MESSAGE => 0x1000
  | CSWP_NVSEC_UNLOCK => 0x8000
  | CSWP_NVSEC_TOKEN => 0x8001
  | CSWP_NVSEC_VERIFY => 0x8002
  | CSWP_NVSEC_ENCRYPT => 0x8003
  | CSWP_IMPLEMENTATION_DEFINED_END => 0xFFFF
  end.

Lemma cmd_id_range c : 0 <= cmd_id c < 2 ^ 16.
Proof. destruct c; simpl; lia. Qed.

Lemma cmd_id_u64 c : is_u64 (cmd_id c).
Proof. unfold is_u64. pose proof (cmd_id_range c). lia. Qed.
#[export] Hint Resolve cmd_id_u64 : cswp.

Lemma cmd_id_inj c d : cmd_id c = cmd_id d -> c = d.
Proof. destruct c, d; simpl; intros; done || lia. Qed.

(** ** Protocol versions, sizes and flags *)

Definition CSWP_PROTOCOL_v1 : Z := 0x0000000100.
Definition CSWP_PROTOCOL_v2 : Z := 0x4E56000100.

Definition CSWP_NVSEC_NUM_TOKEN_REQ_BYTES : Z := 42.
Definition CSWP_NVSEC_NUM_SIGNED_TOKEN_BYTES : Z := 252.
Definition CSWP_NVSEC_SIGNATURE_STR_SIZE : Z := 129.
Definition CSWP_NVSEC_PUBLIC_KEY_STR_SIZES : Z := 1025.
Definition ASYNC_RAS_EVENT : Z := 0x1.
Definition ASYNC_DBG_PUTS : Z := 0x10000.

Inductive cswp_access_size_t :=
  | CSWP_ACCESS_SIZE_DEF | CSWP_ACCESS_SIZE_8 | CSWP_ACCESS_SIZE_16
  | CSWP_ACCESS_SIZE_32 | CSWP_ACCESS_SIZE_64.

#[export] Instance cswp_access_size_t_eq_dec : EqDecision cswp_access_size_t.
Proof. solve_decision. Defined.

Definition access_size_id (a : cswp_access_size_t) : Z :=
  match a with
  | CSWP_ACCESS_SIZE_DEF => 0
  | CSWP_ACCESS_SIZE_8 => 1
  | CSWP_ACCESS_SIZE_16 => 2
  | CSWP_ACCESS_SIZE_32 => 3
  | CSWP_ACCESS_SIZE_64 => 4
  end.

Definition CSWP_CAP_REG : Z := 0x1.
Definition CSWP_CAP_MEM : Z := 0x2.
Definition CSWP_CAP_MEM_POLL : Z := 0x200.
