(* ===== verification/MemapFlags.v ===== *)
(** The flags of a memory access ([client/cdebug/include/cswp_types.h], its last
    section): bits common to all targets, and the fields with which a MEM-AP
    access overrides the settings of the port.

    The macros are arithmetic on [int] and [unsigned]; an argument of the client
    functions is [unsigned], so the results are 32-bit words.  [0x3 << 30] is not
    an [int]: the mask is its conversion, as compilers have it. *)
From S2P Require Import Prelude.

Definition CSWP_MEM_NO_ADDR_INC : Z := Z.shiftl 1 0.
Definition CSWP_MEM_POLL_MATCH_NE : Z := Z.shiftl 1 1.
Definition CSWP_MEM_POLL_CHECK_LAST : Z := Z.shiftl 1 2.

Definition CSWP_MEMAP_OVERRIDE_INCR : Z := Z.shiftl 1 8.
Definition CSWP_MEMAP_OVERRIDE_PROT : Z := Z.shiftl 1 9.
Definition CSWP_MEMAP_OVERRIDE_MODE : Z := Z.shiftl 1 10.
Definition CSWP_MEMAP_OVERRIDE_TYPE : Z := Z.shiftl 1 11.
Definition CSWP_MEMAP_OVERRIDE_ERR : Z := Z.shiftl 1 12.
Definition CSWP_MEMAP_INCR_SHIFT : Z := 13.
Definition CSWP_MEMAP_INCR : Z := Z.shiftl 0x3 CSWP_MEMAP_INCR_SHIFT.
Definition CSWP_MEMAP_PROT_SHIFT : Z := 15.
Definition CSWP_MEMAP_PROT : Z := Z.shiftl 0x7F CSWP_MEMAP_PROT_SHIFT.
Definition CSWP_MEMAP_MODE_SHIFT : Z := 22.
Definition CSWP_MEMAP_MODE : Z := Z.shiftl 0xF CSWP_MEMAP_MODE_SHIFT.
Definition CSWP_MEMAP_TYPE_SHIFT : Z := 26.
Definition CSWP_MEMAP_TYPE : Z := Z.shiftl 0xF CSWP_MEMAP_TYPE_SHIFT.
Definition CSWP_MEMAP_ERR_SHIFT : Z := 30.
Definition CSWP_MEMAP_ERR : Z := u32 (Z.shiftl 0x3 CSWP_MEMAP_ERR_SHIFT).

(** The shape of the macros below. *)
Definition with_field (override shift mask x : Z) : Z :=
  Z.lor override (Z.land (u32 (Z.shiftl x shift)) mask).
Definition CSWP_MEMAP_WITH_INCR : Z -> Z :=
  with_field CSWP_MEMAP_OVERRIDE_INCR CSWP_MEMAP_INCR_SHIFT CSWP_MEMAP_INCR.
Definition CSWP_MEMAP_WITH_PROT : Z -> Z :=
  with_field CSWP_MEMAP_OVERRIDE_PROT CSWP_MEMAP_PROT_SHIFT CSWP_MEMAP_PROT.
Definition CSWP_MEMAP_WITH_MODE : Z -> Z :=
  with_field CSWP_MEMAP_OVERRIDE_MODE CSWP_MEMAP_MODE_SHIFT CSWP_MEMAP_MODE.
Definition CSWP_MEMAP_WITH_TYPE : Z -> Z :=
  with_field CSWP_MEMAP_OVERRIDE_TYPE CSWP_MEMAP_TYPE_SHIFT CSWP_MEMAP_TYPE.
Definition CSWP_MEMAP_WITH_ERR : Z -> Z :=
  with_field CSWP_MEMAP_OVERRIDE_ERR CSWP_MEMAP_ERR_SHIFT CSWP_MEMAP_ERR.

(** ** Fields are independent *)

(** What a target reads in a field of the flags. *)
Definition field_of (shift width flags : Z) : Z := Z.shiftr (Z.land flags (Z.shiftl (Z.ones width) shift)) shift.

Lemma field_of_lor shift width a b :
  field_of shift width (Z.lor a b) = Z.lor (field_of shift width a) (field_of shift width b).
Proof. unfold field_of. by rewrite Z.land_lor_distr_l, Z.shiftr_lor. Qed.

(** [override] is outside the field; a macro's field is the low bits of its
    argument. *)
Lemma field_own k shift width x :
  0 <= k < shift -> 0 <= width -> shift + width <= 32 ->
  field_of shift width (with_field (Z.shiftl 1 k) shift (Z.shiftl (Z.ones width) shift) x) = x mod 2 ^ width.
Proof.
  intros Hk Hw Hs. unfold field_of, with_field, u32. apply Z.bits_inj'. intros n Hn.
  rewrite Z.shiftr_spec, Z.land_spec, Z.lor_spec, Z.land_spec, !Z.shiftl_spec by lia.
  replace (n + shift - shift) with n by lia. rewrite Z.testbit_ones_nonneg by lia.
  destruct (Z.ltb_spec n width).
  - rewrite !Z.mod_pow2_bits_low by lia. rewrite Z.shiftl_spec by lia.
    replace (n + shift - shift) with n by lia.
    rewrite (Z.bits_above_log2 1) by (simpl; lia). by rewrite !andb_true_r.
  - rewrite (Z.mod_pow2_bits_high x) by lia. by rewrite andb_false_r.
Qed.

(** It does not touch the other fields. *)
Lemma field_other k shift width shift' width' x :
  0 <= k -> 0 <= shift -> 0 <= width -> 0 <= shift' -> 0 <= width' -> k < shift' \/ shift' + width' <= k ->
  shift + width <= shift' \/ shift' + width' <= shift ->
  field_of shift' width' (with_field (Z.shiftl 1 k) shift (Z.shiftl (Z.ones width) shift) x) = 0.
Proof.
  intros Hk H1 H2 H3 H4 Hk' Hd. unfold field_of, with_field, u32. apply Z.bits_inj'. intros n Hn.
  rewrite Z.bits_0, Z.shiftr_spec, Z.land_spec, Z.lor_spec, Z.land_spec, !(Z.shiftl_spec (Z.ones _)) by lia.
  replace (n + shift' - shift') with n by lia. rewrite (Z.testbit_ones_nonneg width') by lia.
  destruct (Z.ltb_spec n width'); [|by rewrite andb_false_r].
  rewrite (Z.shiftl_spec 1) by lia.
  assert (Z.testbit 1 (n + shift' - k) = false) as ->.
  { destruct Hk'; [apply (Z.bits_above_log2 1); simpl; lia|apply Z.testbit_neg_r; lia]. }
  rewrite (Z.testbit_ones width) by lia.
  destruct (Z.leb_spec 0 (n + shift' - shift)), (Z.ltb_spec (n + shift' - shift) width); try lia;
    by rewrite ?andb_false_r.
Qed.

(** The flags of an access that overrides every setting. *)
Definition memap_all (incr prot mode type err : Z) : Z :=
  Z.lor (CSWP_MEMAP_WITH_INCR incr) (Z.lor (CSWP_MEMAP_WITH_PROT prot)
    (Z.lor (CSWP_MEMAP_WITH_MODE mode) (Z.lor (CSWP_MEMAP_WITH_TYPE type) (CSWP_MEMAP_WITH_ERR err)))).

(** From the flags a target recovers every value as far as its field is wide,
    whatever the values are: a value that is too large is cut and does not
    spill into a field beside it. *)
Lemma memap_fields incr prot mode type err :
  let flags := memap_all incr prot mode type err in
  field_of CSWP_MEMAP_INCR_SHIFT 2 flags = incr mod 4 /\
  field_of CSWP_MEMAP_PROT_SHIFT 7 flags = prot mod 128 /\
  field_of CSWP_MEMAP_MODE_SHIFT 4 flags = mode mod 16 /\
  field_of CSWP_MEMAP_TYPE_SHIFT 4 flags = type mod 16 /\
  field_of CSWP_MEMAP_ERR_SHIFT 2 flags = err mod 4.
Proof.
  intros flags. unfold flags, memap_all. rewrite !field_of_lor.
  unfold CSWP_MEMAP_WITH_INCR, CSWP_MEMAP_WITH_PROT, CSWP_MEMAP_WITH_MODE, CSWP_MEMAP_WITH_TYPE, CSWP_MEMAP_WITH_ERR.
  change CSWP_MEMAP_INCR with (Z.shiftl (Z.ones 2) 13). change CSWP_MEMAP_PROT with (Z.shiftl (Z.ones 7) 15).
  change CSWP_MEMAP_MODE with (Z.shiftl (Z.ones 4) 22). change CSWP_MEMAP_TYPE with (Z.shiftl (Z.ones 4) 26).
  change CSWP_MEMAP_ERR with (Z.shiftl (Z.ones 2) 30).
  unfold CSWP_MEMAP_INCR_SHIFT, CSWP_MEMAP_PROT_SHIFT, CSWP_MEMAP_MODE_SHIFT, CSWP_MEMAP_TYPE_SHIFT, CSWP_MEMAP_ERR_SHIFT.
  unfold CSWP_MEMAP_OVERRIDE_INCR, CSWP_MEMAP_OVERRIDE_PROT, CSWP_MEMAP_OVERRIDE_MODE, CSWP_MEMAP_OVERRIDE_TYPE, CSWP_MEMAP_OVERRIDE_ERR.
  split_and!; repeat first [rewrite field_own by lia | rewrite field_other by lia];
    by rewrite ?Z.lor_0_l, ?Z.lor_0_r.
Qed.

(** A memory read of a MEM-AP without address increment, with its protection
    bits given. *)
Example memap_read : Z.lor CSWP_MEM_NO_ADDR_INC (CSWP_MEMAP_WITH_PROT 0x43) = 0x218201.
Proof. vm_compute. reflexivity. Qed.
