(* ===== verification/CswpBuffer.v ===== *)
(** The encoding buffer of [client/cdebug/cswp_buffer.c]: the [CSWP_BUFFER]
    record, its cursor operations, the [put] and [get] routines with their
    space checks, and the theorems that they implement the wire format of
    [Wire] without leaving the buffer. *)
From S2P Require Import Prelude Wire CswpTypes.

(** ** State *)

(** [buf] is the flexible array member: its length is what was allocated.  An
    access outside it is undefined behaviour ([None]). *)
Record CSWP_BUFFER := mkBuf {
  size : Z;
  used : Z;
  pos : Z;
  buf : list Z;
}.

Definition set_pos (p : Z) (b : CSWP_BUFFER) : CSWP_BUFFER :=
  mkBuf (size b) (used b) p (buf b).
Definition set_used (u : Z) (b : CSWP_BUFFER) : CSWP_BUFFER :=
  mkBuf (size b) u (pos b) (buf b).
Definition set_buf (l : list Z) (b : CSWP_BUFFER) : CSWP_BUFFER :=
  mkBuf (size b) (used b) (pos b) l.

Abbreviation BufM := (E CSWP_BUFFER).

(** [malloc] returns [mem], whose contents are not initialised, or fails. *)
Definition cswp_buffer_alloc (mem : option (list Z)) (sz : Z) : option CSWP_BUFFER :=
  match mem with
  | Some contents => Some (mkBuf sz 0 0 contents)
  | None => None
  end.

Definition cswp_buffer_clear (b : CSWP_BUFFER) : CSWP_BUFFER :=
  set_pos 0 (set_used 0 b).

Definition cswp_buffer_seek (p : Z) (b : CSWP_BUFFER) : CSWP_BUFFER :=
  set_pos p b.

Definition cswp_buffer_skip (count : Z) (b : CSWP_BUFFER) : CSWP_BUFFER :=
  set_pos (u64 (pos b + count)) b.

(** ** The macros *)

(** [size_t] subtractions wrap around. *)
Definition CSWP_REQUIRE_W (s : Z) : BufM unit := fun b =>
  if u64 (size b - used b) <? s then Some (Fail CSWP_BUFFER_FULL, b)
  else Some (Val tt, b).

Definition CSWP_REQUIRE_R (s : Z) : BufM unit := fun b =>
  if u64 (used b - pos b) <? s then Some (Fail CSWP_BUFFER_EMPTY, b)
  else Some (Val tt, b).

Definition CSWP_PUT_BYTE (v : Z) : BufM unit := fun b =>
  if decide (0 <= pos b < len (buf b)) then
    Some (Val tt, set_pos (u64 (pos b + 1)) (set_buf (<[Z.to_nat (pos b) := v]> (buf b)) b))
  else None.

Definition CSWP_GET_BYTE : BufM Z := fun b =>
  if decide (0 <= pos b < len (buf b)) then
    match buf b !! Z.to_nat (pos b) with
    | Some v => Some (Val v, set_pos (u64 (pos b + 1)) b)
    | None => None
    end
  else None.

(** [buf->used = buf->pos] *)
Definition used_is_pos : BufM unit := e_modify (fun b => set_used (pos b) b).

(** [memcpy(&buf->buf[buf->pos], src, |src|); buf->pos += |src|] *)
Definition copy_in (src : list Z) : BufM unit := fun b =>
  if decide (0 <= pos b /\ pos b + len src <= len (buf b)) then
    Some (Val tt, set_pos (u64 (pos b + len src))
                    (set_buf (splice (buf b) (Z.to_nat (pos b)) src) b))
  else None.

(** [memcpy(dst, &buf->buf[buf->pos], n)]: the bytes copied. *)
Definition copy_out (n : Z) : BufM (list Z) := fun b =>
  if decide (0 <= pos b /\ 0 <= n /\ pos b + n <= len (buf b)) then
    Some (Val (take (Z.to_nat n) (drop (Z.to_nat (pos b)) (buf b))), b)
  else None.

(** ** Encoding *)

Definition cswp_buffer_put_uint8 (val : Z) : BufM unit :=
  CSWP_REQUIRE_W 1;;
  CSWP_PUT_BYTE val;;
  used_is_pos.

Definition cswp_buffer_put_uint32 (val : Z) : BufM unit :=
  CSWP_REQUIRE_W 4;;
  CSWP_PUT_BYTE (u8 (Z.land val 0xFF));;
  CSWP_PUT_BYTE (u8 (Z.land (Z.shiftr val 8) 0xFF));;
  CSWP_PUT_BYTE (u8 (Z.land (Z.shiftr val 16) 0xFF));;
  CSWP_PUT_BYTE (u8 (Z.land (Z.shiftr val 24) 0xFF));;
  used_is_pos.

Definition cswp_buffer_put_uint64 (val : Z) : BufM unit :=
  CSWP_REQUIRE_W 8;;
  CSWP_PUT_BYTE (u8 (Z.land val 0xFF));;
  CSWP_PUT_BYTE (u8 (Z.land (Z.shiftr val 8) 0xFF));;
  CSWP_PUT_BYTE (u8 (Z.land (Z.shiftr val 16) 0xFF));;
  CSWP_PUT_BYTE (u8 (Z.land (Z.shiftr val 24) 0xFF));;
  CSWP_PUT_BYTE (u8 (Z.land (Z.shiftr val 32) 0xFF));;
  CSWP_PUT_BYTE (u8 (Z.land (Z.shiftr val 40) 0xFF));;
  CSWP_PUT_BYTE (u8 (Z.land (Z.shiftr val 48) 0xFF));;
  CSWP_PUT_BYTE (u8 (Z.land (Z.shiftr val 56) 0xFF));;
  used_is_pos.

(** Enough fuel for every loop over the groups of seven bits of a 64-bit value:
    [varint_space_enough], [put_varint_loop_writes] and [get_varint_loop_cases]
    show that it never runs out. *)
Definition VARINT_FUEL : nat := 11.

(** [for (tmp = val; tmp > 0x7F; tmp >>= 7) ++rq;] *)
Fixpoint varint_space (fuel : nat) (tmp rq : Z) : option Z :=
  match fuel with
  | O => None
  | S f => if 0x7F <? tmp then varint_space f (Z.shiftr tmp 7) (u64 (rq + 1))
           else Some rq
  end.

(** [while (val > 0x7F) { PUT_BYTE(0x80 | (val & 0x7F)); val >>= 7; }] and the
    last byte. *)
Fixpoint put_varint_loop (fuel : nat) (val : Z) : BufM unit :=
  match fuel with
  | O => e_ub
  | S f => if 0x7F <? val then
             CSWP_PUT_BYTE (u8 (Z.lor 0x80 (Z.land val 0x7F)));;
             put_varint_loop f (Z.shiftr val 7)
           else CSWP_PUT_BYTE (Z.land (u8 val) 0x7F)
  end.

Definition cswp_buffer_put_varint (val : Z) : BufM unit :=
  match varint_space VARINT_FUEL val 1 with
  | None => e_ub
  | Some rq =>
      CSWP_REQUIRE_W rq;;
      put_varint_loop VARINT_FUEL val;;
      used_is_pos
  end.

Definition cswp_buffer_put_string (str : list Z) : BufM unit :=
  cswp_buffer_put_varint (len str);;
  CSWP_REQUIRE_W (len str);;
  copy_in str;;
  used_is_pos.

(** [data] points at an object holding the bytes [data]; reading more than it
    holds is undefined. *)
Definition cswp_buffer_put_data (data : list Z) (sz : Z) : BufM unit :=
  CSWP_REQUIRE_W sz;;
  (if decide (0 <= sz <= len data) then copy_in (take (Z.to_nat sz) data) else e_ub);;
  used_is_pos.

(** ** Decoding

    A decoder returns what the C function stores through its output pointer;
    the C function stores nothing when it fails. *)

Definition cswp_buffer_get_uint8 : BufM Z :=
  CSWP_REQUIRE_R 1;;
  CSWP_GET_BYTE.

Definition cswp_buffer_get_uint32 : BufM Z :=
  CSWP_REQUIRE_R 4;;
  b0 ← CSWP_GET_BYTE;
  b1 ← CSWP_GET_BYTE;
  b2 ← CSWP_GET_BYTE;
  b3 ← CSWP_GET_BYTE;
  mret (Z.lor (Z.lor (Z.lor b0 (u32 (Z.shiftl b1 8)))
                     (u32 (Z.shiftl b2 16))) (u32 (Z.shiftl b3 24))).

Definition cswp_buffer_get_uint64 : BufM Z :=
  CSWP_REQUIRE_R 8;;
  b0 ← CSWP_GET_BYTE;
  b1 ← CSWP_GET_BYTE;
  b2 ← CSWP_GET_BYTE;
  b3 ← CSWP_GET_BYTE;
  b4 ← CSWP_GET_BYTE;
  b5 ← CSWP_GET_BYTE;
  b6 ← CSWP_GET_BYTE;
  b7 ← CSWP_GET_BYTE;
  mret (Z.lor (Z.lor (Z.lor (Z.lor (Z.lor (Z.lor (Z.lor b0
         (u64 (Z.shiftl b1 8))) (u64 (Z.shiftl b2 16))) (u64 (Z.shiftl b3 24)))
         (u64 (Z.shiftl b4 32))) (u64 (Z.shiftl b5 40))) (u64 (Z.shiftl b6 48)))
         (u64 (Z.shiftl b7 56))).

(** The loop of [cswp_buffer_get_varint] with its locals [v] and [s]; a 64-bit
    operand shifted by 64 or more is undefined. *)
Fixpoint get_varint_loop (fuel : nat) (v s : Z) : BufM Z :=
  match fuel with
  | O => e_ub
  | S f =>
      CSWP_REQUIRE_R 1;;
      b ← CSWP_GET_BYTE;
      if 64 <=? s then e_ub else
      let v' := Z.lor v (u64 (Z.shiftl (Z.land b 0x7F) s)) in
      if Z.land b 0x80 =? 0 then mret v' else get_varint_loop f v' (u32 (s + 7))
  end.

Definition cswp_buffer_get_varint : BufM Z := get_varint_loop VARINT_FUEL 0 0.

(** The bytes stored in [str], before the terminating NUL. *)
Definition cswp_buffer_get_string (strSize : Z) : BufM (list Z) :=
  length ← cswp_buffer_get_varint;
  CSWP_REQUIRE_R length;;
  if strSize <=? length then e_fail CSWP_OUTPUT_BUFFER_OVERFLOW else
  str ← copy_out length;
  e_modify (fun b => set_pos (u64 (pos b + length)) b);;
  mret str.

(** The pointer returned is the offset in [buf]. *)
Definition cswp_buffer_get_direct (length : Z) : BufM Z :=
  CSWP_REQUIRE_R length;;
  data ← e_gets pos;
  e_modify (fun b => set_pos (u64 (pos b + length)) b);;
  mret data.

Definition cswp_buffer_get_data (sz : Z) : BufM (list Z) :=
  CSWP_REQUIRE_R sz;;
  data ← copy_out sz;
  e_modify (fun b => set_pos (u64 (pos b + sz)) b);;
  mret data.

Example put_varint_300 :
  cswp_buffer_put_varint 300 (mkBuf 4 0 0 [0; 0; 0; 0]) =
    Some (Val tt, mkBuf 4 2 2 [172; 2; 0; 0]).
Proof. reflexivity. Qed.
Example get_varint_300 :
  cswp_buffer_get_varint (mkBuf 4 2 0 [172; 2; 0; 0]) =
    Some (Val 300, mkBuf 4 2 2 [172; 2; 0; 0]).
Proof. reflexivity. Qed.

(** ** Specification

    [buf_ok] is the well-formedness invariant; a buffer being written has its
    cursor at the end of its contents ([wr_ok]). *)

Definition room (b : CSWP_BUFFER) : Z := size b - used b.
Definition content (b : CSWP_BUFFER) : list Z := take (Z.to_nat (used b)) (buf b).
Definition unread (b : CSWP_BUFFER) : list Z := drop (Z.to_nat (pos b)) (content b).

Record buf_ok (b : CSWP_BUFFER) : Prop := {
  ok_pos : 0 <= pos b <= used b;
  ok_used : used b <= size b;
  ok_size : size b = len (buf b);
  ok_max : size b < 2 ^ 63;
}.

Definition wr_ok (b : CSWP_BUFFER) : Prop := buf_ok b /\ pos b = used b.

(** The bytes [bs] written at the cursor, before and after [used] is updated. *)
Definition raw_put (b : CSWP_BUFFER) (bs : list Z) : CSWP_BUFFER :=
  mkBuf (size b) (used b) (pos b + len bs) (splice (buf b) (Z.to_nat (pos b)) bs).
Definition append (b : CSWP_BUFFER) (bs : list Z) : CSWP_BUFFER :=
  mkBuf (size b) (used b + len bs) (used b + len bs)
        (splice (buf b) (Z.to_nat (used b)) bs).

(** [m] writes exactly the bytes [bs]: it appends them when they fit; when they
    do not, it fails with [CSWP_BUFFER_FULL] having appended a proper prefix. *)
Class Writes (m : BufM unit) (bs : list Z) : Prop :=
  writes : forall b, wr_ok b ->
    if decide (len bs <= room b) then m b = Some (Val tt, append b bs)
    else exists bs' bs'', bs = bs' ++ bs'' /\ bs'' <> [] /\ len bs' <= room b /\
         m b = Some (Fail CSWP_BUFFER_FULL, append b bs').

(** [m] decodes the bytes [bs] as [a], whatever follows them. *)
Class Reads {A} (m : BufM A) (bs : list Z) (a : A) : Prop :=
  reads : forall b rest, buf_ok b -> unread b = bs ++ rest ->
    m b = Some (Val a, set_pos (pos b + len bs) b).

(** ** Writing *)

Lemma wr_ok_append b bs : wr_ok b -> len bs <= room b -> wr_ok (append b bs).
Proof.
  intros [[? ? ? ?] Hp] Hl. unfold room in Hl. repeat split; simpl; try lia.
  rewrite length_splice; lia.
Qed.

Lemma append_nil b : wr_ok b -> append b [] = b.
Proof.
  intros [_ Hp]. destruct b. unfold append. simpl in *. rewrite splice_nil, Z.add_0_r.
  by subst.
Qed.

Lemma append_append b bs1 bs2 :
  wr_ok b -> len bs1 + len bs2 <= room b ->
  append (append b bs1) bs2 = append b (bs1 ++ bs2).
Proof.
  intros [[? ? ? ?] Hp] Hl. unfold room, append in *. simpl.
  rewrite length_app. f_equal; try lia.
  rewrite <- splice_splice by lia. f_equal. lia.
Qed.

Lemma room_append b bs : room (append b bs) = room b - len bs.
Proof. unfold room. simpl. lia. Qed.

(** Appending extends the contents, and leaves the bytes below alone. *)
Lemma content_append b bs :
  wr_ok b -> len bs <= room b -> content (append b bs) = content b ++ bs.
Proof.
  intros [[? ? ? ?] Hp] Hl. unfold room, content in *. simpl.
  rewrite Z2Nat.inj_add, Nat2Z.id by lia. apply take_splice. lia.
Qed.

Section raw.
Implicit Types b : CSWP_BUFFER.

Definition RawPuts (m : BufM unit) (bs : list Z) : Prop :=
  forall b, 0 <= pos b -> pos b + len bs <= len (buf b) -> len (buf b) < 2 ^ 63 ->
    m b = Some (Val tt, raw_put b bs).

Lemma raw_put_byte v : RawPuts (CSWP_PUT_BYTE v) [v].
Proof.
  intros b ? Hl ?. simpl in Hl. unfold CSWP_PUT_BYTE.
  rewrite decide_True by lia. unfold raw_put, set_pos, set_buf; simpl.
  rewrite u64_small by lia. rewrite insert_splice by lia. done.
Qed.

Lemma raw_put_app b bs1 bs2 :
  0 <= pos b -> pos b + len bs1 + len bs2 <= len (buf b) ->
  raw_put (raw_put b bs1) bs2 = raw_put b (bs1 ++ bs2).
Proof.
  intros. unfold raw_put; simpl. rewrite length_app. f_equal; [lia|].
  rewrite <- splice_splice by lia. f_equal. lia.
Qed.

Lemma raw_put_copy src : RawPuts (copy_in src) src.
Proof.
  intros b ? ? ?. unfold copy_in. rewrite decide_True by lia.
  unfold raw_put, set_pos, set_buf; simpl. rewrite u64_small by lia. done.
Qed.

Lemma raw_put_seq m1 m2 bs1 bs2 :
  RawPuts m1 bs1 -> RawPuts m2 bs2 -> RawPuts (m1;; m2) (bs1 ++ bs2).
Proof.
  intros H1 H2 b Hp Hl Hm. rewrite length_app in Hl.
  rewrite (E_bind_val _ _ _ tt (raw_put b bs1)) by (apply H1; lia).
  rewrite H2; simpl; try rewrite length_splice; try lia.
  by rewrite raw_put_app by lia.
Qed.

(** [m] writes [bs] at the cursor and then sets [used] to the cursor. *)
Definition PutsAll (m : BufM unit) (bs : list Z) : Prop :=
  forall b, 0 <= pos b -> pos b + len bs <= len (buf b) -> len (buf b) < 2 ^ 63 ->
    m b = Some (Val tt, set_used (pos b + len bs) (raw_put b bs)).

Lemma puts_all_end : PutsAll used_is_pos [].
Proof.
  intros b ? ? ?. unfold used_is_pos, e_modify, raw_put, set_used; simpl.
  by rewrite splice_nil, Z.add_0_r.
Qed.

Lemma puts_all_seq m1 m2 bs1 bs2 :
  RawPuts m1 bs1 -> PutsAll m2 bs2 -> PutsAll (m1;; m2) (bs1 ++ bs2).
Proof.
  intros H1 H2 b Hp Hl Hm. rewrite length_app in Hl.
  rewrite (E_bind_val _ _ _ tt (raw_put b bs1)) by (apply H1; lia).
  rewrite H2; simpl; try rewrite length_splice; try lia.
  rewrite raw_put_app by lia. rewrite length_app. do 3 f_equal. lia.
Qed.

Lemma puts_all_cons v m bs :
  PutsAll m bs -> PutsAll (CSWP_PUT_BYTE v;; m) (v :: bs).
Proof. intros. apply (puts_all_seq _ _ [v] bs); auto using raw_put_byte. Qed.

Lemma puts_all_last m bs : RawPuts m bs -> PutsAll (m;; used_is_pos) bs.
Proof.
  intros. rewrite <- (app_nil_r bs). auto using puts_all_seq, puts_all_end.
Qed.

Lemma require_w_ok b rq :
  buf_ok b -> 0 <= rq <= room b -> CSWP_REQUIRE_W rq b = Some (Val tt, b).
Proof.
  intros [? ? ? ?] ?. unfold CSWP_REQUIRE_W, room in *. rewrite u64_small by lia.
  destruct (Z.ltb_spec (size b - used b) rq); [lia|done].
Qed.

Lemma require_w_full b rq :
  buf_ok b -> room b < rq -> CSWP_REQUIRE_W rq b = Some (Fail CSWP_BUFFER_FULL, b).
Proof.
  intros [? ? ? ?] ?. unfold CSWP_REQUIRE_W, room in *. rewrite u64_small by lia.
  destruct (Z.ltb_spec (size b - used b) rq); [done|lia].
Qed.

(** A space check for [|bs|] bytes, then [bs] and the update of [used]. *)
Lemma checked_puts_writes rq m bs :
  rq = len bs -> PutsAll m bs -> Writes (CSWP_REQUIRE_W rq;; m) bs.
Proof.
  intros -> Hm b Hw. pose proof Hw as [Hb Hp]. pose proof Hb as [? ? ? ?].
  case_decide as Hd.
  - rewrite (E_bind_val _ _ _ tt b) by (apply require_w_ok; [done|lia]).
    unfold room in Hd. rewrite Hm by lia.
    unfold raw_put, append, set_used; simpl. by rewrite Hp.
  - exists [], bs. repeat split.
    + intros ->. apply Hd. unfold room. simpl. lia.
    + unfold room. simpl. lia.
    + apply E_bind_fail. rewrite append_nil by done. apply require_w_full; [done|lia].
Qed.
End raw.

#[export] Instance writes_put_uint8 v : Writes (cswp_buffer_put_uint8 v) [v].
Proof. apply checked_puts_writes; [done|]. apply puts_all_cons, puts_all_end. Qed.

(** The bytes of an integer as the C code computes them. *)
Lemma le_bytes_eq n v :
  le_bytes n v = (fun i => u8 (Z.land (Z.shiftr v (8 * Z.of_nat i)) 255)) <$> seq 0 n.
Proof.
  revert v. induction n as [|n IH]; intros v; [done|]. simpl. f_equal.
  - rewrite Z.shiftr_0_r, land_255. symmetry. apply u8_small, Z.mod_pos_bound. lia.
  - rewrite IH, <- fmap_S_seq, <- list_fmap_compose. apply list_fmap_ext.
    intros i ? _. simpl. do 2 f_equal.
    change 256 with (2 ^ 8). rewrite <- Z.shiftr_div_pow2, Z.shiftr_shiftr by lia.
    f_equal. lia.
Qed.

Local Ltac prove_le_writes :=
  rewrite le_bytes_eq; apply checked_puts_writes; [reflexivity|];
  cbn [seq fmap list_fmap]; repeat apply puts_all_cons; apply puts_all_end.

#[export] Instance writes_put_uint32 v : Writes (cswp_buffer_put_uint32 v) (le_bytes 4 v).
Proof. prove_le_writes. Qed.

#[export] Instance writes_put_uint64 v : Writes (cswp_buffer_put_uint64 v) (le_bytes 8 v).
Proof. prove_le_writes. Qed.

(** The space loop counts the bytes of the encoding. *)
Lemma varint_space_enough f v rq :
  0 <= v < 128 ^ (Z.of_nat f + 1) -> 0 <= rq -> rq + Z.of_nat f < 2 ^ 63 ->
  varint_space (S f) v rq = Some (rq - 1 + len (varint_bytes f v)).
Proof.
  revert v rq. induction f as [|f IH]; intros v rq Hv Hrq Hf.
  - simpl in *. destruct (Z.ltb_spec 127 v); [lia|]. f_equal. lia.
  - change (varint_space (S (S f)) v rq) with
      (if 127 <? v then varint_space (S f) (Z.shiftr v 7) (u64 (rq + 1)) else Some rq).
    simpl varint_bytes. destruct (Z.ltb_spec 127 v); simpl length; [|f_equal; lia].
    rewrite shiftr_7, u64_small, IH by (apply varint_fuel_step || lia; done). f_equal. lia.
Qed.

Lemma put_varint_loop_writes f v :
  0 <= v < 128 ^ (Z.of_nat f + 1) ->
  RawPuts (put_varint_loop (S f) v) (varint_bytes f v).
Proof.
  revert v. induction f as [|f IH]; intros v Hv.
  - simpl in *. destruct (Z.ltb_spec 127 v); [lia|].
    rewrite u8_small, land_127 by lia. apply raw_put_byte.
  - change (put_varint_loop (S (S f)) v) with
      (if 127 <? v then CSWP_PUT_BYTE (u8 (Z.lor 128 (Z.land v 127)));;
                        put_varint_loop (S f) (Z.shiftr v 7)
       else CSWP_PUT_BYTE (Z.land (u8 v) 127)).
    simpl varint_bytes. destruct (Z.ltb_spec 127 v).
    + rewrite land_127, shiftr_7. pose proof (Z.mod_pos_bound v 128).
      rewrite lor_128, u8_small by lia.
      apply (raw_put_seq _ _ [_] (varint_bytes f (v / 128))).
      * apply raw_put_byte.
      * apply IH. by apply varint_fuel_step.
    + rewrite u8_small, land_127 by lia. apply raw_put_byte.
Qed.

(** The extra unit of fuel changes nothing. *)
Lemma varint_bytes_fuel f v :
  0 <= v < 128 ^ (Z.of_nat f + 1) -> varint_bytes (S f) v = varint_bytes f v.
Proof.
  revert v. induction f as [|f IH]; intros v Hv.
  - simpl in *. destruct (Z.ltb_spec 127 v); [lia|done].
  - change (varint_bytes (S (S f)) v) with
      (if 127 <? v then (v mod 128 + 128) :: varint_bytes (S f) (v / 128) else [v mod 128]).
    rewrite IH by (by apply varint_fuel_step). done.
Qed.

Lemma u64_varint_range v : is_u64 v -> 0 <= v < 128 ^ (Z.of_nat 9 + 1).
Proof.
  unfold is_u64. assert (2 ^ 64 < 128 ^ (Z.of_nat 9 + 1)) by (vm_compute; done). lia.
Qed.

#[export] Instance writes_put_varint v :
  is_u64 v -> Writes (cswp_buffer_put_varint v) (varint_enc v).
Proof.
  intros Hv%u64_varint_range. unfold cswp_buffer_put_varint, VARINT_FUEL, varint_enc.
  assert (Hv' : 0 <= v < 128 ^ (Z.of_nat 10 + 1)).
  { split; [lia|]. eapply Z.lt_trans; [apply Hv|vm_compute; done]. }
  rewrite (varint_space_enough 10) by (done || lia).
  rewrite (varint_bytes_fuel 9) by done.
  apply checked_puts_writes; [lia|]. apply puts_all_last.
  rewrite <- (varint_bytes_fuel 9) by done. by apply put_varint_loop_writes.
Qed.

#[export] Instance writes_put_data data sz :
  0 <= sz <= len data -> Writes (cswp_buffer_put_data data sz) (take (Z.to_nat sz) data).
Proof.
  intros Hsz. unfold cswp_buffer_put_data. rewrite decide_True by done.
  apply checked_puts_writes; [rewrite length_take; lia|].
  apply puts_all_last, raw_put_copy.
Qed.

(** Writers compose: the bytes of a sequence are concatenated, and a failure
    leaves a proper prefix of them. *)
#[export] Instance writes_seq m1 m2 bs1 bs2 :
  Writes m1 bs1 -> Writes m2 bs2 -> Writes (m1;; m2) (bs1 ++ bs2).
Proof.
  intros H1 H2 b Hw. specialize (H1 b Hw). rewrite length_app.
  destruct (decide (len bs1 <= room b)) as [Hl1|Hl1].
  - specialize (H2 (append b bs1) (wr_ok_append _ _ Hw Hl1)). rewrite room_append in H2.
    rewrite (E_bind_val _ _ _ _ _ H1).
    destruct (decide (len bs2 <= room b - len bs1)) as [Hl2|Hl2].
    + rewrite decide_True by lia. by rewrite H2, append_append by (done || lia).
    + rewrite decide_False by lia. destruct H2 as (p & q & -> & Hq & Hp & ->).
      exists (bs1 ++ p), q. rewrite <- app_assoc, length_app. repeat split; auto; [lia|].
      rewrite append_append by (done || lia). done.
  - destruct H1 as (p & q & -> & Hq & Hp & H1).
    rewrite length_app in Hl1. rewrite decide_False by (rewrite length_app; lia).
    exists p, (q ++ bs2). rewrite app_assoc. repeat split; auto.
    + destruct q; naive_solver.
    + by apply E_bind_fail.
Qed.

Lemma writes_ret : Writes (mret tt) [].
Proof.
  intros b Hw. pose proof Hw as [[? ? ? ?] _]. unfold room. simpl.
  rewrite decide_True by lia. by rewrite append_nil.
Qed.
#[export] Existing Instance writes_ret.

Lemma writes_equiv m m' bs :
  (forall b, m b = m' b) -> Writes m bs -> Writes m' bs.
Proof. intros He Hw b Hb. rewrite <- He. by apply Hw. Qed.

#[export] Instance writes_put_string str :
  len str < 2 ^ 63 -> Writes (cswp_buffer_put_string str) (string_enc str).
Proof.
  intros. unfold cswp_buffer_put_string, string_enc. apply writes_seq.
  - apply writes_put_varint. unfold is_u64. lia.
  - apply checked_puts_writes; [done|]. apply puts_all_last, raw_put_copy.
Qed.

(** ** Reading *)

Definition same_data (b b' : CSWP_BUFFER) : Prop :=
  size b' = size b /\ used b' = used b /\ buf b' = buf b.

Lemma len_unread b : buf_ok b -> len (unread b) = used b - pos b.
Proof.
  intros [? ? ? ?]. unfold unread, content. rewrite length_drop, length_take. lia.
Qed.

Lemma buf_ok_seek b p : buf_ok b -> 0 <= p <= used b -> buf_ok (set_pos p b).
Proof. intros [? ? ? ?] ?. by constructor. Qed.

Section advance.
Context (b : CSWP_BUFFER) (bs rest : list Z) (Hok : buf_ok b).
Context (Hun : unread b = bs ++ rest).

Lemma advance_bound : pos b + len bs <= used b.
Proof. pose proof (len_unread b Hok) as Hl. rewrite Hun, length_app in Hl. lia. Qed.

Lemma advance_ok : buf_ok (set_pos (pos b + len bs) b).
Proof. pose proof advance_bound. destruct Hok. apply buf_ok_seek; [done|lia]. Qed.

Lemma advance_unread : unread (set_pos (pos b + len bs) b) = rest.
Proof.
  destruct Hok. unfold unread in *. change (content (set_pos _ b)) with (content b).
  simpl. rewrite Z2Nat.inj_add, Nat2Z.id, <- drop_drop, Hun by lia.
  by rewrite drop_app_length.
Qed.
End advance.

Lemma require_r_ok b rq :
  buf_ok b -> rq <= len (unread b) -> CSWP_REQUIRE_R rq b = Some (Val tt, b).
Proof.
  intros Hb. pose proof Hb as [? ? ? ?]. rewrite len_unread by done. intros.
  unfold CSWP_REQUIRE_R. rewrite u64_small by lia.
  destruct (Z.ltb_spec (used b - pos b) rq); [lia|done].
Qed.

Lemma require_r_empty b rq :
  buf_ok b -> len (unread b) < rq ->
  CSWP_REQUIRE_R rq b = Some (Fail CSWP_BUFFER_EMPTY, b).
Proof.
  intros Hb. pose proof Hb as [? ? ? ?]. rewrite len_unread by done. intros.
  unfold CSWP_REQUIRE_R. rewrite u64_small by lia.
  destruct (Z.ltb_spec (used b - pos b) rq); [done|lia].
Qed.

#[export] Instance reads_get_byte x : Reads CSWP_GET_BYTE [x] x.
Proof.
  intros b rest Hb Hu. pose proof (advance_bound b [x] rest Hb Hu) as Hl.
  pose proof Hb as [? ? ? ?]. simpl in Hl.
  assert (Hx : unread b !! 0%nat = Some x) by (by rewrite Hu).
  unfold unread, content in Hx. rewrite lookup_drop, lookup_take in Hx.
  case_decide as Hd; [|done]. rewrite Nat.add_0_r in Hx.
  unfold CSWP_GET_BYTE. rewrite decide_True, Hx, u64_small by lia. done.
Qed.

#[export] Instance reads_bind {A C} (m : BufM A) (f : A -> BufM C) bs1 bs2 a c :
  Reads m bs1 a -> Reads (f a) bs2 c -> Reads (m ≫= f) (bs1 ++ bs2) c.
Proof.
  intros H1 H2 b rest Hb Hu. rewrite <- app_assoc in Hu.
  rewrite (E_bind_val _ _ _ _ _ (H1 b _ Hb Hu)).
  rewrite (H2 _ rest (advance_ok b bs1 _ Hb Hu) (advance_unread b bs1 _ Hb Hu)).
  unfold set_pos. simpl. rewrite length_app. do 3 f_equal. lia.
Qed.

#[export] Instance reads_ret {A} (a : A) : Reads (mret a) [] a.
Proof.
  intros b rest _ _. destruct b. unfold set_pos; simpl. by rewrite Z.add_0_r.
Qed.

Lemma reads_map {A C} (m : BufM A) (g : A -> C) bs a :
  Reads m bs a -> Reads (x ← m; mret (g x)) bs (g a).
Proof.
  intros. rewrite <- (app_nil_r bs). eapply reads_bind; [done|apply reads_ret].
Qed.

Lemma reads_cons {C} x (f : Z -> BufM C) bs c :
  Reads (f x) bs c -> Reads (CSWP_GET_BYTE ≫= f) (x :: bs) c.
Proof. intros. apply (reads_bind _ f [x] bs x c); [apply reads_get_byte|done]. Qed.

Lemma reads_require {A} rq (m : BufM A) bs a :
  rq <= len bs -> Reads m bs a -> Reads (CSWP_REQUIRE_R rq;; m) bs a.
Proof.
  intros Hr Hm b rest Hb Hu. rewrite (E_bind_val _ _ _ tt b); [by apply (Hm b rest)|].
  apply require_r_ok; [done|]. rewrite Hu, length_app. lia.
Qed.

Lemma reads_equiv {A} (m : BufM A) bs bs' a a' :
  bs = bs' -> a = a' -> Reads m bs a -> Reads m bs' a'.
Proof. by intros -> ->. Qed.

#[export] Instance reads_get_uint8 x : Reads cswp_buffer_get_uint8 [x] x.
Proof. apply reads_require; [done|]. apply reads_get_byte. Qed.

Lemma u32_shiftl_byte b n : is_byte b -> 0 <= n <= 24 -> u32 (Z.shiftl b n) = Z.shiftl b n.
Proof.
  unfold is_byte. intros. apply u32_small. rewrite Z.shiftl_mul_pow2 by lia.
  assert (2 ^ n <= 2 ^ 24) by (apply Z.pow_le_mono_r; lia). nia.
Qed.
Lemma u64_shiftl_byte b n : is_byte b -> 0 <= n <= 56 -> u64 (Z.shiftl b n) = Z.shiftl b n.
Proof.
  unfold is_byte. intros. apply u64_small. rewrite Z.shiftl_mul_pow2 by lia.
  assert (2 ^ n <= 2 ^ 56) by (apply Z.pow_le_mono_r; lia). nia.
Qed.

Lemma reads_uint32_bytes l :
  length l = 4%nat -> bytes_ok l -> Reads cswp_buffer_get_uint32 l (le_val l).
Proof.
  intros Hl Hb. destruct l as [|b0 [|b1 [|b2 [|b3 [|]]]]]; try done.
  decompose_Forall. apply reads_require; [done|]. do 4 apply reads_cons.
  rewrite !u32_shiftl_byte by (done || lia). unfold is_byte in *.
  lor_fields.
  eapply reads_equiv, reads_ret; [done|]. simpl. lia.
Qed.

Lemma reads_uint64_bytes l :
  length l = 8%nat -> bytes_ok l -> Reads cswp_buffer_get_uint64 l (le_val l).
Proof.
  intros Hl Hb. destruct l as [|b0 [|b1 [|b2 [|b3 [|b4 [|b5 [|b6 [|b7 [|]]]]]]]]]; try done.
  decompose_Forall. apply reads_require; [done|]. do 8 apply reads_cons.
  rewrite !u64_shiftl_byte by (done || lia). unfold is_byte in *.
  lor_fields.
  eapply reads_equiv, reads_ret; [done|]. simpl. lia.
Qed.

#[export] Instance reads_get_uint32 v :
  is_u32 v -> Reads cswp_buffer_get_uint32 (le_bytes 4 v) v.
Proof.
  intros Hv. eapply reads_equiv, reads_uint32_bytes; auto using length_le_bytes, le_bytes_ok.
  rewrite le_val_bytes. apply Z.mod_small. done.
Qed.

#[export] Instance reads_get_uint64 v :
  is_u64 v -> Reads cswp_buffer_get_uint64 (le_bytes 8 v) v.
Proof.
  intros Hv. eapply reads_equiv, reads_uint64_bytes; auto using length_le_bytes, le_bytes_ok.
  rewrite le_val_bytes. apply Z.mod_small. done.
Qed.

(** The step equation of the loop of [cswp_buffer_get_varint]. *)
Lemma get_varint_step f v s x b rest :
  buf_ok b -> unread b = x :: rest -> is_byte x -> 0 <= s < 64 -> 0 <= v < 2 ^ s ->
  get_varint_loop (S f) v s b =
    (if x <? 128 then Some (Val (u64 (v + x mod 128 * 2 ^ s)), set_pos (pos b + 1) b)
     else get_varint_loop f (u64 (v + x mod 128 * 2 ^ s)) (s + 7) (set_pos (pos b + 1) b)).
Proof.
  intros Hb Hu Hx Hs Hv. simpl.
  rewrite (E_bind_val _ _ _ tt b) by (apply require_r_ok; [done|rewrite Hu; simpl; lia]).
  rewrite (E_bind_val _ _ _ _ _ (reads_get_byte x b rest Hb Hu)).
  destruct (Z.leb_spec 64 s); [lia|].
  rewrite land_127, lor_shiftl_u64, u32_small, land_128 by (done || lia).
  by destruct (Z.ltb_spec x 128).
Qed.

(** A group of bits fits above the ones already read. *)
Lemma group_fits v x s :
  0 <= s -> s + 7 < 64 -> 0 <= v < 2 ^ s -> 0 <= v + x mod 128 * 2 ^ s < 2 ^ (s + 7) /\
  u64 (v + x mod 128 * 2 ^ s) = v + x mod 128 * 2 ^ s.
Proof.
  intros ? ? ?. pose proof (Z.mod_pos_bound x 128).
  assert (2 ^ (s + 7) = 2 ^ s * 128) by (rewrite Z.pow_add_r by lia; done).
  assert (2 ^ (s + 7) <= 2 ^ 64) by (apply Z.pow_le_mono_r; lia).
  split; [nia|]. apply u64_small. nia.
Qed.

(** The bytes the loop looks at are bytes. *)
Definition scanned_ok (k : nat) (l : list Z) : Prop :=
  match scan_varint k l with ScanVal p => bytes_ok p | _ => bytes_ok l end.

Lemma scanned_ok_bytes k l : bytes_ok l -> scanned_ok k l.
Proof.
  intros Hl. unfold scanned_ok. destruct (scan_varint k l) eqn:Hs; [|done|done].
  apply is_varint_bytes. by eapply scan_varint_val.
Qed.

Lemma scanned_ok_inv k x l :
  scanned_ok (S k) (x :: l) -> is_byte x /\ (128 <= x -> scanned_ok k l).
Proof.
  unfold scanned_ok. simpl. destruct (Z.ltb_spec x 128).
  - intros Hx%Forall_inv. split; [done|lia].
  - destruct (scan_varint k l); inversion 1; auto.
Qed.

(** What the loop does with [k] more bytes to read before the shift reaches 70. *)
Lemma get_varint_loop_cases k : forall v s b,
  buf_ok b -> scanned_ok k (unread b) -> s = 70 - 7 * Z.of_nat k -> 0 <= s ->
  0 <= v < 2 ^ s ->
  get_varint_loop (S k) v s b =
    match scan_varint k (unread b) with
    | ScanVal p => Some (Val (u64 (v + varint_val p * 2 ^ s)), set_pos (pos b + len p) b)
    | ScanEmpty => Some (Fail CSWP_BUFFER_EMPTY, set_pos (used b) b)
    | ScanOverlong => None
    end.
Proof.
  induction k as [|k IH]; intros v s b Hb Hby Hs Hs0 Hv;
    destruct (unread b) as [|x rest] eqn:Hu.
  1, 3: apply E_bind_fail; rewrite require_r_empty by (done || (rewrite Hu; simpl; lia));
    pose proof (len_unread b Hb) as Hl; rewrite Hu in Hl; simpl in Hl;
    destruct b; unfold set_pos; simpl in *; do 3 f_equal; lia.
  - simpl. rewrite (E_bind_val _ _ _ tt b) by (apply require_r_ok; [done|rewrite Hu; simpl; lia]).
    rewrite (E_bind_val _ _ _ _ _ (reads_get_byte x b rest Hb Hu)).
    destruct (Z.leb_spec 64 s); [done|lia].
  - destruct (scanned_ok_inv _ _ _ Hby) as [Hx Hrest].
    rewrite (get_varint_step (S k) v s x b rest) by (done || lia).
    pose proof (advance_ok b [x] rest Hb Hu) as Hb'.
    pose proof (advance_unread b [x] rest Hb Hu) as Hu'.
    change (len [x]) with 1 in Hb', Hu'. unfold is_byte in Hx. simpl scan_varint.
    destruct (Z.ltb_spec x 128); [simpl; by rewrite Z.add_0_r|].
    assert (Hv' : 0 <= u64 (v + x mod 128 * 2 ^ s) < 2 ^ (s + 7)).
    { destruct (decide (s + 7 < 64)); [by rewrite (proj2 (group_fits v x s ltac:(lia) ltac:(lia) Hv)); apply group_fits|].
      pose proof (u64_range (v + x mod 128 * 2 ^ s)) as Hr. unfold is_u64 in Hr.
      assert (2 ^ 64 <= 2 ^ (s + 7)) by (apply Z.pow_le_mono_r; lia). lia. }
    rewrite (IH _ _ _ Hb') by (rewrite ?Hu'; auto || lia). rewrite Hu'.
    destruct (scan_varint k rest) as [p| |] eqn:Hscan; [|done|done].
    unfold set_pos; simpl. do 3 f_equal; [|lia].
    destruct k as [|k]; [by destruct rest|].
    rewrite (proj2 (group_fits v x s ltac:(lia) ltac:(lia) Hv)).
    f_equal. rewrite Z.pow_add_r by lia. lia.
Qed.

Lemma get_varint_eq b :
  buf_ok b -> scanned_ok 10 (unread b) ->
  cswp_buffer_get_varint b =
    match scan_varint 10 (unread b) with
    | ScanVal p => Some (Val (u64 (varint_val p)), set_pos (pos b + len p) b)
    | ScanEmpty => Some (Fail CSWP_BUFFER_EMPTY, set_pos (used b) b)
    | ScanOverlong => None
    end.
Proof.
  intros. unfold cswp_buffer_get_varint, VARINT_FUEL.
  rewrite (get_varint_loop_cases 10) by (done || lia).
  destruct (scan_varint 10 (unread b)); [|done|done]. do 4 f_equal. lia.
Qed.

(** Any varint of at most ten bytes is read; bits above the 64th are lost. *)
Lemma reads_varint_bytes l :
  is_varint l -> (length l <= 10)%nat ->
  Reads cswp_buffer_get_varint l (u64 (varint_val l)).
Proof.
  intros Hl Hlen b rest Hb Hu.
  pose proof (scan_varint_app 10 l rest Hl Hlen) as Hs. rewrite <- Hu in Hs.
  rewrite get_varint_eq by (unfold scanned_ok; rewrite ?Hs; auto using is_varint_bytes).
  by rewrite Hs.
Qed.

#[export] Instance reads_get_varint v :
  is_u64 v -> Reads cswp_buffer_get_varint (varint_enc v) v.
Proof.
  intros Hv. eapply reads_equiv, reads_varint_bytes.
  - done.
  - rewrite varint_enc_val by done. apply u64_small, Hv.
  - apply varint_enc_wf. unfold is_u64 in Hv. lia.
  - pose proof (varint_enc_length v). lia.
Qed.

Lemma copy_out_reads b bs rest :
  buf_ok b -> unread b = bs ++ rest -> copy_out (len bs) b = Some (Val bs, b).
Proof.
  intros Hb Hu. pose proof (advance_bound b bs rest Hb Hu). pose proof Hb as [? ? ? ?].
  unfold copy_out. rewrite decide_True by lia. do 3 f_equal.
  unfold unread, content in Hu. rewrite Nat2Z.id.
  replace (buf b) with (take (Z.to_nat (used b)) (buf b) ++ drop (Z.to_nat (used b)) (buf b))
    by apply take_drop.
  rewrite drop_app_le by (rewrite length_take; lia).
  by rewrite Hu, <- app_assoc, take_app_length.
Qed.

(** The three readers that move the cursor by a size. *)
Lemma skip_in_bounds b bs rest :
  buf_ok b -> unread b = bs ++ rest -> u64 (pos b + len bs) = pos b + len bs.
Proof.
  intros Hb Hu. pose proof (advance_bound b bs rest Hb Hu). destruct Hb.
  apply u64_small. lia.
Qed.

#[export] Instance reads_get_data bs : Reads (cswp_buffer_get_data (len bs)) bs bs.
Proof.
  apply reads_require; [lia|]. intros b rest Hb Hu.
  rewrite (E_bind_val _ _ _ _ _ (copy_out_reads b bs rest Hb Hu)).
  unfold e_modify, mbind, E_bind, mret, E_ret. by rewrite (skip_in_bounds b bs rest).
Qed.

Lemma get_direct_reads b bs rest :
  buf_ok b -> unread b = bs ++ rest ->
  cswp_buffer_get_direct (len bs) b = Some (Val (pos b), set_pos (pos b + len bs) b).
Proof.
  intros Hb Hu. unfold cswp_buffer_get_direct.
  rewrite (E_bind_val _ _ _ tt b)
    by (apply require_r_ok; [done|rewrite Hu, length_app; lia]).
  unfold e_gets, e_modify, mbind, E_bind, mret, E_ret. by rewrite (skip_in_bounds b bs rest).
Qed.

(** A string is read when its length leaves room for the NUL. *)
#[export] Instance reads_get_string s strSize :
  len s < strSize -> strSize < 2 ^ 64 ->
  Reads (cswp_buffer_get_string strSize) (string_enc s) s.
Proof.
  intros Hs Hsz. unfold string_enc. apply reads_bind with (a := len s).
  { apply reads_get_varint. unfold is_u64. lia. }
  apply reads_require; [lia|]. destruct (Z.leb_spec strSize (len s)); [lia|].
  intros b rest Hb Hu.
  rewrite (E_bind_val _ _ _ _ _ (copy_out_reads b s rest Hb Hu)).
  unfold e_modify, mbind, E_bind, mret, E_ret. by rewrite (skip_in_bounds b s rest).
Qed.

(** Otherwise the string is refused after its length was consumed. *)
Lemma get_string_overflow b s rest strSize :
  buf_ok b -> unread b = string_enc s ++ rest -> strSize <= len s ->
  cswp_buffer_get_string strSize b =
    Some (Fail CSWP_OUTPUT_BUFFER_OVERFLOW, set_pos (pos b + len (varint_enc (len s))) b).
Proof.
  intros Hb Hu Hs. unfold string_enc in Hu. rewrite <- app_assoc in Hu.
  assert (is_u64 (len s)).
  { pose proof (len_unread b Hb) as Hl. rewrite Hu, !length_app in Hl.
    destruct Hb. unfold is_u64. lia. }
  unfold cswp_buffer_get_string.
  rewrite (E_bind_val _ _ _ _ _ (reads_get_varint _ ltac:(done) b _ Hb Hu)).
  pose proof (advance_unread b _ _ Hb Hu) as Hu'.
  rewrite (E_bind_val _ _ _ tt (set_pos (pos b + len (varint_enc (len s))) b)).
  - by destruct (Z.leb_spec strSize (len s)); [|lia].
  - apply require_r_ok; [by apply (advance_ok b _ _ Hb Hu)|].
    rewrite Hu', length_app. lia.
Qed.

(** ** Decoding arbitrary input

    On input whose unread part holds no varint of more than ten bytes, a getter
    neither leaves the buffer nor moves the cursor past its contents, whether
    it succeeds or fails. *)

Definition moved (b b' : CSWP_BUFFER) : Prop :=
  same_data b b' /\ pos b <= pos b' <= used b.

Definition no_overlong (l : list Z) : Prop :=
  forall p q, l = p ++ q -> scan_varint 10 q <> ScanOverlong.

Lemma no_overlong_short l : (length l <= 10)%nat -> no_overlong l.
Proof.
  intros Hl p q -> Hs%scan_varint_overlong. rewrite length_app in Hl. lia.
Qed.

Class Getter {A} (m : BufM A) : Prop :=
  getter : forall b, buf_ok b -> bytes_ok (unread b) -> no_overlong (unread b) ->
    match m b with Some (_, b') => moved b b' | None => False end.

Lemma moved_refl b : buf_ok b -> moved b b.
Proof. intros []. repeat split; lia. Qed.
Lemma moved_trans b1 b2 b3 : moved b1 b2 -> moved b2 b3 -> moved b1 b3.
Proof. unfold moved, same_data. intuition (congruence || lia). Qed.
Lemma moved_seek b p : pos b <= p <= used b -> moved b (set_pos p b).
Proof. intros. repeat split; simpl; lia. Qed.
#[export] Hint Resolve moved_refl moved_seek : cswp.

(** The hypotheses of [Getter] hold again after the cursor moved. *)
Lemma moved_inv b b' :
  buf_ok b -> bytes_ok (unread b) -> no_overlong (unread b) -> moved b b' ->
  buf_ok b' /\ bytes_ok (unread b') /\ no_overlong (unread b').
Proof.
  intros [? ? ? ?] Hby Hno ((Hs & Hu & Hbf) & Hp1 & Hp2).
  assert (Hd : unread b' = drop (Z.to_nat (pos b' - pos b)) (unread b)).
  { unfold unread, content. rewrite Hu, Hbf, drop_drop. f_equal. lia. }
  split; [constructor; congruence || lia|]. rewrite Hd. split; [by apply Forall_drop|].
  intros p q Hpq. apply (Hno (take (Z.to_nat (pos b' - pos b)) (unread b) ++ p)).
  rewrite <- app_assoc, <- Hpq. symmetry. apply take_drop.
Qed.

#[export] Instance getter_bind {A C} (m : BufM A) (f : A -> BufM C) :
  Getter m -> (forall a, Getter (f a)) -> Getter (m ≫= f).
Proof.
  intros Hm Hf b Hb Hby Hno. specialize (Hm b Hb Hby Hno).
  unfold mbind, E_bind. destruct (m b) as [[[a|c] b']|] eqn:Heq; [|done|done].
  destruct (moved_inv b b') as (? & ? & ?); auto.
  specialize (Hf a b'). destruct (f a b') as [[r b'']|]; [|naive_solver].
  eapply moved_trans; naive_solver.
Qed.

#[export] Instance getter_ret {A} (a : A) : Getter (mret a).
Proof. intros b Hb _ _. by apply moved_refl. Qed.
#[export] Instance getter_fail {A} c : Getter (@e_fail CSWP_BUFFER A c).
Proof. intros b Hb _ _. by apply moved_refl. Qed.

(** A size check followed by a reader of exactly that many bytes. *)
Lemma getter_fixed {A} n (m : BufM A) :
  (forall b bs rest, buf_ok b -> unread b = bs ++ rest -> len bs = n -> bytes_ok bs ->
     exists a, m b = Some (Val a, set_pos (pos b + n) b)) ->
  0 <= n -> Getter (CSWP_REQUIRE_R n;; m).
Proof.
  intros Hm Hn b Hb Hby Hno. destruct (decide (n <= len (unread b))) as [Hl|Hl].
  - rewrite (E_bind_val _ _ _ tt b) by (by apply require_r_ok).
    destruct (Hm b (take (Z.to_nat n) (unread b)) (drop (Z.to_nat n) (unread b))) as [a ->];
      [done|by rewrite take_drop|rewrite length_take; lia|by apply Forall_take|].
    rewrite len_unread in Hl by done. apply moved_seek. lia.
  - rewrite (E_bind_fail _ _ _ CSWP_BUFFER_EMPTY b) by (apply require_r_empty; [done|lia]).
    by apply moved_refl.
Qed.

(** A reader of any [n] bytes is such a reader. *)
Lemma getter_fixed_reads {A} n (m : BufM A) :
  (forall bs, len bs = n -> bytes_ok bs -> exists a, Reads (CSWP_REQUIRE_R n;; m) bs a) ->
  0 <= n -> Getter (CSWP_REQUIRE_R n;; m).
Proof.
  intros Hm Hn. apply getter_fixed; [|done]. intros b bs rest Hb Hu Hl Hby.
  destruct (Hm bs Hl Hby) as [a Ha]. exists a. specialize (Ha b rest Hb Hu).
  rewrite (E_bind_val _ _ _ tt b) in Ha; [by rewrite <- Hl|].
  apply require_r_ok; [done|]. rewrite Hu, length_app. lia.
Qed.

#[export] Instance getter_get_uint8 : Getter cswp_buffer_get_uint8.
Proof.
  apply getter_fixed_reads; [|lia]. intros [|x [|]] Hl ?; simpl in Hl; try lia.
  exists x. apply reads_get_uint8.
Qed.
#[export] Instance getter_get_uint32 : Getter cswp_buffer_get_uint32.
Proof.
  apply getter_fixed_reads; [|lia]. intros bs ? ?. exists (le_val bs).
  apply reads_uint32_bytes; [lia|done].
Qed.
#[export] Instance getter_get_uint64 : Getter cswp_buffer_get_uint64.
Proof.
  apply getter_fixed_reads; [|lia]. intros bs ? ?. exists (le_val bs).
  apply reads_uint64_bytes; [lia|done].
Qed.

#[export] Instance getter_get_data n : 0 <= n -> Getter (cswp_buffer_get_data n).
Proof.
  intros. apply getter_fixed_reads; [|done]. intros bs <- ?. exists bs. apply reads_get_data.
Qed.

#[export] Instance getter_get_direct n : 0 <= n -> Getter (cswp_buffer_get_direct n).
Proof.
  intros. apply getter_fixed; [|done]. intros b bs rest Hb Hu <- _.
  exists (pos b). pose proof (get_direct_reads b bs rest Hb Hu) as Hg.
  unfold cswp_buffer_get_direct in Hg. rewrite (E_bind_val _ _ _ tt b) in Hg; [done|].
  apply require_r_ok; [done|]. rewrite Hu, length_app. lia.
Qed.

#[export] Instance getter_get_varint : Getter cswp_buffer_get_varint.
Proof.
  intros b Hb Hby Hno. rewrite get_varint_eq by auto using scanned_ok_bytes.
  specialize (Hno [] (unread b) eq_refl).
  destruct (scan_varint 10 (unread b)) as [p| |] eqn:Hs; [| |done].
  - destruct (scan_varint_val 10 (unread b) p) as (_ & _ & rest & Hu); [done..|].
    pose proof (advance_bound b p rest Hb Hu). apply moved_seek. lia.
  - apply moved_seek. destruct Hb. lia.
Qed.

Lemma u64_of_varint_nonneg b v b' :
  cswp_buffer_get_varint b = Some (Val v, b') -> buf_ok b -> bytes_ok (unread b) -> is_u64 v.
Proof.
  intros Hg Hb Hby. rewrite get_varint_eq in Hg by auto using scanned_ok_bytes.
  destruct (scan_varint 10 (unread b)); simplify_eq. apply u64_range.
Qed.

#[export] Instance getter_require n : Getter (CSWP_REQUIRE_R n).
Proof.
  intros b Hb _ _. unfold CSWP_REQUIRE_R.
  by destruct (_ <? _); apply moved_refl.
Qed.

(** A length that was read as a varint is not negative. *)
Lemma getter_bind_varint {C} (f : Z -> BufM C) :
  (forall v, is_u64 v -> Getter (f v)) -> Getter (cswp_buffer_get_varint ≫= f).
Proof.
  intros Hf b Hb Hby Hno. pose proof (getter_get_varint b Hb Hby Hno) as Hm.
  unfold mbind, E_bind. destruct (cswp_buffer_get_varint b) as [[[v|c] b']|] eqn:Heq;
    [|done|done].
  destruct (moved_inv b b') as (? & ? & ?); auto.
  specialize (Hf v (u64_of_varint_nonneg b v b' Heq Hb Hby) b').
  destruct (f v b') as [[r b'']|]; [|naive_solver].
  eapply moved_trans; naive_solver.
Qed.

#[export] Instance getter_get_string strSize : Getter (cswp_buffer_get_string strSize).
Proof.
  apply getter_bind_varint. intros n [Hn _]. destruct (Z.leb_spec strSize n).
  - apply getter_bind; [apply _|]. intros ?. apply getter_fail.
  - apply (getter_get_data n Hn).
Qed.

(** ** Sequences of fields

    Messages are sequences of fields; [kind] is what a decoder expects. *)

Inductive field :=
  | FU8 (v : Z) | FU32 (v : Z) | FU64 (v : Z) | FVarint (v : Z)
  | FString (s : list Z) | FData (d : list Z).

Inductive kind := KU8 | KU32 | KU64 | KVarint | KString (strSize : Z) | KData (n : Z).

Definition field_ok (f : field) : Prop :=
  match f with
  | FU8 v => is_byte v
  | FU32 v => is_u32 v
  | FU64 v | FVarint v => is_u64 v
  | FString s => bytes_ok s /\ len s < 2 ^ 63
  | FData d => bytes_ok d
  end.

Definition field_bytes (f : field) : list Z :=
  match f with
  | FU8 v => [v]
  | FU32 v => le_bytes 4 v
  | FU64 v => le_bytes 8 v
  | FVarint v => varint_enc v
  | FString s => string_enc s
  | FData d => d
  end.

Definition put_field (f : field) : BufM unit :=
  match f with
  | FU8 v => cswp_buffer_put_uint8 v
  | FU32 v => cswp_buffer_put_uint32 v
  | FU64 v => cswp_buffer_put_uint64 v
  | FVarint v => cswp_buffer_put_varint v
  | FString s => cswp_buffer_put_string s
  | FData d => cswp_buffer_put_data d (len d)
  end.

Definition get_field (k : kind) : BufM field :=
  match k with
  | KU8 => v ← cswp_buffer_get_uint8; mret (FU8 v)
  | KU32 => v ← cswp_buffer_get_uint32; mret (FU32 v)
  | KU64 => v ← cswp_buffer_get_uint64; mret (FU64 v)
  | KVarint => v ← cswp_buffer_get_varint; mret (FVarint v)
  | KString strSize => s ← cswp_buffer_get_string strSize; mret (FString s)
  | KData n => d ← cswp_buffer_get_data n; mret (FData d)
  end.

(** [k] is the kind of [f], with room for it. *)
Definition kind_of (k : kind) (f : field) : Prop :=
  match k, f with
  | KU8, FU8 _ | KU32, FU32 _ | KU64, FU64 _ | KVarint, FVarint _ => True
  | KString strSize, FString s => len s < strSize < 2 ^ 64
  | KData n, FData d => n = len d
  | _, _ => False
  end.

Definition kind_ok (k : kind) : Prop :=
  match k with KData n => 0 <= n | _ => True end.

Fixpoint put_fields (fs : list field) : BufM unit :=
  match fs with
  | [] => mret tt
  | f :: fs' => put_field f;; put_fields fs'
  end.

Fixpoint get_fields (ks : list kind) : BufM (list field) :=
  match ks with
  | [] => mret []
  | k :: ks' => f ← get_field k; fs ← get_fields ks'; mret (f :: fs)
  end.

Definition fields_bytes (fs : list field) : list Z := concat (field_bytes <$> fs).

Lemma writes_field f : field_ok f -> Writes (put_field f) (field_bytes f).
Proof.
  destruct f as [v|v|v|v|s|d]; cbn [field_bytes field_ok put_field]; intros Hf; try apply _.
  - by apply writes_put_varint.
  - apply writes_put_string, Hf.
  - pose proof (writes_put_data d (len d)) as Hw. rewrite Nat2Z.id, take_ge in Hw by lia.
    apply Hw. lia.
Qed.

Lemma writes_fields fs : Forall field_ok fs -> Writes (put_fields fs) (fields_bytes fs).
Proof.
  induction 1; [apply writes_ret|]. by apply writes_seq; [apply writes_field|].
Qed.

Lemma reads_field k f : kind_of k f -> field_ok f -> Reads (get_field k) (field_bytes f) f.
Proof.
  intros Hk Hf. destruct k, f; cbn [field_bytes kind_of field_ok get_field] in *; try done; subst; apply reads_map; try apply _;
    auto using reads_get_uint32, reads_get_uint64, reads_get_varint.
  apply reads_get_string; lia.
Qed.

Lemma reads_fields ks fs :
  Forall2 kind_of ks fs -> Forall field_ok fs -> Reads (get_fields ks) (fields_bytes fs) fs.
Proof.
  induction 1 as [|k f ks fs Hk _ IH]; intros Hf; [apply reads_ret|].
  inversion_clear Hf. change (fields_bytes (f :: fs)) with (field_bytes f ++ fields_bytes fs).
  eapply reads_bind; [by apply reads_field|].
  apply (reads_map _ (cons f)). by apply IH.
Qed.

Lemma getter_field k : kind_ok k -> Getter (get_field k).
Proof.
  destruct k; simpl; intros;
    (apply getter_bind; [try apply _; by apply getter_get_data|intros; apply getter_ret]).
Qed.

Lemma getter_fields ks : Forall kind_ok ks -> Getter (get_fields ks).
Proof.
  induction 1; [apply getter_ret|]. apply getter_bind; [by apply getter_field|]. intros f.
  apply getter_bind; [done|intros; apply getter_ret].
Qed.

(** ** Properties *)

Definition ex_fields : list field :=
  [FVarint 300; FString [65; 66]; FU32 0xA1B2C3D4; FU64 1; FU8 7; FData [1; 2; 3]].
Definition ex_kinds : list kind :=
  [KVarint; KString 16; KU32; KU64; KU8; KData 3].
Definition ex_buf (n : nat) : CSWP_BUFFER := mkBuf (Z.of_nat n) 0 0 (replicate n 0).

Lemma ex_fields_ok : Forall field_ok ex_fields.
Proof. unfold ex_fields, is_byte. repeat constructor; simpl; unfold is_byte; lia. Qed.
Lemma ex_buf_ok n : Z.of_nat n < 2 ^ 63 -> wr_ok (ex_buf n).
Proof. intros. repeat split; simpl; rewrite ?length_replicate; lia. Qed.

(** C10: the [put] functions, called one after the other and stopping at the
    first failure as the encoders do, never write outside the buffer: the bytes
    of the fields are appended to the contents when they all fit; otherwise the
    result is [CSWP_BUFFER_FULL] and a proper prefix of them was appended. The
    well-formedness invariant of the buffer is preserved in both cases. *)
Theorem put_fields_spec b fs :
  wr_ok b -> Forall field_ok fs ->
  exists r b' p q,
    put_fields fs b = Some (r, b') /\ wr_ok b' /\
    fields_bytes fs = p ++ q /\ content b' = content b ++ p /\
    (if decide (len (fields_bytes fs) <= room b) then r = Val tt /\ q = []
     else r = Fail CSWP_BUFFER_FULL /\ q <> []).
Proof.
  intros Hb Hf. pose proof (writes_fields fs Hf b Hb) as Hw. case_decide as Hd.
  - exists (Val tt), (append b (fields_bytes fs)), (fields_bytes fs), [].
    rewrite app_nil_r. split_and!; auto using wr_ok_append, content_append.
  - destruct Hw as (p & q & Heq & Hq & Hp & Hw).
    exists (Fail CSWP_BUFFER_FULL), (append b p), p, q.
    split_and!; auto using wr_ok_append, content_append.
Qed.

Lemma put_fields_spec_witness :
  wr_ok (ex_buf 4) /\ exists r b' p q,
    put_fields ex_fields (ex_buf 4) = Some (r, b') /\ wr_ok b' /\
    fields_bytes ex_fields = p ++ q /\ content b' = content (ex_buf 4) ++ p /\
    (if decide (len (fields_bytes ex_fields) <= room (ex_buf 4)) then r = Val tt /\ q = []
     else r = Fail CSWP_BUFFER_FULL /\ q <> []).
Proof.
  split; [apply ex_buf_ok; lia|].
  apply (put_fields_spec (ex_buf 4) ex_fields); [apply ex_buf_ok; lia|apply ex_fields_ok].
Defined.

(** C9: what the [put] functions write, the [get] functions of the same kinds
    read back from where the writing started, consuming exactly those bytes:
    every integer of its width, every string that fits the reader's buffer with
    its NUL, every block of bytes. *)
Theorem fields_roundtrip b ks fs :
  wr_ok b -> Forall field_ok fs -> Forall2 kind_of ks fs ->
  len (fields_bytes fs) <= room b ->
  exists b', put_fields fs b = Some (Val tt, b') /\
    get_fields ks (cswp_buffer_seek (used b) b') = Some (Val fs, b').
Proof.
  intros Hb Hf Hk Hl. pose proof (writes_fields fs Hf b Hb) as Hw.
  rewrite decide_True in Hw by done. eexists. split; [exact Hw|].
  pose proof (wr_ok_append b _ Hb Hl) as [Hok Hpos].
  pose proof (content_append b _ Hb Hl) as Hc. pose proof Hb as [[? ? ? ?] ?].
  rewrite (reads_fields ks fs Hk Hf (cswp_buffer_seek (used b) (append b (fields_bytes fs))) []).
  - done.
  - apply buf_ok_seek; [done|simpl; lia].
  - unfold unread. change (content (cswp_buffer_seek _ ?b)) with (content b). rewrite Hc.
    rewrite app_nil_r, drop_app_length' by (unfold content; rewrite length_take; simpl; lia).
    done.
Qed.

Lemma fields_roundtrip_witness :
  Forall2 kind_of ex_kinds ex_fields /\ exists b',
    put_fields ex_fields (ex_buf 64) = Some (Val tt, b') /\
    get_fields ex_kinds (cswp_buffer_seek 0 b') = Some (Val ex_fields, b').
Proof.
  assert (Forall2 kind_of ex_kinds ex_fields) by (repeat constructor; simpl; lia).
  split; [done|]. apply (fields_roundtrip (ex_buf 64) ex_kinds ex_fields).
  - apply ex_buf_ok. lia.
  - apply ex_fields_ok.
  - done.
  - vm_compute. discriminate.
Defined.

(** C15: a sequence of [get] calls on arbitrary received bytes that hold no
    varint of more than ten bytes is defined (no access outside the buffer, no
    oversized shift), leaves the bytes alone, and keeps the cursor between its
    old value and the end of the received data, whatever it returns. *)
Theorem get_fields_safe b ks :
  buf_ok b -> bytes_ok (unread b) -> no_overlong (unread b) -> Forall kind_ok ks ->
  exists r b', get_fields ks b = Some (r, b') /\ same_data b b' /\
    pos b <= pos b' <= used b.
Proof.
  intros Hb Hby Hno Hk. pose proof (getter_fields ks Hk b Hb Hby Hno) as Hg.
  destruct (get_fields ks b) as [[r b']|]; [|done]. exists r, b'. by split.
Qed.

Lemma get_fields_safe_witness :
  exists r b', get_fields ex_kinds (mkBuf 4 3 0 [172; 2; 200; 0]) = Some (r, b') /\
    same_data (mkBuf 4 3 0 [172; 2; 200; 0]) b' /\ 0 <= pos b' <= 3.
Proof.
  apply (get_fields_safe (mkBuf 4 3 0 [172; 2; 200; 0]) ex_kinds).
  - constructor; simpl; lia.
  - cbv. repeat constructor; done || lia.
  - apply no_overlong_short. simpl. lia.
  - repeat constructor; simpl; lia.
Defined.

(** C16: [cswp_buffer_get_varint] on every input: it reads the first varint of
    the unread bytes when that has at most ten bytes (its value modulo 2^64),
    returns [CSWP_BUFFER_EMPTY] having consumed everything when no byte ends a
    varint, and is undefined behaviour (a 64-bit shift by 70) exactly when more
    than ten bytes have the continuation bit. The loop always terminates. *)
Theorem get_varint_spec b :
  buf_ok b -> bytes_ok (unread b) ->
  cswp_buffer_get_varint b =
    match scan_varint 10 (unread b) with
    | ScanVal p => Some (Val (u64 (varint_val p)), set_pos (pos b + len p) b)
    | ScanEmpty => Some (Fail CSWP_BUFFER_EMPTY, set_pos (used b) b)
    | ScanOverlong => None
    end.
Proof. auto using get_varint_eq, scanned_ok_bytes. Qed.

Lemma get_varint_spec_witness :
  cswp_buffer_get_varint (mkBuf 11 11 0 (replicate 11 128)) = None.
Proof.
  rewrite (get_varint_spec (mkBuf 11 11 0 (replicate 11 128))); [reflexivity| |].
  - constructor; simpl; lia.
  - cbv. repeat constructor; done.
Defined.
