(* ===== verification/Memory.v ===== *)
(** The caller's memory, as far as the client library touches it: objects
    (arrays of integers or of [cswp_register_info_t]) addressed by pointers
    with an offset.  A null pointer, or an access outside the object, is
    undefined behaviour. *)
From S2P Require Import Prelude.

Abbreviation loc := nat.

(** [None] is the null pointer; offsets count array elements. *)
Definition ptr : Type := option (loc * Z).

(** [cswp_register_info_t]. *)
Record cswp_register_info_t := mkRegInfo {
  ri_id : Z;
  ri_name : ptr;
  ri_size : Z;
  ri_displayName : ptr;
  ri_description : ptr;
}.

Inductive block :=
  | Ints (l : list Z)
  | Regs (l : list cswp_register_info_t).

Abbreviation mem := (gmap loc block).

Abbreviation MemM := (E mem).

Definition ptr_add (p : ptr) (k : Z) : ptr :=
  match p with Some (b, o) => Some (b, o + k) | None => None end.

(** [memcpy] to [p], or an assignment through it when [vs] is one value. *)
Definition store (p : ptr) (vs : list Z) : MemM unit := fun m =>
  match p with
  | None => None
  | Some (b, o) =>
      match m !! b with
      | Some (Ints l) =>
          if decide (0 <= o /\ o + len vs <= len l) then
            Some (Val tt, <[b := Ints (splice l (Z.to_nat o) vs)]> m)
          else None
      | _ => None
      end
  end.

(** The [n] elements at [p]. *)
Definition load (p : ptr) (n : Z) : MemM (list Z) := fun m =>
  match p with
  | None => None
  | Some (b, o) =>
      match m !! b with
      | Some (Ints l) =>
          if decide (0 <= o /\ 0 <= n /\ o + n <= len l) then
            Some (Val (take (Z.to_nat n) (drop (Z.to_nat o) l)), m)
          else None
      | _ => None
      end
  end.

Definition load1 (p : ptr) : MemM Z :=
  l ← load p 1;
  match l with [v] => mret v | _ => e_ub end.

(** The bytes of a C string before its NUL. *)
Fixpoint c_str (l : list Z) : list Z :=
  match l with
  | [] => []
  | x :: l' => if x =? 0 then [] else x :: c_str l'
  end.

(** The string at [p]; without a NUL in the object the read leaves it. *)
Definition load_cstr (p : ptr) : MemM (list Z) := fun m =>
  match p with
  | None => None
  | Some (b, o) =>
      match m !! b with
      | Some (Ints l) =>
          let s := drop (Z.to_nat o) l in
          if decide (0 <= o /\ 0 ∈ s) then Some (Val (c_str s), m) else None
      | _ => None
      end
  end.

(** [regs[i] = f(regs[i])] *)
Definition update_reg (p : ptr) (i : Z)
    (f : cswp_register_info_t -> cswp_register_info_t) : MemM unit := fun m =>
  match p with
  | None => None
  | Some (b, o) =>
      match m !! b with
      | Some (Regs l) =>
          if decide (0 <= o + i < len l) then
            Some (Val tt, <[b := Regs (alter f (Z.to_nat (o + i)) l)]> m)
          else None
      | _ => None
      end
  end.

(** ** Laws *)

(** [p] points to at least [n] integers. *)
Definition valid (m : mem) (p : ptr) (n : Z) : Prop :=
  match p with
  | Some (b, o) => exists l, m !! b = Some (Ints l) /\ 0 <= o /\ 0 <= n /\ o + n <= len l
  | None => False
  end.

(** [p] points to the integers [vs]. *)
Definition points (m : mem) (p : ptr) (vs : list Z) : Prop :=
  match p with
  | Some (b, o) => exists l, m !! b = Some (Ints l) /\ 0 <= o /\
      take (length vs) (drop (Z.to_nat o) l) = vs /\ o + len vs <= len l
  | None => False
  end.

(** The memory after [vs] is stored at [p]. *)
Definition put_mem (p : ptr) (vs : list Z) (m : mem) : mem :=
  match store p vs m with Some (_, m') => m' | None => m end.

Definition block_of (p : ptr) : option loc := fst <$> p.

Lemma store_valid m p vs :
  valid m p (len vs) -> store p vs m = Some (Val tt, put_mem p vs m).
Proof.
  destruct p as [[b o]|]; [|done]. intros (l & Hl & Ho & _ & Hb).
  unfold put_mem, store. rewrite Hl. by rewrite decide_True by done.
Qed.

Lemma put_mem_points m p vs : valid m p (len vs) -> points (put_mem p vs m) p vs.
Proof.
  destruct p as [[b o]|]; [|done]. intros (l & Hl & Ho & _ & Hb).
  unfold put_mem, store. rewrite Hl, decide_True by done. simpl.
  eexists. split; [apply lookup_insert_eq|]. split; [done|].
  rewrite length_splice by lia. split; [|done]. unfold splice.
  rewrite drop_app_length' by (rewrite length_take; lia).
  by rewrite take_app_length.
Qed.

(** Objects that [p] does not point into are unchanged. *)
Lemma put_mem_frame m p vs b :
  block_of p <> Some b -> put_mem p vs m !! b = m !! b.
Proof.
  intros Hb. unfold put_mem, store. destruct p as [[b' o]|]; [|done].
  destruct (m !! b') as [[]|] eqn:?; try done. case_decide; [|done].
  apply lookup_insert_ne. intros ->. by apply Hb.
Qed.

Lemma put_mem_valid m p vs q n : valid m q n -> valid (put_mem p vs m) q n.
Proof.
  unfold put_mem, store. destruct p as [[b o]|]; [|done].
  destruct (m !! b) as [[l|]|] eqn:Hm; try done. case_decide as Hd; [|done].
  destruct q as [[c r]|]; [|done]. intros (l' & Hl' & Hr & ? & ?). simpl.
  destruct (decide (c = b)) as [->|].
  - rewrite Hm in Hl'. simplify_eq. eexists. split; [apply lookup_insert_eq|].
    rewrite length_splice by lia. done.
  - exists l'. split; [|done]. etrans; [by apply lookup_insert_ne|done].
Qed.

Lemma put_mem_points_ne m p vs q ws :
  block_of p <> block_of q -> points m q ws -> points (put_mem p vs m) q ws.
Proof.
  destruct q as [[c r]|]; [|done]. intros Hb. simpl.
  by rewrite put_mem_frame by (by simpl in Hb).
Qed.

Lemma points_valid m p vs : points m p vs -> valid m p (len vs).
Proof. destruct p as [[b o]|]; [|done]. intros (l & ? & ? & ? & ?). exists l. by auto with lia. Qed.

Lemma load_points m p vs : points m p vs -> load p (len vs) m = Some (Val vs, m).
Proof.
  destruct p as [[b o]|]; [|done]. intros (l & Hl & Ho & Ht & Hb).
  unfold load. rewrite Hl, decide_True by (split_and!; lia || done).
  by rewrite Nat2Z.id, Ht.
Qed.

Lemma c_str_nul s r : Forall (fun x => x <> 0) s -> c_str (s ++ 0 :: r) = s.
Proof.
  induction 1 as [|x s Hx _ IH]; [done|]. simpl.
  destruct (Z.eqb_spec x 0); [done|]. by rewrite IH.
Qed.

Lemma load_cstr_points m p s :
  points m p (s ++ [0]) -> Forall (fun x => x <> 0) s ->
  load_cstr p m = Some (Val s, m).
Proof.
  destruct p as [[b o]|]; [|done]. intros (l & Hl & Ho & Ht & Hb) Hs.
  unfold load_cstr. rewrite Hl.
  assert (Hd : drop (Z.to_nat o) l =
    s ++ 0 :: drop (length (s ++ [0])) (drop (Z.to_nat o) l)).
  { transitivity ((s ++ [0]) ++ drop (length (s ++ [0])) (drop (Z.to_nat o) l)).
    - rewrite <- Ht at 1. symmetry. apply take_drop.
    - by rewrite <- app_assoc. }
  rewrite Hd. rewrite decide_True by (split; [done|set_solver]).
  by rewrite c_str_nul.
Qed.

#[export] Hint Resolve put_mem_points put_mem_valid put_mem_points_ne points_valid : cswp.

Lemma put_mem_nil m p : put_mem p [] m = m.
Proof.
  unfold put_mem, store. destruct p as [[b o]|]; [|done].
  destruct (m !! b) as [[l|]|] eqn:Hm; try done. case_decide; [|done].
  rewrite splice_nil. by apply insert_id.
Qed.

(** Storing the elements of an array one after the other. *)
Lemma put_mem_snoc m p vs v :
  valid m p (len vs + 1) ->
  store (ptr_add p (len vs)) [v] (put_mem p vs m) = Some (Val tt, put_mem p (vs ++ [v]) m).
Proof.
  destruct p as [[b o]|]; [|done]. intros (l & Hl & Ho & _ & Hb).
  unfold put_mem, store, ptr_add. rewrite Hl.
  rewrite !decide_True by (rewrite ?length_app; simpl; lia).
  cbv iota beta. rewrite lookup_insert_eq, decide_True
    by (rewrite length_splice; simpl; lia).
  rewrite insert_insert_eq. do 4 f_equal.
  rewrite Z2Nat.inj_add, Nat2Z.id by lia. apply splice_splice. simpl. lia.
Qed.

Lemma valid_le m p n k : valid m p n -> 0 <= k <= n -> valid m p k.
Proof. destruct p as [[b o]|]; [|done]. intros (l & ? & ? & ? & ?) ?. exists l. auto with lia. Qed.

(** Two consecutive stores are one. *)
Lemma put_mem_app m p vs ws :
  valid m p (len vs + len ws) -> put_mem (ptr_add p (len vs)) ws (put_mem p vs m) = put_mem p (vs ++ ws) m.
Proof.
  destruct p as [[b o]|]; [|done]. intros (l & Hl & Ho & _ & Hb).
  unfold put_mem, store, ptr_add. rewrite Hl.
  rewrite !decide_True by (rewrite ?length_app; simpl; lia).
  cbv iota beta. rewrite lookup_insert_eq, decide_True by (rewrite length_splice; simpl; lia).
  rewrite insert_insert_eq. do 2 f_equal.
  rewrite Z2Nat.inj_add, Nat2Z.id by lia. apply splice_splice. lia.
Qed.

(** ** Arrays of register descriptions *)

Definition valid_regs (m : mem) (p : ptr) (n : Z) : Prop :=
  match p with
  | Some (b, o) => exists l, m !! b = Some (Regs l) /\ 0 <= o /\ o + n <= len l
  | None => False
  end.
Definition put_reg (p : ptr) (i : Z) (f : cswp_register_info_t -> cswp_register_info_t) (m : mem) : mem :=
  match update_reg p i f m with Some (_, m') => m' | None => m end.

Lemma update_reg_valid m p n i f :
  valid_regs m p n -> 0 <= i < n -> update_reg p i f m = Some (Val tt, put_reg p i f m).
Proof.
  destruct p as [[b o]|]; [|done]. intros (l & Hl & Ho & Hb) Hi.
  unfold put_reg, update_reg. rewrite Hl. by rewrite decide_True by lia.
Qed.

Lemma put_reg_ext p i f g m : (forall r, f r = g r) -> put_reg p i f m = put_reg p i g m.
Proof.
  intros E. unfold put_reg, update_reg. repeat case_match; simplify_eq; try done.
  do 2 f_equal. by apply list_alter_ext.
Qed.

Lemma put_reg_put_reg p i f g m : put_reg p i f (put_reg p i g m) = put_reg p i (fun r => f (g r)) m.
Proof.
  unfold put_reg, update_reg. destruct p as [[b o]|]; [|done].
  destruct (m !! b) as [[l|l]|] eqn:Hm; rewrite ?Hm; try done.
  destruct (decide (0 <= o + i < len l)) as [Hd|Hd]; rewrite ?Hm; [|by rewrite decide_False].
  rewrite lookup_insert_eq, decide_True by (by rewrite length_alter). rewrite insert_insert_eq.
  do 2 f_equal. apply list_alter_alter_eq.
Qed.

Lemma put_reg_put_mem p i f q vs m :
  put_reg p i f (put_mem q vs m) = put_mem q vs (put_reg p i f m).
Proof.
  unfold put_reg, update_reg, put_mem, store.
  destruct p as [[b o]|], q as [[c r]|]; try done.
  - destruct (decide (b = c)) as [->|Hne].
    + destruct (m !! c) as [[l|l]|] eqn:Hm; rewrite ?Hm; try done.
      * case_decide; [by rewrite lookup_insert_eq|by rewrite Hm].
      * case_decide; [by rewrite lookup_insert_eq|by rewrite Hm].
    + destruct (m !! b) as [[l|l]|] eqn:Hb; destruct (m !! c) as [[k|k]|] eqn:Hc; rewrite ?Hb; try done;
        try (destruct (decide (0 <= o + i < len l)) as [Hl|Hl]);
        try (destruct (decide (0 <= r /\ r + len vs <= len k)) as [Hk|Hk]);
        rewrite ?lookup_insert_ne, ?Hb, ?Hc by done;
        rewrite ?(decide_True _ _ Hl), ?(decide_False _ _ Hl), ?(decide_True _ _ Hk), ?(decide_False _ _ Hk); try done.
      by rewrite insert_insert_ne.
Qed.

Lemma put_mem_valid_regs m q vs p n : valid_regs m p n -> valid_regs (put_mem q vs m) p n.
Proof.
  unfold put_mem, store. destruct q as [[c r]|]; [|done].
  destruct (m !! c) as [[k|]|] eqn:Hc; try done. case_decide; [|done].
  destruct p as [[b o]|]; [|done]. intros (l & Hl & Hb). exists l. split; [|done].
  simpl. rewrite lookup_insert_ne; [done|]. intros ->. congruence.
Qed.
Lemma put_reg_valid_regs m q i f p n : valid_regs m p n -> valid_regs (put_reg q i f m) p n.
Proof.
  unfold put_reg, update_reg. destruct q as [[c r]|]; [|done].
  destruct (m !! c) as [[k|k]|] eqn:Hc; try done. case_decide; [|done].
  destruct p as [[b o]|]; [|done]. intros (l & Hl & Hb). simpl. destruct (decide (b = c)) as [->|].
  - rewrite Hc in Hl. simplify_eq. eexists. split; [apply lookup_insert_eq|]. by rewrite length_alter.
  - exists l. split; [|done]. by rewrite lookup_insert_ne.
Qed.
Lemma put_reg_valid m q i f p n : valid m p n -> valid (put_reg q i f m) p n.
Proof.
  unfold put_reg, update_reg. destruct q as [[c r]|]; [|done].
  destruct (m !! c) as [[k|k]|] eqn:Hc; try done. case_decide; [|done].
  destruct p as [[b o]|]; [|done]. intros (l & Hl & Hb). exists l. split; [|done].
  simpl. rewrite lookup_insert_ne; [done|]. intros ->. congruence.
Qed.
#[export] Hint Resolve put_mem_valid_regs put_reg_valid_regs put_reg_valid : cswp.
