(* ===== verification/ClientCommands.v ===== *)
(** The request encoders and response decoders of [client/cdebug]:
    [cswp_client_common.c], [cswp_client_commands.c] and
    [cswp_client_nv_ext_commands.c].  Encoders run on the command buffer;
    decoders on the response buffer and the caller's memory, where they store
    strings.  The specification is the type [request] of messages with their
    bytes: every encoder writes exactly the bytes of its request. *)
From S2P Require Import Prelude Wire CswpTypes CswpBuffer Memory.

(** ** Encoders *)

Definition cswp_encode_command_header (messageType : Z) : BufM unit :=
  cswp_buffer_put_varint messageType;;
  mret tt.

Definition cswp_encode_init_command (clientProtocolVersion : Z) (clientID : list Z)
    : BufM unit :=
  cswp_encode_command_header (cmd_id CSWP_INIT);;
  cswp_buffer_put_varint clientProtocolVersion;;
  cswp_buffer_put_string clientID;;
  mret tt.

Definition cswp_encode_term_command : BufM unit :=
  cswp_encode_command_header (cmd_id CSWP_TERM);;
  mret tt.

Definition cswp_encode_client_info_command (message : list Z) : BufM unit :=
  cswp_encode_command_header (cmd_id CSWP_CLIENT_INFO);;
  cswp_buffer_put_string message;;
  mret tt.

Definition cswp_encode_set_devices_command (deviceCount : Z)
    (deviceList deviceType : list (list Z)) : BufM unit :=
  cswp_encode_command_header (cmd_id CSWP_SET_DEVICES);;
  cswp_buffer_put_varint deviceCount;;
  e_for (Z.to_nat (u32 deviceCount)) 0 (fun i =>
    d ← e_index deviceList i;
    cswp_buffer_put_string d;;
    t ← e_index deviceType i;
    cswp_buffer_put_string t);;
  mret tt.

Definition cswp_encode_get_devices_command : BufM unit :=
  cswp_encode_command_header (cmd_id CSWP_GET_DEVICES);;
  mret tt.

Definition cswp_encode_get_system_description_command : BufM unit :=
  cswp_encode_command_header (cmd_id CSWP_GET_SYSTEM_DESCRIPTION);;
  mret tt.

Definition cswp_encode_device_open_command (deviceNo : Z) : BufM unit :=
  cswp_encode_command_header (cmd_id CSWP_DEVICE_OPEN);;
  cswp_buffer_put_varint deviceNo;;
  mret tt.

Definition cswp_encode_device_close_command (deviceNo : Z) : BufM unit :=
  cswp_encode_command_header (cmd_id CSWP_DEVICE_CLOSE);;
  cswp_buffer_put_varint deviceNo;;
  mret tt.

Definition cswp_encode_set_config_command (deviceNo : Z) (name value : list Z)
    : BufM unit :=
  cswp_encode_command_header (cmd_id CSWP_SET_CONFIG);;
  cswp_buffer_put_varint deviceNo;;
  cswp_buffer_put_string name;;
  cswp_buffer_put_string value;;
  mret tt.

Definition cswp_encode_get_config_command (deviceNo : Z) (name : list Z) : BufM unit :=
  cswp_encode_command_header (cmd_id CSWP_GET_CONFIG);;
  cswp_buffer_put_varint deviceNo;;
  cswp_buffer_put_string name;;
  mret tt.

Definition cswp_encode_get_device_capabilities_command (deviceNo : Z) : BufM unit :=
  cswp_encode_command_header (cmd_id CSWP_GET_DEVICE_CAPABILITIES);;
  cswp_buffer_put_varint deviceNo;;
  mret tt.

Definition cswp_encode_reg_list_command (deviceNo : Z) : BufM unit :=
  cswp_encode_command_header (cmd_id CSWP_REG_LIST);;
  cswp_buffer_put_varint deviceNo;;
  mret tt.

Definition cswp_encode_reg_read_command (deviceNo count : Z) (registerIDs : list Z)
    : BufM unit :=
  cswp_encode_command_header (cmd_id CSWP_REG_READ);;
  cswp_buffer_put_varint deviceNo;;
  cswp_buffer_put_varint count;;
  e_for (Z.to_nat (u32 count)) 0 (fun i =>
    id ← e_index registerIDs i;
    cswp_buffer_put_varint id);;
  mret tt.

Definition cswp_encode_reg_write_command (deviceNo count : Z) : BufM unit :=
  cswp_encode_command_header (cmd_id CSWP_REG_WRITE);;
  cswp_buffer_put_varint deviceNo;;
  cswp_buffer_put_varint count;;
  mret tt.

Definition cswp_encode_mem_read_command (deviceNo address size accessSize flags : Z)
    : BufM unit :=
  cswp_encode_command_header (cmd_id CSWP_MEM_READ);;
  cswp_buffer_put_varint deviceNo;;
  cswp_buffer_put_uint64 address;;
  cswp_buffer_put_varint size;;
  cswp_buffer_put_varint accessSize;;
  cswp_buffer_put_varint flags;;
  mret tt.

Definition cswp_encode_mem_write_command
    (deviceNo address size accessSize flags : Z) (data : list Z) : BufM unit :=
  cswp_encode_command_header (cmd_id CSWP_MEM_WRITE);;
  cswp_buffer_put_varint deviceNo;;
  cswp_buffer_put_uint64 address;;
  cswp_buffer_put_varint size;;
  cswp_buffer_put_varint accessSize;;
  cswp_buffer_put_varint flags;;
  cswp_buffer_put_data data size;;
  mret tt.

Definition cswp_encode_mem_poll_command
    (deviceNo address size accessSize flags tries delay : Z) (mask value : list Z)
    : BufM unit :=
  cswp_encode_command_header (cmd_id CSWP_MEM_POLL);;
  cswp_buffer_put_varint deviceNo;;
  cswp_buffer_put_uint64 address;;
  cswp_buffer_put_varint size;;
  cswp_buffer_put_varint accessSize;;
  cswp_buffer_put_varint flags;;
  cswp_buffer_put_varint tries;;
  cswp_buffer_put_varint delay;;
  cswp_buffer_put_data mask size;;
  cswp_buffer_put_data value size;;
  mret tt.

Definition cswp_encode_nvsec_unlock_command (enable_req : Z) : BufM unit :=
  cswp_encode_command_header (cmd_id CSWP_NVSEC_UNLOCK);;
  cswp_buffer_put_varint enable_req;;
  mret tt.

Definition cswp_encode_nvsec_token_command (size : Z) (signed_token : list Z)
    : BufM unit :=
  cswp_encode_command_header (cmd_id CSWP_NVSEC_TOKEN);;
  cswp_buffer_put_data signed_token size;;
  mret tt.

Definition cswp_encode_nvsec_verify_command (challenge : list Z) : BufM unit :=
  cswp_encode_command_header (cmd_id CSWP_NVSEC_VERIFY);;
  cswp_buffer_put_string challenge;;
  mret tt.

Definition cswp_encode_nvsec_encrypt_command (client_public_key : list Z) : BufM unit :=
  cswp_encode_command_header (cmd_id CSWP_NVSEC_ENCRYPT);;
  cswp_buffer_put_string client_public_key;;
  mret tt.

(** ** Decoders

    State: the response buffer and the caller's memory.  Integers that the
    callers receive in local variables are returned; strings and data blocks
    are stored through the pointers. *)

Definition dstate : Type := CSWP_BUFFER * mem.
Abbreviation DecM := (E dstate).

Definition on_buf {A} (m : BufM A) : DecM A :=
  zoom fst (fun b s => (b, snd s)) m.
Definition on_mem {A} (m : MemM A) : DecM A :=
  zoom snd (fun x s => (fst s, x)) m.

(** [cswp_buffer_get_string(buf, str, strSize)] with [str] a pointer. *)
Definition get_string_to (str : ptr) (strSize : Z) : DecM unit :=
  s ← on_buf (cswp_buffer_get_string strSize);
  on_mem (store str (s ++ [0])).

Definition cswp_get_optional_string (str : ptr) (strSz : Z) : DecM unit :=
  if (strSz =? 0) || bool_decide (str = None) then
    sz ← on_buf cswp_buffer_get_varint;
    on_buf (e_modify (cswp_buffer_skip sz))
  else get_string_to str strSz.

Definition cswp_decode_response_header : BufM (Z * Z) :=
  messageType ← cswp_buffer_get_varint;
  errorCode ← cswp_buffer_get_varint;
  mret (messageType, errorCode).

Definition cswp_decode_error_response_body (errorMessageSize : Z) : BufM (list Z) :=
  cswp_buffer_get_string errorMessageSize.

Definition cswp_decode_init_response_body (serverID : ptr) (serverIDSize : Z)
    : DecM (Z * Z) :=
  serverProtocolVersion ← on_buf cswp_buffer_get_varint;
  cswp_get_optional_string serverID serverIDSize;;
  serverVersion ← on_buf cswp_buffer_get_varint;
  mret (serverProtocolVersion, serverVersion).

Definition cswp_decode_get_devices_response_body : BufM Z := cswp_buffer_get_varint.

Definition cswp_decode_get_system_description_response_body
    (systemDescriptionData : ptr) (systemDescriptionDataSize : Z) : DecM (Z * Z) :=
  systemDescriptionFormat ← on_buf cswp_buffer_get_varint;
  systemDescriptionSize ← on_buf cswp_buffer_get_varint;
  let bufferSize :=
    if systemDescriptionDataSize <? systemDescriptionSize then systemDescriptionDataSize
    else systemDescriptionSize in
  d ← on_buf (cswp_buffer_get_data bufferSize);
  on_mem (store systemDescriptionData d);;
  mret (systemDescriptionFormat, systemDescriptionSize).

Definition cswp_decode_device_open_response_body (deviceInfo : ptr) (deviceInfoSize : Z)
    : DecM unit :=
  cswp_get_optional_string deviceInfo deviceInfoSize.

Definition cswp_decode_get_config_response_body (value : ptr) (valueSize : Z)
    : DecM unit :=
  get_string_to value valueSize.

(** [capabilityData] is only written when the device has registers. *)
Definition cswp_decode_get_device_capabilities_response_body : BufM (Z * option Z) :=
  capabilities ← cswp_buffer_get_varint;
  if Z.land capabilities CSWP_CAP_REG =? CSWP_CAP_REG then
    capabilityData ← cswp_buffer_get_varint;
    mret (capabilities, Some capabilityData)
  else mret (capabilities, None).

Definition cswp_decode_reg_list_response_body : BufM Z := cswp_buffer_get_varint.

(** [(id, name, size, displayName, description)]: the strings are decoded into
    buffers of the caller's own. *)
Definition cswp_decode_reg_info (nameSize displayNameSize descriptionSize : Z)
    : BufM (Z * list Z * Z * list Z * list Z) :=
  id ← cswp_buffer_get_varint;
  name ← cswp_buffer_get_string nameSize;
  sz ← cswp_buffer_get_varint;
  displayName ← cswp_buffer_get_string displayNameSize;
  description ← cswp_buffer_get_string descriptionSize;
  mret (id, name, sz, displayName, description).

Definition cswp_decode_reg_read_response_body : BufM Z := cswp_buffer_get_varint.
Definition cswp_decode_mem_read_response_body : BufM Z := cswp_buffer_get_varint.
Definition cswp_decode_mem_poll_response_body : BufM Z := cswp_buffer_get_varint.

(** The three outputs are the caller's: a later failure leaves them written. *)
Definition cswp_decode_async_message_body (deviceNo level message : ptr)
    (messageSize : Z) : DecM unit :=
  d ← on_buf cswp_buffer_get_varint;
  on_mem (store deviceNo [d]);;
  l ← on_buf cswp_buffer_get_varint;
  on_mem (store level [l]);;
  get_string_to message messageSize.

Definition cswp_decode_nvsec_verify_response_body (sz : Z) (signature : ptr)
    : DecM unit :=
  get_string_to signature sz.

Definition cswp_decode_nvsec_encrypt_response_body (keysize : Z)
    (server_public_key : ptr) : DecM unit :=
  get_string_to server_public_key keysize.

(** ** Requests *)

Inductive request :=
  | ReqInit (version : Z) (clientID : list Z)
  | ReqTerm
  | ReqClientInfo (message : list Z)
  | ReqSetDevices (devices : list (list Z * list Z))
  | ReqGetDevices
  | ReqGetSystemDescription
  | ReqDeviceOpen (deviceNo : Z)
  | ReqDeviceClose (deviceNo : Z)
  | ReqSetConfig (deviceNo : Z) (name value : list Z)
  | ReqGetConfig (deviceNo : Z) (name : list Z)
  | ReqGetDeviceCapabilities (deviceNo : Z)
  | ReqRegList (deviceNo : Z)
  | ReqRegRead (deviceNo : Z) (ids : list Z)
  | ReqMemRead (deviceNo address size accessSize flags : Z)
  | ReqMemWrite (deviceNo address accessSize flags : Z) (data : list Z)
  | ReqMemPoll (deviceNo address accessSize flags tries delay : Z) (mask value : list Z)
  | ReqNvsecUnlock (enable_req : Z)
  | ReqNvsecToken (signed_token : list Z)
  | ReqNvsecVerify (challenge : list Z)
  | ReqNvsecEncrypt (client_public_key : list Z).

Definition request_type (r : request) : cswp_commands_t :=
  match r with
  | ReqInit _ _ => CSWP_INIT
  | ReqTerm => CSWP_TERM
  | ReqClientInfo _ => CSWP_CLIENT_INFO
  | ReqSetDevices _ => CSWP_SET_DEVICES
  | ReqGetDevices => CSWP_GET_DEVICES
  | ReqGetSystemDescription => CSWP_GET_SYSTEM_DESCRIPTION
  | ReqDeviceOpen _ => CSWP_DEVICE_OPEN
  | ReqDeviceClose _ => CSWP_DEVICE_CLOSE
  | ReqSetConfig _ _ _ => CSWP_SET_CONFIG
  | ReqGetConfig _ _ => CSWP_GET_CONFIG
  | ReqGetDeviceCapabilities _ => CSWP_GET_DEVICE_CAPABILITIES
  | ReqRegList _ => CSWP_REG_LIST
  | ReqRegRead _ _ => CSWP_REG_READ
  | ReqMemRead _ _ _ _ _ => CSWP_MEM_READ
  | ReqMemWrite _ _ _ _ _ => CSWP_MEM_WRITE
  | ReqMemPoll _ _ _ _ _ _ _ _ => CSWP_MEM_POLL
  | ReqNvsecUnlock _ => CSWP_NVSEC_UNLOCK
  | ReqNvsecToken _ => CSWP_NVSEC_TOKEN
  | ReqNvsecVerify _ => CSWP_NVSEC_VERIFY
  | ReqNvsecEncrypt _ => CSWP_NVSEC_ENCRYPT
  end.

(** The fields of a request after its type. *)
Definition request_fields (r : request) : list field :=
  match r with
  | ReqInit v s => [FVarint v; FString s]
  | ReqTerm | ReqGetDevices | ReqGetSystemDescription => []
  | ReqClientInfo s => [FString s]
  | ReqSetDevices ds =>
      FVarint (len ds) :: concat ((fun d => [FString d.1; FString d.2]) <$> ds)
  | ReqDeviceOpen n | ReqDeviceClose n | ReqGetDeviceCapabilities n | ReqRegList n =>
      [FVarint n]
  | ReqSetConfig n s v => [FVarint n; FString s; FString v]
  | ReqGetConfig n s => [FVarint n; FString s]
  | ReqRegRead n ids => FVarint n :: FVarint (len ids) :: (FVarint <$> ids)
  | ReqMemRead n a s sz f => [FVarint n; FU64 a; FVarint s; FVarint sz; FVarint f]
  | ReqMemWrite n a sz f d =>
      [FVarint n; FU64 a; FVarint (len d); FVarint sz; FVarint f; FData d]
  | ReqMemPoll n a sz f t dl m v =>
      [FVarint n; FU64 a; FVarint (len m); FVarint sz; FVarint f; FVarint t;
       FVarint dl; FData m; FData v]
  | ReqNvsecUnlock e => [FVarint e]
  | ReqNvsecToken t => [FData t]
  | ReqNvsecVerify s | ReqNvsecEncrypt s => [FString s]
  end.

Definition request_bytes (r : request) : list Z :=
  fields_bytes (FVarint (cmd_id (request_type r)) :: request_fields r).

(** The call of an encoder that the client makes for a request. *)
Definition encode_request (r : request) : BufM unit :=
  match r with
  | ReqInit v s => cswp_encode_init_command v s
  | ReqTerm => cswp_encode_term_command
  | ReqClientInfo s => cswp_encode_client_info_command s
  | ReqSetDevices ds => cswp_encode_set_devices_command (len ds) ds.*1 ds.*2
  | ReqGetDevices => cswp_encode_get_devices_command
  | ReqGetSystemDescription => cswp_encode_get_system_description_command
  | ReqDeviceOpen n => cswp_encode_device_open_command n
  | ReqDeviceClose n => cswp_encode_device_close_command n
  | ReqSetConfig n s v => cswp_encode_set_config_command n s v
  | ReqGetConfig n s => cswp_encode_get_config_command n s
  | ReqGetDeviceCapabilities n => cswp_encode_get_device_capabilities_command n
  | ReqRegList n => cswp_encode_reg_list_command n
  | ReqRegRead n ids => cswp_encode_reg_read_command n (len ids) ids
  | ReqMemRead n a s sz f => cswp_encode_mem_read_command n a s sz f
  | ReqMemWrite n a sz f d => cswp_encode_mem_write_command n a (len d) sz f d
  | ReqMemPoll n a sz f t dl m v =>
      cswp_encode_mem_poll_command n a (len m) sz f t dl m v
  | ReqNvsecUnlock e => cswp_encode_nvsec_unlock_command e
  | ReqNvsecToken t => cswp_encode_nvsec_token_command (len t) t
  | ReqNvsecVerify s => cswp_encode_nvsec_verify_command s
  | ReqNvsecEncrypt s => cswp_encode_nvsec_encrypt_command s
  end.

(** Arguments in the range of their C types; array lengths below [2 ^ 32]. *)
Definition request_ok (r : request) : Prop :=
  Forall field_ok (request_fields r) /\
  match r with
  | ReqSetDevices ds => len ds < 2 ^ 32
  | ReqRegRead _ ids => len ids < 2 ^ 32
  | ReqMemWrite _ _ _ _ d => len d < 2 ^ 63
  | ReqMemPoll _ _ _ _ _ _ m v => length m = length v
  | _ => True
  end.

Example reg_read_bytes :
  request_bytes (ReqRegRead 1 [5; 300]) = [129; 4; 1; 2; 5; 172; 2].
Proof. reflexivity. Qed.

(** ** The encoders write their requests *)

Lemma e_index_at {S A} (l1 : list A) a l2 s :
  @e_index S A (l1 ++ a :: l2) (len l1) s = Some (Val a, s).
Proof. apply e_index_eq; [lia|]. rewrite Nat2Z.id. by apply list_lookup_middle. Qed.

(** A loop over the elements of an array. *)
Lemma writes_for {A} (f : A -> list Z) (body : Z -> BufM unit) (l2 l1 : list A) :
  (forall p a q, l1 ++ l2 = p ++ a :: q -> Writes (body (len p)) (f a)) ->
  Writes (e_for (length l2) (len l1) body) (concat (f <$> l2)).
Proof.
  revert l1. induction l2 as [|a l2 IH]; intros l1 Hbody; [apply writes_ret|].
  apply (writes_seq _ _ (f a)).
  - by apply (Hbody l1 a l2).
  - specialize (IH (l1 ++ [a])). rewrite length_app in IH. simpl in IH.
    replace (len l1 + 1) with (Z.of_nat (length l1 + 1)) by lia.
    apply IH. intros p b q Hp. apply (Hbody p b q). by rewrite <- Hp, <- app_assoc.
Qed.

Lemma writes_ret_r m bs : Writes m bs -> Writes (m;; mret tt) bs.
Proof.
  intros. rewrite <- (app_nil_r bs). apply writes_seq; [done|apply writes_ret].
Qed.

Lemma fields_bytes_cons f fs : fields_bytes (f :: fs) = field_bytes f ++ fields_bytes fs.
Proof. done. Qed.
Lemma fields_bytes_app fs gs :
  fields_bytes (fs ++ gs) = fields_bytes fs ++ fields_bytes gs.
Proof. unfold fields_bytes. by rewrite fmap_app, concat_app. Qed.

Lemma writes_header m : Writes (cswp_encode_command_header (cmd_id m)) (varint_enc (cmd_id m)).
Proof. apply writes_ret_r. auto using writes_put_varint, cmd_id_u64. Qed.

(** One field, then the rest of the message. *)
Lemma writes_field_then f fs m m' :
  put_field f = m -> field_ok f -> Writes m' (fields_bytes fs) ->
  Writes (m;; m') (fields_bytes (f :: fs)).
Proof. intros <- Hf Hm. apply writes_seq; [by apply writes_field|done]. Qed.

Lemma writes_sized_data fs d n m' :
  n = len d -> bytes_ok d -> Writes m' (fields_bytes fs) ->
  Writes (cswp_buffer_put_data d n;; m') (fields_bytes (FData d :: fs)).
Proof. intros -> Hd. by apply (writes_field_then (FData d)). Qed.

Lemma devices_bytes (ds : list (list Z * list Z)) :
  fields_bytes (concat ((fun d => [FString d.1; FString d.2]) <$> ds)) =
    concat ((fun d => string_enc d.1 ++ string_enc d.2) <$> ds).
Proof.
  induction ds as [|d ds IH]; [done|]. rewrite !fmap_cons. cbn [concat app].
  by rewrite !fields_bytes_cons, IH, <- app_assoc.
Qed.

Lemma varints_bytes ids : fields_bytes (FVarint <$> ids) = concat (varint_enc <$> ids).
Proof.
  induction ids as [|i ids IH]; [done|]. rewrite !fmap_cons. cbn [concat].
  by rewrite fields_bytes_cons, IH.
Qed.

Lemma writes_devices (ds : list (list Z * list Z)) :
  Forall field_ok (concat ((fun d => [FString d.1; FString d.2]) <$> ds)) ->
  Writes (e_for (length ds) 0 (fun i =>
    d ← e_index ds.*1 i; cswp_buffer_put_string d;;
    t ← e_index ds.*2 i; cswp_buffer_put_string t))
    (fields_bytes (concat ((fun d => [FString d.1; FString d.2]) <$> ds))).
Proof.
  intros Hok. rewrite devices_bytes.
  apply (writes_for _ _ ds []). intros p [d t] q Heq. simpl in Heq. subst ds.
  rewrite fmap_app, concat_app in Hok. apply Forall_app in Hok as [_ Hok].
  rewrite fmap_cons in Hok. cbn [concat app] in Hok.
  apply Forall_cons_1 in Hok as [[? ?] Hok]. apply Forall_cons_1 in Hok as [[? ?] _].
  rewrite !fmap_app, !fmap_cons. simpl.
  eapply writes_equiv; [|apply (writes_seq _ _ _ _ (writes_put_string d ltac:(done)) (writes_put_string t ltac:(done)))].
  intros b. symmetry.
  assert (He1 : forall s, @e_index CSWP_BUFFER _ (p.*1 ++ d :: q.*1) (len p) s = Some (Val d, s))
    by (intros; rewrite <- (length_fmap fst p); apply e_index_at).
  assert (He2 : forall s, @e_index CSWP_BUFFER _ (p.*2 ++ t :: q.*2) (len p) s = Some (Val t, s))
    by (intros; rewrite <- (length_fmap snd p); apply e_index_at).
  rewrite (E_bind_val _ _ _ _ _ (He1 b)).
  unfold mbind, E_bind. destruct (cswp_buffer_put_string d b) as [[[]]|]; [|done|done].
  by rewrite He2.
Qed.

Lemma writes_reg_ids ids :
  Forall field_ok (FVarint <$> ids) ->
  Writes (e_for (length ids) 0 (fun i => id ← e_index ids i; cswp_buffer_put_varint id))
    (fields_bytes (FVarint <$> ids)).
Proof.
  intros Hok. rewrite varints_bytes.
  apply (writes_for _ _ ids []). intros p i q Heq. simpl in Heq. subst ids.
  rewrite fmap_app in Hok. apply Forall_app in Hok as [_ Hok].
  simpl in Hok. inversion_clear Hok.
  eapply writes_equiv; [|by apply (writes_put_varint i)].
  intros b. symmetry. by rewrite (E_bind_val _ _ _ _ _ (e_index_at p i q b)).
Qed.

Lemma writes_request t fs m :
  Writes m (fields_bytes fs) ->
  Writes (cswp_encode_command_header (cmd_id t);; m) (fields_bytes (FVarint (cmd_id t) :: fs)).
Proof. intros. by apply writes_seq; [apply writes_header|]. Qed.

Ltac field_hyps :=
  repeat match goal with
  | H : Forall field_ok (_ :: _) |- _ => apply Forall_cons_1 in H as [? H]
  end.

Lemma encode_request_writes r : request_ok r -> Writes (encode_request r) (request_bytes r).
Proof.
  intros [Hf Hx]. unfold request_bytes.
  destruct r; cbn [request_fields request_type encode_request] in *; field_hyps;
    apply writes_request;
    repeat first [apply writes_ret | apply writes_sized_data; [lia|done|]
                 | eapply writes_field_then; [reflexivity|done|]].
  - rewrite u32_small, Nat2Z.id by lia. apply writes_ret_r, (writes_devices _ Hf).
  - rewrite u32_small, Nat2Z.id by lia. apply writes_ret_r, (writes_reg_ids _ Hf).
Qed.

(** ** Decoders on the response buffer *)

#[export] Instance getter_response_header : Getter cswp_decode_response_header.
Proof. unfold cswp_decode_response_header. apply _. Qed.
#[export] Instance getter_error_body n : Getter (cswp_decode_error_response_body n).
Proof. apply getter_get_string. Qed.
#[export] Instance getter_reg_info n d s : Getter (cswp_decode_reg_info n d s).
Proof. unfold cswp_decode_reg_info. apply _. Qed.
#[export] Instance getter_capabilities : Getter cswp_decode_get_device_capabilities_response_body.
Proof.
  apply getter_bind; [apply _|]. intros c. case_match; apply _.
Qed.

Lemma reads_response_header t c :
  is_u64 c -> Reads cswp_decode_response_header (varint_enc (cmd_id t) ++ varint_enc c) (cmd_id t, c).
Proof.
  intros. eapply reads_bind; [apply reads_get_varint, cmd_id_u64|].
  apply (reads_map _ (pair (cmd_id t))). by apply reads_get_varint.
Qed.

Lemma on_buf_eq {A} (m : BufM A) b x r b' :
  m b = Some (r, b') -> on_buf m (b, x) = Some (r, (b', x)).
Proof. unfold on_buf, zoom. simpl. by intros ->. Qed.
Lemma on_mem_eq {A} (m : MemM A) b x r x' :
  m x = Some (r, x') -> on_mem m (b, x) = Some (r, (b, x')).
Proof. unfold on_mem, zoom. simpl. by intros ->. Qed.

(** A string that fits is stored with its NUL. *)
Lemma get_string_to_reads b m p sz s rest :
  buf_ok b -> unread b = string_enc s ++ rest -> len s < sz < 2 ^ 64 ->
  valid m p (len s + 1) ->
  get_string_to p sz (b, m) =
    Some (Val tt, (set_pos (pos b + len (string_enc s)) b, put_mem p (s ++ [0]) m)).
Proof.
  intros Hb Hu Hs Hv. unfold get_string_to.
  rewrite (E_bind_val _ _ _ s (set_pos (pos b + len (string_enc s)) b, m)).
  - apply on_mem_eq, store_valid. rewrite length_app. simpl.
    by replace (Z.of_nat (length s + 1)) with (len s + 1) by lia.
  - apply on_buf_eq. apply (reads_get_string s sz ltac:(lia) ltac:(lia) b rest Hb Hu).
Qed.

(** ** Properties *)



(** Skipping an optional string (null pointer or size zero) does not check
    its length: with a length larger than what was received the cursor moves
    past the received data, and the next [get] does not fail but reads the byte
    found there (left from an older message), or leaves the buffer's memory
    (undefined behaviour) when the cursor is past its end. *)
Lemma optional_string_skip_unchecked b m n rest x :
  buf_ok b -> unread b = varint_enc n ++ rest -> len rest < n < 2 ^ 62 ->
  let p := pos b + len (varint_enc n) + n in
  exists b',
    cswp_get_optional_string None 0 (b, m) = Some (Val tt, (b', m)) /\
    pos b' = p /\ used b' = used b /\ used b < p /\
    (buf b !! Z.to_nat p = Some x -> x < 128 -> 0 <= x ->
     cswp_buffer_get_varint b' = Some (Val x, set_pos (p + 1) b')) /\
    (len (buf b) <= p -> cswp_buffer_get_varint b' = None).
Proof.
  intros Hb Hu Hn p. pose proof Hb as [? ? ? ?].
  assert (Hv : is_u64 n) by (unfold is_u64; lia).
  pose proof (len_unread b Hb) as Hl. rewrite Hu, length_app in Hl.
  exists (set_pos p b). assert (Hreq : forall k, CSWP_REQUIRE_R 1 (set_pos p b) = k ->
    Some (Val tt, set_pos p b) = k).
  { intros k <-. unfold CSWP_REQUIRE_R; simpl. unfold u64.
    replace (used b - p) with (2 ^ 64 + (used b - p) + (-1) * 2 ^ 64) by lia.
    rewrite Z.mod_add, Z.mod_small by lia. destruct (Z.ltb_spec (2 ^ 64 + (used b - p)) 1); [lia|done]. }
  split_and!; [|done|done|lia| |].
  - unfold cswp_get_optional_string. simpl.
    rewrite (E_bind_val _ _ _ n (set_pos (pos b + len (varint_enc n)) b, m)).
    + unfold on_buf, zoom, e_modify, cswp_buffer_skip; simpl. by rewrite u64_small by lia.
    + apply on_buf_eq, (reads_get_varint n Hv b rest Hb Hu).
  - intros Hx Hx1 Hx0. unfold cswp_buffer_get_varint. simpl.
    rewrite (E_bind_val _ _ _ tt (set_pos p b)) by (symmetry; by apply Hreq).
    pose proof (lookup_lt_Some _ _ _ Hx).
    rewrite (E_bind_val _ _ _ x (set_pos (p + 1) b)).
    + rewrite land_128 by (unfold is_byte; lia). destruct (Z.ltb_spec x 128); [|lia].
      simpl. rewrite Z.shiftl_0_r, land_127, u64_small, Z.mod_small
        by (rewrite ?Z.mod_small; lia). done.
    + unfold CSWP_GET_BYTE; simpl. rewrite decide_True, Hx, u64_small by lia. done.
  - intros Hout. unfold cswp_buffer_get_varint. simpl.
    rewrite (E_bind_val _ _ _ tt (set_pos p b)) by (symmetry; by apply Hreq).
    apply E_bind_ub. unfold CSWP_GET_BYTE; simpl. rewrite decide_False by lia. done.
Qed.

Lemma optional_string_skip_unchecked_witness :
  exists b',
    cswp_get_optional_string None 0 (mkBuf 8 1 0 [3; 9; 9; 9; 42; 0; 0; 0], ∅) =
      Some (Val tt, (b', ∅)) /\
    cswp_buffer_get_varint b' = Some (Val 42, set_pos 5 b').
Proof.
  destruct (optional_string_skip_unchecked (mkBuf 8 1 0 [3; 9; 9; 9; 42; 0; 0; 0]) ∅ 3 [] 42)
    as (b' & H1 & _ & _ & _ & H2 & _).
  - constructor; simpl; lia.
  - reflexivity.
  - simpl. lia.
  - exists b'. split; [exact H1|]. apply H2; [reflexivity|lia|lia].
Defined.
