(* ===== verification/ClientState.v ===== *)
(** The state of a client of [cswp_client.c] (the public [cswp_client_t], its
    private data, the caller's memory and the transport behind the function
    pointers), the monad its functions run in, and the helpers that every
    command uses: the error message, the list of pending responses and the
    preparation of the command buffer. *)
From S2P Require Import Prelude Wire CswpTypes CswpBuffer Memory ClientCommands.

Definition CSWP_ERR_MSG_SIZE : Z := 1024.
Definition CSWP_REQ_HEADER_SIZE : Z := 4 + 10 + 1.
Definition CSWP_REQ_RSP_BUFFER_SIZE : Z := 16384.

(** ** Transport

    What the client calls through the function pointers [connect],
    [disconnect], [send], [receive] and [receive_async].  A callback returns a
    code, reports an error with [cswp_client_error], or ends the process
    ([std::terminate]), after which there is no state.  [receive] stores bytes
    at the start of the response buffer together with their number, or leaves
    both alone. *)

Inductive tres :=
  | TRet (code : Z)
  | TThrow (code : Z) (what : list Z)
  | TTerminate.

Class Transport (T : Type) := {
  t_connect : option (T -> tres * T);
  t_disconnect : option (T -> tres * T);
  t_send : list Z -> T -> tres * T;
  t_receive : Z -> T -> tres * option (list Z) * T;
  t_receive_async : Z -> T -> tres * option (list Z) * T;
}.

(** ** Response data and the functions that process responses *)

Record cswp_init_rsp_data := {
  init_serverProtocolVersion : ptr;
  init_serverID : ptr;
  init_serverIDSize : Z;
  init_serverVersion : ptr;
}.

(** [deviceList] and [deviceTypes] are arrays of pointers. *)
Record cswp_get_devices_rsp_data := {
  gd_deviceCount : ptr;
  gd_deviceList : list ptr;
  gd_deviceListSize : Z;
  gd_deviceListEntrySize : Z;
  gd_deviceTypes : list ptr;
  gd_deviceTypeSize : Z;
  gd_deviceTypeEntrySize : Z;
}.

Record cswp_device_open_rsp_data := {
  do_deviceInfo : ptr;
  do_deviceInfoSize : Z;
}.

Record cswp_get_device_capabilities_rsp_data := {
  gc_capabilities : ptr;
  gc_capabilityData : ptr;
}.

Record cswp_reg_read_rsp_data := {
  rr_registerValues : ptr;
  rr_registerValuesSize : Z;
}.

Record cswp_reg_list_rsp_data := {
  rl_registerCount : ptr;
  rl_registerInfo : ptr;
  rl_registerInfoSize : Z;
  rl_strBuf : ptr;
  rl_strBufSize : Z;
}.

Record cswp_mem_poll_rsp_data := {
  mp_buf : ptr;
  mp_maxBytes : Z;
  mp_bytesRead : ptr;
}.

Record cswp_mem_read_rsp_data := {
  mr_buf : ptr;
  mr_maxBytes : Z;
  mr_bytesRead : ptr;
}.

Record cswp_nvsec_unlock_rsp_data := {
  nu_token_req : ptr;
  nu_num_token_req_bytes : Z;
}.

Record cswp_nvsec_verify_rsp_data := {
  nv_signature : ptr;
  nv_signatureSize : Z;
}.

Record cswp_nvsec_encrypt_rsp_data := {
  ne_server_public_key : ptr;
  ne_key_size : Z;
}.

(** A function pointer of type [complete_func] with its [replyData]. *)
Inductive complete_func :=
  | Cinit (d : cswp_init_rsp_data)
  | Cget_devices (d : cswp_get_devices_rsp_data)
  | Cdevice_open (d : cswp_device_open_rsp_data)
  | Cget_device_capabilities (d : cswp_get_device_capabilities_rsp_data)
  | Creg_list (d : cswp_reg_list_rsp_data)
  | Creg_read (d : cswp_reg_read_rsp_data)
  | Cmem_read (d : cswp_mem_read_rsp_data)
  | Cmem_poll (d : cswp_mem_poll_rsp_data)
  | Cnvsec_unlock (d : cswp_nvsec_unlock_rsp_data)
  | Cnvsec_verify (d : cswp_nvsec_verify_rsp_data)
  | Cnvsec_encrypt (d : cswp_nvsec_encrypt_rsp_data).

Record pending_response_t := {
  pr_type : cswp_commands_t;
  pr_complete : option complete_func;
}.

Inductive batch_mode_t := BATCH_NONE | BATCH_CONTINUE | BATCH_ABORT.

#[export] Instance batch_mode_eq_dec : EqDecision batch_mode_t.
Proof. solve_decision. Defined.

Definition batch_mode_id (b : batch_mode_t) : Z :=
  match b with BATCH_NONE => 0 | BATCH_CONTINUE => 1 | BATCH_ABORT => 2 end.

(** ** Client state *)

Record cswp_client_priv_t := mkPriv {
  hdr : CSWP_BUFFER;
  cmd : CSWP_BUFFER;
  rsp : CSWP_BUFFER;
  batch_mode : batch_mode_t;
  num_cmds : Z;
  pending_responses : list pending_response_t;
  connected : Z;
  cswp_init_serverProtocolVersion : Z;
  cswp_init_serverVersion : Z;
  cswp_init_serverID : option (list Z);
}.

(** [errorMsg]: the string in the error message buffer, [None] when the pointer
    is null; [priv] likewise. *)
Record world (T : Type) := mkWorld {
  errorMsg : option (list Z);
  errorCode : Z;
  priv : option cswp_client_priv_t;
  memory : mem;
  transport : T;
}.
Arguments mkWorld {T}.
Arguments errorMsg {T}.
Arguments errorCode {T}.
Arguments priv {T}.
Arguments memory {T}.
Arguments transport {T}.

Section setters.
Implicit Types p : cswp_client_priv_t.
Definition set_hdr x p := mkPriv x (cmd p) (rsp p) (batch_mode p) (num_cmds p)
  (pending_responses p) (connected p) (cswp_init_serverProtocolVersion p)
  (cswp_init_serverVersion p) (cswp_init_serverID p).
Definition set_cmd x p := mkPriv (hdr p) x (rsp p) (batch_mode p) (num_cmds p)
  (pending_responses p) (connected p) (cswp_init_serverProtocolVersion p)
  (cswp_init_serverVersion p) (cswp_init_serverID p).
Definition set_rsp x p := mkPriv (hdr p) (cmd p) x (batch_mode p) (num_cmds p)
  (pending_responses p) (connected p) (cswp_init_serverProtocolVersion p)
  (cswp_init_serverVersion p) (cswp_init_serverID p).
Definition set_batch_mode x p := mkPriv (hdr p) (cmd p) (rsp p) x (num_cmds p)
  (pending_responses p) (connected p) (cswp_init_serverProtocolVersion p)
  (cswp_init_serverVersion p) (cswp_init_serverID p).
Definition set_num_cmds x p := mkPriv (hdr p) (cmd p) (rsp p) (batch_mode p) x
  (pending_responses p) (connected p) (cswp_init_serverProtocolVersion p)
  (cswp_init_serverVersion p) (cswp_init_serverID p).
Definition set_pending x p := mkPriv (hdr p) (cmd p) (rsp p) (batch_mode p) (num_cmds p)
  x (connected p) (cswp_init_serverProtocolVersion p)
  (cswp_init_serverVersion p) (cswp_init_serverID p).
Definition set_connected x p := mkPriv (hdr p) (cmd p) (rsp p) (batch_mode p) (num_cmds p)
  (pending_responses p) x (cswp_init_serverProtocolVersion p)
  (cswp_init_serverVersion p) (cswp_init_serverID p).
Definition set_init_data v i n p := mkPriv (hdr p) (cmd p) (rsp p) (batch_mode p)
  (num_cmds p) (pending_responses p) (connected p) v n i.
End setters.

Abbreviation ClientM T := (M (world T)).

Section client.
Context {T : Type}.

Definition set_priv (p : option cswp_client_priv_t) (w : world T) : world T :=
  mkWorld (errorMsg w) (errorCode w) p (memory w) (transport w).
Definition set_memory (m : mem) (w : world T) : world T :=
  mkWorld (errorMsg w) (errorCode w) (priv w) m (transport w).
Definition set_transport (t : T) (w : world T) : world T :=
  mkWorld (errorMsg w) (errorCode w) (priv w) (memory w) t.
Definition set_error (m : option (list Z)) (c : Z) (w : world T) : world T :=
  mkWorld m c (priv w) (memory w) (transport w).

(** [priv->...]: a null pointer is undefined. *)
Definition get_priv : ClientM T cswp_client_priv_t := fun w =>
  match priv w with Some p => Some (p, w) | None => None end.
Definition upd_priv (f : cswp_client_priv_t -> cswp_client_priv_t) : ClientM T unit :=
  fun w => match priv w with
           | Some p => Some (tt, set_priv (Some (f p)) w)
           | None => None
           end.

(** Calls of buffer functions on [priv->cmd], [priv->hdr] and [priv->rsp],
    and of decoders on [priv->rsp] and the caller's memory. *)
Definition on_cmd {A} (m : BufM A) : ClientM T (result A) :=
  p ← get_priv;
  match m (cmd p) with
  | Some (r, b) => upd_priv (set_cmd b);; mret r
  | None => ub
  end.
Definition on_hdr {A} (m : BufM A) : ClientM T (result A) :=
  p ← get_priv;
  match m (hdr p) with
  | Some (r, b) => upd_priv (set_hdr b);; mret r
  | None => ub
  end.
Definition on_rsp {A} (m : BufM A) : ClientM T (result A) :=
  p ← get_priv;
  match m (rsp p) with
  | Some (r, b) => upd_priv (set_rsp b);; mret r
  | None => ub
  end.
Definition on_rsp_mem {A} (m : DecM A) : ClientM T (result A) := fun w =>
  match priv w with
  | Some p =>
      match m (rsp p, memory w) with
      | Some (r, (b, x)) => Some (r, set_memory x (set_priv (Some (set_rsp b p)) w))
      | None => None
      end
  | None => None
  end.

(** Accesses to the caller's memory. *)
Definition on_memory {A} (m : MemM A) : ClientM T A := fun w =>
  match m (memory w) with
  | Some (Val a, x) => Some (a, set_memory x w)
  | _ => None
  end.

(** [++i] of an [int] field. *)
Definition int_incr (i : Z) : ClientM T Z :=
  if i <? 2 ^ 31 - 1 then mret (i + 1) else ub.

(** [for (i = start; ...; ++i)] while [res] is [CSWP_SUCCESS]. *)
Fixpoint for_ok (n : nat) (i : Z) (body : Z -> ClientM T Z) (res : Z) : ClientM T Z :=
  match n with
  | O => mret res
  | S n' =>
      if res =? CSWP_SUCCESS then (r ← body i; for_ok n' (i + 1) body r)
      else mret res
  end.

(** ** [vsnprintf]: the text of the messages the client formats *)

Fixpoint digits (base : Z) (fuel : nat) (v : Z) (acc : list Z) : list Z :=
  match fuel with
  | O => acc
  | S f =>
      let d := v mod base in
      let c := if d <? 10 then 48 + d else 55 + d in
      if v <? base then c :: acc else digits base f (v / base) (c :: acc)
  end.

(** [%d] takes an [int], [%lX] an [unsigned long]. *)
Definition fmt_d (v : Z) : list Z :=
  let i := int32 v in
  if i <? 0 then 45 :: digits 10 11 (- i) [] else digits 10 11 i [].
Definition fmt_lX (v : Z) : list Z := digits 16 16 v [].

Definition cswp_client_error (code : Z) (text : list Z) : ClientM T Z := fun w =>
  match errorMsg w with
  | Some _ =>
      Some (code, set_error (Some (take (Z.to_nat (CSWP_ERR_MSG_SIZE - 1)) (c_str text)))
                            code w)
  | None => None
  end.

Definition cswp_client_add_node_for_pending_rsp (type : cswp_commands_t)
    (complete : option complete_func) : ClientM T unit :=
  p ← get_priv;
  upd_priv (set_pending (pending_responses p ++ [{| pr_type := type; pr_complete := complete |}]));;
  n ← int_incr (num_cmds p);
  upd_priv (set_num_cmds n).

(** [hdr_mem], [cmd_mem] and [rsp_mem]: what [malloc] returns for the three
    buffers; the code does not check for failure. *)
Definition cswp_client_init (hdr_mem cmd_mem rsp_mem : option (list Z)) : ClientM T Z :=
  modify (set_error (Some []) CSWP_SUCCESS);;
  match cswp_buffer_alloc hdr_mem CSWP_REQ_HEADER_SIZE,
        cswp_buffer_alloc cmd_mem CSWP_REQ_RSP_BUFFER_SIZE,
        cswp_buffer_alloc rsp_mem CSWP_REQ_RSP_BUFFER_SIZE with
  | Some h, Some c, Some r =>
      modify (set_priv (Some (mkPriv h c r BATCH_NONE 0 [] 0 0 0 None)));;
      mret CSWP_SUCCESS
  | _, _, _ => ub
  end.

Definition cswp_client_term : ClientM T Z :=
  c ← gets errorCode;
  modify (set_error None c);;
  modify (set_priv None);;
  mret CSWP_SUCCESS.

Definition cswp_client_prep_priv_cmd_data : ClientM T Z :=
  p ← get_priv;
  (if decide (batch_mode p = BATCH_NONE) then
     upd_priv (fun p => set_num_cmds 0 (set_pending []
       (set_cmd (set_used CSWP_REQ_HEADER_SIZE (set_pos CSWP_REQ_HEADER_SIZE (cmd p))) p)))
   else mret tt);;
  mret CSWP_SUCCESS.
End client.

Example fmt_d_1234 : fmt_d (-1234) = bytes_of "-1234".
Proof. reflexivity. Qed.
Example fmt_lX_dead : fmt_lX 0xDEAD = bytes_of "DEAD".
Proof. reflexivity. Qed.
