(* ===== verification/ClientComplete.v ===== *)
(** The completion functions of [cswp_client.c]: each decodes the body of one
    successful response from the response buffer and stores its results in the
    caller's memory. *)
From S2P Require Import Prelude Wire CswpTypes CswpBuffer Memory ClientCommands ClientState.

Section complete.
Context {T : Type}.
Local Abbreviation CM := (ClientM T).

Definition cswp_init_complete (d : cswp_init_rsp_data) : CM Z :=
  r ← on_rsp_mem (cswp_decode_init_response_body (init_serverID d) (init_serverIDSize d));
  match r with
  | Fail c => mret c
  | Val (protoVer, svrVer) =>
      (if decide (init_serverProtocolVersion d = None) then mret tt
       else on_memory (store (init_serverProtocolVersion d) [protoVer]));;
      (if decide (init_serverVersion d = None) then mret tt
       else on_memory (store (init_serverVersion d) [u32 svrVer]));;
      mret CSWP_SUCCESS
  end.

(** The result of reading a device name is overwritten by that of its type. *)
Definition get_devices_body (d : cswp_get_devices_rsp_data) (i : Z) : CM Z :=
  n ← on_rsp_mem (dev ← e_index (gd_deviceList d) i;
                  get_string_to dev (gd_deviceListEntrySize d));
  t ← on_rsp_mem (ty ← e_index (gd_deviceTypes d) i;
                  get_string_to ty (gd_deviceTypeEntrySize d));
  mret (code_of t).

Definition cswp_get_devices_complete (d : cswp_get_devices_rsp_data) : CM Z :=
  r ← on_rsp cswp_decode_get_devices_response_body;
  match r with
  | Fail c => mret c
  | Val devCount =>
      on_memory (store (gd_deviceCount d) [u32 devCount]);;
      if gd_deviceListSize d <? devCount then
        cswp_client_error CSWP_OUTPUT_BUFFER_OVERFLOW (bytes_of "Device list too small")
      else if gd_deviceTypeSize d <? devCount then
        cswp_client_error CSWP_OUTPUT_BUFFER_OVERFLOW (bytes_of "Device type list too small")
      else for_ok (Z.to_nat (u32 devCount)) 0 (get_devices_body d) CSWP_SUCCESS
  end.

Definition cswp_device_open_complete (d : cswp_device_open_rsp_data) : CM Z :=
  r ← on_rsp_mem (cswp_decode_device_open_response_body (do_deviceInfo d) (do_deviceInfoSize d));
  mret (code_of r).

(** Without register support [capabilityData] is stored uninitialised. *)
Definition cswp_get_device_capabilities_complete
    (d : cswp_get_device_capabilities_rsp_data) : CM Z :=
  r ← on_rsp cswp_decode_get_device_capabilities_response_body;
  match r with
  | Fail c => mret c
  | Val (capabilities, capabilityData) =>
      on_memory (store (gc_capabilities d) [u32 capabilities]);;
      match capabilityData with
      | Some c => on_memory (store (gc_capabilityData d) [u32 c]);; mret CSWP_SUCCESS
      | None => ub
      end
  end.

(** The string buffer while the list is decoded: [strBuf], [strBufSize]. *)
Definition str_state : Type := ptr * Z.

(** One of the three copies of a string into the caller's string buffer; [set]
    is the pointer field of [registerInfo[i]] that receives its address. *)
Definition reg_list_string (d : cswp_reg_list_rsp_data) (i : Z) (s : list Z)
    (set : ptr -> cswp_register_info_t -> cswp_register_info_t)
    (st : str_state) (res : Z) : CM (str_state * Z) :=
  let '(strBuf, strBufSize) := st in
  let n := len (c_str s) in
  if strBufSize <? n then
    e ← cswp_client_error CSWP_OUTPUT_BUFFER_OVERFLOW (bytes_of "strBuf too small");
    mret (st, e)
  else
    on_memory (store strBuf (c_str s ++ [0]));;
    on_memory (update_reg (rl_registerInfo d) i (set strBuf));;
    mret ((ptr_add strBuf (n + 1), u64 (strBufSize - (n + 1))), res).

Definition reg_set_id_size (id sz : Z) (r : cswp_register_info_t) : cswp_register_info_t :=
  mkRegInfo id (ri_name r) sz (ri_displayName r) (ri_description r).
Definition reg_set_name (p : ptr) (r : cswp_register_info_t) : cswp_register_info_t :=
  mkRegInfo (ri_id r) p (ri_size r) (ri_displayName r) (ri_description r).
Definition reg_set_displayName (p : ptr) (r : cswp_register_info_t) : cswp_register_info_t :=
  mkRegInfo (ri_id r) (ri_name r) (ri_size r) p (ri_description r).
Definition reg_set_description (p : ptr) (r : cswp_register_info_t) : cswp_register_info_t :=
  mkRegInfo (ri_id r) (ri_name r) (ri_size r) (ri_displayName r) p.

Definition reg_list_body (d : cswp_reg_list_rsp_data) (i : Z) (st : str_state)
    : CM (str_state * Z) :=
  r ← on_rsp (cswp_decode_reg_info 256 256 1024);
  match r with
  | Fail c => mret (st, c)
  | Val (regID, regName, regSize, displayName, description) =>
      on_memory (update_reg (rl_registerInfo d) i (reg_set_id_size (u32 regID) (u32 regSize)));;
      x ← reg_list_string d i regName reg_set_name st CSWP_SUCCESS;
      y ← reg_list_string d i displayName reg_set_displayName x.1 x.2;
      reg_list_string d i description reg_set_description y.1 y.2
  end.

Fixpoint reg_list_loop (d : cswp_reg_list_rsp_data) (n : nat) (i : Z)
    (st : str_state) (res : Z) : CM Z :=
  match n with
  | O => mret res
  | S n' =>
      if res =? CSWP_SUCCESS then
        (x ← reg_list_body d i st; reg_list_loop d n' (i + 1) x.1 x.2)
      else mret res
  end.

Definition cswp_device_reg_list_complete (d : cswp_reg_list_rsp_data) : CM Z :=
  r ← on_rsp cswp_decode_reg_list_response_body;
  match r with
  | Fail c => mret c
  | Val regCount =>
      on_memory (store (rl_registerCount d) [u32 regCount]);;
      if rl_registerInfoSize d <? regCount then
        cswp_client_error CSWP_OUTPUT_BUFFER_OVERFLOW (bytes_of "registerInfo too small")
      else
        reg_list_loop d (Z.to_nat (u32 regCount)) 0 (rl_strBuf d, rl_strBufSize d)
                      CSWP_SUCCESS
  end.

Definition reg_read_body (d : cswp_reg_read_rsp_data) (i : Z) : CM Z :=
  r ← on_rsp_mem (v ← on_buf cswp_buffer_get_uint32;
                  on_mem (store (ptr_add (rr_registerValues d) i) [v]));
  mret (code_of r).

Definition cswp_device_reg_read_complete (d : cswp_reg_read_rsp_data) : CM Z :=
  r ← on_rsp cswp_decode_reg_read_response_body;
  match r with
  | Fail c => mret c
  | Val count =>
      if rr_registerValuesSize d <? count then
        cswp_client_error CSWP_OUTPUT_BUFFER_OVERFLOW (bytes_of "registerValues too small")
      else for_ok (Z.to_nat (u32 count)) 0 (reg_read_body d) CSWP_SUCCESS
  end.

(** [memcpy(dst, pData, n)] from the response buffer. *)
Definition copy_from_rsp (dst : ptr) (pData n : Z) : CM unit :=
  p ← get_priv;
  if decide (0 <= pData /\ pData + n <= len (buf (rsp p))) then
    on_memory (store dst (take (Z.to_nat n) (drop (Z.to_nat pData) (buf (rsp p)))))
  else ub.

Definition cswp_device_mem_read_complete (d : cswp_mem_read_rsp_data) : CM Z :=
  r ← on_rsp cswp_decode_mem_read_response_body;
  match r with
  | Fail c => mret c
  | Val bytesRead =>
      r ← on_rsp (cswp_buffer_get_direct bytesRead);
      match r with
      | Fail c => mret c
      | Val pData =>
          let '(bytesRead, res) :=
            if mr_maxBytes d <? bytesRead then (mr_maxBytes d, CSWP_OUTPUT_BUFFER_OVERFLOW)
            else (bytesRead, CSWP_SUCCESS) in
          copy_from_rsp (mr_buf d) pData bytesRead;;
          on_memory (store (mr_bytesRead d) [bytesRead]);;
          mret res
      end
  end.

Definition cswp_device_mem_poll_complete (d : cswp_mem_poll_rsp_data) : CM Z :=
  r ← on_rsp cswp_decode_mem_poll_response_body;
  match r with
  | Fail c => mret c
  | Val bytesRead =>
      r ← on_rsp (cswp_buffer_get_direct bytesRead);
      match r with
      | Fail c => mret c
      | Val pData =>
          x ← (if decide (mp_buf d = None) then mret (bytesRead, CSWP_SUCCESS)
               else
                 let '(bytesRead, res) :=
                   if mp_maxBytes d <? bytesRead
                   then (mp_maxBytes d, CSWP_OUTPUT_BUFFER_OVERFLOW)
                   else (bytesRead, CSWP_SUCCESS) in
                 copy_from_rsp (mp_buf d) pData bytesRead;;
                 mret (bytesRead, res));
          (if decide (mp_bytesRead d = None) then mret tt
           else on_memory (store (mp_bytesRead d) [x.1]));;
          mret x.2
      end
  end.

(** The result of [cswp_buffer_get_direct] is ignored: when it fails [pData]
    is uninitialised. *)
Definition cswp_nvsec_unlock_complete (d : cswp_nvsec_unlock_rsp_data) : CM Z :=
  let num_bytes := nu_num_token_req_bytes d in
  if negb (num_bytes =? CSWP_NVSEC_NUM_TOKEN_REQ_BYTES) then mret CSWP_NVSEC_TOKEN_REQ_ERR
  else
    r ← on_rsp (cswp_buffer_get_direct num_bytes);
    match r with
    | Fail _ => ub
    | Val pData => copy_from_rsp (nu_token_req d) pData num_bytes;; mret CSWP_SUCCESS
    end.

Definition cswp_nvsec_verify_complete (d : cswp_nvsec_verify_rsp_data) : CM Z :=
  r ← on_rsp_mem (cswp_decode_nvsec_verify_response_body (nv_signatureSize d) (nv_signature d));
  mret (code_of r).

Definition cswp_nvsec_encrypt_complete (d : cswp_nvsec_encrypt_rsp_data) : CM Z :=
  r ← on_rsp_mem (cswp_decode_nvsec_encrypt_response_body (ne_key_size d)
                    (ne_server_public_key d));
  mret (code_of r).

(** [pendingRsp->complete(client, pendingRsp->replyData)] *)
Definition run_complete (c : complete_func) : CM Z :=
  match c with
  | Cinit d => cswp_init_complete d
  | Cget_devices d => cswp_get_devices_complete d
  | Cdevice_open d => cswp_device_open_complete d
  | Cget_device_capabilities d => cswp_get_device_capabilities_complete d
  | Creg_list d => cswp_device_reg_list_complete d
  | Creg_read d => cswp_device_reg_read_complete d
  | Cmem_read d => cswp_device_mem_read_complete d
  | Cmem_poll d => cswp_device_mem_poll_complete d
  | Cnvsec_unlock d => cswp_nvsec_unlock_complete d
  | Cnvsec_verify d => cswp_nvsec_verify_complete d
  | Cnvsec_encrypt d => cswp_nvsec_encrypt_complete d
  end.
End complete.
