(* ===== verification/ClientTransact.v ===== *)
(** The transaction engine of [cswp_client.c]: framing and sending the command
    buffer, receiving a response message, matching it against the pending
    responses, batches, and the connection handling of [cswp_init] and
    [cswp_term]. *)
From S2P Require Import Prelude Wire CswpTypes CswpBuffer Memory ClientCommands ClientState ClientComplete.

Section transact.
Context {T : Type} `{Transport T}.
Local Abbreviation CM := (ClientM T).

(** The code of a transport callback. *)
Definition run_tres (r : tres) : CM Z :=
  match r with
  | TRet c => mret c
  | TThrow c what => cswp_client_error c what
  | TTerminate => ub
  end.

Definition call_connect (f : T -> tres * T) : CM Z :=
  t ← gets transport;
  let '(r, t') := f t in
  modify (set_transport t');;
  run_tres r.

Definition call_send (data : list Z) : CM Z :=
  t ← gets transport;
  let '(r, t') := t_send data t in
  modify (set_transport t');;
  run_tres r.

(** [receive(client, rsp->buf, rsp->size, &rsp->used)]: more bytes than the
    buffer has would be written outside it. *)
Definition call_receive (f : Z -> T -> tres * option (list Z) * T) : CM Z :=
  t ← gets transport;
  p ← get_priv;
  let '(r, d, t') := f (size (rsp p)) t in
  modify (set_transport t');;
  (match d with
   | None => mret tt
   | Some bs =>
       if decide (len bs <= len (buf (rsp p))) then
         upd_priv (fun p => set_rsp (set_used (len bs) (set_buf (splice (buf (rsp p)) 0 bs) (rsp p))) p)
       else ub
   end);;
  run_tres r.

(** An error response: its code becomes the [int] error code, its message is
    decoded into the error message buffer. *)
Definition server_error (errCode : Z) : CM Z :=
  m ← gets errorMsg;
  modify (set_error m (int32 errCode));;
  s ← on_rsp (cswp_decode_error_response_body CSWP_ERR_MSG_SIZE);
  (match s, m with
   | Val s, Some _ => modify (set_error (Some (c_str s)) (int32 errCode))
   | Val _, None => ub
   | Fail _, _ => mret tt
   end);;
  gets errorCode.

Definition cswp_client_verify_response (pendingRsp : pending_response_t) : CM Z :=
  r ← on_rsp cswp_decode_response_header;
  match r with
  | Fail c => mret c
  | Val (msgType, errCode) =>
      if negb (msgType =? cmd_id (pr_type pendingRsp)) then
        cswp_client_error CSWP_UNEXPECTED_RESPONSE
          (bytes_of "Unexpected response: 0x" ++ fmt_lX msgType)
      else
        res ← (if negb (errCode =? CSWP_SUCCESS) then server_error errCode
               else mret CSWP_SUCCESS);
        if res =? CSWP_SUCCESS then
          match pr_complete pendingRsp with
          | Some c => run_complete c
          | None => mret CSWP_SUCCESS
          end
        else mret res
  end.

(** Four bytes of message length. *)
Definition length_bytes (reqSize : Z) : list Z :=
  [u8 (Z.land reqSize 0xFF); u8 (Z.land (Z.shiftr reqSize 8) 0xFF);
   u8 (Z.land (Z.shiftr reqSize 16) 0xFF); u8 (Z.land (Z.shiftr reqSize 24) 0xFF)].

(** Writing [bs] at offset [off] of [priv->cmd->buf]. *)
Definition write_cmd (off : Z) (bs : list Z) : CM unit :=
  p ← get_priv;
  if decide (0 <= off /\ off + len bs <= len (buf (cmd p))) then
    upd_priv (set_cmd (set_buf (splice (buf (cmd p)) (Z.to_nat off) bs) (cmd p)))
  else ub.

Definition cswp_client_transact_send : CM Z :=
  p ← get_priv;
  upd_priv (fun p => set_hdr (cswp_buffer_clear (hdr p)) p);;
  on_hdr (cswp_buffer_put_varint (u64 (num_cmds p)));;
  on_hdr (cswp_buffer_put_uint8 (u8 (batch_mode_id (batch_mode p))));;
  p ← get_priv;
  let reqOffset := u64 (CSWP_REQ_HEADER_SIZE - 4 - used (hdr p)) in
  let reqSize := u32 (u64 (used (cmd p) - reqOffset)) in
  write_cmd reqOffset (length_bytes reqSize);;
  (if decide (used (hdr p) <= len (buf (hdr p))) then
     write_cmd (reqOffset + 4) (content (hdr p))
   else ub);;
  p ← get_priv;
  if decide (reqOffset + reqSize <= len (buf (cmd p))) then
    call_send (take (Z.to_nat reqSize) (drop (Z.to_nat reqOffset) (buf (cmd p))))
  else ub.

(** The loop over the pending responses; [opsCompleted] may be null. *)
Fixpoint process_responses (opsCompleted : ptr) (l : list pending_response_t) (res : Z)
    : CM Z :=
  match l with
  | [] => mret res
  | pendingRsp :: l' =>
      if res =? CSWP_SUCCESS then
        (res ← cswp_client_verify_response pendingRsp;
         (if decide (opsCompleted <> None /\ res = CSWP_SUCCESS) then
            n ← on_memory (load1 opsCompleted);
            on_memory (store opsCompleted [u32 (n + 1)])
          else mret tt);;
         process_responses opsCompleted l' res)
      else mret res
  end.

(** [rspSize] and [numRsps] are uninitialised when their decoders fail. *)
Definition cswp_client_transact_receive (opsCompleted : ptr) : CM Z :=
  (if decide (opsCompleted = None) then mret tt
   else on_memory (store opsCompleted [0]));;
  res ← call_receive t_receive;
  res ← (if res =? CSWP_SUCCESS then
           upd_priv (fun p => set_rsp (cswp_buffer_seek 0 (rsp p)) p);;
           r ← on_rsp cswp_buffer_get_uint32;
           p ← get_priv;
           match r with
           | Fail _ => ub
           | Val rspSize =>
               if used (rsp p) <? rspSize then
                 cswp_client_error CSWP_RESPONSE_SIZE_ERR
                   (bytes_of "Incomplete response received.  Received " ++
                    fmt_d (used (rsp p)) ++ bytes_of " bytes, expected " ++ fmt_d rspSize)
               else mret CSWP_SUCCESS
           end
         else mret res);
  res ← (if res =? CSWP_SUCCESS then
           r ← on_rsp cswp_buffer_get_varint;
           p ← get_priv;
           match r with
           | Fail _ => ub
           | Val numRsps =>
               if negb (numRsps =? u64 (num_cmds p)) then
                 cswp_client_error CSWP_RESPONSE_SIZE_ERR
                   (bytes_of "Incomplete response received.  Received " ++
                    fmt_d numRsps ++ bytes_of " responses, expected " ++ fmt_d (num_cmds p))
               else mret CSWP_SUCCESS
           end
         else mret res);
  if res =? CSWP_SUCCESS then
    p ← get_priv;
    process_responses opsCompleted (pending_responses p) CSWP_SUCCESS
  else mret res.

Definition cswp_client_transact (opsCompleted : ptr) : CM Z :=
  res ← cswp_client_transact_send;
  res ← (if res =? CSWP_SUCCESS then cswp_client_transact_receive opsCompleted
         else mret res);
  upd_priv (set_pending []);;
  mret res.

Definition cswp_client_send_to_transact : CM Z :=
  p ← get_priv;
  if decide (batch_mode p = BATCH_NONE) then
    if 0 <? num_cmds p then cswp_client_transact None else mret CSWP_SUCCESS
  else mret CSWP_SUCCESS.

(** What every command does after encoding its request. *)
Definition finish_command (r : result unit) (type : cswp_commands_t)
    (complete : option complete_func) : CM Z :=
  match r with
  | Fail c => mret c
  | Val _ =>
      cswp_client_add_node_for_pending_rsp type complete;;
      cswp_client_send_to_transact
  end.

(** ** Connection *)

(** [strncpy(dst, src, n)] *)
Definition strncpy (dst : ptr) (src : list Z) (n : Z) : CM unit :=
  on_memory (store dst (take (Z.to_nat n) src ++
                        replicate (Z.to_nat n - length src) 0)).

Definition cswp_init (clientID : list Z) (ProtocolVersion : Z)
    (serverProtocolVersion serverID : ptr) (serverIDSize : Z) (serverVersion : ptr)
    : CM Z :=
  p ← get_priv;
  if 0 <? connected p then
    on_memory (store serverProtocolVersion [cswp_init_serverProtocolVersion p]);;
    (match cswp_init_serverID p with
     | Some s => strncpy serverID s (u64 (serverIDSize - 1))
     | None => ub
     end);;
    on_memory (store (ptr_add serverID (u64 (serverIDSize - 1))) [0]);;
    on_memory (store serverVersion [u32 (cswp_init_serverVersion p)]);;
    n ← int_incr (connected p);
    upd_priv (set_connected n);;
    mret CSWP_SUCCESS
  else
    res ← match t_connect with Some f => call_connect f | None => mret CSWP_SUCCESS end;
    if negb (res =? CSWP_SUCCESS) then mret res
    else
      cswp_client_prep_priv_cmd_data;;
      r ← on_cmd (cswp_encode_init_command ProtocolVersion clientID);
      res ← finish_command r CSWP_INIT
              (Some (Cinit {| init_serverProtocolVersion := serverProtocolVersion;
                              init_serverID := serverID;
                              init_serverIDSize := serverIDSize;
                              init_serverVersion := serverVersion |}));
      if res =? CSWP_SUCCESS then
        v ← on_memory (load1 serverProtocolVersion);
        s ← on_memory (load_cstr serverID);
        sv ← on_memory (load1 serverVersion);
        upd_priv (fun p => set_connected 1 (set_init_data v (Some s) sv p));;
        mret res
      else
        (match t_disconnect with Some f => call_connect f | None => mret CSWP_SUCCESS end);;
        mret res.

Definition cswp_term : CM Z :=
  cswp_client_prep_priv_cmd_data;;
  p ← get_priv;
  let send_term : CM Z :=
    r ← on_cmd cswp_encode_term_command;
    res ← finish_command r CSWP_TERM None;
    (match t_disconnect with Some f => call_connect f | None => mret CSWP_SUCCESS end);;
    upd_priv (fun p => set_init_data (cswp_init_serverProtocolVersion p) None
                         (cswp_init_serverVersion p) p);;
    mret res in
  if connected p =? 0 then
    res ← match t_connect with Some f => call_connect f | None => mret CSWP_SUCCESS end;
    if negb (res =? CSWP_SUCCESS) then mret res else send_term
  else
    upd_priv (set_connected (connected p - 1));;
    if 0 <? connected p - 1 then mret CSWP_SUCCESS else send_term.

(** ** Batches *)

Definition cswp_batch_begin (abortOnError : bool) : CM Z :=
  cswp_client_prep_priv_cmd_data;;
  upd_priv (set_batch_mode (if abortOnError then BATCH_ABORT else BATCH_CONTINUE));;
  mret CSWP_SUCCESS.

Definition cswp_batch_end (opsCompleted : ptr) : CM Z :=
  p ← get_priv;
  res ← (if 0 <? num_cmds p then cswp_client_transact opsCompleted
         else mret CSWP_SUCCESS);
  upd_priv (set_batch_mode BATCH_NONE);;
  mret res.
End transact.

(** ** Specification of messages *)

(** A request message: length, number of requests, error mode, requests. *)
Definition frame (n : Z) (mode : batch_mode_t) (requests : list Z) : list Z :=
  let rest := varint_enc n ++ [batch_mode_id mode] ++ requests in
  le_bytes 4 (4 + len rest) ++ rest.

(** A response message. *)
Definition rframe (n : Z) (responses : list Z) : list Z :=
  let rest := varint_enc n ++ responses in
  le_bytes 4 (4 + len rest) ++ rest.

Lemma rframe_length n body :
  len (rframe n body) = 4 + len (varint_enc n) + len body.
Proof. unfold rframe. rewrite !length_app, length_le_bytes. lia. Qed.

Lemma frame_length n mode body :
  len (frame n mode body) = 5 + len (varint_enc n) + len body.
Proof. unfold frame. rewrite !length_app, length_le_bytes. simpl. lia. Qed.

(** The encoded requests in the command buffer. *)
Definition requests (p : cswp_client_priv_t) : list Z := drop 15 (content (cmd p)).

(** The invariant of the private data between two calls. *)
Record priv_ok (p : cswp_client_priv_t) : Prop := {
  pok_hdr : size (hdr p) = 15 /\ len (buf (hdr p)) = 15;
  pok_cmd : wr_ok (cmd p);
  pok_cmd_size : size (cmd p) = CSWP_REQ_RSP_BUFFER_SIZE;
  pok_cmd_used : 15 <= used (cmd p);
  pok_rsp : size (rsp p) = CSWP_REQ_RSP_BUFFER_SIZE /\
            len (buf (rsp p)) = CSWP_REQ_RSP_BUFFER_SIZE;
  pok_num : 0 <= num_cmds p < 2 ^ 31;
}.

Section lenses.
Context {T : Type}.
Implicit Types w : world T.

Lemma on_cmd_eq {A} (m : BufM A) w p r b :
  priv w = Some p -> m (cmd p) = Some (r, b) ->
  on_cmd m w = Some (r, set_priv (Some (set_cmd b p)) w).
Proof.
  intros Hp Hm. unfold on_cmd, get_priv, mbind, M_bind. rewrite Hp, Hm.
  unfold upd_priv. by rewrite Hp.
Qed.
Lemma on_hdr_eq {A} (m : BufM A) w p r b :
  priv w = Some p -> m (hdr p) = Some (r, b) ->
  on_hdr m w = Some (r, set_priv (Some (set_hdr b p)) w).
Proof.
  intros Hp Hm. unfold on_hdr, get_priv, mbind, M_bind. rewrite Hp, Hm.
  unfold upd_priv. by rewrite Hp.
Qed.
Lemma on_rsp_eq {A} (m : BufM A) w p r b :
  priv w = Some p -> m (rsp p) = Some (r, b) ->
  on_rsp m w = Some (r, set_priv (Some (set_rsp b p)) w).
Proof.
  intros Hp Hm. unfold on_rsp, get_priv, mbind, M_bind. rewrite Hp, Hm.
  unfold upd_priv. by rewrite Hp.
Qed.
Lemma upd_priv_eq f w p :
  priv w = Some p -> upd_priv f w = Some (tt, set_priv (Some (f p)) w).
Proof. intros Hp. unfold upd_priv. by rewrite Hp. Qed.
Lemma get_priv_eq w p : priv w = Some p -> get_priv w = Some (p, w).
Proof. intros Hp. unfold get_priv. by rewrite Hp. Qed.
Lemma set_priv_twice p q w : set_priv q (set_priv p w) = set_priv q w.
Proof. done. Qed.

Lemma write_cmd_eq w p off bs :
  priv w = Some p -> 0 <= off /\ off + len bs <= len (buf (cmd p)) ->
  write_cmd off bs w =
    Some (tt, set_priv (Some (set_cmd (set_buf (splice (buf (cmd p)) (Z.to_nat off) bs)
                                               (cmd p)) p)) w).
Proof.
  intros Hp Hb. unfold write_cmd. rewrite (M_bind_eq _ _ _ _ _ (get_priv_eq w p Hp)).
  rewrite decide_True by done. by apply upd_priv_eq.
Qed.
End lenses.

(** Stepping through a computation whose first step is known. *)
Ltac mstep := erewrite M_bind_eq by (first [eassumption | reflexivity |
  (apply upd_priv_eq || apply get_priv_eq || apply on_cmd_eq || apply on_hdr_eq
   || apply on_rsp_eq); (reflexivity || eassumption)]).

Lemma length_bytes_eq v : length_bytes v = le_bytes 4 v.
Proof. by rewrite le_bytes_eq. Qed.

(** ** Sending *)

Definition header_bytes (n : Z) (mode : batch_mode_t) : list Z :=
  varint_enc n ++ [batch_mode_id mode].

Lemma header_bytes_len n mode : 2 <= len (header_bytes n mode) <= 11.
Proof.
  unfold header_bytes. rewrite length_app. simpl. pose proof (varint_enc_length n). lia.
Qed.

Lemma batch_mode_u8 mode : u8 (batch_mode_id mode) = batch_mode_id mode.
Proof. by destruct mode. Qed.

(** The header buffer always has room for the header. *)
Lemma header_written {T} (w : world T) p :
  priv w = Some p -> priv_ok p ->
  let h := append (cswp_buffer_clear (hdr p)) (header_bytes (num_cmds p) (batch_mode p)) in
  ((upd_priv (fun p => set_hdr (cswp_buffer_clear (hdr p)) p);;
    on_hdr (cswp_buffer_put_varint (u64 (num_cmds p)));;
    on_hdr (cswp_buffer_put_uint8 (u8 (batch_mode_id (batch_mode p))))) : ClientM T _) w =
    Some (Val tt, set_priv (Some (set_hdr h p)) w) /\
  used h = len (header_bytes (num_cmds p) (batch_mode p)) /\
  content h = header_bytes (num_cmds p) (batch_mode p) /\
  size h = 15 /\ len (buf h) = 15.
Proof.
  intros Hp Hok h. destruct Hok as [[Hhs Hhl] _ _ _ _ Hn].
  pose proof (header_bytes_len (num_cmds p) (batch_mode p)) as HL.
  set (h0 := cswp_buffer_clear (hdr p)).
  assert (Hw0 : wr_ok h0) by (repeat split; simpl; lia).
  assert (Hr0 : room h0 = 15) by (unfold room; simpl; lia).
  assert (Hn64 : is_u64 (num_cmds p)) by (unfold is_u64; lia).
  pose proof (varint_enc_length (num_cmds p)) as Hvl.
  pose proof (writes_put_varint _ Hn64 h0 Hw0) as W1. rewrite decide_True in W1 by lia.
  assert (Hw1 : wr_ok (append h0 (varint_enc (num_cmds p)))) by (apply wr_ok_append; [done|lia]).
  pose proof (writes_put_uint8 (batch_mode_id (batch_mode p)) _ Hw1) as W2.
  rewrite decide_True in W2 by (rewrite room_append; simpl; lia).
  rewrite append_append in W2 by (done || (simpl; lia)).
  split_and!.
  - rewrite u64_small, batch_mode_u8 by lia.
    mstep. erewrite M_bind_eq by (eapply on_hdr_eq; [reflexivity|exact W1]).
    by erewrite on_hdr_eq by (reflexivity || exact W2).
  - simpl. done.
  - unfold h. fold h0. rewrite content_append by (done || lia). done.
  - simpl. done.
  - unfold h. simpl. rewrite length_splice by (simpl; lia). done.
Qed.

(** What is in the command buffer after the header was put in front. *)
Lemma framed_content p h :
  priv_ok p -> 0 <= len h <= 11 ->
  let off := 11 - len h in
  let b := splice (buf (cmd p)) (Z.to_nat off) (le_bytes 4 (used (cmd p) - off) ++ h) in
  take (Z.to_nat (used (cmd p) - off)) (drop (Z.to_nat off) b) =
    le_bytes 4 (used (cmd p) - off) ++ h ++ requests p /\
  drop 15 (take (Z.to_nat (used (cmd p))) b) = requests p /\
  length b = length (buf (cmd p)).
Proof.
  intros Hok Hh off b. destruct Hok as [_ [[? ? ? ?] ?] Hsz Hu _ _].
  assert (Hlen : length (le_bytes 4 (used (cmd p) - off) ++ h) = (4 + length h)%nat)
    by (rewrite length_app, length_le_bytes; lia).
  split_and!.
  - unfold b, splice. rewrite drop_app_length' by (rewrite length_take; lia).
    rewrite app_assoc, take_app_ge by lia. f_equal.
    rewrite Hlen. unfold requests, content.
    replace (Z.to_nat off + (4 + length h))%nat with 15%nat by lia.
    rewrite take_drop_commute. f_equal. f_equal. lia.
  - unfold b, splice, requests, content. rewrite app_assoc, take_app_ge
      by (rewrite length_app, length_take; lia).
    rewrite drop_app_length' by (rewrite length_app, length_take; lia).
    rewrite length_app, length_take, Hlen.
    replace (Z.to_nat off + (4 + length h))%nat with 15%nat by lia.
    rewrite take_drop_commute. f_equal. f_equal. lia.
  - unfold b. apply length_splice. lia.
Qed.

(** The private data after a message was framed for sending. *)
Definition framed (p : cswp_client_priv_t) : cswp_client_priv_t :=
  let hb := header_bytes (num_cmds p) (batch_mode p) in
  let off := 11 - len hb in
  set_cmd (set_buf (splice (buf (cmd p)) (Z.to_nat off)
                      (le_bytes 4 (used (cmd p) - off) ++ hb)) (cmd p))
    (set_hdr (append (cswp_buffer_clear (hdr p)) hb) p).

Lemma frame_eq p :
  priv_ok p ->
  frame (num_cmds p) (batch_mode p) (requests p) =
    le_bytes 4 (used (cmd p) - (11 - len (header_bytes (num_cmds p) (batch_mode p)))) ++
    header_bytes (num_cmds p) (batch_mode p) ++ requests p.
Proof.
  intros Hok. destruct Hok as [_ [[? ? ? ?] ?] Hsz Hu _ _].
  unfold frame, header_bytes. rewrite <- app_assoc. do 2 f_equal.
  rewrite !length_app. unfold requests, content.
  rewrite length_drop, length_take. simpl. lia.
Qed.

Lemma framed_ok p :
  priv_ok p -> priv_ok (framed p) /\ requests (framed p) = requests p.
Proof.
  intros Hok. pose proof (header_bytes_len (num_cmds p) (batch_mode p)) as HL.
  destruct (framed_content p (header_bytes (num_cmds p) (batch_mode p)) Hok)
    as (_ & Hr & Hlen); [lia|].
  split; [|exact Hr]. pose proof Hok as [[? ?] [[? ? ? ?] ?] ? ? ? ?].
  unfold framed. constructor;
    cbn [cmd hdr rsp num_cmds set_cmd set_hdr used size buf pos set_buf append]; try done.
  - split; [done|]. rewrite length_splice by (simpl; lia). done.
  - repeat split; cbn [used size buf pos set_buf]; rewrite ?Hlen; (done || lia).
Qed.

Lemma transact_send_eq {T} `{Transport T} (w : world T) p :
  priv w = Some p -> priv_ok p ->
  cswp_client_transact_send w =
    call_send (frame (num_cmds p) (batch_mode p) (requests p))
      (set_priv (Some (framed p)) w).
Proof.
  intros Hp Hok. unfold cswp_client_transact_send.
  rewrite (M_bind_eq _ _ _ _ _ (get_priv_eq w p Hp)).
  destruct (header_written w p Hp Hok) as (Hh & Hu & Hc & Hs & Hl).
  set (hb := header_bytes (num_cmds p) (batch_mode p)) in *.
  set (h := append (cswp_buffer_clear (hdr p)) hb) in *.
  pose proof (header_bytes_len (num_cmds p) (batch_mode p)) as HL. fold hb in HL.
  rewrite (M_bind_assoc3 _ _ _ _ _ _ _ Hh).
  mstep. change (hdr (set_hdr h p)) with h. change (cmd (set_hdr h p)) with (cmd p).
  pose proof Hok as [_ [[? ? ? ?] Hpu] Hsz Hcu _ Hn].
  change (CSWP_REQ_RSP_BUFFER_SIZE) with 16384 in Hsz.
  rewrite Hu. replace (CSWP_REQ_HEADER_SIZE - 4 - len hb) with (11 - len hb) by done.
  rewrite !(u64_small (11 - _)), (u64_small (used _ - _)), u32_small, length_bytes_eq by lia.
  set (off := 11 - len hb). assert (Hoff : 0 <= off <= 9) by (unfold off; lia).
  assert (Hroom : off + 4 + len hb = 15) by (unfold off; lia).
  erewrite M_bind_eq by (apply write_cmd_eq; [reflexivity|rewrite length_le_bytes; simpl; lia]).
  rewrite decide_True, Hc by lia.
  erewrite M_bind_eq by (apply write_cmd_eq; [reflexivity|
    cbn [cmd buf set_cmd set_buf set_hdr];
    rewrite length_splice; rewrite ?length_le_bytes; lia]).
  mstep. cbn [cmd set_cmd buf set_buf set_hdr].
  assert (Hsp : splice (splice (buf (cmd p)) (Z.to_nat off) (le_bytes 4 (used (cmd p) - off)))
      (Z.to_nat (off + 4)) hb =
    splice (buf (cmd p)) (Z.to_nat off) (le_bytes 4 (used (cmd p) - off) ++ hb)).
  { rewrite <- splice_splice by (rewrite length_le_bytes; lia). f_equal.
    rewrite length_le_bytes. lia. }
  rewrite Hsp. destruct (framed_content p hb Hok) as (Hf & _ & Hlen); [lia|].
  fold off in Hf, Hlen. rewrite decide_True by lia.
  rewrite Hf, frame_eq by done. done.
Qed.

(** What remains of a transaction once the message was handed to [send]. *)
Definition after_send {T} `{Transport T} (opsCompleted : ptr) (res : Z) : ClientM T Z :=
  res ← (if res =? CSWP_SUCCESS then cswp_client_transact_receive opsCompleted
         else mret res);
  upd_priv (set_pending []);;
  mret res.

Lemma transact_eq {T} `{Transport T} ops (w : world T) p :
  priv w = Some p -> priv_ok p ->
  cswp_client_transact ops w =
    (call_send (frame (num_cmds p) (batch_mode p) (requests p)) ≫= after_send ops)
      (set_priv (Some (framed p)) w).
Proof.
  intros Hp Hok. unfold cswp_client_transact.
  pose proof (transact_send_eq w p Hp Hok) as Hs.
  unfold mbind at 1, M_bind at 1. rewrite Hs. done.
Qed.

(** ** A transport for examples

    It records the messages sent and answers with a script. *)

Record script := mkScript { sent : list (list Z); replies : list (list Z) }.

#[export] Instance script_transport : Transport script := {
  t_connect := None;
  t_disconnect := None;
  t_send d t := (TRet CSWP_SUCCESS, mkScript (sent t ++ [d]) (replies t));
  t_receive n t :=
    match replies t with
    | r :: rs => (TRet CSWP_SUCCESS, Some r, mkScript (sent t) rs)
    | [] => (TRet CSWP_TIMEOUT, None, t)
    end;
  t_receive_async n t :=
    match replies t with
    | r :: rs => (TRet CSWP_ASYNC_MSG_LOG, Some r, mkScript (sent t) rs)
    | [] => (TRet CSWP_ASYNC_MSG_END, None, t)
    end;
}.

(** A client just after [cswp_client_init], with zeroed buffers. *)
Definition zeroes (n : Z) : list Z := replicate (Z.to_nat n) 0.
Definition fresh_priv : cswp_client_priv_t :=
  mkPriv (mkBuf 15 0 0 (zeroes 15)) (mkBuf 16384 15 15 (zeroes 16384))
    (mkBuf 16384 0 0 (zeroes 16384)) BATCH_NONE 0 [] 0 0 0 None.
Definition ex_world {T} (p : cswp_client_priv_t) (m : mem) (t : T) : world T :=
  mkWorld (Some []) 0 (Some p) m t.

Lemma len_zeroes n : 0 <= n -> len (zeroes n) = n.
Proof. intros. unfold zeroes. rewrite length_replicate. lia. Qed.

Lemma fresh_priv_ok : priv_ok fresh_priv.
Proof.
  unfold fresh_priv. constructor; cbn [hdr cmd rsp size buf used pos num_cmds];
    rewrite ?len_zeroes by lia; done.
Qed.
