(* ===== verification/ClientApi.v ===== *)
(** The public commands of [cswp_client.c]: each prepares the command buffer,
    encodes its request, registers the completion of its response and runs the
    transaction, or leaves it for the end of the batch. *)
From S2P Require Import Prelude Wire CswpTypes CswpBuffer Memory ClientCommands ClientState ClientComplete ClientTransact.

Section api.
Context {T : Type} `{Transport T}.
Local Abbreviation CM := (ClientM T).

Definition cswp_client_info (message : list Z) : CM Z := mret CSWP_UNSUPPORTED.
Definition cswp_set_devices (deviceCount : Z) (deviceList deviceTypes : list (list Z))
    : CM Z := mret CSWP_UNSUPPORTED.
Definition cswp_set_config (deviceNo : Z) (name value : list Z) : CM Z :=
  mret CSWP_UNSUPPORTED.
Definition cswp_get_config (deviceNo : Z) (name : list Z) (value : ptr) (valueSize : Z)
    : CM Z := mret CSWP_UNSUPPORTED.

Definition cswp_get_devices (deviceCount : ptr)
    (deviceList : list ptr) (deviceListSize deviceListEntrySize : Z)
    (deviceTypes : list ptr) (deviceTypeSize deviceTypeEntrySize : Z) : CM Z :=
  cswp_client_prep_priv_cmd_data;;
  r ← on_cmd cswp_encode_get_devices_command;
  finish_command r CSWP_GET_DEVICES
    (Some (Cget_devices {| gd_deviceCount := deviceCount;
                           gd_deviceList := deviceList;
                           gd_deviceListSize := deviceListSize;
                           gd_deviceListEntrySize := deviceListEntrySize;
                           gd_deviceTypes := deviceTypes;
                           gd_deviceTypeSize := deviceTypeSize;
                           gd_deviceTypeEntrySize := deviceTypeEntrySize |})).

(** A file as [ftell] and [fread] see it: its size (negative for an error)
    and the bytes that reading it yields. *)
Record sdf_file := { sdf_size : Z; sdf_read : list Z }.

(** The path tried, from the environment; [None] when the copy into
    [filepath] is not terminated. *)
Definition sdf_path (sdf_env wrksp_env : option (list Z)) : option (list Z) :=
  match sdf_env, wrksp_env with
  | Some f, _ => if len f <? 1024 then Some f else None
  | None, Some w => Some (take 1023 (w ++ bytes_of "/Boards/NVidia/vera_sil/vera_sil.sdf"))
  | None, None => Some (bytes_of "./vera_sil.sdf")
  end.

Definition cswp_get_system_description (sdf_env wrksp_env : option (list Z))
    (fopen : list Z -> option sdf_file)
    (descriptionFormat descriptionSize descriptionDataBuffer : ptr) (bufferSize : Z)
    : CM Z :=
  match sdf_path sdf_env wrksp_env with
  | None => ub
  | Some path =>
      match fopen path with
      | None =>
          on_memory (store descriptionFormat [0]);;
          on_memory (store descriptionSize [0]);;
          mret CSWP_SUCCESS
      | Some file =>
          let file_size := sdf_size file in
          if (file_size <? 0) || (bufferSize <? file_size) then mret CSWP_FAILED
          else
            let d := take (Z.to_nat file_size) (sdf_read file) in
            (if decide (d = []) then mret tt
             else on_memory (store descriptionDataBuffer d));;
            on_memory (store descriptionFormat [0]);;
            on_memory (store descriptionSize [u32 (len d)]);;
            if len d =? file_size then mret CSWP_SUCCESS else mret CSWP_FAILED
      end
  end.

Definition cswp_device_open (deviceNo : Z) (deviceInfo : ptr) (deviceInfoSize : Z)
    : CM Z :=
  cswp_client_prep_priv_cmd_data;;
  r ← on_cmd (cswp_encode_device_open_command deviceNo);
  finish_command r CSWP_DEVICE_OPEN
    (Some (Cdevice_open {| do_deviceInfo := deviceInfo; do_deviceInfoSize := deviceInfoSize |})).

Definition cswp_device_close (deviceNo : Z) : CM Z :=
  cswp_client_prep_priv_cmd_data;;
  r ← on_cmd (cswp_encode_device_close_command deviceNo);
  finish_command r CSWP_DEVICE_CLOSE None.

Definition cswp_get_device_capabilities (deviceNo : Z) (capabilities capabilityData : ptr)
    : CM Z :=
  cswp_client_prep_priv_cmd_data;;
  r ← on_cmd (cswp_encode_get_device_capabilities_command deviceNo);
  finish_command r CSWP_GET_DEVICE_CAPABILITIES
    (Some (Cget_device_capabilities {| gc_capabilities := capabilities;
                                       gc_capabilityData := capabilityData |})).

Definition cswp_device_reg_list (deviceNo : Z) (registerCount registerInfo : ptr)
    (registerInfoSize : Z) (strBuf : ptr) (strBufSize : Z) : CM Z :=
  cswp_client_prep_priv_cmd_data;;
  r ← on_cmd (cswp_encode_reg_list_command deviceNo);
  finish_command r CSWP_REG_LIST
    (Some (Creg_list {| rl_registerCount := registerCount;
                        rl_registerInfo := registerInfo;
                        rl_registerInfoSize := registerInfoSize;
                        rl_strBuf := strBuf;
                        rl_strBufSize := strBufSize |})).

(** The copy [regIDs] of the caller's array.  The counter of the loop is
    32 bits wide: with [2 ^ 32] registers or more it would not end. *)
Definition copy_regIDs (registerCount : Z) (registerIDs : list Z) : CM (list Z) :=
  if (registerCount <? 2 ^ 32) && (registerCount <=? len registerIDs)
  then mret (take (Z.to_nat registerCount) registerIDs) else ub.

Definition cswp_device_reg_read (deviceNo registerCount : Z) (registerIDs : list Z)
    (registerValues : ptr) (registerValuesSize : Z) : CM Z :=
  regIDs ← copy_regIDs registerCount registerIDs;
  cswp_client_prep_priv_cmd_data;;
  r ← on_cmd (cswp_encode_reg_read_command deviceNo registerCount regIDs);
  finish_command r CSWP_REG_READ
    (Some (Creg_read {| rr_registerValues := registerValues;
                        rr_registerValuesSize := registerValuesSize |})).

(** The loop of [cswp_device_reg_write]: results of the puts are ignored. *)
Fixpoint reg_write_loop (n : nat) (i : Z) (registerIDs registerValues : list Z)
    : CM unit :=
  match n with
  | O => mret tt
  | S n' =>
      match registerIDs !! Z.to_nat i, registerValues !! Z.to_nat i with
      | Some id, Some v =>
          on_cmd (cswp_buffer_put_varint id);;
          on_cmd (cswp_buffer_put_uint32 v);;
          reg_write_loop n' (i + 1) registerIDs registerValues
      | _, _ => ub
      end
  end.

Definition cswp_device_reg_write (deviceNo registerCount : Z)
    (registerIDs registerValues : list Z) : CM Z :=
  cswp_client_prep_priv_cmd_data;;
  r ← on_cmd (cswp_encode_reg_write_command deviceNo registerCount);
  (if registerCount <? 2 ^ 32 then
     reg_write_loop (Z.to_nat registerCount) 0 registerIDs registerValues
   else ub);;
  finish_command r CSWP_REG_WRITE None.

Definition cswp_device_mem_read (deviceNo address size : Z) (accessSize : cswp_access_size_t)
    (flags : Z) (buf bytesRead : ptr) : CM Z :=
  cswp_client_prep_priv_cmd_data;;
  r ← on_cmd (cswp_encode_mem_read_command deviceNo address size
                (access_size_id accessSize) flags);
  finish_command r CSWP_MEM_READ
    (Some (Cmem_read {| mr_buf := buf; mr_maxBytes := size; mr_bytesRead := bytesRead |})).

Definition cswp_device_mem_write (deviceNo address size : Z) (accessSize : cswp_access_size_t)
    (flags : Z) (pData : list Z) : CM Z :=
  cswp_client_prep_priv_cmd_data;;
  r ← on_cmd (cswp_encode_mem_write_command deviceNo address size
                (access_size_id accessSize) flags pData);
  finish_command r CSWP_MEM_WRITE None.

Definition cswp_device_mem_poll (deviceNo address size : Z) (accessSize : cswp_access_size_t)
    (flags tries interval : Z) (mask value : list Z) (buf bytesRead : ptr) : CM Z :=
  cswp_client_prep_priv_cmd_data;;
  r ← on_cmd (cswp_encode_mem_poll_command deviceNo address size
                (access_size_id accessSize) flags tries interval mask value);
  finish_command r CSWP_MEM_POLL
    (Some (Cmem_poll {| mp_buf := buf; mp_maxBytes := size; mp_bytesRead := bytesRead |})).

Definition cswp_nvsec_unlock (enables : Z) (token_buf : ptr) (num_token_bytes : Z)
    : CM Z :=
  if negb (num_token_bytes =? CSWP_NVSEC_NUM_TOKEN_REQ_BYTES) then
    mret CSWP_NVSEC_TOKEN_REQ_ERR
  else
    cswp_client_prep_priv_cmd_data;;
    r ← on_cmd (cswp_encode_nvsec_unlock_command enables);
    finish_command r CSWP_NVSEC_UNLOCK
      (Some (Cnvsec_unlock {| nu_token_req := token_buf;
                              nu_num_token_req_bytes := num_token_bytes |})).

Definition cswp_nvsec_token (num_bytes_signed_token : Z) (signed_token : list Z) : CM Z :=
  if negb (num_bytes_signed_token =? CSWP_NVSEC_NUM_SIGNED_TOKEN_BYTES) then
    mret CSWP_NVSEC_SIGNED_TOKEN_ERR
  else
    cswp_client_prep_priv_cmd_data;;
    r ← on_cmd (cswp_encode_nvsec_token_command num_bytes_signed_token signed_token);
    finish_command r CSWP_NVSEC_TOKEN None.

Definition cswp_nvsec_verify (challenge : list Z) (signature : ptr) (signatureSize : Z)
    : CM Z :=
  if negb (u64 (signatureSize + 1) =? CSWP_NVSEC_SIGNATURE_STR_SIZE) then
    mret CSWP_NVSEC_SIGNATURE_ERR
  else
    cswp_client_prep_priv_cmd_data;;
    r ← on_cmd (cswp_encode_nvsec_verify_command challenge);
    finish_command r CSWP_NVSEC_VERIFY
      (Some (Cnvsec_verify {| nv_signature := signature;
                              nv_signatureSize := u64 (signatureSize + 1) |})).

Definition cswp_nvsec_encrypt (client_public_key : list Z) (server_public_key : ptr)
    (public_key_size : Z) : CM Z :=
  if negb (u64 (public_key_size + 1) =? CSWP_NVSEC_PUBLIC_KEY_STR_SIZES) then
    mret CSWP_NVSEC_PUBLIC_KEY_ERR
  else
    cswp_client_prep_priv_cmd_data;;
    r ← on_cmd (cswp_encode_nvsec_encrypt_command client_public_key);
    finish_command r CSWP_NVSEC_ENCRYPT
      (Some (Cnvsec_encrypt {| ne_server_public_key := server_public_key;
                               ne_key_size := u64 (public_key_size + 1) |})).

(** ** Asynchronous messages *)

Definition cswp_async_message (deviceNo msg_level msg : ptr) (msg_size : Z) : CM Z :=
  res ← call_receive t_receive_async;
  if negb (res =? CSWP_ASYNC_MSG_LOG) then mret res
  else
    upd_priv (fun p => set_rsp (cswp_buffer_seek 0 (rsp p)) p);;
    r ← on_rsp cswp_buffer_get_uint32;
    p ← get_priv;
    match r with
    | Fail _ => ub
    | Val rspSize =>
        if used (rsp p) <? rspSize then
          cswp_client_error CSWP_RESPONSE_SIZE_ERR
            (bytes_of "Incomplete response received.  Received " ++
             fmt_d (used (rsp p)) ++ bytes_of " bytes, expected " ++ fmt_d rspSize)
        else
          r ← on_rsp cswp_buffer_get_varint;
          match r with
          | Fail _ => ub
          | Val numRsps =>
              if negb (numRsps =? 1) then
                cswp_client_error CSWP_RESPONSE_SIZE_ERR
                  (bytes_of "Async response is expected to be received as a single response but received " ++
                   fmt_d numRsps ++ bytes_of " responses.")
              else
                r ← on_rsp cswp_buffer_get_varint;
                match r with
                | Fail _ => ub
                | Val msgType =>
                    if negb (msgType =? cmd_id CSWP_ASYNC_MESSAGE) then
                      cswp_client_error CSWP_UNEXPECTED_RESPONSE
                        (bytes_of "Unexpected response: 0x" ++ fmt_lX msgType)
                    else
                      r ← on_rsp cswp_buffer_get_varint;
                      match r with
                      | Fail _ => ub
                      | Val errCode =>
                          if negb (errCode =? ASYNC_RAS_EVENT) &&
                             negb (errCode =? ASYNC_DBG_PUTS) then
                            server_error errCode
                          else
                            r ← on_rsp_mem (cswp_decode_async_message_body
                                              deviceNo msg_level msg msg_size);
                            mret (if code_of r =? CSWP_SUCCESS then CSWP_ASYNC_MSG_LOG
                                  else code_of r)
                      end
                end
          end
    end.

(** ** Error strings *)

(** [None]: the null pointer. *)
Definition cswp_decode_error (e : Z) : CM (option (list Z)) :=
  code ← gets errorCode;
  m ← gets errorMsg;
  if e =? code then mret m
  else
    mret (Some (bytes_of (
      match e with
      | 0x0000 => "Successful operation"
      | 0x0001 => "Other error"
      | 0x0002 => "Not executed due to previous failure"
      | 0x0003 => "Not initialized"
      | 0x0004 => "Client: Response with asyncQ message"
      | 0x0005 => "Client: asyncQ is empty"
      | 0x0006 => "Client: NVSEC token error"
      | 0x0007 => "Client: NVSEC token error"
      | 0x0008 => "Client: NVSEC signature error"
      | 0x0009 => "Client:  NVSEC public key error"
      | 0x0010 => "Insufficient space in CSWP_BUFFER when encoding"
      | 0x0011 => "Insufficient data left in CSWP_BUFFER when decoding"
      | 0x0012 => "Insufficient space in output buffer when decoding"
      | 0x0013 => "Client: Response check failed for response type"
      | 0x0014 => "Client: Response check failed for size"
      | 0x0020 => "Communication error"
      | 0x0021 => "The server is not compatible with the client"
      | 0x0022 => "A timeout occurred executing a command"
      | 0x0023 => "Command unsupported"
      | 0x0024 => "Unsupported device"
      | 0x0025 => "Invalid device ID"
      | 0x0026 => "Bad arguments to command"
      | 0x0027 => "Operation not permitted"
      | 0x0200 => "Register access failed"
      | 0x0201 => "Attempt to access part of a multiple element register"
      | 0x0300 => "Memory access failed"
      | 0x0301 => "Invalid address for memory access"
      | 0x0302 => "Invalid access size for memory access"
      | 0x0303 => "Poll did not match"
      | 0xF000 => "Command was not received by server"
      | _ => "Invalid error code"
      end%string))).
End api.
