(* ===== verification/ClientBatch.v ===== *)
(** Commands and batches: every public command is the generic command on its
    request ([run_command]); outside a batch a command sends exactly one framed
    request, in a batch requests accumulate and [cswp_batch_end] sends them all
    in one message. *)
From S2P Require Import Prelude Wire CswpTypes CswpBuffer Memory ClientCommands ClientState ClientComplete ClientTransact ClientApi.

Section commands.
Context {T : Type} `{Transport T}.
Local Abbreviation CM := (ClientM T).

(** The shape of every command. *)
Definition run_command (r : request) (c : option complete_func) : CM Z :=
  cswp_client_prep_priv_cmd_data;;
  res ← on_cmd (encode_request r);
  finish_command res (request_type r) c.

Fixpoint run_commands (l : list (request * option complete_func)) : CM (list Z) :=
  match l with
  | [] => mret []
  | (r, c) :: l' => x ← run_command r c; xs ← run_commands l'; mret (x :: xs)
  end.

(** ** Private data along a command *)

Definition prepped (p : cswp_client_priv_t) : cswp_client_priv_t :=
  if decide (batch_mode p = BATCH_NONE) then
    set_num_cmds 0 (set_pending []
      (set_cmd (set_used CSWP_REQ_HEADER_SIZE (set_pos CSWP_REQ_HEADER_SIZE (cmd p))) p))
  else p.

Definition queued (p : cswp_client_priv_t) (r : request) (c : option complete_func)
    : cswp_client_priv_t :=
  set_num_cmds (num_cmds p + 1)
    (set_pending (pending_responses p ++ [{| pr_type := request_type r; pr_complete := c |}])
      (set_cmd (append (cmd p) (request_bytes r)) p)).

Lemma prep_eq (w : world T) p :
  priv w = Some p ->
  cswp_client_prep_priv_cmd_data w = Some (CSWP_SUCCESS, set_priv (Some (prepped p)) w).
Proof.
  intros Hp. unfold cswp_client_prep_priv_cmd_data, prepped.
  rewrite (M_bind_eq _ _ _ _ _ (get_priv_eq w p Hp)). case_decide.
  - by mstep.
  - unfold mbind, M_bind, mret, M_ret. destruct w. simpl in *. by rewrite <- Hp.
Qed.

Lemma prepped_ok p : priv_ok p -> priv_ok (prepped p).
Proof.
  intros Hok. unfold prepped. case_decide; [|done].
  destruct Hok as [? [[? ? ? ?] ?] Hs ? ? ?].
  change CSWP_REQ_RSP_BUFFER_SIZE with 16384 in Hs.
  constructor; simpl; try done; try (by unfold CSWP_REQ_HEADER_SIZE; lia).
  repeat split; simpl; unfold CSWP_REQ_HEADER_SIZE; lia.
Qed.

Lemma prepped_none p :
  priv_ok p -> batch_mode p = BATCH_NONE ->
  requests (prepped p) = [] /\ num_cmds (prepped p) = 0 /\
  pending_responses (prepped p) = [] /\ batch_mode (prepped p) = BATCH_NONE /\
  room (cmd (prepped p)) = 16384 - 15.
Proof.
  intros [? [[? ? ? ?] ?] Hs ? ? ?] Hb. change CSWP_REQ_RSP_BUFFER_SIZE with 16384 in Hs.
  unfold prepped. rewrite decide_True by done.
  split_and!; try done.
  - unfold requests, content. simpl. apply drop_ge. rewrite length_take.
    change (Z.to_nat CSWP_REQ_HEADER_SIZE) with 15%nat. lia.
  - unfold room. simpl. rewrite Hs. done.
Qed.

Lemma prepped_idem p : prepped (prepped p) = prepped p.
Proof.
  unfold prepped. destruct (decide (batch_mode p = BATCH_NONE)) as [Hb|Hb].
  - rewrite decide_True by exact Hb. done.
  - by rewrite decide_False.
Qed.

Lemma prepped_batch p : batch_mode p <> BATCH_NONE -> prepped p = p.
Proof. intros. unfold prepped. by rewrite decide_False by done. Qed.

Lemma queued_ok p r c :
  priv_ok p -> len (request_bytes r) <= room (cmd p) -> num_cmds p + 1 < 2 ^ 31 ->
  priv_ok (queued p r c) /\ requests (queued p r c) = requests p ++ request_bytes r /\
  room (cmd (queued p r c)) = room (cmd p) - len (request_bytes r).
Proof.
  intros [? Hw ? ? ? ?] Hl Hn. pose proof (wr_ok_append _ _ Hw Hl).
  split_and!.
  - constructor; simpl; try done; lia.
  - unfold requests. simpl. rewrite content_append by done.
    destruct Hw as [[? ? ? ?] ?].
    apply drop_app_le. unfold content. rewrite length_take. lia.
  - unfold room. simpl. lia.
Qed.

Lemma add_node_eq (w : world T) p t c :
  priv w = Some p -> num_cmds p + 1 < 2 ^ 31 ->
  cswp_client_add_node_for_pending_rsp t c w =
    Some (tt, set_priv (Some (set_num_cmds (num_cmds p + 1)
      (set_pending (pending_responses p ++ [{| pr_type := t; pr_complete := c |}]) p))) w).
Proof.
  intros Hp Hn. unfold cswp_client_add_node_for_pending_rsp. mstep. mstep.
  unfold int_incr. destruct (Z.ltb_spec (num_cmds p) (2 ^ 31 - 1)); [|lia]. done.
Qed.

Lemma set_pending_ok x p : priv_ok p -> priv_ok (set_pending x p).
Proof. intros []. by constructor. Qed.

(** A request that fits is appended and its response becomes pending. *)
Lemma queue_eq (w : world T) p r c :
  priv w = Some p -> priv_ok p -> request_ok r ->
  len (request_bytes r) <= room (cmd p) -> num_cmds p + 1 < 2 ^ 31 ->
  ((res ← on_cmd (encode_request r); finish_command res (request_type r) c) : CM Z) w =
    cswp_client_send_to_transact (set_priv (Some (queued p r c)) w).
Proof.
  intros Hp Hok Hr Hl Hn. pose proof Hok as [? Hw ? ? ? ?].
  pose proof (encode_request_writes r Hr (cmd p) Hw) as He.
  rewrite decide_True in He by done.
  rewrite (M_bind_eq _ _ _ _ _ (on_cmd_eq _ _ _ _ _ Hp He)). simpl.
  by erewrite M_bind_eq by (apply add_node_eq; [reflexivity|exact Hn]).
Qed.

(** A request that does not fit is not sent; a prefix of it is left. *)
Lemma queue_full (w : world T) p r c :
  priv w = Some p -> priv_ok p -> request_ok r ->
  room (cmd p) < len (request_bytes r) ->
  exists bs' bs'', request_bytes r = bs' ++ bs'' /\ bs'' <> [] /\ len bs' <= room (cmd p) /\
    ((res ← on_cmd (encode_request r); finish_command res (request_type r) c) : CM Z) w =
      Some (CSWP_BUFFER_FULL, set_priv (Some (set_cmd (append (cmd p) bs') p)) w).
Proof.
  intros Hp Hok Hr Hl. pose proof Hok as [? Hw ? ? ? ?].
  pose proof (encode_request_writes r Hr (cmd p) Hw) as He.
  rewrite decide_False in He by lia. destruct He as (bs' & bs'' & ? & ? & ? & He).
  exists bs', bs''. split_and!; try done.
  by rewrite (M_bind_eq _ _ _ _ _ (on_cmd_eq _ _ _ _ _ Hp He)).
Qed.

(** ** Outside a batch *)

Lemma run_command_idle (w : world T) p r c :
  priv w = Some p -> priv_ok p -> batch_mode p = BATCH_NONE -> request_ok r ->
  len (request_bytes r) <= 16384 - 15 ->
  run_command r c w = cswp_client_transact None (set_priv (Some (queued (prepped p) r c)) w).
Proof.
  intros Hp Hok Hb Hr Hl. destruct (prepped_none p Hok Hb) as (_ & Hn & _ & Hb' & Hroom).
  unfold run_command. rewrite (M_bind_eq _ _ _ _ _ (prep_eq w p Hp)).
  rewrite (queue_eq (set_priv _ w) (prepped p))
    by (done || rewrite ?Hroom, ?Hn; auto using prepped_ok; lia).
  rewrite set_priv_twice. unfold cswp_client_send_to_transact. mstep.
  rewrite decide_True by done.
  change (num_cmds (queued (prepped p) r c)) with (num_cmds (prepped p) + 1).
  by rewrite Hn.
Qed.

(** Only the prepared data matter. *)
Lemma run_command_prepped (w : world T) p r c :
  priv w = Some p -> run_command r c w = run_command r c (set_priv (Some (prepped p)) w).
Proof.
  intros Hp. unfold run_command.
  rewrite (M_bind_eq _ _ _ _ _ (prep_eq w p Hp)).
  rewrite (M_bind_eq _ _ _ _ _ (prep_eq (set_priv (Some (prepped p)) w) (prepped p) eq_refl)).
  by rewrite prepped_idem, set_priv_twice.
Qed.

(** ** In a batch *)

Lemma run_command_batching (w : world T) p r c :
  priv w = Some p -> priv_ok p -> batch_mode p <> BATCH_NONE -> request_ok r ->
  len (request_bytes r) <= room (cmd p) -> num_cmds p + 1 < 2 ^ 31 ->
  run_command r c w = Some (CSWP_SUCCESS, set_priv (Some (queued p r c)) w).
Proof.
  intros Hp Hok Hb Hr Hl Hn.
  unfold run_command. rewrite (M_bind_eq _ _ _ _ _ (prep_eq w p Hp)).
  rewrite (prepped_batch p Hb).
  rewrite (queue_eq (set_priv _ w) p) by done. rewrite set_priv_twice.
  unfold cswp_client_send_to_transact. mstep. by rewrite decide_False by done.
Qed.

Definition total (l : list (request * option complete_func)) : list Z :=
  concat (request_bytes <$> l.*1).
Definition nodes (l : list (request * option complete_func)) : list pending_response_t :=
  (fun x => {| pr_type := request_type x.1; pr_complete := x.2 |}) <$> l.

(** What the commands of a batch leave in a buffer with [n] bytes of room: their
    results, the bytes that are sent for them and the responses that are
    expected.  A request that does not fit leaves a proper prefix. *)
Inductive batched : Z -> list (request * option complete_func) -> list Z -> list Z -> list pending_response_t -> Prop :=
  | batched_nil n : batched n [] [] [] []
  | batched_fits n r c l rs bs ns :
      len (request_bytes r) <= n -> batched (n - len (request_bytes r)) l rs bs ns ->
      batched n ((r, c) :: l) (CSWP_SUCCESS :: rs) (request_bytes r ++ bs)
        ({| pr_type := request_type r; pr_complete := c |} :: ns)
  | batched_full n r c l b b' rs bs ns :
      n < len (request_bytes r) -> request_bytes r = b ++ b' -> b' <> [] -> len b <= n ->
      batched (n - len b) l rs bs ns ->
      batched n ((r, c) :: l) (CSWP_BUFFER_FULL :: rs) (b ++ bs) ns.

(** When they all fit. *)
Lemma batched_all n l rs bs ns :
  batched n l rs bs ns -> len (total l) <= n ->
  rs = replicate (length l) CSWP_SUCCESS /\ bs = total l /\ ns = nodes l.
Proof.
  unfold total. induction 1 as [n|n r c l rs bs ns Hf _ IH|n r c l b b' rs bs ns Hf Hr Hb' Hb _ IH]; intros Hl; [done|..].
  - rewrite !fmap_cons in *. cbn [concat fst length replicate] in *. rewrite length_app in Hl.
    destruct IH as (-> & -> & ->); [lia|]. done.
  - rewrite !fmap_cons in Hl. cbn [concat fst] in Hl. rewrite length_app in Hl. lia.
Qed.

Lemma append_requests p bs :
  priv_ok p -> len bs <= room (cmd p) ->
  priv_ok (set_cmd (append (cmd p) bs) p) /\
  requests (set_cmd (append (cmd p) bs) p) = requests p ++ bs /\
  room (cmd (set_cmd (append (cmd p) bs) p)) = room (cmd p) - len bs.
Proof.
  intros [? Hw ? ? ? ?] Hl. pose proof (wr_ok_append _ _ Hw Hl). split_and!.
  - constructor; simpl; try done; lia.
  - unfold requests. simpl. rewrite content_append by done.
    destruct Hw as [[? ? ? ?] ?]. apply drop_app_le. unfold content. rewrite length_take. lia.
  - unfold room. simpl. lia.
Qed.

Lemma run_command_full (w : world T) p r c :
  priv w = Some p -> priv_ok p -> batch_mode p <> BATCH_NONE -> request_ok r ->
  room (cmd p) < len (request_bytes r) ->
  exists b b', request_bytes r = b ++ b' /\ b' <> [] /\ len b <= room (cmd p) /\
    run_command r c w = Some (CSWP_BUFFER_FULL, set_priv (Some (set_cmd (append (cmd p) b) p)) w).
Proof.
  intros Hp Hok Hb Hr Hl. unfold run_command. rewrite (M_bind_eq _ _ _ _ _ (prep_eq w p Hp)), prepped_batch by done.
  destruct (queue_full (set_priv (Some p) w) p r c eq_refl Hok Hr Hl) as (b & b' & Heq & Hne & Hfit & Hrun).
  exists b, b'. split_and!; [done..|]. by rewrite Hrun.
Qed.

Lemma run_commands_batch l (w : world T) p :
  priv w = Some p -> priv_ok p -> batch_mode p <> BATCH_NONE ->
  Forall request_ok l.*1 -> num_cmds p + len l < 2 ^ 31 ->
  exists rs bs ns p', batched (room (cmd p)) l rs bs ns /\
    run_commands l w = Some (rs, set_priv (Some p') w) /\
    priv_ok p' /\ batch_mode p' = batch_mode p /\ requests p' = requests p ++ bs /\
    pending_responses p' = pending_responses p ++ ns /\ num_cmds p' = num_cmds p + len ns /\
    connected p' = connected p.
Proof.
  revert w p. induction l as [|[r c] l IH]; intros w p Hp Hok Hb Hr Hn.
  - exists [], [], [], p. rewrite !app_nil_r. split_and!; try done; [constructor| |simpl; lia].
    unfold run_commands, mret, M_ret, set_priv. destruct w; simpl in *. by rewrite Hp.
  - rewrite fmap_cons in Hr. inversion_clear Hr. simpl length in Hn. cbn [fst] in *. cbn [run_commands].
    destruct (decide (len (request_bytes r) <= room (cmd p))) as [Hfit|Hfull].
    + destruct (queued_ok p r c) as (Hok' & Hreq & Hroom); [done|lia|lia|].
      destruct (IH (set_priv (Some (queued p r c)) w) (queued p r c))
        as (rs & bs & ns & p' & Hbat & Hrun & ? & Hbm & Hrq & Hpn & Hnc & Hcn);
        [done..|simpl; lia|].
      rewrite Hroom in Hbat. exists (CSWP_SUCCESS :: rs), (request_bytes r ++ bs), ({| pr_type := request_type r; pr_complete := c |} :: ns), p'.
      split; [by apply batched_fits|]. split_and!; try done.
      * rewrite (M_bind_eq _ _ _ _ _ (run_command_batching w p r c Hp Hok Hb ltac:(done) Hfit ltac:(lia))).
        by rewrite (M_bind_eq _ _ _ _ _ Hrun).
      * by rewrite Hrq, Hreq, <- app_assoc.
      * rewrite Hpn. simpl. by rewrite <- app_assoc.
      * rewrite Hnc. simpl. lia.
    + destruct (run_command_full w p r c Hp Hok Hb ltac:(done) ltac:(lia)) as (b & b' & Heq & Hne & Hl & Hrun1).
      destruct (append_requests p b Hok Hl) as (Hok' & Hreq & Hroom).
      destruct (IH (set_priv (Some (set_cmd (append (cmd p) b) p)) w) (set_cmd (append (cmd p) b) p))
        as (rs & bs & ns & p' & Hbat & Hrun & ? & Hbm & Hrq & Hpn & Hnc & Hcn);
        [done..|simpl; lia|].
      rewrite Hroom in Hbat. exists (CSWP_BUFFER_FULL :: rs), (b ++ bs), ns, p'.
      split; [eapply batched_full; eauto with lia|]. split_and!; try done.
      * by rewrite (M_bind_eq _ _ _ _ _ Hrun1), (M_bind_eq _ _ _ _ _ Hrun).
      * by rewrite Hrq, Hreq, <- app_assoc.
Qed.
End commands.

(** ** Register writes

    [cswp_device_reg_write] appends the registers to the request itself. *)

Definition reg_write_header (deviceNo count : Z) : list Z :=
  varint_enc (cmd_id CSWP_REG_WRITE) ++ varint_enc deviceNo ++ varint_enc count.
Definition registers_bytes (l : list (Z * Z)) : list Z :=
  concat ((fun x => varint_enc x.1 ++ le_bytes 4 x.2) <$> l).
Definition reg_write_bytes (deviceNo : Z) (l : list (Z * Z)) : list Z :=
  reg_write_header deviceNo (len l) ++ registers_bytes l.
Definition registers_ok (l : list (Z * Z)) : Prop :=
  Forall (fun x => is_u64 x.1 /\ is_u32 x.2) l.

Lemma writes_reg_write_header deviceNo n :
  is_u64 deviceNo -> is_u64 n ->
  Writes (cswp_encode_reg_write_command deviceNo n) (reg_write_header deviceNo n).
Proof.
  intros. unfold reg_write_header.
  apply writes_seq; [apply writes_header|]. apply writes_seq; [by apply writes_put_varint|].
  apply writes_ret_r. by apply writes_put_varint.
Qed.

Section reg_write.
Context {T : Type} `{Transport T}.

(** Whatever its result, a writer appends some bytes that fit. *)
Lemma on_cmd_appends (m : BufM unit) bs (w : world T) p :
  Writes m bs -> priv w = Some p -> wr_ok (cmd p) ->
  exists r bs', on_cmd m w = Some (r, set_priv (Some (set_cmd (append (cmd p) bs') p)) w) /\
    len bs' <= room (cmd p) /\ (len bs <= room (cmd p) -> r = Val tt /\ bs' = bs).
Proof.
  intros Hm Hp Hw. specialize (Hm _ Hw). case_decide as Hd.
  - exists (Val tt), bs. split_and!; try done. by apply on_cmd_eq.
  - destruct Hm as (bs' & bs'' & _ & _ & Hl & Hm).
    exists (Fail CSWP_BUFFER_FULL), bs'. split_and!; try done. by apply on_cmd_eq.
Qed.

Lemma set_cmd_twice x y p : set_cmd x (set_cmd y p) = set_cmd x p.
Proof. done. Qed.

(** The loop appends some bytes; all the registers when they fit. *)
Lemma reg_write_loop_eq (l2 l1 : list (Z * Z)) (w : world T) p :
  registers_ok l2 -> priv w = Some p -> wr_ok (cmd p) ->
  exists bs,
    reg_write_loop (length l2) (len l1) (l1 ++ l2).*1 (l1 ++ l2).*2 w =
      Some (tt, set_priv (Some (set_cmd (append (cmd p) bs) p)) w) /\
    len bs <= room (cmd p) /\
    (len (registers_bytes l2) <= room (cmd p) -> bs = registers_bytes l2).
Proof.
  revert l1 w p. induction l2 as [|[id v] l2 IH]; intros l1 w p Hok Hp Hw.
  - exists []. simpl. rewrite append_nil by done. pose proof Hw as [[? ? ? ?] ?].
    split_and!; [|unfold room; lia|done].
    unfold mret, M_ret, set_priv. destruct w, p; simpl in *. by rewrite Hp.
  - inversion_clear Hok as [|? ? [Hid Hv] Hok'].
    assert (He : forall (f : Z * Z -> Z),
      (f <$> l1 ++ (id, v) :: l2) !! Z.to_nat (len l1) = Some (f (id, v))).
    { intros f. rewrite Nat2Z.id, list_lookup_fmap, lookup_app_r, Nat.sub_diag by lia. done. }
    simpl reg_write_loop. rewrite !He. simpl fst. simpl snd.
    destruct (on_cmd_appends _ _ w p (writes_put_varint id Hid) Hp Hw)
      as (r1 & b1 & E1 & L1 & F1).
    assert (Hw1 : wr_ok (append (cmd p) b1)) by (by apply wr_ok_append).
    destruct (on_cmd_appends _ _ (set_priv (Some (set_cmd (append (cmd p) b1) p)) w) _
      (writes_put_uint32 v) eq_refl Hw1) as (r2 & b2 & E2 & L2 & F2).
    cbn [cmd set_cmd] in L2, F2, E2. rewrite room_append in L2, F2.
    rewrite append_append in E2 by (done || lia). rewrite set_cmd_twice in E2.
    assert (Hw2 : wr_ok (append (cmd p) (b1 ++ b2)))
      by (apply wr_ok_append; [done|rewrite length_app; lia]).
    destruct (IH (l1 ++ [(id, v)]) (set_priv (Some (set_cmd (append (cmd p) (b1 ++ b2)) p)) w)
      _ Hok' eq_refl Hw2) as (bs & E3 & L3 & F3).
    cbn [cmd set_cmd] in L3, F3, E3. rewrite room_append, length_app in L3, F3.
    rewrite append_append in E3 by (rewrite ?length_app; done || lia).
    rewrite set_cmd_twice in E3.
    exists ((b1 ++ b2) ++ bs). rewrite !length_app. split_and!; [|lia|].
    + rewrite (M_bind_eq _ _ _ _ _ E1), (M_bind_eq _ _ _ _ _ E2).
      rewrite length_app, <- app_assoc in E3. simpl in E3.
      by replace (len l1 + 1) with (Z.of_nat (length l1 + 1)) by lia.
    + unfold registers_bytes in *. rewrite fmap_cons. cbn [concat fst snd].
      rewrite !length_app. intros Hl.
      destruct F1 as [_ F1]; [lia|]. destruct F2 as [_ F2]; [subst b1; lia|].
      rewrite F3 by (subst; lia). by subst.
Qed.
End reg_write.

(** Reading registers first copies their ids. *)
Lemma reg_read_is_command {T} `{Transport T} n ids q size (w : world T) :
  len ids < 2 ^ 32 ->
  cswp_device_reg_read n (len ids) ids q size w =
    run_command (ReqRegRead n ids) (Some (Creg_read (Build_cswp_reg_read_rsp_data q size))) w.
Proof.
  intros Hids. unfold cswp_device_reg_read, copy_regIDs.
  destruct (Z.ltb_spec (len ids) (2 ^ 32)); [|lia].
  destruct (Z.leb_spec (len ids) (len ids)); [|lia]. cbn [andb].
  rewrite Nat2Z.id, take_ge by lia. reflexivity.
Qed.

(** A whole batch: nothing is sent when no command was accepted. *)
Definition batch_sent {T} `{Transport T} (mode : batch_mode_t) (rs bs : list Z) (ns : list pending_response_t) (ops : ptr)
    : ClientM T (list Z * Z) :=
  match ns with
  | [] => upd_priv (set_batch_mode BATCH_NONE);; mret (rs, CSWP_SUCCESS)
  | _ =>
      res ← call_send (frame (len ns) mode bs);
      r ← after_send ops res;
      upd_priv (set_batch_mode BATCH_NONE);;
      mret (rs, r)
  end.

Lemma batch_run {T} `{Transport T} (w : world T) p abort l ops :
  priv w = Some p -> priv_ok p -> batch_mode p = BATCH_NONE ->
  Forall request_ok l.*1 -> len l < 2 ^ 31 ->
  exists rs bs ns p', batched (16384 - 15) l rs bs ns /\
    priv_ok p' /\ num_cmds p' = len ns /\ pending_responses p' = ns /\
    (cswp_batch_begin abort;; xs ← run_commands l; r ← cswp_batch_end ops; mret (xs, r)) w =
      batch_sent (if abort then BATCH_ABORT else BATCH_CONTINUE) rs bs ns ops (set_priv (Some p') w).
Proof.
  intros Hp Hok Hb Hr Hn.
  destruct (prepped_none p Hok Hb) as (Hq0 & Hn0 & Hpd0 & _ & Hroom).
  set (mode := if abort then BATCH_ABORT else BATCH_CONTINUE).
  set (p1 := set_batch_mode mode (prepped p)).
  assert (Hok1 : priv_ok p1) by (destruct (prepped_ok p Hok); by constructor).
  destruct (run_commands_batch l (set_priv (Some p1) w) p1)
    as (rs & bs & ns & p2 & Hbat & Hrun & Hok2 & Hm2 & Hq2 & Hpd2 & Hn2 & _);
    [done|done|by destruct abort|done|unfold p1; simpl; lia|].
  unfold p1 in Hq2, Hpd2, Hn2, Hm2, Hbat. simpl in Hpd2, Hn2, Hm2, Hbat.
  change (requests (set_batch_mode mode (prepped p))) with (requests (prepped p)) in Hq2.
  rewrite Hq0 in Hq2. rewrite Hpd0 in Hpd2. rewrite Hn0 in Hn2. rewrite Hroom in Hbat. simpl app in *.
  assert (Hbegin : cswp_batch_begin abort w = Some (CSWP_SUCCESS, set_priv (Some p1) w)).
  { unfold cswp_batch_begin. rewrite (M_bind_eq _ _ _ _ _ (prep_eq w p Hp)). by mstep. }
  exists rs, bs, ns, (match ns with [] => p2 | _ => framed p2 end). split; [done|].
  split; [destruct ns; [done|by apply framed_ok]|].
  split; [destruct ns; exact Hn2|]. split; [by destruct ns|].
  rewrite (M_bind_eq _ _ _ _ _ Hbegin), (M_bind_eq _ _ _ _ _ Hrun), set_priv_twice.
  unfold cswp_batch_end, batch_sent. unfold mbind, M_bind. rewrite (get_priv_eq _ p2) by done.
  destruct ns as [|x ns].
  - rewrite Hn2. change (0 <? 0) with false. by unfold mret, M_ret.
  - pose proof (transact_eq ops (set_priv (Some p2) w) p2 eq_refl Hok2) as Ht.
    rewrite Hm2, Hn2, Hq2, set_priv_twice in Ht. fold mode. unfold mbind, M_bind in Ht.
    change (0 + len (x :: ns)) with (len (x :: ns)) in Ht.
    destruct (Z.ltb_spec 0 (num_cmds p2)) as [_|Hneg]; [|rewrite Hn2, length_cons in Hneg; lia]. rewrite Ht.
    destruct (call_send _ _) as [[res w1]|]; [|done].
    destruct (after_send ops res w1) as [[r w2]|]; [|done].
    by destruct (upd_priv _ w2) as [[? ?]|].
Qed.

(** A batch that fits. *)
Lemma batch_eq {T} `{Transport T} (w : world T) p abort l ops :
  priv w = Some p -> priv_ok p -> batch_mode p = BATCH_NONE ->
  Forall request_ok l.*1 -> len (total l) <= 16384 - 15 -> 0 < len l < 2 ^ 31 ->
  exists p', priv_ok p' /\ num_cmds p' = len l /\ pending_responses p' = nodes l /\
    (cswp_batch_begin abort;; xs ← run_commands l; r ← cswp_batch_end ops; mret (xs, r)) w =
    (res ← call_send (frame (len l) (if abort then BATCH_ABORT else BATCH_CONTINUE) (total l));
     r ← after_send ops res;
     upd_priv (set_batch_mode BATCH_NONE);;
     mret (replicate (length l) CSWP_SUCCESS, r)) (set_priv (Some p') w).
Proof.
  intros Hp Hok Hb Hr Hl Hn.
  destruct (batch_run w p abort l ops Hp Hok Hb Hr ltac:(lia)) as (rs & bs & ns & p' & Hbat & Hok' & Hn' & Hpd' & E).
  destruct (batched_all _ _ _ _ _ Hbat Hl) as (-> & -> & ->).
  assert (Hln : len (nodes l) = len l) by (unfold nodes; by rewrite length_fmap).
  exists p'. split; [done|]. split; [lia|]. split; [done|]. rewrite E. unfold batch_sent. rewrite Hln.
  destruct l; [simpl in Hn; lia|done].
Qed.

(** A command outside a batch. *)
Lemma command_eq {T} `{Transport T} (w : world T) p r c :
  priv w = Some p -> priv_ok p -> batch_mode p = BATCH_NONE -> request_ok r ->
  len (request_bytes r) <= 16384 - 15 ->
  exists p', priv_ok p' /\ num_cmds p' = 1 /\ batch_mode p' = BATCH_NONE /\
    pending_responses p' = [{| pr_type := request_type r; pr_complete := c |}] /\
    run_command r c w =
      (call_send (frame 1 BATCH_NONE (request_bytes r)) ≫= after_send None)
        (set_priv (Some p') w).
Proof.
  intros Hp Hok Hb Hr Hl.
  destruct (prepped_none p Hok Hb) as (Hq0 & Hn0 & Hpd0 & Hb0 & Hroom).
  destruct (queued_ok (prepped p) r c) as (Hok' & Hq & _);
    [by apply prepped_ok|lia|lia|].
  exists (framed (queued (prepped p) r c)). split_and!.
  - by apply framed_ok.
  - simpl. lia.
  - exact Hb0.
  - simpl. by rewrite Hpd0.
  - rewrite (run_command_idle w p) by done.
    rewrite (transact_eq None _ (queued (prepped p) r c)) by done.
    rewrite Hq, Hq0. simpl num_cmds. simpl batch_mode. by rewrite Hn0, Hb0.
Qed.

(** ** Properties *)

(** Every public command of the client is the generic command applied to
    its request and its completion: it prepares the buffer, encodes exactly that
    request and, when the encoding succeeds, registers one pending response of
    the request's type. *)
Lemma api_is_run_command {T} `{Transport T} (w : world T)
    n a sz acc fl tr iv ids data mask value tok s k p1 p2 p3 n1 n2 n3 n4 dl ty :
  len ids < 2 ^ 32 ->
  cswp_get_devices p1 dl n1 n2 ty n3 n4 w =
    run_command ReqGetDevices (Some (Cget_devices (Build_cswp_get_devices_rsp_data p1 dl n1 n2 ty n3 n4))) w /\
  cswp_device_open n p1 n1 w =
    run_command (ReqDeviceOpen n) (Some (Cdevice_open (Build_cswp_device_open_rsp_data p1 n1))) w /\
  cswp_device_close n w = run_command (ReqDeviceClose n) None w /\
  cswp_get_device_capabilities n p1 p2 w =
    run_command (ReqGetDeviceCapabilities n) (Some (Cget_device_capabilities (Build_cswp_get_device_capabilities_rsp_data p1 p2))) w /\
  cswp_device_reg_list n p1 p2 n1 p3 n2 w =
    run_command (ReqRegList n) (Some (Creg_list (Build_cswp_reg_list_rsp_data p1 p2 n1 p3 n2))) w /\
  cswp_device_reg_read n (len ids) ids p1 n1 w =
    run_command (ReqRegRead n ids) (Some (Creg_read (Build_cswp_reg_read_rsp_data p1 n1))) w /\
  cswp_device_mem_read n a sz acc fl p1 p2 w =
    run_command (ReqMemRead n a sz (access_size_id acc) fl) (Some (Cmem_read (Build_cswp_mem_read_rsp_data p1 sz p2))) w /\
  cswp_device_mem_write n a (len data) acc fl data w =
    run_command (ReqMemWrite n a (access_size_id acc) fl data) None w /\
  cswp_device_mem_poll n a (len mask) acc fl tr iv mask value p1 p2 w =
    run_command (ReqMemPoll n a (access_size_id acc) fl tr iv mask value) (Some (Cmem_poll (Build_cswp_mem_poll_rsp_data p1 (len mask) p2))) w /\
  cswp_nvsec_unlock n p1 42 w =
    run_command (ReqNvsecUnlock n) (Some (Cnvsec_unlock (Build_cswp_nvsec_unlock_rsp_data p1 42))) w /\
  (length tok = 252%nat ->
   cswp_nvsec_token (len tok) tok w = run_command (ReqNvsecToken tok) None w) /\
  cswp_nvsec_verify s p1 128 w =
    run_command (ReqNvsecVerify s) (Some (Cnvsec_verify (Build_cswp_nvsec_verify_rsp_data p1 129))) w /\
  cswp_nvsec_encrypt k p1 1024 w =
    run_command (ReqNvsecEncrypt k) (Some (Cnvsec_encrypt (Build_cswp_nvsec_encrypt_rsp_data p1 1025))) w.
Proof.
  intros Hids. split_and!; try reflexivity.
  - by apply reg_read_is_command.
  - intros Ht. unfold cswp_nvsec_token.
    replace (len tok =? CSWP_NVSEC_NUM_SIGNED_TOKEN_BYTES) with true by (by rewrite Ht).
    reflexivity.
Qed.

(** C6: outside a batch a command whose request fits the command buffer sends
    exactly one message, the frame of that single request with error mode 0,
    with exactly its response pending; anything left in the buffer by earlier
    commands is discarded. *)
Theorem command_sends_one_frame {T} `{Transport T} (w : world T) p r c :
  priv w = Some p -> priv_ok p -> batch_mode p = BATCH_NONE -> request_ok r ->
  len (request_bytes r) <= 16384 - 15 ->
  exists p', priv_ok p' /\ num_cmds p' = 1 /\ batch_mode p' = BATCH_NONE /\
    pending_responses p' = [{| pr_type := request_type r; pr_complete := c |}] /\
    run_command r c w =
      (call_send (frame 1 BATCH_NONE (request_bytes r)) ≫= after_send None)
        (set_priv (Some p') w).
Proof. apply command_eq. Qed.

Lemma command_sends_one_frame_witness :
  exists p', priv_ok p' /\ num_cmds p' = 1 /\ batch_mode p' = BATCH_NONE /\
    pending_responses p' = [{| pr_type := CSWP_DEVICE_CLOSE; pr_complete := None |}] /\
    run_command (ReqDeviceClose 3) None (ex_world fresh_priv ∅ (mkScript [] [])) =
      (call_send [9; 0; 0; 0; 1; 0; 129; 2; 3] ≫= after_send None)
        (set_priv (Some p') (ex_world fresh_priv ∅ (mkScript [] []))).
Proof.
  apply (command_sends_one_frame (ex_world fresh_priv ∅ (mkScript [] [])) fresh_priv
           (ReqDeviceClose 3) None).
  - reflexivity.
  - exact fresh_priv_ok.
  - reflexivity.
  - split; [repeat constructor; simpl; lia|exact I].
  - vm_compute. discriminate.
Defined.

(** C5: a batch of any list of commands, with arguments in the range of their
    types ([run_command], which the public functions are, see
    [api_is_run_command]; register writes do not check what they encode and have
    a theorem of their own): nothing is sent until [cswp_batch_end], which sends one message.  It
    holds, in the order of the calls, the complete request of every command that
    fits the room left in the buffer, their number and the error mode chosen by
    [cswp_batch_begin], and exactly their responses are pending, in that order.
    A command that does not fit returns [CSWP_BUFFER_FULL] and is not counted,
    but a proper prefix of its request is sent in its place.  When all fit, all
    succeed and the message is exactly their requests; when none was accepted
    nothing is sent.  Then the client leaves batch mode. *)
Theorem batch_sends_one_frame {T} `{Transport T} (w : world T) p abort l ops :
  priv w = Some p -> priv_ok p -> batch_mode p = BATCH_NONE ->
  Forall request_ok l.*1 -> len l < 2 ^ 31 ->
  exists rs bs ns p', batched (16384 - 15) l rs bs ns /\
    (len (total l) <= 16384 - 15 -> rs = replicate (length l) CSWP_SUCCESS /\ bs = total l /\ ns = nodes l) /\
    priv_ok p' /\ num_cmds p' = len ns /\ pending_responses p' = ns /\
    (cswp_batch_begin abort;; xs ← run_commands l; r ← cswp_batch_end ops; mret (xs, r)) w =
      batch_sent (if abort then BATCH_ABORT else BATCH_CONTINUE) rs bs ns ops (set_priv (Some p') w).
Proof.
  intros Hp Hok Hb Hr Hn.
  destruct (batch_run w p abort l ops Hp Hok Hb Hr Hn) as (rs & bs & ns & p' & Hbat & Hrest).
  exists rs, bs, ns, p'. split; [done|]. split; [|done]. by apply batched_all.
Qed.

Lemma batch_sends_one_frame_witness :
  let l := [(ReqDeviceClose 3, None); (ReqTerm, None)] in
  exists rs bs ns p', batched (16384 - 15) l rs bs ns /\
    (len (total l) <= 16384 - 15 -> rs = replicate 2 CSWP_SUCCESS /\ bs = total l /\ ns = nodes l) /\
    priv_ok p' /\ num_cmds p' = len ns /\ pending_responses p' = ns /\
    (cswp_batch_begin true;; xs ← run_commands l; r ← cswp_batch_end None; mret (xs, r))
      (ex_world fresh_priv ∅ (mkScript [] [])) =
      batch_sent BATCH_ABORT rs bs ns None (set_priv (Some p') (ex_world fresh_priv ∅ (mkScript [] []))).
Proof.
  intros l. apply (batch_sends_one_frame (ex_world fresh_priv ∅ (mkScript [] [])) fresh_priv true l None).
  - reflexivity.
  - exact fresh_priv_ok.
  - reflexivity.
  - repeat constructor; simpl; lia.
  - simpl. lia.
Defined.

(** [cswp_batch_end] without a batch sends the last request of the client
    again (its count is not reset), with no response pending, so whatever the
    server answers to it is not checked. *)
Lemma batch_end_resends {T} `{Transport T} (w : world T) p ops :
  priv w = Some p -> priv_ok p -> batch_mode p = BATCH_NONE -> 0 < num_cmds p ->
  pending_responses (framed p) = pending_responses p /\
  cswp_batch_end ops w =
    (res ← call_send (frame (num_cmds p) BATCH_NONE (requests p));
     res ← after_send ops res;
     upd_priv (set_batch_mode BATCH_NONE);;
     mret res) (set_priv (Some (framed p)) w).
Proof.
  intros Hp Hok Hb Hn. split; [done|]. unfold cswp_batch_end. mstep.
  destruct (Z.ltb_spec 0 (num_cmds p)); [|lia].
  pose proof (transact_eq ops w p Hp Hok) as Ht. rewrite Hb in Ht.
  unfold mbind, M_bind in *. rewrite Ht. by destruct (call_send _ _) as [[res w1]|].
Qed.

Lemma batch_end_resends_witness :
  exists p, num_cmds p = 1 /\ requests p = [129; 2; 3] /\ pending_responses p = [] /\
    cswp_batch_end None (ex_world p ∅ (mkScript [] [])) =
    (res ← call_send [9; 0; 0; 0; 1; 0; 129; 2; 3];
     res ← after_send None res;
     upd_priv (set_batch_mode BATCH_NONE);;
     mret res) (set_priv (Some (framed p)) (ex_world p ∅ (mkScript [] []))).
Proof.
  exists (set_pending [] (queued fresh_priv (ReqDeviceClose 3) None)).
  split; [reflexivity|]. split; [vm_compute; reflexivity|]. split; [reflexivity|].
  apply (batch_end_resends (ex_world (set_pending [] (queued fresh_priv (ReqDeviceClose 3) None)) ∅ (mkScript [] []))
    (set_pending [] (queued fresh_priv (ReqDeviceClose 3) None)) None).
  - reflexivity.
  - apply set_pending_ok. apply (queued_ok fresh_priv (ReqDeviceClose 3) None fresh_priv_ok);
      [vm_compute; discriminate|reflexivity].
  - reflexivity.
  - reflexivity.
Defined.

Lemma reg_write_header_length n m : len (reg_write_header n m) <= 30.
Proof.
  unfold reg_write_header. rewrite !length_app. pose proof (varint_enc_length (cmd_id CSWP_REG_WRITE)).
  pose proof (varint_enc_length n). pose proof (varint_enc_length m). lia.
Qed.

(** Bytes appended to the command buffer are appended to the requests. *)
Lemma requests_set_cmd p bs :
  wr_ok (cmd p) -> 15 <= used (cmd p) -> len bs <= room (cmd p) ->
  requests (set_cmd (append (cmd p) bs) p) = requests p ++ bs.
Proof.
  intros Hw Hu Hl. unfold requests. cbn [cmd set_cmd]. rewrite content_append by done.
  rewrite drop_app_le; [done|]. destruct Hw as [[? ? ? ?] ?]. unfold content. rewrite length_take. lia.
Qed.

(** C19: [cswp_device_reg_write] outside a batch sends the complete request when
    it fits; when only its header fits it does not fail, but sends a message
    whose register count promises more registers than follow. *)
Theorem reg_write_sends {T} `{Transport T} (w : world T) p n l :
  priv w = Some p -> priv_ok p -> batch_mode p = BATCH_NONE ->
  is_u64 n -> registers_ok l -> len l < 2 ^ 32 ->
  exists p' bs, priv_ok p' /\ num_cmds p' = 1 /\
    pending_responses p' = [{| pr_type := CSWP_REG_WRITE; pr_complete := None |}] /\
    cswp_device_reg_write n (len l) l.*1 l.*2 w =
      (call_send (frame 1 BATCH_NONE (reg_write_header n (len l) ++ bs)) ≫= after_send None)
        (set_priv (Some p') w) /\
    (if decide (len (reg_write_bytes n l) <= 16384 - 15) then bs = registers_bytes l
     else len bs < len (registers_bytes l)).
Proof.
  intros Hp Hok Hb Hn Hl Hc.
  destruct (prepped_none p Hok Hb) as (Hq0 & Hn0 & Hpd0 & Hb0 & Hroom).
  pose proof (prepped_ok p Hok) as Hok0. pose proof Hok0 as [? Hw ? ? ? ?].
  set (p0 := prepped p) in *.
  pose proof (reg_write_header_length n (len l)) as Hh.
  assert (Hlu : is_u64 (len l)) by (unfold is_u64; lia).
  pose proof (writes_reg_write_header n (len l) Hn Hlu (cmd p0) Hw) as He.
  rewrite decide_True in He by lia.
  assert (Hw1 : wr_ok (append (cmd p0) (reg_write_header n (len l))))
    by (apply wr_ok_append; [done|lia]).
  set (p1 := set_cmd (append (cmd p0) (reg_write_header n (len l))) p0).
  destruct (reg_write_loop_eq l [] (set_priv (Some p1) w) p1 Hl eq_refl Hw1)
    as (bs & Hloop & Hfit & Hall).
  change (cmd p1) with (append (cmd p0) (reg_write_header n (len l))) in *.
  rewrite append_append in Hloop by (rewrite ?room_append in *; done || lia).
  unfold p1 in Hloop. rewrite set_cmd_twice in Hloop. rewrite room_append in *.
  set (p2 := set_num_cmds 1 (set_pending [{| pr_type := CSWP_REG_WRITE; pr_complete := None |}]
    (set_cmd (append (cmd p0) (reg_write_header n (len l) ++ bs)) p0))).
  assert (Hok2 : priv_ok p2).
  { constructor; unfold p2; cbn [cmd hdr rsp num_cmds set_num_cmds set_pending set_cmd];
      try done; [|cbn [append used]; lia].
    apply wr_ok_append; [done|]. rewrite length_app. lia. }
  exists (framed p2), bs. split_and!.
  - by apply framed_ok.
  - done.
  - done.
  - unfold cswp_device_reg_write.
    rewrite (M_bind_eq _ _ _ _ _ (prep_eq w p Hp)). fold p0.
    erewrite M_bind_eq by (apply on_cmd_eq; [reflexivity|exact He]).
    rewrite set_priv_twice. rewrite Nat2Z.id.
    destruct (Z.ltb_spec (len l) (2 ^ 32)); [|lia].
    rewrite (M_bind_eq _ _ _ _ _ Hloop), set_priv_twice.
    assert (Hq2 : requests p2 = reg_write_header n (len l) ++ bs).
    { change (requests p2) with (requests (set_cmd (append (cmd p0) (reg_write_header n (len l) ++ bs)) p0)).
      rewrite requests_set_cmd by (rewrite ?length_app; done || lia). by rewrite Hq0. }
    pose proof (transact_eq None (set_priv (Some p2) w) p2 eq_refl Hok2) as Ht.
    rewrite Hq2 in Ht. change (batch_mode p2) with (batch_mode p0) in Ht. rewrite Hb0 in Ht.
    rewrite set_priv_twice in Ht. change (num_cmds p2) with 1 in Ht. rewrite <- Ht.
    unfold finish_command. erewrite M_bind_eq by (apply add_node_eq; [reflexivity|simpl; lia]).
    rewrite set_priv_twice.
    cbn [num_cmds pending_responses set_cmd]. rewrite Hn0, Hpd0.
    unfold cswp_client_send_to_transact. mstep. by rewrite decide_True by done.
  - unfold reg_write_bytes. rewrite length_app. case_decide.
    + apply Hall. lia.
    + lia.
Qed.

Lemma reg_write_sends_witness :
  exists p' bs, priv_ok p' /\ num_cmds p' = 1 /\
    pending_responses p' = [{| pr_type := CSWP_REG_WRITE; pr_complete := None |}] /\
    cswp_device_reg_write 0 2 [5; 6] [1; 2] (ex_world fresh_priv ∅ (mkScript [] [])) =
      (call_send (frame 1 BATCH_NONE (reg_write_header 0 2 ++ bs)) ≫= after_send None)
        (set_priv (Some p') (ex_world fresh_priv ∅ (mkScript [] []))) /\
    (if decide (len (reg_write_bytes 0 [(5, 1); (6, 2)]) <= 16384 - 15)
     then bs = registers_bytes [(5, 1); (6, 2)]
     else len bs < len (registers_bytes [(5, 1); (6, 2)])).
Proof.
  apply (reg_write_sends (ex_world fresh_priv ∅ (mkScript [] [])) fresh_priv 0 [(5, 1); (6, 2)]).
  - reflexivity.
  - exact fresh_priv_ok.
  - reflexivity.
  - unfold is_u64. lia.
  - repeat constructor; simpl; lia.
  - simpl. lia.
Defined.
