(* ===== verification/ClientInvariant.v ===== *)
(** The invariant of a client: whatever the transport delivers and whatever the
    caller does, the private data stays well formed ([priv_ok]) in every state
    that the public functions can reach.  The proofs go through a relation
    between the states before and after a computation ([steps]), composed along
    the monads by the hint database [steps]. *)
From S2P Require Import Prelude Wire CswpTypes CswpBuffer Memory ClientCommands ClientState ClientComplete ClientTransact ClientApi ClientBatch.

(** ** Computations that respect a preorder on states *)

Definition steps {S A} (R : S -> S -> Prop) (m : S -> option (A * S)) : Prop :=
  forall s a s', m s = Some (a, s') -> R s s'.

Create HintDb steps.

Section steps.
Context {S : Type} (R : S -> S -> Prop) `{!PreOrder R}.

Lemma steps_mret {A} (a : A) : steps R (mret a : M S A).
Proof. intros s b s' Hm. unfold mret, M_ret in Hm. by simplify_eq. Qed.
Lemma steps_eret {A} (a : A) : steps R (mret a : E S A).
Proof. intros s b s' Hm. unfold mret, E_ret in Hm. by simplify_eq. Qed.
Lemma steps_mbind {A B} (m : M S A) (f : A -> M S B) :
  steps R m -> (forall a, steps R (f a)) -> steps R (m ≫= f).
Proof.
  intros Hm Hf s b s' Hs. apply M_bind_inv in Hs as (a & s1 & H1 & H2).
  etrans; [by eapply Hm|by eapply Hf].
Qed.
Lemma steps_ebind {A B} (m : E S A) (f : A -> E S B) :
  steps R m -> (forall a, steps R (f a)) -> steps R (m ≫= f).
Proof.
  intros Hm Hf s b s' Hs. unfold mbind, E_bind in Hs.
  destruct (m s) as [[[a|c] s1]|] eqn:H1; simplify_eq.
  - etrans; [by eapply Hm|by eapply Hf].
  - by eapply Hm.
Qed.
Lemma steps_none {A} : steps R (fun _ => @None (A * S)).
Proof. by intros s a s'. Qed.
Lemma steps_gets {A} (f : S -> A) : steps R (gets f).
Proof. intros s a s' Hm. unfold gets in Hm. by simplify_eq. Qed.
Lemma steps_e_gets {A} (f : S -> A) : steps R (e_gets f).
Proof. intros s a s' Hm. unfold e_gets in Hm. by simplify_eq. Qed.
Lemma steps_e_fail {A} c : steps R (e_fail c : E S A).
Proof. intros s a s' Hm. unfold e_fail in Hm. by simplify_eq. Qed.
Lemma steps_modify f : (forall s, R s (f s)) -> steps R (modify f).
Proof. intros Hf s a s' Hm. unfold modify in Hm. by simplify_eq. Qed.
Lemma steps_e_modify f : (forall s, R s (f s)) -> steps R (e_modify f).
Proof. intros Hf s a s' Hm. unfold e_modify in Hm. by simplify_eq. Qed.
Lemma steps_e_index {A} (l : list A) i : steps R (e_index l i).
Proof. unfold e_index. repeat case_match; auto using steps_eret, steps_none. Qed.
End steps.
#[export] Hint Resolve steps_mret steps_eret steps_mbind steps_ebind steps_none
  steps_gets steps_e_gets steps_e_fail steps_modify steps_e_modify steps_e_index : steps.

(** Case analysis on the conditions of the code. *)
Ltac split_match :=
  match goal with
  | |- steps _ (match ?x with _ => _ end) => destruct x
  | |- steps _ (if ?x then _ else _) => destruct x
  end.
#[export] Hint Extern 2 (steps _ _) => split_match : steps.
#[export] Hint Extern 1 (steps _ ub) => apply steps_none : steps.
#[export] Hint Extern 1 (steps _ e_ub) => apply steps_none : steps.

(** ** Buffers keep their allocation *)

Definition same_alloc (b b' : CSWP_BUFFER) : Prop :=
  size b' = size b /\ length (buf b') = length (buf b).

#[export] Instance same_alloc_preorder : PreOrder same_alloc.
Proof. split; [by intros ?|]. intros b1 b2 b3 [? ?] [? ?]. split; congruence. Qed.

Abbreviation keeps := (steps same_alloc).

Lemma keeps_put_byte v : keeps (CSWP_PUT_BYTE v).
Proof.
  intros b a b' Hm. unfold CSWP_PUT_BYTE in Hm. case_decide; simplify_eq.
  split; simpl; [done|]. by rewrite length_insert.
Qed.
Lemma keeps_get_byte : keeps CSWP_GET_BYTE.
Proof. intros b a b' Hm. unfold CSWP_GET_BYTE in Hm. repeat case_match; by simplify_eq. Qed.
Lemma keeps_require_w n : keeps (CSWP_REQUIRE_W n).
Proof. intros b a b' Hm. unfold CSWP_REQUIRE_W in Hm. repeat case_match; by simplify_eq. Qed.
Lemma keeps_require_r n : keeps (CSWP_REQUIRE_R n).
Proof. intros b a b' Hm. unfold CSWP_REQUIRE_R in Hm. repeat case_match; by simplify_eq. Qed.
Lemma keeps_used_is_pos : keeps used_is_pos.
Proof. by apply steps_e_modify. Qed.
Lemma keeps_copy_in src : keeps (copy_in src).
Proof.
  intros b a b' Hm. unfold copy_in in Hm. case_decide; simplify_eq.
  split; simpl; [done|]. rewrite length_splice; lia.
Qed.
Lemma keeps_copy_out n : keeps (copy_out n).
Proof. intros b a b' Hm. unfold copy_out in Hm. case_decide; by simplify_eq. Qed.
Lemma keeps_set_pos f : keeps (e_modify (fun b => set_pos (f b) b)).
Proof. by apply steps_e_modify. Qed.
Lemma keeps_skip n : keeps (e_modify (cswp_buffer_skip n)).
Proof. by apply steps_e_modify. Qed.
#[export] Hint Resolve same_alloc_preorder keeps_put_byte keeps_get_byte keeps_require_w
  keeps_require_r keeps_used_is_pos keeps_copy_in keeps_copy_out keeps_set_pos keeps_skip : steps.

Lemma keeps_put_varint_loop f v : keeps (put_varint_loop f v).
Proof. revert v. induction f; intros v; simpl; eauto with steps. Qed.
Lemma keeps_get_varint_loop f v s : keeps (get_varint_loop f v s).
Proof. revert v s. induction f; intros v s; simpl; eauto 10 with steps. Qed.
#[export] Hint Resolve keeps_put_varint_loop keeps_get_varint_loop : steps.

Lemma keeps_put_uint8 v : keeps (cswp_buffer_put_uint8 v).
Proof. unfold cswp_buffer_put_uint8. eauto with steps. Qed.
Lemma keeps_put_varint v : keeps (cswp_buffer_put_varint v).
Proof. unfold cswp_buffer_put_varint. eauto with steps. Qed.
Lemma keeps_get_uint32 : keeps cswp_buffer_get_uint32.
Proof. unfold cswp_buffer_get_uint32. eauto 20 with steps. Qed.
Lemma keeps_get_varint : keeps cswp_buffer_get_varint.
Proof. apply keeps_get_varint_loop. Qed.
#[export] Hint Resolve keeps_put_uint8 keeps_put_varint keeps_get_uint32 keeps_get_varint : steps.
Lemma keeps_get_string n : keeps (cswp_buffer_get_string n).
Proof. unfold cswp_buffer_get_string. eauto 10 with steps. Qed.
Lemma keeps_get_direct n : keeps (cswp_buffer_get_direct n).
Proof. unfold cswp_buffer_get_direct. eauto 10 with steps. Qed.
Lemma keeps_get_data n : keeps (cswp_buffer_get_data n).
Proof. unfold cswp_buffer_get_data. eauto 10 with steps. Qed.
#[export] Hint Resolve keeps_get_string keeps_get_direct keeps_get_data : steps.

(** ** Decoders *)

Definition same_alloc_d (s s' : dstate) : Prop := same_alloc (fst s) (fst s').

#[export] Instance same_alloc_d_preorder : PreOrder same_alloc_d.
Proof. split; [by intros ?|]. intros s1 s2 s3 H1 H2. unfold same_alloc_d in *. by etrans. Qed.

Abbreviation dkeeps := (steps same_alloc_d).

Lemma dkeeps_on_buf {A} (m : BufM A) : keeps m -> dkeeps (on_buf m).
Proof.
  intros Hm [b x] a s' Hs. unfold on_buf, zoom in Hs. simpl in Hs.
  destruct (m b) as [[r b']|] eqn:Hb; simplify_eq. by eapply Hm.
Qed.
Lemma dkeeps_on_mem {A} (m : MemM A) : dkeeps (on_mem m).
Proof.
  intros [b x] a s' Hs. unfold on_mem, zoom in Hs. simpl in Hs.
  by destruct (m x) as [[r x']|]; simplify_eq.
Qed.
#[export] Hint Resolve same_alloc_d_preorder dkeeps_on_buf dkeeps_on_mem : steps.

Lemma dkeeps_get_string_to q n : dkeeps (get_string_to q n).
Proof. unfold get_string_to. eauto with steps. Qed.
#[export] Hint Resolve dkeeps_get_string_to : steps.
Lemma dkeeps_optional_string q n : dkeeps (cswp_get_optional_string q n).
Proof. unfold cswp_get_optional_string. eauto with steps. Qed.
#[export] Hint Resolve dkeeps_optional_string : steps.
Lemma dkeeps_init q n : dkeeps (cswp_decode_init_response_body q n).
Proof. unfold cswp_decode_init_response_body. eauto 10 with steps. Qed.
Lemma dkeeps_async q l m n : dkeeps (cswp_decode_async_message_body q l m n).
Proof. unfold cswp_decode_async_message_body. eauto 10 with steps. Qed.
Lemma keeps_response_header : keeps cswp_decode_response_header.
Proof. unfold cswp_decode_response_header. eauto 10 with steps. Qed.
Lemma keeps_capabilities : keeps cswp_decode_get_device_capabilities_response_body.
Proof. unfold cswp_decode_get_device_capabilities_response_body. eauto 10 with steps. Qed.
Lemma keeps_reg_info a b c : keeps (cswp_decode_reg_info a b c).
Proof. unfold cswp_decode_reg_info. eauto 20 with steps. Qed.
#[export] Hint Resolve dkeeps_init dkeeps_async keeps_response_header keeps_capabilities
  keeps_reg_info : steps.

(** ** The client *)

(** The private data of an initialised client satisfy [P]. *)
Definition inv {T} (P : cswp_client_priv_t -> Prop) (w : world T) : Prop :=
  exists p, priv w = Some p /\ P p.
Definition inv_step {T} (P : cswp_client_priv_t -> Prop) (w w' : world T) : Prop :=
  inv P w -> inv P w'.

#[export] Instance inv_step_preorder T P : PreOrder (@inv_step T P).
Proof. split; [by intros ??|]. intros w1 w2 w3 H1 H2 H. auto. Qed.

(** What receiving relies on: [P] knows the size of the response buffer and
    says nothing else of it. *)
Class RspClosed (P : cswp_client_priv_t -> Prop) : Prop := {
  rc_rsp p b : P p -> same_alloc (rsp p) b -> P (set_rsp b p);
  rc_len p : P p -> len (buf (rsp p)) = CSWP_REQ_RSP_BUFFER_SIZE;
}.

#[export] Instance priv_ok_closed : RspClosed priv_ok.
Proof.
  split.
  - intros p b [? ? ? ? [? ?] ?] [? ?]. constructor; simpl; auto. split; congruence.
  - by intros p [_ _ _ _ [_ ?] _].
Qed.

(** Everything that does not touch the command buffer. *)
Section client.
Context {T : Type} `{Transport T} (P : cswp_client_priv_t -> Prop) `{!RspClosed P}.
Local Abbreviation safe := (steps (@inv_step T P)).

(** Using the invariant on the private data that was read. *)
Lemma safe_get_priv {B} (f : cswp_client_priv_t -> ClientM T B) :
  (forall p, P p -> safe (f p)) -> safe (get_priv ≫= f).
Proof.
  intros Hf w a w' Hs (p & Hp & Hok).
  rewrite (M_bind_eq _ _ _ _ _ (get_priv_eq w p Hp)) in Hs.
  eapply (Hf p Hok _ _ _ Hs). by exists p.
Qed.
Lemma safe_upd_priv f : (forall p, P p -> P (f p)) -> safe (upd_priv f).
Proof.
  intros Hf w a w' Hs (p & Hp & Hok). rewrite (upd_priv_eq _ _ _ Hp) in Hs. simplify_eq.
  exists (f p). auto.
Qed.
Lemma safe_modify f : (forall w : world T, priv (f w) = priv w) -> safe (modify f).
Proof.
  intros Hf. apply steps_modify. intros w (p & Hp & Hok). exists p. by rewrite Hf.
Qed.
Lemma safe_error c t : safe (cswp_client_error c t).
Proof.
  intros w a w' Hs (p & Hp & Hok). unfold cswp_client_error in Hs.
  destruct (errorMsg w); simplify_eq. by exists p.
Qed.
Lemma safe_on_memory {A} (m : MemM A) : safe (on_memory m).
Proof.
  intros w a w' Hs (p & Hp & Hok). unfold on_memory in Hs.
  repeat case_match; simplify_eq. by exists p.
Qed.

Lemma safe_on_rsp {A} (m : BufM A) : keeps m -> safe (on_rsp m).
Proof.
  intros Hm w a w' Hs (p & Hp & Hok). unfold on_rsp in Hs.
  rewrite (M_bind_eq _ _ _ _ _ (get_priv_eq w p Hp)) in Hs.
  destruct (m (rsp p)) as [[r b]|] eqn:Hb; [|done].
  rewrite (M_bind_eq _ _ _ _ _ (upd_priv_eq (set_rsp b) _ _ Hp)) in Hs.
  unfold mret, M_ret in Hs. simplify_eq. exists (set_rsp b p). split; [done|].
  apply rc_rsp; [done|]. by eapply Hm.
Qed.
Lemma safe_on_rsp_mem {A} (m : DecM A) : dkeeps m -> safe (on_rsp_mem m).
Proof.
  intros Hm w a w' Hs (p & Hp & Hok). unfold on_rsp_mem in Hs. rewrite Hp in Hs.
  destruct (m (rsp p, memory w)) as [[r [b x]]|] eqn:Hb; simplify_eq.
  exists (set_rsp b p). split; [done|]. apply rc_rsp; [done|].
  apply (Hm _ _ _ Hb).
Qed.
Lemma safe_for_ok n i body res : (forall i, safe (body i)) -> safe (for_ok n i body res).
Proof. intros Hb. revert i res. induction n; intros i res; simpl; eauto with steps typeclass_instances. Qed.
Lemma safe_int_incr n : safe (int_incr n).
Proof. unfold int_incr. eauto with steps typeclass_instances. Qed.
End client.
#[export] Hint Resolve inv_step_preorder safe_get_priv safe_upd_priv safe_modify safe_error
  safe_on_memory safe_on_rsp safe_on_rsp_mem safe_for_ok safe_int_incr : steps.

Ltac safe := repeat (cbv beta iota zeta; first
  [progress intros | solve [eauto 4 with steps] | apply safe_get_priv
  | apply steps_mbind; [typeclasses eauto|..] | split_match]).

(** ** Completions *)

Section completions.
Context {T : Type} `{Transport T} (P : cswp_client_priv_t -> Prop) `{!RspClosed P}.
Local Abbreviation safe := (steps (@inv_step T P)).

Lemma safe_copy_from_rsp q o n : safe (copy_from_rsp q o n).
Proof. unfold copy_from_rsp. safe. Qed.
#[local] Hint Resolve safe_copy_from_rsp : steps.

Lemma safe_get_devices_body d i : safe (get_devices_body d i).
Proof. unfold get_devices_body. safe. Qed.
Lemma safe_reg_read_body d i : safe (reg_read_body d i).
Proof. unfold reg_read_body. safe. Qed.
Lemma safe_reg_list_string d i s f st res : safe (reg_list_string d i s f st res).
Proof. destruct st. unfold reg_list_string. safe. Qed.
#[local] Hint Resolve safe_get_devices_body safe_reg_read_body safe_reg_list_string : steps.
Lemma safe_reg_list_body d i st : safe (reg_list_body d i st).
Proof. unfold reg_list_body. safe. Qed.
#[local] Hint Resolve safe_reg_list_body : steps.
Lemma safe_reg_list_loop d n i st res : safe (reg_list_loop d n i st res).
Proof. revert i st res. induction n; intros i st res; simpl; safe. Qed.
#[local] Hint Resolve safe_reg_list_loop : steps.

Lemma safe_run_complete c : safe (run_complete c).
Proof.
  destruct c; simpl;
    unfold cswp_init_complete, cswp_get_devices_complete, cswp_device_open_complete,
      cswp_get_device_capabilities_complete, cswp_device_reg_list_complete,
      cswp_device_reg_read_complete, cswp_device_mem_read_complete,
      cswp_device_mem_poll_complete, cswp_nvsec_unlock_complete,
      cswp_nvsec_verify_complete, cswp_nvsec_encrypt_complete,
      cswp_decode_nvsec_verify_response_body, cswp_decode_nvsec_encrypt_response_body; safe.
Qed.
End completions.
#[export] Hint Resolve safe_run_complete : steps.

(** ** Receiving *)

Section receive.
Context {T : Type} `{Transport T} (P : cswp_client_priv_t -> Prop) `{!RspClosed P}.
Local Abbreviation safe := (steps (@inv_step T P)).

Lemma safe_run_tres r : safe (run_tres r).
Proof. destruct r; simpl; safe. Qed.
#[local] Hint Resolve safe_run_tres : steps.
Lemma safe_call_connect f : safe (call_connect f).
Proof. unfold call_connect. safe. Qed.
Lemma safe_call_send d : safe (call_send d).
Proof. unfold call_send. safe. Qed.

Lemma closed_fill p q bs :
  P p -> P q -> len bs <= len (buf (rsp p)) ->
  P (set_rsp (set_used (len bs) (set_buf (splice (buf (rsp q)) 0 bs) (rsp q))) q).
Proof.
  intros Hp Hq Hl. pose proof (rc_len p Hp). pose proof (rc_len q Hq).
  apply rc_rsp; [done|]. split; simpl; [done|]. rewrite length_splice; lia.
Qed.

Lemma safe_call_receive f : safe (call_receive f).
Proof.
  unfold call_receive. apply steps_mbind; [safe|safe|]. intros t.
  apply safe_get_priv. intros p Hp. destruct (f _ t) as [[r d] t'].
  apply steps_mbind; [safe|safe|]. intros _. apply steps_mbind; [safe| |safe].
  destruct d as [bs|]; [|safe]. case_decide; [|safe].
  apply safe_upd_priv. intros q Hq. by apply (closed_fill p).
Qed.
#[local] Hint Resolve safe_call_connect safe_call_send safe_call_receive : steps.

Lemma safe_seek n : safe (upd_priv (fun p => set_rsp (cswp_buffer_seek n (rsp p)) p)).
Proof. apply safe_upd_priv. intros p Hp. by apply rc_rsp. Qed.
#[local] Hint Resolve safe_seek : steps.

Lemma safe_server_error c : safe (server_error c).
Proof. unfold server_error. safe. Qed.
#[local] Hint Resolve safe_server_error : steps.
Lemma safe_verify_response pr : safe (cswp_client_verify_response pr).
Proof. unfold cswp_client_verify_response. safe. Qed.
#[local] Hint Resolve safe_verify_response : steps.
Lemma safe_process_responses ops l res : safe (process_responses ops l res).
Proof. revert res. induction l; intros res; simpl; safe. Qed.
#[local] Hint Resolve safe_process_responses : steps.
Lemma safe_transact_receive ops : safe (cswp_client_transact_receive ops).
Proof. unfold cswp_client_transact_receive. safe. Qed.
#[local] Hint Resolve safe_transact_receive : steps.

Lemma safe_async q1 q2 q3 n : safe (cswp_async_message q1 q2 q3 n).
Proof. unfold cswp_async_message. safe. Qed.
End receive.
#[export] Hint Resolve priv_ok_closed safe_call_connect safe_call_send safe_call_receive safe_seek
  safe_transact_receive : steps.

(** ** Transactions and commands *)

Section transact.
Context {T : Type} `{Transport T}.
Local Abbreviation safe := (steps (@inv_step T priv_ok)).

Lemma priv_ok_set_hdr p b : priv_ok p -> same_alloc (hdr p) b -> priv_ok (set_hdr b p).
Proof. intros [[? ?] ? ? ? ? ?] [? ?]. constructor; simpl; auto. split; congruence. Qed.
Lemma priv_ok_set_cmd p bs :
  priv_ok p -> len bs <= room (cmd p) -> priv_ok (set_cmd (append (cmd p) bs) p).
Proof. intros [? ? ? ? ? ?] Hl. pose proof (wr_ok_append _ _ pok_cmd Hl). constructor; simpl; auto; lia. Qed.

Lemma safe_on_hdr {A} (m : BufM A) : keeps m -> safe (on_hdr m).
Proof.
  intros Hm w a w' Hs (p & Hp & Hok). unfold on_hdr in Hs.
  rewrite (M_bind_eq _ _ _ _ _ (get_priv_eq w p Hp)) in Hs.
  destruct (m (hdr p)) as [[r b]|] eqn:Hb; [|done].
  rewrite (M_bind_eq _ _ _ _ _ (upd_priv_eq (set_hdr b) _ _ Hp)) in Hs.
  unfold mret, M_ret in Hs. simplify_eq. exists (set_hdr b p). split; [done|].
  apply priv_ok_set_hdr; [done|]. by eapply Hm.
Qed.
Lemma safe_on_cmd (m : BufM unit) bs : Writes m bs -> safe (on_cmd m).
Proof.
  intros Hm w a w' Hs (p & Hp & Hok).
  destruct (on_cmd_appends m bs w p Hm Hp (pok_cmd _ Hok)) as (r & bs' & He & Hl & _).
  rewrite He in Hs. simplify_eq. exists (set_cmd (append (cmd p) bs') p).
  split; [done|]. by apply priv_ok_set_cmd.
Qed.
#[local] Hint Resolve safe_on_hdr safe_on_cmd : steps.

Lemma safe_clear_hdr : safe (upd_priv (fun p => set_hdr (cswp_buffer_clear (hdr p)) p)).
Proof. apply safe_upd_priv. intros p Hp. by apply priv_ok_set_hdr. Qed.
Lemma safe_set_pending l : safe (upd_priv (set_pending l)).
Proof. apply safe_upd_priv. intros p Hp. by apply set_pending_ok. Qed.
Lemma safe_set_batch_mode b : safe (upd_priv (set_batch_mode b)).
Proof. apply safe_upd_priv. intros p []. by constructor. Qed.
Lemma safe_set_connected n : safe (upd_priv (set_connected n)).
Proof. apply safe_upd_priv. intros p []. by constructor. Qed.
Lemma safe_set_init_data f g h : safe (upd_priv (fun p => set_init_data (f p) g (h p) p)).
Proof. apply safe_upd_priv. intros p []. by constructor. Qed.
Lemma safe_connected_init v s n :
  safe (upd_priv (fun p => set_connected 1 (set_init_data v s n p))).
Proof. apply safe_upd_priv. intros p []. by constructor. Qed.
#[local] Hint Resolve safe_clear_hdr safe_set_pending safe_set_batch_mode
  safe_set_connected safe_set_init_data safe_connected_init : steps.

(** Sending writes the header below the requests. *)
Lemma safe_transact_send : safe cswp_client_transact_send.
Proof.
  intros w a w' Hs (p & Hp & Hok). rewrite (transact_send_eq w p Hp Hok) in Hs.
  eapply safe_call_send; [exact Hs|]. exists (framed p). split; [done|by apply framed_ok].
Qed.
#[local] Hint Resolve safe_transact_send : steps.
Lemma safe_transact ops : safe (cswp_client_transact ops).
Proof. unfold cswp_client_transact. safe. Qed.
#[local] Hint Resolve safe_transact : steps.
Lemma safe_send_to_transact : safe cswp_client_send_to_transact.
Proof. unfold cswp_client_send_to_transact. safe. Qed.
#[local] Hint Resolve safe_send_to_transact : steps.

Lemma safe_add_node t c : safe (cswp_client_add_node_for_pending_rsp t c).
Proof.
  intros w a w' Hs (p & Hp & Hok). pose proof (pok_num _ Hok).
  destruct (Z.ltb_spec (num_cmds p) (2 ^ 31 - 1)).
  - rewrite (add_node_eq w p t c Hp) in Hs by lia. simplify_eq. eexists. split; [done|].
    destruct Hok. constructor; simpl; auto; lia.
  - unfold cswp_client_add_node_for_pending_rsp in Hs.
    rewrite (M_bind_eq _ _ _ _ _ (get_priv_eq w p Hp)),
      (M_bind_eq _ _ _ _ _ (upd_priv_eq _ w p Hp)) in Hs.
    rewrite M_bind_ub in Hs; [done|]. unfold int_incr.
    destruct (Z.ltb_spec (num_cmds p) (2 ^ 31 - 1)); [lia|done].
Qed.
Lemma safe_prep : safe cswp_client_prep_priv_cmd_data.
Proof.
  intros w a w' Hs (p & Hp & Hok). rewrite (prep_eq w p Hp) in Hs. simplify_eq.
  exists (prepped p). split; [done|by apply prepped_ok].
Qed.
#[local] Hint Resolve safe_add_node safe_prep : steps.
Lemma safe_finish_command r t c : safe (finish_command r t c).
Proof. unfold finish_command. safe. Qed.
#[local] Hint Resolve safe_finish_command : steps.

Lemma safe_run_command r c : request_ok r -> safe (run_command r c).
Proof. intros Hr. unfold run_command. pose proof (encode_request_writes r Hr). safe. Qed.

Lemma safe_reg_write_loop n i ids vals :
  Forall is_u64 ids -> safe (reg_write_loop n i ids vals).
Proof.
  intros Hids. revert i. induction n as [|n IH]; intros i; simpl; [safe|].
  destruct (ids !! Z.to_nat i) as [id|] eqn:Hid; [|safe].
  pose proof (writes_put_varint id (Forall_lookup_1 _ _ _ _ Hids Hid)).
  destruct (vals !! Z.to_nat i) as [v|]; [|safe]. pose proof (writes_put_uint32 v). safe.
Qed.

Lemma safe_reg_write n k ids vals :
  is_u64 n -> is_u64 k -> Forall is_u64 ids -> safe (cswp_device_reg_write n k ids vals).
Proof.
  intros Hn Hk Hids. unfold cswp_device_reg_write.
  pose proof (writes_reg_write_header n k Hn Hk). pose proof (safe_reg_write_loop (Z.to_nat k) 0 ids vals Hids).
  safe.
Qed.

Lemma safe_batch_begin b : safe (cswp_batch_begin b).
Proof. unfold cswp_batch_begin. safe. Qed.
Lemma safe_batch_end ops : safe (cswp_batch_end ops).
Proof. unfold cswp_batch_end. safe. Qed.

Lemma safe_init clientID v q1 q2 n q3 :
  request_ok (ReqInit v clientID) -> safe (cswp_init clientID v q1 q2 n q3).
Proof.
  intros Hr. pose proof (encode_request_writes _ Hr) as Hw. cbn [encode_request] in Hw.
  unfold cswp_init, strncpy. safe.
Qed.
Lemma safe_term : safe cswp_term.
Proof.
  assert (Hw := encode_request_writes ReqTerm ltac:(repeat constructor)). cbn [encode_request] in Hw.
  unfold cswp_term. safe.
Qed.
End transact.
#[export] Hint Resolve safe_on_hdr safe_on_cmd safe_set_pending safe_set_batch_mode
  safe_set_connected safe_set_init_data safe_connected_init safe_transact
  safe_send_to_transact safe_add_node safe_prep safe_finish_command
  safe_reg_write_loop : steps.

(** ** A client that has not run a command yet

    [cswp_client_init] leaves the command buffer empty: the space of the header
    is only reserved when the first command prepares it. *)

Definition unused (p : cswp_client_priv_t) : Prop :=
  batch_mode p = BATCH_NONE /\ num_cmds p = 0 /\ connected p = 0 /\ wr_ok (cmd p) /\
  priv_ok (prepped p).
Definition well_formed (p : cswp_client_priv_t) : Prop := priv_ok p \/ unused p.

Lemma prepped_set_rsp b p : prepped (set_rsp b p) = set_rsp b (prepped p).
Proof.
  unfold prepped. change (batch_mode (set_rsp b p)) with (batch_mode p).
  by destruct (decide (batch_mode p = BATCH_NONE)).
Qed.

Lemma prepped_rsp p : rsp (prepped p) = rsp p.
Proof. unfold prepped. by case_decide. Qed.

#[export] Instance unused_closed : RspClosed unused.
Proof.
  split.
  - intros p b (? & ? & ? & ? & Hok) Hb. split_and!; try done. rewrite prepped_set_rsp.
    apply rc_rsp; [done|]. by rewrite prepped_rsp.
  - intros p (_ & _ & _ & _ & Hok). rewrite <- (prepped_rsp p). by apply rc_len.
Qed.

Lemma prepped_well_formed p : well_formed p -> priv_ok (prepped p).
Proof. intros [?|(_ & _ & _ & _ & ?)]; auto using prepped_ok. Qed.

Lemma unused_facts p :
  unused p -> wr_ok (cmd p) /\ size (cmd p) = 16384 /\ len (buf (hdr p)) = 15 /\
    len (buf (rsp p)) = 16384 /\ 0 <= num_cmds p < 2 ^ 31 /\
    (batch_mode p <> BATCH_NONE \/ 0 < num_cmds p -> 15 <= used (cmd p)).
Proof.
  intros (Hb & Hn & _ & Hw & Hok). unfold prepped in Hok. rewrite decide_True in Hok by done.
  destruct Hok as [[? ?] _ ? _ [? ?] _]. split_and!; try done; try lia.
  intros [?|?]; [done|lia].
Qed.

Section well_formed.
Context {T : Type} `{Transport T}.

Lemma after_prep {A} (rest : ClientM T A) (w w' : world T) a :
  steps (inv_step priv_ok) rest -> inv well_formed w ->
  (cswp_client_prep_priv_cmd_data;; rest) w = Some (a, w') -> inv well_formed w'.
Proof.
  intros Hrest (p & Hp & Hwf) Hs. rewrite (M_bind_eq _ _ _ _ _ (prep_eq w p Hp)) in Hs.
  destruct (Hrest _ _ _ Hs) as (p' & Hp' & Hok').
  - eexists. split; [done|]. by apply prepped_well_formed.
  - exists p'. split; [done|by left].
Qed.

(** The public functions; those that take a request are [run_command] on it
    ([api_is_run_command]). *)
Inductive client_op :=
  | OpInit (clientID : list Z) (version : Z) (q1 q2 : ptr) (n : Z) (q3 : ptr)
  | OpTerm
  | OpBatchBegin (abort : bool)
  | OpBatchEnd (ops : ptr)
  | OpCommand (r : request) (c : option complete_func)
  | OpRegWrite (n count : Z) (ids vals : list Z)
  | OpAsync (q1 q2 q3 : ptr) (n : Z).

(** Arguments in the range of their C types. *)
Definition op_ok (o : client_op) : Prop :=
  match o with
  | OpInit clientID v _ _ _ _ => request_ok (ReqInit v clientID)
  | OpCommand r _ => request_ok r
  | OpRegWrite n k ids _ => is_u64 n /\ is_u64 k /\ Forall is_u64 ids
  | _ => True
  end.

Definition run_op (o : client_op) : ClientM T Z :=
  match o with
  | OpInit clientID v q1 q2 n q3 => cswp_init clientID v q1 q2 n q3
  | OpTerm => cswp_term
  | OpBatchBegin abort => cswp_batch_begin abort
  | OpBatchEnd ops => cswp_batch_end ops
  | OpCommand r c => run_command r c
  | OpRegWrite n count ids vals => cswp_device_reg_write n count ids vals
  | OpAsync q1 q2 q3 n => cswp_async_message q1 q2 q3 n
  end.

Lemma run_op_safe o : op_ok o -> steps (inv_step priv_ok) (run_op o).
Proof.
  destruct o; simpl; intros Ho; destruct_and?;
    eauto using safe_init, safe_term, safe_batch_begin, safe_batch_end, safe_run_command,
      safe_reg_write, safe_async with typeclass_instances.
Qed.

Lemma run_op_unused o (w w' : world T) a :
  op_ok o -> inv unused w -> run_op o w = Some (a, w') -> inv well_formed w'.
Proof.
  intros Ho Hu Hs. assert (Hwf : inv well_formed w).
  { destruct Hu as (p & Hp & Hu). exists p. split; [done|by right]. }
  destruct o as [clientID v q1 q2 n q3| |b|ops|r c|n k ids vals|q1 q2 q3 n]; simpl in *.
  - pose proof (encode_request_writes _ Ho) as Hw. cbn [encode_request] in Hw.
    destruct Hu as (p & Hp & Hu). unfold cswp_init in Hs.
    rewrite (M_bind_eq _ _ _ _ _ (get_priv_eq w p Hp)) in Hs.
    destruct Hu as (Hb & Hn & Hc & Hw0 & Hok). rewrite Hc in Hs.
    apply M_bind_inv in Hs as (res & w1 & Hconn & Hs).
    assert (H1 : inv unused w1).
    { assert (Hsafe : steps (inv_step unused) (match t_connect with
        | Some f => call_connect f | None => mret CSWP_SUCCESS end : ClientM T Z)) by safe.
      eapply Hsafe; [exact Hconn|]. by exists p. }
    assert (Hwf1 : inv well_formed w1).
    { destruct H1 as (p1 & ? & ?). exists p1. split; [done|by right]. }
    destruct (negb _).
    + unfold mret, M_ret in Hs. by simplify_eq.
    + eapply after_prep; [|exact Hwf1|exact Hs]. safe.
  - assert (Hw := encode_request_writes ReqTerm ltac:(repeat constructor)).
    eapply after_prep; [|exact Hwf|exact Hs]. safe.
  - eapply after_prep; [|exact Hwf|exact Hs]. safe.
  - destruct Hu as (p & Hp & Hb & Hn & Hc & Hw0 & Hok). unfold cswp_batch_end in Hs.
    rewrite (M_bind_eq _ _ _ _ _ (get_priv_eq w p Hp)), Hn in Hs.
    change (0 <? 0) with false in Hs. cbv iota in Hs.
    rewrite M_bind_ret, (M_bind_eq _ _ _ _ _ (upd_priv_eq _ _ _ Hp)) in Hs.
    unfold mret, M_ret in Hs. simplify_eq. eexists. split; [done|]. right.
    destruct p; simpl in *; subst. by split_and!.
  - pose proof (encode_request_writes r Ho). eapply after_prep; [|exact Hwf|exact Hs]. safe.
  - destruct Ho as (Hn & Hk & Hids). pose proof (writes_reg_write_header n k Hn Hk).
    pose proof (safe_reg_write_loop (T := T) (Z.to_nat k) 0 ids vals Hids).
    eapply after_prep; [|exact Hwf|exact Hs]. safe.
  - destruct (safe_async unused q1 q2 q3 n w a w' Hs Hu) as (p & ? & ?).
    exists p. split; [done|by right].
Qed.

(** ** Reachable states *)

(** [cswp_client_init] with memory from [malloc] for its three buffers, then
    any sequence of calls; between them the caller changes its own memory and
    the transport evolves. *)
Inductive reachable : world T -> Prop :=
  | reach_init w w' h c r :
      len h = CSWP_REQ_HEADER_SIZE -> len c = CSWP_REQ_RSP_BUFFER_SIZE ->
      len r = CSWP_REQ_RSP_BUFFER_SIZE ->
      cswp_client_init (Some h) (Some c) (Some r) w = Some (CSWP_SUCCESS, w') ->
      reachable w'
  | reach_op w o res w' :
      reachable w -> op_ok o -> run_op o w = Some (res, w') -> reachable w'
  | reach_env w m t : reachable w -> reachable (set_memory m (set_transport t w)).

Lemma reachable_well_formed w : reachable w -> inv well_formed w.
Proof.
  induction 1 as [w w' h c r Hh Hc Hr Hs|w o res w' Hw IH Ho Hs|w m t Hw (p & Hp & IH)].
  - apply M_bind_inv in Hs as (u1 & w1 & E1 & Hs). apply M_bind_inv in Hs as (u2 & w2 & E2 & Hs).
    unfold modify in E1, E2. unfold mret, M_ret in Hs. simplify_eq.
    eexists. split; [done|]. right. split_and!; try done.
  - destruct IH as (p & Hp & [Hok|Hu]).
    + destruct (run_op_safe o Ho _ _ _ Hs) as (p' & ? & ?); [by exists p|].
      exists p'. split; [done|by left].
    + eapply run_op_unused; [exact Ho| |exact Hs]. by exists p.
  - by exists p.
Qed.
End well_formed.

(** ** The pending responses

    Between two calls as many responses are pending as commands are counted,
    unless a transaction has taken them all: then the client is not in a batch. *)

Definition counted (p : cswp_client_priv_t) : Prop :=
  num_cmds p = len (pending_responses p) /\ len (buf (rsp p)) = CSWP_REQ_RSP_BUFFER_SIZE.
Definition settled (p : cswp_client_priv_t) : Prop :=
  (num_cmds p = len (pending_responses p) \/ batch_mode p = BATCH_NONE /\ pending_responses p = []) /\
  len (buf (rsp p)) = CSWP_REQ_RSP_BUFFER_SIZE.
(** What a transaction keeps, and what it leaves. *)
Definition in_mode (b : batch_mode_t) (p : cswp_client_priv_t) : Prop :=
  batch_mode p = b /\ len (buf (rsp p)) = CSWP_REQ_RSP_BUFFER_SIZE.
Definition emptied (b : batch_mode_t) (p : cswp_client_priv_t) : Prop :=
  in_mode b p /\ pending_responses p = [].

#[export] Instance counted_closed : RspClosed counted.
Proof. split; [intros p b [? ?] [? ?]; split; simpl; congruence|by intros p [_ ?]]. Qed.
#[export] Instance settled_closed : RspClosed settled.
Proof. split; [intros p b [? ?] [? ?]; split; simpl; [done|congruence]|by intros p [_ ?]]. Qed.
#[export] Instance in_mode_closed b : RspClosed (in_mode b).
Proof. split; [intros p q [? ?] [? ?]; split; simpl; congruence|by intros p [_ ?]]. Qed.

(** [m] leads from states with [P] to states with [Q]. *)
Definition leads {T A} (P Q : world T -> Prop) (m : ClientM T A) : Prop :=
  forall w a w', m w = Some (a, w') -> P w -> Q w'.

Section leads.
Context {T : Type}.
Implicit Types P Q R : world T -> Prop.
Implicit Types J K : cswp_client_priv_t -> Prop.

Lemma leads_bind {A B} P Q R (m : ClientM T A) (f : A -> ClientM T B) :
  leads P Q m -> (forall a, leads Q R (f a)) -> leads P R (m ≫= f).
Proof. intros Hm Hf w a w' (b & w1 & H1 & H2)%M_bind_inv Hi. eapply Hf; [exact H2|]. by eapply Hm. Qed.
Lemma leads_pre {A} P Q R (m : ClientM T A) : leads Q R m -> (forall w, P w -> Q w) -> leads P R m.
Proof. intros Hm Hq w a w' Hs Hi. eauto. Qed.
Lemma leads_post {A} P Q R (m : ClientM T A) : leads P Q m -> (forall w, Q w -> R w) -> leads P R m.
Proof. intros Hm Hq w a w' Hs Hi. eauto. Qed.
Lemma leads_ret {A} P (a : A) : leads P P (mret a : ClientM T A).
Proof. intros w b w' Hs Hi. unfold mret, M_ret in Hs. by simplify_eq. Qed.
Lemma leads_ub {A} P Q : leads P Q (ub : ClientM T A).
Proof. by intros w b w'. Qed.
Lemma leads_inv {A} J (m : ClientM T A) : steps (inv_step J) m -> leads (inv J) (inv J) m.
Proof. intros Hm w a w' Hs. by apply (Hm w a). Qed.
Lemma leads_upd J K f : (forall p, J p -> K (f p)) -> leads (inv J) (inv K) (upd_priv f : ClientM T unit).
Proof. intros Hf w a w' Hs (p & Hp & Hi). rewrite (upd_priv_eq _ _ _ Hp) in Hs. simplify_eq. exists (f p). auto. Qed.
Lemma leads_get {B} J Q (f : cswp_client_priv_t -> ClientM T B) :
  (forall p, J p -> leads (inv J) Q (f p)) -> leads (inv J) Q (get_priv ≫= f).
Proof.
  intros Hf w a w' Hs (p & Hp & Hi). rewrite (M_bind_eq _ _ _ _ _ (get_priv_eq w p Hp)) in Hs.
  eapply (Hf p Hi); [exact Hs|]. by exists p.
Qed.
Lemma inv_mono J K (w : world T) : (forall p, J p -> K p) -> inv J w -> inv K w.
Proof. intros Hjk (p & ? & ?). exists p. auto. Qed.

(** The command buffer and the header buffer. *)
Lemma leads_on_cmd {A} J (m : BufM A) :
  (forall p b, J p -> J (set_cmd b p)) -> leads (inv J) (inv J) (on_cmd m : ClientM T _).
Proof.
  intros Hc. unfold on_cmd. apply leads_get. intros p Hp.
  destruct (m (cmd p)) as [[r b]|]; [|apply leads_ub].
  eapply leads_bind; [by apply (leads_upd _ J); auto|]. intros _. apply leads_ret.
Qed.
Lemma leads_on_hdr {A} J (m : BufM A) :
  (forall p b, J p -> J (set_hdr b p)) -> leads (inv J) (inv J) (on_hdr m : ClientM T _).
Proof.
  intros Hc. unfold on_hdr. apply leads_get. intros p Hp.
  destruct (m (hdr p)) as [[r b]|]; [|apply leads_ub].
  eapply leads_bind; [by apply (leads_upd _ J); auto|]. intros _. apply leads_ret.
Qed.
Lemma leads_write_cmd J off bs :
  (forall p b, J p -> J (set_cmd b p)) -> leads (inv J) (inv J) (write_cmd off bs : ClientM T _).
Proof.
  intros Hc. unfold write_cmd. apply leads_get. intros p Hp. case_decide; [|apply leads_ub].
  apply leads_upd; auto.
Qed.
End leads.

Section pending.
Context {T : Type} `{Transport T}.

(** What neither the buffers of the request nor the bytes of the response are
    part of outlives a transaction. *)
Lemma transact_send_leads J `{!RspClosed J} :
  (forall p x, J p -> J (set_cmd x p)) -> (forall p x, J p -> J (set_hdr x p)) ->
  leads (inv J) (inv J) (cswp_client_transact_send : ClientM T _).
Proof.
  intros Hc Hh. unfold cswp_client_transact_send. apply leads_get. intros p Hp.
  eapply leads_bind; [by apply (leads_upd _ J); auto|intros _].
  eapply leads_bind; [by apply leads_on_hdr|intros r1]. eapply leads_bind; [by apply leads_on_hdr|intros r2].
  apply leads_get. intros p1 Hp1.
  eapply leads_bind; [by apply leads_write_cmd|intros _].
  eapply leads_bind; [case_decide; [by apply leads_write_cmd|apply leads_ub]|intros _].
  apply leads_get. intros p2 Hp2. case_decide; [|apply leads_ub].
  apply leads_inv, safe_call_send.
Qed.
Lemma transact_send_in_mode b : leads (inv (in_mode b)) (inv (in_mode b)) (cswp_client_transact_send : ClientM T _).
Proof. apply transact_send_leads; [typeclasses eauto|done..]. Qed.

(** A transaction takes every pending response, whatever becomes of it. *)
Lemma transact_empties b ops :
  leads (inv (in_mode b)) (inv (emptied b)) (cswp_client_transact ops : ClientM T _).
Proof.
  unfold cswp_client_transact. eapply leads_bind; [apply transact_send_in_mode|intros r].
  eapply leads_bind.
  - instantiate (1 := inv (in_mode b)). case_match; [|apply leads_ret].
    apply leads_inv, safe_transact_receive; typeclasses eauto.
  - intros r'. eapply leads_bind; [by apply (leads_upd _ (emptied b))|intros _]. apply leads_ret.
Qed.

Lemma prep_counted : leads (inv settled) (inv counted) (cswp_client_prep_priv_cmd_data : ClientM T _).
Proof.
  intros w a w' Hs (p & Hp & Hc & Hl). rewrite (prep_eq w p Hp) in Hs. simplify_eq. exists (prepped p).
  split; [done|]. unfold prepped, counted. case_decide; [done|]. split; [|done]. by destruct Hc as [?|[? ?]].
Qed.
Lemma add_node_counted t c :
  leads (inv counted) (inv counted) (cswp_client_add_node_for_pending_rsp t c : ClientM T _).
Proof.
  intros w a w' Hs (p & Hp & Hc & Hl). unfold cswp_client_add_node_for_pending_rsp in Hs.
  rewrite (M_bind_eq _ _ _ _ _ (get_priv_eq w p Hp)), (M_bind_eq _ _ _ _ _ (upd_priv_eq _ w p Hp)) in Hs.
  unfold int_incr in Hs. destruct (Z.ltb_spec (num_cmds p) (2 ^ 31 - 1)); [|done]. rewrite M_bind_ret in Hs.
  erewrite upd_priv_eq in Hs by done. simplify_eq. eexists. split; [done|]. split; [|done]. simpl.
  rewrite length_app. simpl. lia.
Qed.
Lemma send_to_transact_settled :
  leads (inv counted) (inv settled) (cswp_client_send_to_transact : ClientM T _).
Proof.
  intros w a w' Hs (p & Hp & Hn & Hl). unfold cswp_client_send_to_transact in Hs.
  rewrite (M_bind_eq _ _ _ _ _ (get_priv_eq w p Hp)) in Hs. case_decide as Hb.
  - destruct (Z.ltb_spec 0 (num_cmds p)).
    + destruct (transact_empties BATCH_NONE None w a w' Hs) as (q & Hq & [Hm ?] & He); [by exists p|].
      exists q. split; [done|]. split; [by right|done].
    + unfold mret, M_ret in Hs. simplify_eq. exists p. split; [done|]. split; [by left|done].
  - unfold mret, M_ret in Hs. simplify_eq. exists p. split; [done|]. split; [by left|done].
Qed.
Lemma counted_settled (w : world T) : inv counted w -> inv settled w.
Proof. apply inv_mono. intros p [? ?]. split; [by left|done]. Qed.
Lemma finish_settled res t c : leads (inv counted) (inv settled) (finish_command res t c : ClientM T _).
Proof.
  unfold finish_command. destruct res as [u|e].
  - eapply leads_bind; [apply add_node_counted|intros _]. apply send_to_transact_settled.
  - eapply leads_post; [apply leads_ret|exact counted_settled].
Qed.

Lemma counted_cmd p b : counted p -> counted (set_cmd b p).
Proof. done. Qed.
#[local] Hint Resolve counted_cmd : core.

Lemma run_command_settled r c : leads (inv settled) (inv settled) (run_command r c : ClientM T _).
Proof.
  unfold run_command. eapply leads_bind; [apply prep_counted|intros _].
  eapply leads_bind; [by apply leads_on_cmd|intros res]. apply finish_settled.
Qed.
Lemma reg_write_loop_counted n i ids vals :
  leads (inv counted) (inv counted) (reg_write_loop n i ids vals : ClientM T _).
Proof.
  revert i. induction n as [|n IH]; intros i; simpl; [apply leads_ret|].
  destruct (ids !! Z.to_nat i), (vals !! Z.to_nat i); try apply leads_ub.
  do 2 (eapply leads_bind; [by apply leads_on_cmd|intros ?]). apply IH.
Qed.
Lemma reg_write_settled n k ids vals :
  leads (inv settled) (inv settled) (cswp_device_reg_write n k ids vals : ClientM T _).
Proof.
  unfold cswp_device_reg_write. eapply leads_bind; [apply prep_counted|intros _].
  eapply leads_bind; [by apply leads_on_cmd|intros res].
  eapply leads_bind; [case_match; [apply reg_write_loop_counted|apply leads_ub]|intros _]. apply finish_settled.
Qed.

Lemma settled_fields p f : settled p ->
  num_cmds (f p) = num_cmds p -> pending_responses (f p) = pending_responses p ->
  batch_mode (f p) = batch_mode p -> rsp (f p) = rsp p -> settled (f p).
Proof. unfold settled. by intros ? -> -> -> ->. Qed.
Lemma connect_settled f : leads (inv settled) (inv settled)
  (match f with Some g => call_connect g | None => mret CSWP_SUCCESS end : ClientM T Z).
Proof. destruct f; [apply leads_inv, safe_call_connect|apply leads_ret]. Qed.

Lemma batch_begin_settled b : leads (inv settled) (inv settled) (cswp_batch_begin b : ClientM T _).
Proof.
  unfold cswp_batch_begin. eapply leads_bind; [apply prep_counted|intros _].
  eapply leads_bind; [|intros _; apply leads_ret]. apply leads_upd. intros p [? ?]. split; [by left|done].
Qed.
Lemma batch_end_settled ops : leads (inv settled) (inv settled) (cswp_batch_end ops : ClientM T _).
Proof.
  intros w a w' Hs (p & Hp & Hc & Hl). unfold cswp_batch_end in Hs.
  rewrite (M_bind_eq _ _ _ _ _ (get_priv_eq w p Hp)) in Hs.
  apply M_bind_inv in Hs as (res & w1 & H1 & Hs).
  assert (Hq : exists b, inv (emptied b) w1).
  { destruct (Z.ltb_spec 0 (num_cmds p)).
    - exists (batch_mode p). eapply transact_empties; [exact H1|]. by exists p.
    - unfold mret, M_ret in H1. simplify_eq. exists (batch_mode p), p. split; [done|]. split; [done|].
      destruct Hc as [Hn|[_ ?]]; [|done]. destruct (pending_responses p); [done|]. simpl in Hn. lia. }
  destruct Hq as (b & q & Hq & [_ ?] & He). rewrite (M_bind_eq _ _ _ _ _ (upd_priv_eq _ _ _ Hq)) in Hs.
  unfold mret, M_ret in Hs. simplify_eq. eexists. split; [done|]. split; [by right|done].
Qed.

Lemma init_settled clientID v q1 q2 n q3 :
  leads (inv settled) (inv settled) (cswp_init clientID v q1 q2 n q3 : ClientM T _).
Proof.
  assert (Hf : forall f, (forall p, settled p -> settled (f p)) -> steps (@inv_step T settled) (upd_priv f))
    by (intros f Hf; apply safe_upd_priv; exact Hf).
  unfold cswp_init. apply leads_get. intros p Hp. case_match.
  - apply leads_inv. unfold strncpy.
    assert (forall n, steps (@inv_step T settled) (upd_priv (set_connected n))) by (intros; apply Hf; by intros).
    safe.
  - eapply leads_bind; [apply connect_settled|intros r]. case_match; [apply leads_ret|].
    eapply leads_bind; [apply prep_counted|intros _].
    eapply leads_bind; [by apply leads_on_cmd|intros res].
    eapply leads_bind; [apply finish_settled|intros r2]. case_match.
    + apply leads_inv.
      assert (forall v s n, steps (@inv_step T settled) (upd_priv (fun p => set_connected 1 (set_init_data v s n p))))
        by (intros; apply Hf; by intros).
      safe.
    + eapply leads_bind; [apply connect_settled|intros _]. apply leads_ret.
Qed.
Lemma term_settled : leads (inv settled) (inv settled) (cswp_term : ClientM T _).
Proof.
  unfold cswp_term. eapply leads_bind; [apply prep_counted|intros _].
  apply leads_get. intros p _.
  assert (Hsend : leads (inv counted) (inv settled) (
    r ← on_cmd cswp_encode_term_command;
    res ← finish_command r CSWP_TERM None;
    (match t_disconnect with Some f => call_connect f | None => mret CSWP_SUCCESS end);;
    upd_priv (fun p => set_init_data (cswp_init_serverProtocolVersion p) None
                         (cswp_init_serverVersion p) p);;
    mret res : ClientM T Z)).
  { eapply leads_bind; [by apply leads_on_cmd|intros r]. eapply leads_bind; [apply finish_settled|intros res].
    eapply leads_bind; [apply connect_settled|intros _].
    eapply leads_bind; [by apply (leads_upd _ settled)|intros _]. apply leads_ret. }
  destruct (connected p =? 0).
  - eapply (leads_bind _ (inv counted)).
    + destruct t_connect; [apply leads_inv, safe_call_connect; typeclasses eauto|apply leads_ret].
    + intros r. destruct (negb _); [|exact Hsend].
      eapply leads_post; [apply leads_ret|exact counted_settled].
  - eapply leads_bind; [by apply (leads_upd _ counted)|intros _].
    destruct (0 <? _); [|exact Hsend]. eapply leads_post; [apply leads_ret|exact counted_settled].
Qed.

Lemma run_op_settled o : leads (inv settled) (inv settled) (run_op o : ClientM T Z).
Proof.
  destruct o; simpl; auto using init_settled, term_settled, batch_begin_settled, batch_end_settled,
    run_command_settled, reg_write_settled.
  apply leads_inv, safe_async; typeclasses eauto.
Qed.

Lemma reachable_settled (w : world T) : reachable w -> inv settled w.
Proof.
  induction 1 as [w w' h c r Hh Hc Hr Hs|w o res w' Hw IH Ho Hs|w m t Hw (p & Hp & IH)].
  - apply M_bind_inv in Hs as (u1 & w1 & E1 & Hs). apply M_bind_inv in Hs as (u2 & w2 & E2 & Hs).
    unfold modify in E1, E2. unfold mret, M_ret in Hs. simplify_eq.
    eexists. split; [done|]. split; [by left|done].
  - by eapply run_op_settled.
  - by exists p.
Qed.
End pending.

(** ** Properties *)

(** C7: in every state that a client can reach, whatever it is asked to do,
    whatever its caller stores and whatever bytes the transport delivers, its
    three buffers have their sizes, the cursor of the command buffer is inside
    it and leaves the space of the header once commands are pending, the number
    of commands is an [int], and the list of pending responses has one node for
    each command counted, unless a transaction outside a batch has taken them
    all (the count is reset by the next command): no response that the server
    will send is without its node, and no node waits for a response already
    taken. *)
Theorem client_invariant {T} `{Transport T} (w : world T) :
  reachable w ->
  exists p, priv w = Some p /\ wr_ok (cmd p) /\ size (cmd p) = 16384 /\
    len (buf (hdr p)) = 15 /\ len (buf (rsp p)) = 16384 /\ 0 <= num_cmds p < 2 ^ 31 /\
    (batch_mode p <> BATCH_NONE \/ 0 < num_cmds p -> 15 <= used (cmd p)) /\
    (len (pending_responses p) = num_cmds p \/
     batch_mode p = BATCH_NONE /\ pending_responses p = []).
Proof.
  intros Hr. destruct (reachable_settled w Hr) as (p & Hp & Hset & _).
  destruct (reachable_well_formed w Hr) as (q & Hq & Hwf). rewrite Hp in Hq. simplify_eq.
  assert (Hpend : len (pending_responses q) = num_cmds q \/
    batch_mode q = BATCH_NONE /\ pending_responses q = []) by (destruct Hset as [->|?]; auto).
  exists q. destruct Hwf as [[[? ?] ? ? ? [? ?] ?]|Hu].
  - split_and!; done || lia.
  - destruct (unused_facts q Hu) as (? & ? & ? & ? & ? & ?). split_and!; done || lia.
Qed.

(** A client that was initialised and has begun a batch. *)
Definition ex_new : cswp_client_priv_t :=
  mkPriv (mkBuf 15 0 0 (zeroes 15)) (mkBuf 16384 0 0 (zeroes 16384))
    (mkBuf 16384 0 0 (zeroes 16384)) BATCH_NONE 0 [] 0 0 0 None.
Definition ex_batching : cswp_client_priv_t := set_batch_mode BATCH_ABORT (prepped ex_new).

Lemma ex_batching_reachable : reachable (ex_world ex_batching ∅ (mkScript [] [])).
Proof.
  apply (reach_op (ex_world ex_new ∅ (mkScript [] [])) (OpBatchBegin true) CSWP_SUCCESS);
    [|done|reflexivity].
  apply (reach_init (mkWorld None 0 None ∅ (mkScript [] [])) _
    (zeroes 15) (zeroes 16384) (zeroes 16384)); [by apply len_zeroes..|reflexivity].
Qed.

Lemma client_invariant_witness :
  reachable (ex_world ex_batching ∅ (mkScript [] [])) /\
  exists p, Some ex_batching = Some p /\ wr_ok (cmd p) /\ size (cmd p) = 16384 /\
    len (buf (hdr p)) = 15 /\ len (buf (rsp p)) = 16384 /\ 0 <= num_cmds p < 2 ^ 31 /\
    (batch_mode p <> BATCH_NONE \/ 0 < num_cmds p -> 15 <= used (cmd p)) /\
    (len (pending_responses p) = num_cmds p \/
     batch_mode p = BATCH_NONE /\ pending_responses p = []).
Proof.
  split; [exact ex_batching_reachable|].
  exact (client_invariant (ex_world ex_batching ∅ (mkScript [] [])) ex_batching_reachable).
Defined.
