(* ===== verification/ClientMessages.v ===== *)
(** The messages that a client sends.  A transport that records what it is
    given ([logged]) shows what each public call sends, from any state that a
    client can reach: nothing, or one message of the wire format. *)
From S2P Require Import Prelude Wire CswpTypes CswpBuffer Memory ClientCommands ClientState ClientComplete ClientTransact ClientApi ClientBatch ClientInvariant.

(** ** A transport that records the messages it is given *)

Record logged (T : Type) := mkLogged { inner : T; messages : list (list Z) }.
Arguments mkLogged {_} _ _.
Arguments inner {_} _.
Arguments messages {_} _.

Definition with_inner {T R} (f : T -> R * T) (t : logged T) : R * logged T :=
  let '(r, u) := f (inner t) in (r, mkLogged u (messages t)).

#[export] Instance logged_transport {T} `{Transport T} : Transport (logged T) := {
  t_connect := option_map with_inner t_connect;
  t_disconnect := option_map with_inner t_disconnect;
  t_send d t := let '(r, u) := t_send d (inner t) in (r, mkLogged u (messages t ++ [d]));
  t_receive n t := with_inner (t_receive n) t;
  t_receive_async n t := with_inner (t_receive_async n) t;
}.

Definition log {T} (w : world (logged T)) : list (list Z) := messages (transport w).

(** ** What sends nothing *)

Definition quiet {T} (w w' : world (logged T)) : Prop := log w' = log w.

#[export] Instance quiet_preorder T : PreOrder (@quiet T).
Proof. split; [by intros ?|]. intros w1 w2 w3 H1 H2. unfold quiet in *. congruence. Qed.

Ltac quiet := repeat (cbv beta iota zeta; first
  [progress intros | solve [eauto 4 with steps]
  | apply steps_mbind; [typeclasses eauto|..] | split_match]).

Section quiet.
Context {T : Type} `{Transport T}.
Local Abbreviation quietly := (steps (@quiet T)).

Lemma quiet_get_priv : quietly get_priv.
Proof. intros w a w' Hs. unfold get_priv in Hs. case_match; by simplify_eq. Qed.
Lemma quiet_upd_priv f : quietly (upd_priv f).
Proof. intros w a w' Hs. unfold upd_priv in Hs. case_match; by simplify_eq. Qed.
Lemma quiet_set_error m c : quietly (modify (set_error m c)).
Proof. by apply steps_modify. Qed.
Lemma quiet_error c t : quietly (cswp_client_error c t).
Proof. intros w a w' Hs. unfold cswp_client_error in Hs. case_match; by simplify_eq. Qed.
Lemma quiet_on_memory {A} (m : MemM A) : quietly (on_memory m).
Proof. intros w a w' Hs. unfold on_memory in Hs. repeat case_match; by simplify_eq. Qed.
Lemma quiet_on_rsp_mem {A} (m : DecM A) : quietly (on_rsp_mem m).
Proof. intros w a w' Hs. unfold on_rsp_mem in Hs. repeat case_match; by simplify_eq. Qed.
#[local] Hint Resolve quiet_preorder quiet_get_priv quiet_upd_priv quiet_set_error quiet_error
  quiet_on_memory quiet_on_rsp_mem : steps.

Lemma quiet_on_rsp {A} (m : BufM A) : quietly (on_rsp m).
Proof. unfold on_rsp. quiet. Qed.
Lemma quiet_on_cmd {A} (m : BufM A) : quietly (on_cmd m).
Proof. unfold on_cmd. quiet. Qed.
Lemma quiet_int_incr n : quietly (int_incr n).
Proof. unfold int_incr. quiet. Qed.
#[local] Hint Resolve quiet_on_rsp quiet_on_cmd quiet_int_incr : steps.
Lemma quiet_for_ok n i body res : (forall i, quietly (body i)) -> quietly (for_ok n i body res).
Proof. intros Hb. revert i res. induction n; intros i res; simpl; quiet. Qed.
#[local] Hint Resolve quiet_for_ok : steps.
Lemma quiet_copy_from_rsp q o n : quietly (copy_from_rsp q o n).
Proof. unfold copy_from_rsp. quiet. Qed.
#[local] Hint Resolve quiet_copy_from_rsp : steps.
Lemma quiet_get_devices_body d i : quietly (get_devices_body d i).
Proof. unfold get_devices_body. quiet. Qed.
Lemma quiet_reg_read_body d i : quietly (reg_read_body d i).
Proof. unfold reg_read_body. quiet. Qed.
Lemma quiet_reg_list_string d i s f st res : quietly (reg_list_string d i s f st res).
Proof. destruct st. unfold reg_list_string. quiet. Qed.
#[local] Hint Resolve quiet_get_devices_body quiet_reg_read_body quiet_reg_list_string : steps.
Lemma quiet_reg_list_body d i st : quietly (reg_list_body d i st).
Proof. unfold reg_list_body. quiet. Qed.
#[local] Hint Resolve quiet_reg_list_body : steps.
Lemma quiet_reg_list_loop d n i st res : quietly (reg_list_loop d n i st res).
Proof. revert i st res. induction n; intros i st res; simpl; quiet. Qed.
#[local] Hint Resolve quiet_reg_list_loop : steps.

Lemma quiet_run_complete c : quietly (run_complete c).
Proof.
  destruct c; simpl;
    unfold cswp_init_complete, cswp_get_devices_complete, cswp_device_open_complete,
      cswp_get_device_capabilities_complete, cswp_device_reg_list_complete,
      cswp_device_reg_read_complete, cswp_device_mem_read_complete,
      cswp_device_mem_poll_complete, cswp_nvsec_unlock_complete,
      cswp_nvsec_verify_complete, cswp_nvsec_encrypt_complete,
      cswp_decode_nvsec_verify_response_body, cswp_decode_nvsec_encrypt_response_body; quiet.
Qed.
#[local] Hint Resolve quiet_run_complete : steps.

(** The transport's functions other than [send] keep the record. *)
Lemma quiet_run_tres r : quietly (run_tres r).
Proof. destruct r; simpl; quiet. Qed.
#[local] Hint Resolve quiet_run_tres : steps.
Lemma quiet_call_connect f : quietly (call_connect (with_inner f)).
Proof.
  intros w a w' Hs. unfold call_connect in Hs. apply M_bind_inv in Hs as (t & w1 & H1 & Hs).
  unfold gets in H1. simplify_eq. unfold with_inner in Hs. destruct (f _) as [r u].
  apply M_bind_inv in Hs as (x & w2 & H2 & Hs). unfold modify in H2. simplify_eq.
  pose proof (quiet_run_tres _ _ _ _ Hs) as Hq. exact Hq.
Qed.
Lemma quiet_connection (f : option (T -> tres * T)) :
  quietly (match option_map with_inner f with
    Some g => call_connect g | None => mret CSWP_SUCCESS end : ClientM (logged T) Z).
Proof. destruct f; simpl; [apply quiet_call_connect|quiet]. Qed.
Lemma quiet_call_receive (f : Z -> T -> tres * option (list Z) * T) :
  quietly (call_receive (fun n => with_inner (f n))).
Proof.
  intros w a w' Hs. unfold call_receive in Hs. apply M_bind_inv in Hs as (t & w1 & H1 & Hs).
  unfold gets in H1. simplify_eq. apply M_bind_inv in Hs as (p & w1' & H1 & Hs).
  pose proof (quiet_get_priv _ _ _ H1) as Hq1. unfold with_inner in Hs.
  destruct (f _ _) as [[r d] u] eqn:E. unfold get_priv in H1. destruct (priv _) as [p0|]; simplify_eq.
  apply M_bind_inv in Hs as (x & w2 & H2 & Hs). unfold modify in H2. simplify_eq.
  assert (Hrest : quietly ((match d with
   | None => mret tt
   | Some bs =>
       if decide (len bs <= len (buf (rsp p))) then
         upd_priv (fun p => set_rsp (set_used (len bs) (set_buf (splice (buf (rsp p)) 0 bs) (rsp p))) p)
       else ub
   end);; run_tres r)).
  { quiet. }
  exact (Hrest _ _ _ Hs).
Qed.
Lemma quiet_receive : quietly (call_receive t_receive).
Proof. apply (quiet_call_receive t_receive). Qed.
Lemma quiet_receive_async : quietly (call_receive t_receive_async).
Proof. apply (quiet_call_receive t_receive_async). Qed.
#[local] Hint Resolve quiet_receive quiet_receive_async : steps.

Lemma quiet_server_error c : quietly (server_error c).
Proof. unfold server_error. quiet. Qed.
#[local] Hint Resolve quiet_server_error : steps.
Lemma quiet_verify_response pr : quietly (cswp_client_verify_response pr).
Proof. unfold cswp_client_verify_response. quiet. Qed.
#[local] Hint Resolve quiet_verify_response : steps.
Lemma quiet_process_responses ops l res : quietly (process_responses ops l res).
Proof. revert res. induction l; intros res; simpl; quiet. Qed.
#[local] Hint Resolve quiet_process_responses : steps.
Lemma quiet_transact_receive ops : quietly (cswp_client_transact_receive ops).
Proof. unfold cswp_client_transact_receive. quiet. Qed.
Lemma quiet_async q1 q2 q3 n : quietly (cswp_async_message q1 q2 q3 n).
Proof. unfold cswp_async_message. quiet. Qed.
Lemma quiet_prep : quietly cswp_client_prep_priv_cmd_data.
Proof. unfold cswp_client_prep_priv_cmd_data. quiet. Qed.
Lemma quiet_add_node t c : quietly (cswp_client_add_node_for_pending_rsp t c).
Proof. unfold cswp_client_add_node_for_pending_rsp. quiet. Qed.
Lemma quiet_strncpy q bs n : quietly (strncpy q bs n).
Proof. unfold strncpy. quiet. Qed.
End quiet.
#[export] Hint Resolve quiet_preorder quiet_get_priv quiet_upd_priv quiet_on_memory quiet_on_cmd
  quiet_int_incr quiet_transact_receive quiet_async quiet_prep quiet_add_node quiet_strncpy
  quiet_connection : steps.

(** ** One message per call *)

(** [msg] is a message of [n] requests: its length in four bytes, their number,
    the error mode and their encodings, and no more than the buffer holds. *)
Definition is_message (n : Z) (b : batch_mode_t) (msg : list Z) : Prop :=
  (exists body, msg = frame n b body) /\ len msg <= CSWP_REQ_RSP_BUFFER_SIZE.

(** After the messages [L], nothing or one more message. *)
Definition sends {T} (L : list (list Z)) (n : Z) (b : batch_mode_t) (w : world (logged T)) : Prop :=
  log w = L \/ exists msg, log w = L ++ [msg] /\ is_message n b msg.
Definition sends_nothing {T} (L : list (list Z)) (w : world (logged T)) : Prop := log w = L.

(** The private data before a transaction. *)
Definition ready (b : batch_mode_t) (n : Z) (p : cswp_client_priv_t) : Prop :=
  priv_ok p /\ batch_mode p = b /\ num_cmds p = n.
Definition at_log {T} (P : cswp_client_priv_t -> Prop) (L : list (list Z)) (w : world (logged T)) : Prop :=
  inv P w /\ log w = L.

Lemma frame_is_message p : priv_ok p -> is_message (num_cmds p) (batch_mode p) (frame (num_cmds p) (batch_mode p) (requests p)).
Proof.
  intros Hok. split; [by eexists|]. rewrite frame_length.
  destruct Hok as [_ [[? ? ? ?] ?] Hsz Hu _ Hn].
  pose proof (varint_enc_length (num_cmds p)).
  unfold requests, content. rewrite length_drop, length_take. lia.
Qed.

Section calls.
Context {T : Type} `{Transport T}.
Implicit Types w : world (logged T).
Implicit Types L : list (list Z).

Lemma at_log_quiet {A} P Q L (m : ClientM (logged T) A) :
  leads (inv P) (inv Q) m -> steps quiet m -> leads (at_log P L) (at_log Q L) m.
Proof. intros Hm Hq w a w' Hs [? <-]. split; [by eapply Hm|]. by eapply Hq. Qed.
Lemma nothing_quiet {A} L (m : ClientM (logged T) A) :
  steps quiet m -> leads (sends_nothing L) (sends_nothing L) m.
Proof. intros Hq w a w' Hs <-. by apply (Hq _ _ _ Hs). Qed.
Lemma sends_quiet {A} L n b (m : ClientM (logged T) A) :
  steps quiet m -> leads (sends L n b) (sends L n b) m.
Proof. intros Hq w a w' Hs Hl. unfold sends. by rewrite (Hq _ _ _ Hs : log w' = log w). Qed.
Lemma nothing_sends L n b w : sends_nothing L w -> sends L n b w.
Proof. by left. Qed.
Lemma at_log_nothing P L w : at_log P L w -> sends_nothing L w.
Proof. by intros [_ ?]. Qed.

Lemma transact_sends b n L ops :
  leads (at_log (ready b n) L) (sends L n b) (cswp_client_transact ops : ClientM (logged T) Z).
Proof.
  unfold cswp_client_transact. eapply (leads_bind _ (sends L n b)).
  - intros w a w' Hs [(p & Hp & Hok & Hb & Hn) Hl]. rewrite (transact_send_eq w p Hp Hok) in Hs.
    unfold call_send in Hs. apply M_bind_inv in Hs as (t & w1 & H1 & Hs). unfold gets in H1. simplify_eq.
    simpl in Hs. destruct (t_send _ _) as [r u] eqn:E. apply M_bind_inv in Hs as (x & w2 & H2 & Hs).
    unfold modify in H2. simplify_eq. right. eexists. split; [|apply (frame_is_message p Hok)].
    pose proof (quiet_run_tres _ _ _ _ Hs) as Hq. unfold quiet in Hq. rewrite Hq. reflexivity.
  - intros r. eapply (leads_bind _ (sends L n b)).
    + destruct (r =? CSWP_SUCCESS); apply sends_quiet; eauto with steps typeclass_instances.
    + intros r'. apply sends_quiet. eauto with steps typeclass_instances.
Qed.

(** The steps of a command before its transaction. *)
Lemma on_cmd_ready b n m bs : Writes m bs -> leads (inv (ready b n)) (inv (ready b n)) (on_cmd m : ClientM (logged T) _).
Proof.
  intros Hm w a w' Hs (p & Hp & Hok & Hb & Hn).
  destruct (on_cmd_appends m bs w p Hm Hp (pok_cmd _ Hok)) as (r & bs' & He & Hl & _).
  rewrite He in Hs. simplify_eq. exists (set_cmd (append (cmd p) bs') p).
  split; [done|]. split; [by apply priv_ok_set_cmd|done].
Qed.
Lemma add_node_ready b n t c :
  leads (inv (ready b n)) (inv (ready b (n + 1))) (cswp_client_add_node_for_pending_rsp t c : ClientM (logged T) _).
Proof.
  intros w a w' Hs (p & Hp & Hok & Hb & Hn). pose proof (safe_add_node t c w a w' Hs) as Hsafe.
  destruct Hsafe as (q & Hq & Hokq); [by exists p|]. exists q. split; [done|]. split; [done|].
  unfold cswp_client_add_node_for_pending_rsp in Hs.
  rewrite (M_bind_eq _ _ _ _ _ (get_priv_eq w p Hp)), (M_bind_eq _ _ _ _ _ (upd_priv_eq _ w p Hp)) in Hs.
  unfold int_incr in Hs. destruct (Z.ltb_spec (num_cmds p) (2 ^ 31 - 1)); [|done]. rewrite M_bind_ret in Hs.
  erewrite upd_priv_eq in Hs by done. simplify_eq. simpl in Hq. by simplify_eq.
Qed.

(** A command sends at most one message, of one request, and only outside a batch. *)
Definition command_sends L (b : batch_mode_t) (w : world (logged T)) : Prop :=
  sends L 1 b w /\ (b <> BATCH_NONE -> sends_nothing L w).
Lemma nothing_command L b w : sends_nothing L w -> command_sends L b w.
Proof. by split; [left|]. Qed.
Lemma command_quiet {A} L b (m : ClientM (logged T) A) :
  steps quiet m -> leads (command_sends L b) (command_sends L b) m.
Proof.
  intros Hq w a w' Hs [? Hb]. split; [by eapply sends_quiet|].
  intros Hn. by apply (nothing_quiet L m Hq w a w' Hs), Hb.
Qed.

Definition start (b : batch_mode_t) (p : cswp_client_priv_t) : Prop :=
  exists n, ready b n p /\ (b = BATCH_NONE -> n = 0).

Lemma finish_sends b n res t c L : (b = BATCH_NONE -> n = 0) ->
  leads (at_log (ready b n) L) (command_sends L b) (finish_command res t c : ClientM (logged T) Z).
Proof.
  intros Hn. unfold finish_command. destruct res as [u|e].
  - eapply leads_bind.
    + apply at_log_quiet; [apply add_node_ready|]. eauto with steps.
    + intros _ w a w' Hs Hat. pose proof Hat as [(p & Hp & Hok & Hb & Hc) Hl].
      unfold cswp_client_send_to_transact in Hs. rewrite (M_bind_eq _ _ _ _ _ (get_priv_eq w p Hp)) in Hs.
      case_decide as Hd.
      * rewrite Hb in Hd. specialize (Hn Hd). subst n. rewrite Hc in Hs. change (0 <? 0 + 1) with true in Hs.
        split; [|done]. exact (transact_sends b 1 L None w a w' Hs Hat).
      * unfold mret, M_ret in Hs. simplify_eq. by apply nothing_command.
  - eapply leads_post; [apply leads_ret|]. intros w Hw. by apply nothing_command, (at_log_nothing _ _ _ Hw).
Qed.
Lemma encoded_sends b n m bs t c L {A} (k : Z -> ClientM (logged T) A) :
  Writes m bs -> (b = BATCH_NONE -> n = 0) -> (forall r, steps quiet (k r)) ->
  leads (at_log (ready b n) L) (command_sends L b) (res ← on_cmd m; r ← finish_command res t c; k r).
Proof.
  intros Hm Hn Hk. eapply leads_bind; [apply at_log_quiet; [by eapply on_cmd_ready|eauto with steps]|].
  intros res. eapply leads_bind; [by apply finish_sends|]. intros r. by apply command_quiet.
Qed.

(** A client between two calls, in batch mode [b]. *)
Definition between (b : batch_mode_t) (p : cswp_client_priv_t) : Prop :=
  well_formed p /\ batch_mode p = b.

Lemma prepared_sends {A} b L (Q : world (logged T) -> Prop) (m : ClientM (logged T) A) :
  (forall n, (b = BATCH_NONE -> n = 0) -> leads (at_log (ready b n) L) Q m) ->
  leads (at_log (between b) L) Q (cswp_client_prep_priv_cmd_data;; m).
Proof.
  intros Hm w a w' Hs [(p & Hp & Hwf & Hb) Hl]. rewrite (M_bind_eq _ _ _ _ _ (prep_eq w p Hp)) in Hs.
  eapply (Hm (num_cmds (prepped p))); [|exact Hs|].
  - intros ->. unfold prepped. by rewrite decide_True.
  - split; [|exact Hl]. exists (prepped p). split; [done|]. split; [by apply prepped_well_formed|].
    split; [|done]. unfold prepped. by case_decide.
Qed.
Lemma at_log_get {B} J L (Q : world (logged T) -> Prop) (f : cswp_client_priv_t -> ClientM (logged T) B) :
  (forall p, J p -> leads (at_log J L) Q (f p)) -> leads (at_log J L) Q (get_priv ≫= f).
Proof.
  intros Hf w a w' Hs [(p & Hp & Hi) Hl]. rewrite (M_bind_eq _ _ _ _ _ (get_priv_eq w p Hp)) in Hs.
  eapply (Hf p Hi); [exact Hs|]. split; [by exists p|done].
Qed.
Lemma connect_at_log J L (f : option (T -> tres * T)) :
  leads (at_log J L) (at_log J L) (match option_map with_inner f with
    Some g => call_connect g | None => mret CSWP_SUCCESS end : ClientM (logged T) Z).
Proof.
  apply at_log_quiet; [|apply quiet_connection].
  destruct f; simpl; [apply leads_inv, safe_call_connect|apply leads_ret].
Qed.
Lemma ready_ret {A} b n L (a : A) : leads (at_log (ready b n) L) (command_sends L b) (mret a : ClientM (logged T) A).
Proof. eapply leads_post; [apply leads_ret|]. intros w Hw. by apply nothing_command, (at_log_nothing _ _ _ Hw). Qed.

Lemma run_command_sends b L r c : request_ok r ->
  leads (at_log (between b) L) (command_sends L b) (run_command r c : ClientM (logged T) Z).
Proof.
  intros Hr. apply prepared_sends. intros n Hn. eapply leads_bind.
  - apply at_log_quiet; [eapply on_cmd_ready, encode_request_writes, Hr|eauto with steps].
  - intros res. by apply finish_sends.
Qed.

Lemma reg_write_loop_at_log b n k i ids vals L : Forall is_u64 ids ->
  leads (at_log (ready b n) L) (at_log (ready b n) L) (reg_write_loop k i ids vals : ClientM (logged T) _).
Proof.
  intros Hids. revert i. induction k as [|k IH]; intros i; simpl; [apply leads_ret|].
  destruct (ids !! Z.to_nat i) as [id|] eqn:Hid; [|apply leads_ub].
  destruct (vals !! Z.to_nat i) as [v|]; [|apply leads_ub].
  eapply leads_bind; [apply at_log_quiet; [|eauto with steps]|intros _].
  { eapply on_cmd_ready, writes_put_varint, (Forall_lookup_1 _ _ _ _ Hids Hid). }
  eapply leads_bind; [apply at_log_quiet; [|eauto with steps]|intros _; apply IH].
  eapply on_cmd_ready, writes_put_uint32.
Qed.
Lemma reg_write_sends_one b L n k ids vals : is_u64 n -> is_u64 k -> Forall is_u64 ids ->
  leads (at_log (between b) L) (command_sends L b) (cswp_device_reg_write n k ids vals : ClientM (logged T) Z).
Proof.
  intros Hn Hk Hids. apply prepared_sends. intros m Hm. eapply leads_bind.
  - apply at_log_quiet; [eapply on_cmd_ready, (writes_reg_write_header n k Hn Hk)|eauto with steps].
  - intros res. eapply leads_bind; [|intros _; by apply finish_sends].
    destruct (k <? 2 ^ 32); [by apply reg_write_loop_at_log|apply leads_ub].
Qed.

Lemma term_sends b L : leads (at_log (between b) L) (command_sends L b) (cswp_term : ClientM (logged T) Z).
Proof.
  apply prepared_sends. intros n Hn. apply at_log_get. intros p _.
  assert (Hw := encode_request_writes ReqTerm ltac:(repeat constructor)). cbn [encode_request] in Hw.
  assert (Hsend : leads (at_log (ready b n) L) (command_sends L b) (
    r ← on_cmd cswp_encode_term_command;
    res ← finish_command r CSWP_TERM None;
    (match option_map with_inner t_disconnect with
       Some f => call_connect f | None => mret CSWP_SUCCESS end);;
    upd_priv (fun p => set_init_data (cswp_init_serverProtocolVersion p) None
                         (cswp_init_serverVersion p) p);;
    mret res : ClientM (logged T) Z)).
  { eapply encoded_sends; [exact Hw|exact Hn|]. intros r. eauto 6 with steps typeclass_instances. }
  cbv zeta. change (@t_disconnect (logged T) _) with (option_map with_inner (@t_disconnect T _)).
  change (@t_connect (logged T) _) with (option_map with_inner (@t_connect T _)).
  destruct (connected p =? 0).
  - eapply leads_bind; [apply connect_at_log|intros r].
    destruct (negb _); [apply ready_ret|exact Hsend].
  - eapply (leads_bind _ (at_log (ready b n) L)).
    + apply at_log_quiet; [|eauto with steps]. apply leads_inv.
      apply safe_upd_priv. intros q ([] & ? & ?). split; [by constructor|done].
    + intros _. destruct (0 <? _); [apply ready_ret|exact Hsend].
Qed.

Lemma init_sends b L clientID v q1 q2 n q3 : request_ok (ReqInit v clientID) ->
  leads (at_log (between b) L) (command_sends L b) (cswp_init clientID v q1 q2 n q3 : ClientM (logged T) Z).
Proof.
  intros Hr. pose proof (encode_request_writes _ Hr) as Hw. cbn [encode_request] in Hw.
  apply at_log_get. intros p _. destruct (0 <? connected p).
  - eapply leads_pre; [|intros w Hat; exact (nothing_command L b w (at_log_nothing _ _ _ Hat))].
    apply command_quiet. apply steps_mbind; [typeclasses eauto|eauto with steps|intros _].
    apply steps_mbind; [typeclasses eauto|destruct (cswp_init_serverID p); eauto with steps|intros _].
    eauto 8 with steps typeclass_instances.
  - change (@t_disconnect (logged T) _) with (option_map with_inner (@t_disconnect T _)).
    change (@t_connect (logged T) _) with (option_map with_inner (@t_connect T _)).
    eapply leads_bind; [apply connect_at_log|intros r]. destruct (negb _).
    { eapply leads_post; [apply leads_ret|]. intros w Hat. exact (nothing_command L b w (at_log_nothing _ _ _ Hat)). }
    apply prepared_sends. intros k Hk. eapply encoded_sends; [exact Hw|exact Hk|].
    intros res. destruct (res =? CSWP_SUCCESS); eauto 10 with steps typeclass_instances.
Qed.
End calls.

(** ** Properties *)

(** C11: whatever the client has done before and whatever the transport and the
    caller's memory are, a public call hands the transport at most one message.
    It is a message of the wire format, its length in its first four bytes, and
    fits the buffer of 16384 bytes; it carries the error mode that the client is
    in, and as its number of requests the number of commands queued when it is
    sent by [cswp_batch_end], one otherwise.  In a batch only [cswp_batch_end]
    sends. *)
Theorem sends_frames_only {T} `{Transport T} (w w' : world (logged T)) o res p :
  reachable w -> op_ok o -> priv w = Some p -> run_op o w = Some (res, w') ->
  log w' = log w \/
  exists msg, log w' = log w ++ [msg] /\
    is_message (match o with OpBatchEnd _ => num_cmds p | _ => 1 end) (batch_mode p) msg /\
    (batch_mode p <> BATCH_NONE -> exists ops, o = OpBatchEnd ops).
Proof.
  intros Hr Ho Hp Hs. destruct (reachable_well_formed w Hr) as (q & Hq & Hwf).
  rewrite Hp in Hq. simplify_eq.
  assert (Hat : at_log (between (batch_mode q)) (log w) w) by (split; [by exists q|done]).
  assert (Hcmd : command_sends (log w) (batch_mode q) w' ->
    log w' = log w \/ exists msg, log w' = log w ++ [msg] /\ is_message 1 (batch_mode q) msg /\
      (batch_mode q <> BATCH_NONE -> exists ops, o = OpBatchEnd ops)).
  { intros [[?|(msg & Hl & Hm)] Hb]; [by left|]. right. exists msg. split_and!; [done..|].
    intros Hn. specialize (Hb Hn). unfold sends_nothing in Hb. rewrite Hl in Hb.
    apply (f_equal length) in Hb. rewrite length_app in Hb. simpl in Hb. lia. }
  destruct o as [clientID v q1 q2 n q3| |b|ops|r c|n k ids vals|q1 q2 q3 n]; simpl in Ho, Hs.
  - apply Hcmd. by eapply init_sends.
  - apply Hcmd. by eapply term_sends.
  - left. assert (Hq : steps quiet (cswp_batch_begin (T := logged T) b)) by (unfold cswp_batch_begin; quiet).
    exact (Hq _ _ _ Hs).
  - unfold cswp_batch_end in Hs. rewrite (M_bind_eq _ _ _ _ _ (get_priv_eq w q Hp)) in Hs.
    apply M_bind_inv in Hs as (r & w1 & H1 & Hs).
    assert (Hrest : steps (@quiet T) (upd_priv (set_batch_mode BATCH_NONE);; mret r)) by quiet.
    pose proof (Hrest _ _ _ Hs : log w' = log w1) as Hq.
    destruct (Z.ltb_spec 0 (num_cmds q)) as [Hc|]; [|unfold mret, M_ret in H1; simplify_eq; by left].
    destruct Hwf as [Hok|(_ & Hn & _)]; [|lia].
    assert (Hrdy : at_log (ready (batch_mode q) (num_cmds q)) (log w) w) by (split; [by exists q|done]).
    destruct (transact_sends _ _ _ _ _ _ _ H1 Hrdy) as [?|(msg & Hl & Hm)]; [left; congruence|].
    right. exists msg. split_and!; [congruence|done|by eexists].
  - apply Hcmd. by eapply run_command_sends.
  - destruct Ho as (Hn & Hk & Hids). apply Hcmd. exact (reg_write_sends_one _ _ _ _ _ _ Hn Hk Hids _ _ _ Hs Hat).
  - left. by apply (quiet_async _ _ _ _ _ _ _ Hs).
Qed.

(** A batch of one command that the server does not answer: the message is the
    request to close device 3. *)
Definition ex_logged (p : cswp_client_priv_t) (l : list (list Z)) : world (logged script) :=
  ex_world p ∅ (mkLogged (mkScript [] []) l).
Definition ex_queued : cswp_client_priv_t := queued ex_batching (ReqDeviceClose 3) None.

Lemma ex_batching_ok : priv_ok ex_batching.
Proof. by repeat split. Qed.
Lemma ex_queued_reachable : reachable (ex_logged ex_queued []).
Proof.
  assert (Hr : request_ok (ReqDeviceClose 3)) by (split; [repeat constructor; done|done]).
  pose proof (run_command_batching (ex_logged ex_batching []) ex_batching (ReqDeviceClose 3) None
    eq_refl ex_batching_ok ltac:(discriminate) Hr ltac:(vm_compute; discriminate)
    ltac:(vm_compute; reflexivity)) as Hs.
  apply (reach_op (ex_logged ex_batching []) (OpCommand (ReqDeviceClose 3) None) CSWP_SUCCESS);
    [|exact Hr|exact Hs].
  apply (reach_op (ex_logged ex_new []) (OpBatchBegin true) CSWP_SUCCESS); [|done|reflexivity].
  apply (reach_init (mkWorld None 0 None ∅ (mkLogged (mkScript [] []) [])) _
    (zeroes 15) (zeroes 16384) (zeroes 16384)); [by apply len_zeroes..|reflexivity].
Qed.

Lemma sends_frames_only_witness :
  (log ∘ snd) <$> run_op (OpBatchEnd None) (ex_logged ex_queued []) = Some [frame 1 BATCH_ABORT (request_bytes (ReqDeviceClose 3))] /\
  forall res w', run_op (OpBatchEnd None) (ex_logged ex_queued []) = Some (res, w') ->
    log w' = [] \/
    exists msg, log w' = [] ++ [msg] /\ is_message 1 BATCH_ABORT msg /\
      (BATCH_ABORT <> BATCH_NONE -> exists ops, OpBatchEnd None = OpBatchEnd ops).
Proof.
  split; [vm_compute; reflexivity|]. intros res w' Hs.
  exact (sends_frames_only (ex_logged ex_queued []) w' (OpBatchEnd None) res ex_queued
    ex_queued_reachable I eq_refl Hs).
Defined.
