(* ===== verification/ClientReading.v ===== *)
(** Reading responses: what each completion does with the body of a successful
    response.  The specification describes response messages ([response]) and
    the effect of each completion on the caller's memory ([complete_ok]);
    [run_complete_ok] shows that the completions of the code implement it. *)
From S2P Require Import Prelude Wire CswpTypes CswpBuffer Memory ClientCommands ClientState ClientComplete ClientTransact ClientBatch.

(** ** Response messages *)

Inductive response :=
  | ROk (body : list Z)
  | RErr (code : Z) (message : list Z).

Definition response_bytes (t : cswp_commands_t) (r : response) : list Z :=
  match r with
  | ROk body => varint_enc (cmd_id t) ++ varint_enc 0 ++ body
  | RErr c msg => varint_enc (cmd_id t) ++ varint_enc c ++ string_enc msg
  end.

(** Storing a list of strings through a list of pointers. *)
Fixpoint put_strings (l : list (ptr * list Z)) (m : mem) : mem :=
  match l with
  | [] => m
  | (p, s) :: l' => put_strings l' (put_mem p (s ++ [0]) m)
  end.

(** A string that the caller may not want: without a buffer it is skipped. *)
Inductive optional_stored (q : ptr) (sz : Z) (s : list Z) (m : mem) : mem -> Prop :=
  | string_stored :
      len s < sz < 2 ^ 64 -> valid m q (len s + 1) -> optional_stored q sz s m (put_mem q (s ++ [0]) m)
  | string_skipped : sz = 0 \/ q = None -> optional_stored q sz s m m.

(** A value that the caller may not want; [put_mem] through a null pointer
    changes nothing. *)
Definition optional_valid (m : mem) (q : ptr) (n : Z) : Prop := q = None \/ valid m q n.

(** A device of the list: where its name goes, its name, and the same of its
    type. *)
Definition device_entry : Type := (ptr * list Z) * (ptr * list Z).
Definition device_bytes (x : device_entry) : list Z := string_enc x.1.2 ++ string_enc x.2.2.
Definition device_strings (l : list device_entry) : list (ptr * list Z) :=
  concat ((fun x => [x.1; x.2]) <$> l).
Record device_fits (d : cswp_get_devices_rsp_data) (m : mem) (x : device_entry) : Prop := {
  df_name : len x.1.2 < gd_deviceListEntrySize d;
  df_type : len x.2.2 < gd_deviceTypeEntrySize d;
  df_name_valid : valid m x.1.1 (len x.1.2 + 1);
  df_type_valid : valid m x.2.1 (len x.2.2 + 1);
}.

(** A register of the list, and what becomes of it: its strings are laid out
    one after the other in the string buffer, up to their first NUL. *)
Record register := mkRegister {
  rg_id : Z;
  rg_name : list Z;
  rg_size : Z;
  rg_displayName : list Z;
  rg_description : list Z;
}.
Definition register_bytes (r : register) : list Z :=
  varint_enc (rg_id r) ++ string_enc (rg_name r) ++ varint_enc (rg_size r) ++
  string_enc (rg_displayName r) ++ string_enc (rg_description r).
Definition register_text (r : register) : list Z :=
  (c_str (rg_name r) ++ [0]) ++ (c_str (rg_displayName r) ++ [0]) ++ (c_str (rg_description r) ++ [0]).
Definition register_info (q : ptr) (r : register) : cswp_register_info_t :=
  let q1 := ptr_add q (len (c_str (rg_name r)) + 1) in
  let q2 := ptr_add q1 (len (c_str (rg_displayName r)) + 1) in
  mkRegInfo (u32 (rg_id r)) q (u32 (rg_size r)) q1 q2.
Record register_fits (r : register) : Prop := {
  rf_id : is_u64 (rg_id r);
  rf_size : is_u64 (rg_size r);
  rf_name : len (rg_name r) < 256;
  rf_displayName : len (rg_displayName r) < 256;
  rf_description : len (rg_description r) < 1024;
}.
Fixpoint put_registers (p : ptr) (i : Z) (q : ptr) (l : list register) (m : mem) : mem :=
  match l with
  | [] => m
  | r :: l' =>
      put_registers p (i + 1) (ptr_add q (len (register_text r))) l'
        (put_reg p i (fun _ => register_info q r) (put_mem q (register_text r) m))
  end.

(** [complete_ok c m body m']: processing the body of a successful response
    changes the caller's memory from [m] to [m']. *)
Inductive complete_ok : option complete_func -> mem -> list Z -> mem -> Prop :=
  | ok_none m : complete_ok None m [] m
  | ok_init d m m1 v s sv :
      is_u64 v -> is_u64 sv -> optional_stored (init_serverID d) (init_serverIDSize d) s m m1 ->
      optional_valid m1 (init_serverProtocolVersion d) 1 -> optional_valid m1 (init_serverVersion d) 1 ->
      complete_ok (Some (Cinit d)) m (varint_enc v ++ string_enc s ++ varint_enc sv)
        (put_mem (init_serverVersion d) [u32 sv] (put_mem (init_serverProtocolVersion d) [v] m1))
  | ok_get_devices d m l :
      take (length l) (gd_deviceList d) = (fun x => x.1.1) <$> l ->
      take (length l) (gd_deviceTypes d) = (fun x => x.2.1) <$> l ->
      Forall (device_fits d m) l -> gd_deviceListEntrySize d < 2 ^ 64 -> gd_deviceTypeEntrySize d < 2 ^ 64 ->
      len l <= gd_deviceListSize d -> len l <= gd_deviceTypeSize d -> len l < 2 ^ 32 ->
      valid m (gd_deviceCount d) 1 ->
      complete_ok (Some (Cget_devices d)) m (varint_enc (len l) ++ concat (device_bytes <$> l))
        (put_strings (device_strings l) (put_mem (gd_deviceCount d) [len l] m))
  | ok_device_open d m m1 s :
      optional_stored (do_deviceInfo d) (do_deviceInfoSize d) s m m1 ->
      complete_ok (Some (Cdevice_open d)) m (string_enc s) m1
  | ok_capabilities d m c n :
      is_u64 c -> is_u64 n -> Z.land c CSWP_CAP_REG = CSWP_CAP_REG ->
      valid m (gc_capabilities d) 1 -> valid m (gc_capabilityData d) 1 ->
      complete_ok (Some (Cget_device_capabilities d)) m (varint_enc c ++ varint_enc n)
        (put_mem (gc_capabilityData d) [u32 n] (put_mem (gc_capabilities d) [u32 c] m))
  | ok_reg_list d m l :
      Forall register_fits l -> len l <= rl_registerInfoSize d -> len l < 2 ^ 32 ->
      len (concat (register_text <$> l)) <= rl_strBufSize d < 2 ^ 64 ->
      valid m (rl_registerCount d) 1 -> valid_regs m (rl_registerInfo d) (len l) ->
      valid m (rl_strBuf d) (len (concat (register_text <$> l))) ->
      complete_ok (Some (Creg_list d)) m (varint_enc (len l) ++ concat (register_bytes <$> l))
        (put_registers (rl_registerInfo d) 0 (rl_strBuf d) l (put_mem (rl_registerCount d) [len l] m))
  | ok_reg_read d m vals :
      Forall is_u32 vals -> len vals <= rr_registerValuesSize d -> len vals < 2 ^ 32 ->
      valid m (rr_registerValues d) (len vals) ->
      complete_ok (Some (Creg_read d)) m
        (varint_enc (len vals) ++ concat (le_bytes 4 <$> vals))
        (put_mem (rr_registerValues d) vals m)
  | ok_mem_read d m data :
      len data <= mr_maxBytes d -> valid m (mr_buf d) (len data) ->
      valid m (mr_bytesRead d) 1 ->
      complete_ok (Some (Cmem_read d)) m (varint_enc (len data) ++ data)
        (put_mem (mr_bytesRead d) [len data] (put_mem (mr_buf d) data m))
  | ok_mem_poll d m data :
      mp_buf d = None \/ len data <= mp_maxBytes d /\ valid m (mp_buf d) (len data) ->
      optional_valid m (mp_bytesRead d) 1 ->
      complete_ok (Some (Cmem_poll d)) m (varint_enc (len data) ++ data)
        (put_mem (mp_bytesRead d) [len data] (put_mem (mp_buf d) data m))
  | ok_nvsec_unlock d m data :
      nu_num_token_req_bytes d = 42 -> length data = 42%nat ->
      valid m (nu_token_req d) 42 ->
      complete_ok (Some (Cnvsec_unlock d)) m data (put_mem (nu_token_req d) data m)
  | ok_nvsec_verify d m s :
      len s < nv_signatureSize d < 2 ^ 64 -> valid m (nv_signature d) (len s + 1) ->
      complete_ok (Some (Cnvsec_verify d)) m (string_enc s)
        (put_mem (nv_signature d) (s ++ [0]) m)
  | ok_nvsec_encrypt d m s :
      len s < ne_key_size d < 2 ^ 64 -> valid m (ne_server_public_key d) (len s + 1) ->
      complete_ok (Some (Cnvsec_encrypt d)) m (string_enc s)
        (put_mem (ne_server_public_key d) (s ++ [0]) m).

(** ** Stepping on the response buffer *)

(** The private data after [n] bytes of the response were consumed. *)
Definition adv (p : cswp_client_priv_t) (n : Z) : cswp_client_priv_t :=
  set_rsp (set_pos (pos (rsp p) + n) (rsp p)) p.

(** The client is about to read [bs] (and then [rest]) from its response. *)
Definition reading {T} (w : world T) (p : cswp_client_priv_t) (bs : list Z) : Prop :=
  priv w = Some p /\ buf_ok (rsp p) /\ unread (rsp p) = bs.

(** ... and has read [bs], with the memory updated to [m]. *)
Definition read_to {T} (w : world T) (p : cswp_client_priv_t) (bs : list Z) (m : mem)
    : world T :=
  set_memory m (set_priv (Some (adv p (len bs))) w).

Lemma adv_adv p a b : adv (adv p a) b = adv p (a + b).
Proof. unfold adv, set_rsp, set_pos. simpl. do 2 f_equal. lia. Qed.

Section reading.
Context {T : Type}.
Implicit Types (w : world T) (p : cswp_client_priv_t).

Lemma reading_next w p bs rest m :
  reading w p (bs ++ rest) -> reading (read_to w p bs m) (adv p (len bs)) rest.
Proof.
  intros (Hp & Hok & Hu). split_and!; [done| |].
  - by apply (advance_ok (rsp p) bs rest).
  - by apply (advance_unread (rsp p) bs rest).
Qed.

Lemma read_to_next w p bs1 bs2 m1 m2 :
  read_to (read_to w p bs1 m1) (adv p (len bs1)) bs2 m2 = read_to w p (bs1 ++ bs2) m2.
Proof.
  unfold read_to. rewrite adv_adv, length_app, Nat2Z.inj_add. done.
Qed.

Lemma memory_read_to w p bs m : memory (read_to w p bs m) = m.
Proof. done. Qed.

Lemma on_rsp_reads {A} (m : BufM A) bs a w p rest :
  Reads m bs a -> reading w p (bs ++ rest) ->
  on_rsp m w = Some (Val a, read_to w p bs (memory w)).
Proof.
  intros Hm (Hp & Hok & Hu). erewrite on_rsp_eq; [|done|by apply (Hm _ rest)].
  by destruct w.
Qed.

Lemma on_rsp_mem_eq {A} (m : DecM A) w p r b x :
  priv w = Some p -> m (rsp p, memory w) = Some (r, (b, x)) ->
  on_rsp_mem m w = Some (r, set_memory x (set_priv (Some (set_rsp b p)) w)).
Proof. intros Hp Hm. unfold on_rsp_mem. by rewrite Hp, Hm. Qed.

Lemma on_memory_store w q vs :
  valid (memory w) q (len vs) ->
  on_memory (store q vs) w = Some (tt, set_memory (put_mem q vs (memory w)) w).
Proof. intros Hv. unfold on_memory. by rewrite store_valid. Qed.
End reading.

(** A non-null pointer to a valid object. *)
Lemma valid_not_null m q n : valid m q n -> q <> None.
Proof. by intros Hv ->. Qed.

(** ** Decoders that also store *)

(** [m] reads [bs], returns [a] and changes the memory [x] to [y]. *)
Definition DReads {A} (m : DecM A) (bs : list Z) (a : A) (x y : mem) : Prop :=
  forall b rest, buf_ok b -> unread b = bs ++ rest ->
    m (b, x) = Some (Val a, (set_pos (pos b + len bs) b, y)).

Lemma dreads_buf {A} (m : BufM A) bs a x : Reads m bs a -> DReads (on_buf m) bs a x x.
Proof. intros Hm b rest Hb Hu. apply on_buf_eq. by apply (Hm b rest). Qed.

Lemma dreads_bind {A B} (m : DecM A) (f : A -> DecM B) bs1 bs2 a c x y z :
  DReads m bs1 a x y -> DReads (f a) bs2 c y z -> DReads (m ≫= f) (bs1 ++ bs2) c x z.
Proof.
  intros H1 H2 b rest Hb Hu. rewrite <- app_assoc in Hu.
  rewrite (E_bind_val _ _ _ _ _ (H1 b _ Hb Hu)).
  rewrite (H2 _ rest (advance_ok b bs1 _ Hb Hu) (advance_unread b bs1 _ Hb Hu)).
  unfold set_pos. simpl. rewrite length_app. do 4 f_equal. lia.
Qed.

Lemma dreads_map {A B} (m : DecM A) (g : A -> B) bs a x y :
  DReads m bs a x y -> DReads (r ← m; mret (g r)) bs (g a) x y.
Proof. intros Hm b rest Hb Hu. by rewrite (E_bind_val _ _ _ _ _ (Hm b rest Hb Hu)). Qed.

Lemma dreads_string q sz s x :
  len s < sz < 2 ^ 64 -> valid x q (len s + 1) ->
  DReads (get_string_to q sz) (string_enc s) tt x (put_mem q (s ++ [0]) x).
Proof. intros Hs Hv b rest Hb Hu. by apply (get_string_to_reads b x q sz s rest). Qed.

Lemma dreads_optional_string q sz s x y :
  optional_stored q sz s x y -> DReads (cswp_get_optional_string q sz) (string_enc s) tt x y.
Proof.
  unfold cswp_get_optional_string. intros [Hs Hv|Hq].
  - destruct (Z.eqb_spec sz 0); [lia|]. rewrite bool_decide_false by (by eapply valid_not_null).
    by apply dreads_string.
  - assert ((sz =? 0) || bool_decide (q = None) = true) as ->.
    { destruct Hq as [-> | ->]; [done|]. by rewrite bool_decide_true, orb_true_r. }
    intros b rest Hb Hu. unfold string_enc in *. rewrite <- app_assoc in Hu.
    pose proof (len_unread _ Hb) as Hl. rewrite Hu, !length_app in Hl.
    assert (Hs : is_u64 (len s)) by (unfold is_u64; destruct Hb; lia).
    pose proof (advance_ok b _ _ Hb Hu) as Hb'. pose proof (advance_unread b _ _ Hb Hu) as Hu'.
    erewrite E_bind_val by (apply on_buf_eq; by apply (reads_get_varint _ Hs b _ Hb Hu)).
    erewrite on_buf_eq; [|reflexivity]. unfold cswp_buffer_skip.
    pose proof (skip_in_bounds _ _ _ Hb' Hu') as Hk. rewrite Hk. unfold set_pos. simpl.
    rewrite length_app. do 4 f_equal. lia.
Qed.

Lemma dreads_init q sz v s sv x y :
  is_u64 v -> is_u64 sv -> optional_stored q sz s x y ->
  DReads (cswp_decode_init_response_body q sz)
    (varint_enc v ++ string_enc s ++ varint_enc sv) (v, sv) x y.
Proof.
  intros. eapply dreads_bind; [by apply dreads_buf, reads_get_varint|].
  eapply dreads_bind; [by apply dreads_optional_string|].
  apply (dreads_map _ (pair v)). by apply dreads_buf, reads_get_varint.
Qed.

Lemma on_rsp_dreads {T A} (m : DecM A) bs a (w : world T) p rest y :
  DReads m bs a (memory w) y -> reading w p (bs ++ rest) ->
  on_rsp_mem m w = Some (Val a, read_to w p bs y).
Proof.
  intros Hm (Hp & Hok & Hu). by erewrite on_rsp_mem_eq; [|done|by apply (Hm _ rest)].
Qed.

(** A store between two reads. *)
Lemma on_memory_read_to {T} (w : world T) p bs q vs m :
  valid m q (len vs) ->
  on_memory (store q vs) (read_to w p bs m) = Some (tt, read_to w p bs (put_mem q vs m)).
Proof. intros. by rewrite on_memory_store. Qed.

(** ** The completions *)

Section completions.
Context {T : Type}.
Implicit Types (w : world T) (p : cswp_client_priv_t).

Lemma reg_read_loop d p w m vals2 vals1 bs rest :
  Forall is_u32 vals2 ->
  valid m (rr_registerValues d) (len (vals1 ++ vals2)) ->
  reading w p (bs ++ concat (le_bytes 4 <$> vals2) ++ rest) ->
  for_ok (length vals2) (len vals1) (reg_read_body d) CSWP_SUCCESS
    (read_to w p bs (put_mem (rr_registerValues d) vals1 m)) =
  Some (CSWP_SUCCESS, read_to w p (bs ++ concat (le_bytes 4 <$> vals2))
          (put_mem (rr_registerValues d) (vals1 ++ vals2) m)).
Proof.
  intros Hv. revert vals1 bs. induction Hv as [|v vals2 Hv1 _ IH]; intros vals1 bs Hm Hr.
  - simpl. by rewrite !app_nil_r.
  - rewrite fmap_cons in *. cbn [concat length for_ok] in *.
    change (CSWP_SUCCESS =? CSWP_SUCCESS) with true. cbv iota.
    assert (Hd : DReads (x ← on_buf cswp_buffer_get_uint32;
        on_mem (store (ptr_add (rr_registerValues d) (len vals1)) [x])) (le_bytes 4 v) tt
        (put_mem (rr_registerValues d) vals1 m)
        (put_mem (rr_registerValues d) (vals1 ++ [v]) m)).
    { rewrite <- (app_nil_r (le_bytes 4 v)).
      eapply dreads_bind; [by apply dreads_buf, reads_get_uint32|].
      intros b r _ _. destruct b; unfold set_pos; simpl. rewrite Z.add_0_r.
      apply on_mem_eq, put_mem_snoc.
      eapply valid_le; [exact Hm|]. rewrite length_app. simpl. lia. }
    assert (Hb : reg_read_body d (len vals1) (read_to w p bs (put_mem (rr_registerValues d) vals1 m)) =
      Some (CSWP_SUCCESS, read_to w p (bs ++ le_bytes 4 v) (put_mem (rr_registerValues d) (vals1 ++ [v]) m))).
    { unfold reg_read_body. rewrite <- app_assoc in Hr.
      pose proof (reading_next w p bs _ (put_mem (rr_registerValues d) vals1 m) Hr) as Hr'.
      erewrite M_bind_eq by (eapply on_rsp_dreads; [exact Hd|exact Hr']).
      by rewrite read_to_next. }
    rewrite (M_bind_eq _ _ _ _ _ Hb).
    replace (len vals1 + 1) with (len (vals1 ++ [v])) by (rewrite length_app; simpl; lia).
    rewrite <- app_assoc in Hr. by rewrite IH; rewrite <- !app_assoc.
Qed.

Lemma take_unread b data rest :
  buf_ok b -> unread b = data ++ rest ->
  take (length data) (drop (Z.to_nat (pos b)) (buf b)) = data /\ pos b + len data <= len (buf b).
Proof.
  intros Hb Hu. pose proof (copy_out_reads b data rest Hb Hu) as Hc.
  unfold copy_out in Hc. case_decide as Hd; [|done]. rewrite Nat2Z.id in Hc.
  split; [congruence|lia].
Qed.

Lemma on_rsp_direct w p data rest :
  reading w p (data ++ rest) ->
  on_rsp (cswp_buffer_get_direct (len data)) w = Some (Val (pos (rsp p)), read_to w p data (memory w)).
Proof.
  intros (Hp & Hok & Hu). erewrite on_rsp_eq; [|done|by apply (get_direct_reads _ data rest)]. by destruct w.
Qed.

(** [cswp_buffer_get_direct] and the [memcpy] of what it points at. *)
Lemma direct_copy w p data rest q k :
  reading w p (data ++ rest) -> valid (memory w) q k -> 0 <= k <= len data ->
  on_rsp (cswp_buffer_get_direct (len data)) w =
    Some (Val (pos (rsp p)), read_to w p data (memory w)) /\ copy_from_rsp q (pos (rsp p)) k (read_to w p data (memory w)) =
    Some (tt, read_to w p data (put_mem q (take (Z.to_nat k) data) (memory w))).
Proof.
  intros Hr Hv Hk. split; [by apply (on_rsp_direct w p data rest)|]. destruct Hr as (Hp & Hok & Hu).
  unfold copy_from_rsp. erewrite M_bind_eq by (by apply get_priv_eq).
  change (buf (rsp (adv p (len data)))) with (buf (rsp p)).
  destruct (take_unread (rsp p) data rest Hok Hu) as [Ht Hb]. destruct Hok.
  rewrite decide_True by lia.
  replace (take (Z.to_nat k) (drop _ _)) with (take (Z.to_nat k) data).
  - rewrite on_memory_read_to; [done|]. rewrite length_take.
    by replace (Z.of_nat (Z.to_nat k `min` length data)) with k by lia.
  - rewrite <- Ht at 1. rewrite take_take. f_equal. lia.
Qed.
End completions.

Section run.
Context {T : Type}.
Implicit Types (w : world T) (p : cswp_client_priv_t).

(** Consuming nothing, with an unchanged memory. *)
Lemma read_to_id w p : priv w = Some p -> read_to w p [] (memory w) = w.
Proof.
  intros Hp. unfold read_to, adv, set_priv, set_memory, set_rsp, set_pos. simpl.
  rewrite Z.add_0_r. destruct w as [? ? ? ? ?], p as [? ? [] ? ? ? ? ? ? ?].
  simpl in *. by rewrite Hp.
Qed.

Lemma decode_only_eq w p (m : DecM unit) s rest y :
  DReads m s tt (memory w) y -> reading w p (s ++ rest) ->
  ((r ← on_rsp_mem m; mret (code_of r)) : ClientM T Z) w =
    Some (CSWP_SUCCESS, read_to w p s y).
Proof. intros Hm Hr. by erewrite M_bind_eq by (by eapply on_rsp_dreads). Qed.

(** A store that the caller may not want. *)
Lemma optional_store w p bs q vs m :
  optional_valid m q (len vs) ->
  ((if decide (q = None) then mret tt else on_memory (store q vs)) : ClientM T unit) (read_to w p bs m) =
    Some (tt, read_to w p bs (put_mem q vs m)).
Proof.
  intros [-> | Hv]; [done|]. rewrite decide_False by (by eapply valid_not_null). by apply on_memory_read_to.
Qed.

Lemma optional_valid_put_mem m q n q' vs : optional_valid m q n -> optional_valid (put_mem q' vs m) q n.
Proof. intros [?|?]; [by left|right]. by apply put_mem_valid. Qed.

Lemma init_complete_ok d w p v s sv m1 rest :
  is_u64 v -> is_u64 sv ->
  optional_stored (init_serverID d) (init_serverIDSize d) s (memory w) m1 ->
  optional_valid m1 (init_serverProtocolVersion d) 1 -> optional_valid m1 (init_serverVersion d) 1 ->
  reading w p ((varint_enc v ++ string_enc s ++ varint_enc sv) ++ rest) ->
  cswp_init_complete d w = Some (CSWP_SUCCESS,
    read_to w p (varint_enc v ++ string_enc s ++ varint_enc sv)
      (put_mem (init_serverVersion d) [u32 sv] (put_mem (init_serverProtocolVersion d) [v] m1))).
Proof.
  intros Hv Hsv Hs V1 V3 Hr. unfold cswp_init_complete.
  erewrite M_bind_eq by (eapply on_rsp_dreads; [|exact Hr]; by apply dreads_init).
  cbv beta iota. erewrite M_bind_eq by (by apply optional_store).
  by erewrite M_bind_eq by (apply optional_store; by apply optional_valid_put_mem).
Qed.

Lemma capabilities_complete_ok d w p c n rest :
  is_u64 c -> is_u64 n -> Z.land c CSWP_CAP_REG = CSWP_CAP_REG ->
  valid (memory w) (gc_capabilities d) 1 -> valid (memory w) (gc_capabilityData d) 1 ->
  reading w p ((varint_enc c ++ varint_enc n) ++ rest) ->
  cswp_get_device_capabilities_complete d w = Some (CSWP_SUCCESS,
    read_to w p (varint_enc c ++ varint_enc n)
      (put_mem (gc_capabilityData d) [u32 n]
        (put_mem (gc_capabilities d) [u32 c] (memory w)))).
Proof.
  intros Hc Hn Hcap V1 V2 Hr. unfold cswp_get_device_capabilities_complete.
  erewrite M_bind_eq by (eapply on_rsp_reads; [|exact Hr];
    eapply reads_bind; [by apply reads_get_varint|];
    rewrite Hcap; apply (reads_map _ (fun n => (c, Some n))); by apply reads_get_varint).
  cbv beta iota. erewrite M_bind_eq by (by apply on_memory_read_to).
  by erewrite M_bind_eq by (apply on_memory_read_to; by apply put_mem_valid).
Qed.

Lemma reg_read_complete_ok d w p vals rest :
  Forall is_u32 vals -> len vals <= rr_registerValuesSize d -> len vals < 2 ^ 32 ->
  valid (memory w) (rr_registerValues d) (len vals) ->
  reading w p ((varint_enc (len vals) ++ concat (le_bytes 4 <$> vals)) ++ rest) ->
  cswp_device_reg_read_complete d w = Some (CSWP_SUCCESS,
    read_to w p (varint_enc (len vals) ++ concat (le_bytes 4 <$> vals))
      (put_mem (rr_registerValues d) vals (memory w))).
Proof.
  intros Hv Hs Hn Hm Hr. unfold cswp_device_reg_read_complete. rewrite <- app_assoc in Hr.
  erewrite M_bind_eq by (eapply on_rsp_reads; [|exact Hr];
    apply reads_get_varint; unfold is_u64; lia).
  cbv beta iota. destruct (Z.ltb_spec (rr_registerValuesSize d) (len vals)); [lia|].
  rewrite u32_small, Nat2Z.id by lia.
  pose proof (reg_read_loop d p w (memory w) vals [] (varint_enc (len vals)) rest Hv Hm Hr)
    as Hl.
  rewrite put_mem_nil in Hl. exact Hl.
Qed.

Lemma mem_read_complete_ok d w p data rest :
  len data <= mr_maxBytes d -> valid (memory w) (mr_buf d) (len data) ->
  valid (memory w) (mr_bytesRead d) 1 ->
  reading w p ((varint_enc (len data) ++ data) ++ rest) ->
  cswp_device_mem_read_complete d w = Some (CSWP_SUCCESS,
    read_to w p (varint_enc (len data) ++ data)
      (put_mem (mr_bytesRead d) [len data] (put_mem (mr_buf d) data (memory w)))).
Proof.
  intros Hl V1 V2 Hr. unfold cswp_device_mem_read_complete. rewrite <- app_assoc in Hr.
  pose proof Hr as (_ & Hok & Hu).
  pose proof (len_unread _ Hok) as Hlen. rewrite Hu, !length_app in Hlen. destruct Hok.
  erewrite M_bind_eq by (eapply on_rsp_reads; [|exact Hr];
    apply reads_get_varint; unfold is_u64; lia).
  pose proof (reading_next w p _ _ (memory w) Hr) as Hr'.
  destruct (direct_copy _ _ data rest (mr_buf d) (len data) Hr' V1 ltac:(lia)) as [Hd Hc].
  erewrite M_bind_eq by exact Hd. cbv beta iota.
  destruct (Z.ltb_spec (mr_maxBytes d) (len data)); [lia|].
  erewrite M_bind_eq by exact Hc. rewrite Nat2Z.id, take_ge by lia.
  erewrite M_bind_eq by (apply on_memory_read_to; by apply put_mem_valid).
  rewrite read_to_next. done.
Qed.

Lemma mem_poll_complete_ok d w p data rest :
  mp_buf d = None \/ len data <= mp_maxBytes d /\ valid (memory w) (mp_buf d) (len data) ->
  optional_valid (memory w) (mp_bytesRead d) 1 ->
  reading w p ((varint_enc (len data) ++ data) ++ rest) ->
  cswp_device_mem_poll_complete d w = Some (CSWP_SUCCESS,
    read_to w p (varint_enc (len data) ++ data)
      (put_mem (mp_bytesRead d) [len data] (put_mem (mp_buf d) data (memory w)))).
Proof.
  intros V1 V2 Hr. unfold cswp_device_mem_poll_complete. rewrite <- app_assoc in Hr.
  pose proof Hr as (_ & Hok & Hu).
  pose proof (len_unread _ Hok) as Hlen. rewrite Hu, !length_app in Hlen. destruct Hok.
  erewrite M_bind_eq by (eapply on_rsp_reads; [|exact Hr];
    apply reads_get_varint; unfold is_u64; lia).
  pose proof (reading_next w p _ _ (memory w) Hr) as Hr'.
  cbv beta iota. erewrite M_bind_eq by (eapply on_rsp_direct; exact Hr'). cbv beta iota.
  erewrite M_bind_eq with (a := (len data, CSWP_SUCCESS))
    (s' := read_to w p (varint_enc (len data) ++ data) (put_mem (mp_buf d) data (memory w))).
  - erewrite M_bind_eq by (apply optional_store; by apply optional_valid_put_mem). done.
  - destruct V1 as [-> | [Hl V1]].
    + rewrite decide_True by done. by rewrite read_to_next.
    + rewrite decide_False by (by eapply valid_not_null). destruct (Z.ltb_spec (mp_maxBytes d) (len data)); [lia|].
      destruct (direct_copy _ _ data rest (mp_buf d) (len data) Hr' V1 ltac:(lia)) as [_ Hc].
      erewrite M_bind_eq by exact Hc. rewrite Nat2Z.id, take_ge by lia. by rewrite read_to_next.
Qed.

(** The list of devices. *)
Lemma put_strings_valid l m q n : valid m q n -> valid (put_strings l m) q n.
Proof. revert m. induction l as [|[a s] l IH]; intros m Hv; simpl; [done|]. by apply IH, put_mem_valid. Qed.

Lemma device_fits_put_mem d m x q vs : device_fits d m x -> device_fits d (put_mem q vs m) x.
Proof. intros []. constructor; auto with cswp. Qed.

Lemma dreads_index {A} (l : list A) i x m :
  l !! Z.to_nat i = Some x -> 0 <= i -> DReads (e_index l i) [] x m m.
Proof.
  intros Hx Hi [sz u q bf] rest _ _. rewrite (e_index_eq _ _ x) by done.
  unfold set_pos. simpl. by rewrite Z.add_0_r.
Qed.

Lemma get_devices_body_eq d i w p bs x m rest :
  0 <= i -> gd_deviceList d !! Z.to_nat i = Some x.1.1 -> gd_deviceTypes d !! Z.to_nat i = Some x.2.1 ->
  device_fits d m x -> gd_deviceListEntrySize d < 2 ^ 64 -> gd_deviceTypeEntrySize d < 2 ^ 64 ->
  reading w p (bs ++ device_bytes x ++ rest) ->
  get_devices_body d i (read_to w p bs m) =
    Some (CSWP_SUCCESS, read_to w p (bs ++ device_bytes x) (put_strings [x.1; x.2] m)).
Proof.
  destruct x as [[q1 s1] [q2 s2]]. intros Hi H1 H2 [F1 F2 V1 V2] Z1 Z2 Hr. unfold device_bytes in *. simpl in *.
  unfold get_devices_body. rewrite <- app_assoc in Hr.
  pose proof (reading_next w p _ _ m Hr) as Hr1.
  erewrite M_bind_eq.
  2: { eapply on_rsp_dreads; [|exact Hr1]. eapply (dreads_bind _ _ []); [by apply dreads_index|].
       by apply dreads_string. }
  rewrite read_to_next, app_assoc in *.
  pose proof (reading_next w p _ _ (put_mem q1 (s1 ++ [0]) m) Hr) as Hr2.
  erewrite M_bind_eq.
  2: { eapply on_rsp_dreads; [|exact Hr2]. eapply (dreads_bind _ _ []); [by apply dreads_index|].
       apply dreads_string; [done|]. by apply put_mem_valid. }
  by rewrite read_to_next, <- app_assoc.
Qed.

Lemma get_devices_loop d w p l2 l1 bs m rest :
  take (length (l1 ++ l2)) (gd_deviceList d) = (fun x => x.1.1) <$> l1 ++ l2 ->
  take (length (l1 ++ l2)) (gd_deviceTypes d) = (fun x => x.2.1) <$> l1 ++ l2 ->
  Forall (device_fits d m) l2 -> gd_deviceListEntrySize d < 2 ^ 64 -> gd_deviceTypeEntrySize d < 2 ^ 64 ->
  reading w p (bs ++ concat (device_bytes <$> l2) ++ rest) ->
  for_ok (length l2) (len l1) (get_devices_body d) CSWP_SUCCESS (read_to w p bs m) =
    Some (CSWP_SUCCESS, read_to w p (bs ++ concat (device_bytes <$> l2)) (put_strings (device_strings l2) m)).
Proof.
  revert l1 bs m. induction l2 as [|x l2 IH]; intros l1 bs m HL HT Hf Z1 Z2 Hr; cbn [length for_ok].
  - simpl. by rewrite app_nil_r.
  - apply list.Forall_cons in Hf as [Hx Hf]. rewrite fmap_cons in *. cbn [concat] in *.
    assert (Hi : forall A (f : device_entry -> A) (k : list A),
      take (length (l1 ++ x :: l2)) k = f <$> l1 ++ x :: l2 -> k !! Z.to_nat (len l1) = Some (f x)).
    { intros A f k E. rewrite Nat2Z.id. transitivity (take (length (l1 ++ x :: l2)) k !! length l1).
      - by rewrite lookup_take_lt by (rewrite length_app; simpl; lia).
      - rewrite E, list_lookup_fmap, lookup_app_r, Nat.sub_diag by lia. done. }
    change (CSWP_SUCCESS =? CSWP_SUCCESS) with true. cbv iota. rewrite <- (app_assoc _ _ rest) in Hr.
    erewrite M_bind_eq by (eapply get_devices_body_eq; [lia|exact (Hi _ _ _ HL)|exact (Hi _ _ _ HT)|exact Hx|done|done|exact Hr]).
    replace (len l1 + 1) with (len (l1 ++ [x])) by (rewrite length_app; simpl; lia).
    rewrite app_assoc in Hr.
    rewrite (IH (l1 ++ [x]) (bs ++ device_bytes x) (put_strings [x.1; x.2] m));
      rewrite <- ?app_assoc; try done.
    { destruct x as [[q1 s1] [q2 s2]]. by rewrite <- ?app_assoc. }
    { eapply list.Forall_impl; [exact Hf|]. intros y Hy. destruct x as [[q1 s1] [q2 s2]]. simpl.
      by do 2 apply device_fits_put_mem. }
    { by rewrite <- app_assoc in Hr. }
Qed.

Lemma get_devices_complete_ok d w p l rest :
  take (length l) (gd_deviceList d) = (fun x => x.1.1) <$> l ->
  take (length l) (gd_deviceTypes d) = (fun x => x.2.1) <$> l ->
  Forall (device_fits d (memory w)) l -> gd_deviceListEntrySize d < 2 ^ 64 -> gd_deviceTypeEntrySize d < 2 ^ 64 ->
  len l <= gd_deviceListSize d -> len l <= gd_deviceTypeSize d -> len l < 2 ^ 32 ->
  valid (memory w) (gd_deviceCount d) 1 ->
  reading w p ((varint_enc (len l) ++ concat (device_bytes <$> l)) ++ rest) ->
  cswp_get_devices_complete d w = Some (CSWP_SUCCESS,
    read_to w p (varint_enc (len l) ++ concat (device_bytes <$> l))
      (put_strings (device_strings l) (put_mem (gd_deviceCount d) [len l] (memory w)))).
Proof.
  intros HL HT Hf Z1 Z2 S1 S2 Hn Hv Hr. unfold cswp_get_devices_complete. rewrite <- app_assoc in Hr.
  erewrite M_bind_eq by (eapply on_rsp_reads; [|exact Hr]; apply reads_get_varint; unfold is_u64; lia).
  cbv beta iota. rewrite u32_small, Nat2Z.id by lia.
  erewrite M_bind_eq by (by apply on_memory_read_to).
  rewrite (proj2 (Z.ltb_ge _ _) S1), (proj2 (Z.ltb_ge _ _) S2).
  apply (get_devices_loop d w p l [] _ _ rest); try done.
  eapply list.Forall_impl; [exact Hf|]. intros x. apply device_fits_put_mem.
Qed.

(** The list of registers. *)
Lemma update_reg_read_to w p bs q i f n m :
  valid_regs m q n -> 0 <= i < n ->
  on_memory (update_reg q i f) (read_to w p bs m) = Some (tt, read_to w p bs (put_reg q i f m)).
Proof. intros Hv Hi. unfold on_memory. by rewrite memory_read_to, (update_reg_valid _ _ n). Qed.

(** One string: it goes to the end of the text so far. *)
Lemma reg_list_string_eq d i s set q n k res w p bs m :
  len (c_str s) + 1 <= n < 2 ^ 64 -> valid m q (len (c_str s) + 1) ->
  valid_regs m (rl_registerInfo d) k -> 0 <= i < k ->
  reg_list_string d i s set (q, n) res (read_to w p bs m) =
    Some ((ptr_add q (len (c_str s) + 1), n - (len (c_str s) + 1), res),
      read_to w p bs (put_reg (rl_registerInfo d) i (set q) (put_mem q (c_str s ++ [0]) m))).
Proof.
  intros Hn Hv Hr Hi. unfold reg_list_string. rewrite (proj2 (Z.ltb_ge _ _)) by lia.
  erewrite M_bind_eq by (apply on_memory_read_to; rewrite length_app; simpl;
    by replace (Z.of_nat (length (c_str s) + 1)) with (len (c_str s) + 1) by lia).
  erewrite M_bind_eq by (apply (update_reg_read_to _ _ _ _ _ _ k); [by apply put_mem_valid_regs|done]).
  by rewrite u64_small by lia.
Qed.

Lemma reads_reg_info r :
  register_fits r -> Reads (cswp_decode_reg_info 256 256 1024) (register_bytes r)
    (rg_id r, rg_name r, rg_size r, rg_displayName r, rg_description r).
Proof.
  intros []. unfold cswp_decode_reg_info, register_bytes.
  eapply reads_bind; [by apply reads_get_varint|]. eapply reads_bind; [by apply reads_get_string|].
  eapply reads_bind; [by apply reads_get_varint|]. eapply reads_bind; [by apply reads_get_string|].
  apply (reads_map _ (fun x => (rg_id r, rg_name r, rg_size r, rg_displayName r, x))). by apply reads_get_string.
Qed.

Lemma register_text_length r :
  len (register_text r) = len (c_str (rg_name r)) + 1 + (len (c_str (rg_displayName r)) + 1) +
    (len (c_str (rg_description r)) + 1).
Proof. unfold register_text. rewrite !length_app. simpl. lia. Qed.

Lemma ptr_add_add q a b : ptr_add (ptr_add q a) b = ptr_add q (a + b).
Proof. destruct q as [[? ?]|]; [|done]. simpl. by rewrite Z.add_assoc. Qed.

(** What the four assignments and the three copies amount to. *)
Lemma put_register_eq q' i q r m :
  let a := len (c_str (rg_name r)) + 1 in
  let b := len (c_str (rg_displayName r)) + 1 in
  valid m q (len (register_text r)) ->
  put_reg q' i (reg_set_description (ptr_add q (a + b)))
    (put_mem (ptr_add q (a + b)) (c_str (rg_description r) ++ [0])
      (put_reg q' i (reg_set_displayName (ptr_add q a))
        (put_mem (ptr_add q a) (c_str (rg_displayName r) ++ [0])
          (put_reg q' i (reg_set_name q)
            (put_mem q (c_str (rg_name r) ++ [0])
              (put_reg q' i (reg_set_id_size (u32 (rg_id r)) (u32 (rg_size r))) m)))))) =
  put_reg q' i (fun _ => register_info q r) (put_mem q (register_text r) m).
Proof.
  intros a b Hv. rewrite !put_reg_put_mem, !put_reg_put_reg. unfold register_text.
  assert (Ha : a = len (c_str (rg_name r) ++ [0])) by (rewrite length_app; simpl; lia).
  assert (Hb : b = len (c_str (rg_displayName r) ++ [0])) by (rewrite length_app; simpl; lia).
  rewrite (put_reg_ext _ _ _ (fun _ => register_info q r)) by (by intros; unfold register_info; rewrite ptr_add_add).
  unfold register_text in Hv. rewrite !length_app in Hv.
  rewrite <- ptr_add_add, Ha. rewrite <- (put_mem_app _ q (c_str (rg_name r) ++ [0])).
  - rewrite Hb. rewrite (put_mem_app (put_mem q _ _)); [done|]. 
    destruct q as [[bq oq]|]; [|done]. apply put_mem_valid, put_reg_valid. destruct Hv as (x & Hx & Hbd).
    exists x. split; [done|]. rewrite !length_app. lia.
  - apply put_reg_valid. by rewrite !length_app, <- !Nat2Z.inj_add.
Qed.

(** A register whose text fits. *)
Lemma reg_list_body_eq d i r q n k w p bs m rest :
  register_fits r -> len (register_text r) <= n < 2 ^ 64 -> valid m q (len (register_text r)) ->
  valid_regs m (rl_registerInfo d) k -> 0 <= i < k ->
  reading w p (bs ++ register_bytes r ++ rest) ->
  reg_list_body d i (q, n) (read_to w p bs m) =
    Some ((ptr_add q (len (register_text r)), n - len (register_text r), CSWP_SUCCESS),
      read_to w p (bs ++ register_bytes r)
        (put_reg (rl_registerInfo d) i (fun _ => register_info q r) (put_mem q (register_text r) m))).
Proof.
  intros Hf Hn Hv Hr Hi Hrd. rewrite register_text_length in *.
  set (a := len (c_str (rg_name r)) + 1) in *. set (b := len (c_str (rg_displayName r)) + 1) in *.
  set (c := len (c_str (rg_description r)) + 1) in *. unfold reg_list_body.
  pose proof (reading_next w p _ _ m Hrd) as Hrd'.
  erewrite M_bind_eq by (eapply on_rsp_reads; [by apply reads_reg_info|exact Hrd']).
  rewrite read_to_next. cbv beta iota.
  erewrite M_bind_eq by (by apply (update_reg_read_to _ _ _ _ _ _ k)).
  assert (Hsub : forall x o y, 0 <= o -> 0 <= y -> o + y <= a + b + c -> valid x q (a + b + c) -> valid x (ptr_add q o) y).
  { intros x o y ? ? ? Hx. destruct q as [[bq oq]|]; [|done]. destruct Hx as (l & Hl & Hb).
    exists l. split; [done|]. lia. }
  erewrite M_bind_eq by (apply (reg_list_string_eq d i _ _ _ _ k); [lia|fold a; eapply valid_le;
    [apply put_reg_valid; exact Hv|lia]|by apply put_reg_valid_regs|done]).
  cbn [fst snd]. fold a.
  erewrite M_bind_eq by (apply (reg_list_string_eq d i _ _ _ _ k); [lia|fold b; apply Hsub; [lia..|];
    auto 6 with cswp|auto with cswp|done]).
  cbn [fst snd]. fold b. rewrite ptr_add_add.
  rewrite (reg_list_string_eq d i _ _ _ _ k) by (lia || done || (fold c; apply Hsub; [lia..|]; auto 9 with cswp) || auto 9 with cswp).
  fold c. rewrite memory_read_to, ptr_add_add. replace (n - a - b - c) with (n - (a + b + c)) by lia.
  do 3 f_equal. apply put_register_eq. by rewrite register_text_length.
Qed.

Lemma reg_list_loop_eq d n k w p l i q bs m rest :
  Forall register_fits l -> len (concat (register_text <$> l)) <= n < 2 ^ 64 ->
  valid m q (len (concat (register_text <$> l))) ->
  valid_regs m (rl_registerInfo d) k -> 0 <= i -> i + len l <= k ->
  reading w p (bs ++ concat (register_bytes <$> l) ++ rest) ->
  reg_list_loop d (length l) i (q, n) CSWP_SUCCESS (read_to w p bs m) =
    Some (CSWP_SUCCESS, read_to w p (bs ++ concat (register_bytes <$> l))
      (put_registers (rl_registerInfo d) i q l m)).
Proof.
  intros Hf. revert i q n bs m. induction Hf as [|r l Hr Hf IH]; intros i q n bs m Hn Hv Hk Hi Hl Hrd;
    cbn [length reg_list_loop put_registers].
  - simpl. by rewrite app_nil_r.
  - rewrite !fmap_cons in *. cbn [concat length] in *. rewrite length_app, Nat2Z.inj_add in Hn, Hv.
    change (CSWP_SUCCESS =? CSWP_SUCCESS) with true. cbv iota. rewrite <- (app_assoc _ _ rest) in Hrd.
    assert (Hv1 : valid m q (len (register_text r))) by (eapply valid_le; [exact Hv|lia]).
    erewrite M_bind_eq by (eapply (reg_list_body_eq d i r q n k); [done|lia|done|done|lia|exact Hrd]).
    cbn [fst snd]. rewrite app_assoc in Hrd. rewrite IH; rewrite <- ?app_assoc; try done; try lia.
    + apply put_reg_valid, put_mem_valid. destruct q as [[bq oq]|]; [|done].
      destruct Hv as (x & Hx & Hb). exists x. split; [done|]. lia.
    + auto with cswp.
    + by rewrite <- app_assoc in Hrd.
Qed.

Lemma reg_list_complete_ok d w p l rest :
  Forall register_fits l -> len l <= rl_registerInfoSize d -> len l < 2 ^ 32 ->
  len (concat (register_text <$> l)) <= rl_strBufSize d < 2 ^ 64 ->
  valid (memory w) (rl_registerCount d) 1 -> valid_regs (memory w) (rl_registerInfo d) (len l) ->
  valid (memory w) (rl_strBuf d) (len (concat (register_text <$> l))) ->
  reading w p ((varint_enc (len l) ++ concat (register_bytes <$> l)) ++ rest) ->
  cswp_device_reg_list_complete d w = Some (CSWP_SUCCESS,
    read_to w p (varint_enc (len l) ++ concat (register_bytes <$> l))
      (put_registers (rl_registerInfo d) 0 (rl_strBuf d) l (put_mem (rl_registerCount d) [len l] (memory w)))).
Proof.
  intros Hf Hs Hn Ht V1 V2 V3 Hr. unfold cswp_device_reg_list_complete. rewrite <- app_assoc in Hr.
  erewrite M_bind_eq by (eapply on_rsp_reads; [|exact Hr]; apply reads_get_varint; unfold is_u64; lia).
  cbv beta iota. rewrite u32_small, Nat2Z.id by lia.
  erewrite M_bind_eq by (by apply on_memory_read_to). rewrite (proj2 (Z.ltb_ge _ _) Hs).
  apply (reg_list_loop_eq d _ (len l) w p l 0 _ _ _ rest); auto with cswp; lia.
Qed.

Lemma unlock_complete_ok d w p data rest :
  nu_num_token_req_bytes d = 42 -> length data = 42%nat ->
  valid (memory w) (nu_token_req d) 42 ->
  reading w p (data ++ rest) ->
  cswp_nvsec_unlock_complete d w = Some (CSWP_SUCCESS,
    read_to w p data (put_mem (nu_token_req d) data (memory w))).
Proof.
  intros Hn Hl V Hr. unfold cswp_nvsec_unlock_complete. rewrite Hn. cbv iota.
  change (negb (42 =? CSWP_NVSEC_NUM_TOKEN_REQ_BYTES)) with false. cbv iota.
  destruct (direct_copy w p data rest (nu_token_req d) 42 Hr V ltac:(lia)) as [Hd Hc].
  rewrite Hl in Hd. erewrite M_bind_eq by exact Hd. cbv beta iota.
  rewrite take_ge in Hc by (rewrite Hl; done).
  by erewrite M_bind_eq by exact Hc.
Qed.

(** A successful response is processed as specified. *)
Lemma run_complete_ok c w p body m' rest :
  complete_ok (Some c) (memory w) body m' -> reading w p (body ++ rest) ->
  run_complete c w = Some (CSWP_SUCCESS, read_to w p body m').
Proof.
  intros Hc Hr. inversion Hc; subst; simpl run_complete.
  - by eapply init_complete_ok.
  - by eapply get_devices_complete_ok.
  - eapply decode_only_eq; [|exact Hr]. by apply dreads_optional_string.
  - by eapply capabilities_complete_ok.
  - by eapply reg_list_complete_ok.
  - by eapply reg_read_complete_ok.
  - by eapply mem_read_complete_ok.
  - by eapply mem_poll_complete_ok.
  - by eapply unlock_complete_ok.
  - eapply decode_only_eq; [|exact Hr]. by apply dreads_string.
  - eapply decode_only_eq; [|exact Hr]. by apply dreads_string.
Qed.
End run.
