(* ===== verification/ClientReceive.v ===== *)
(** Receiving: what the client does with a response message: every response of
    a well-formed one is processed as [complete_ok] says ([answers]), an error
    stops it, and a message that is not what was expected is refused. *)
From S2P Require Import Prelude Wire CswpTypes CswpBuffer Memory ClientCommands ClientState ClientComplete ClientTransact ClientBatch ClientReading.

(** ** One response *)

Section verify.
Context {T : Type} `{Transport T}.
Implicit Types (w : world T) (p : cswp_client_priv_t).

Lemma read_header w p t c body rest :
  is_u64 c -> reading w p ((varint_enc (cmd_id t) ++ varint_enc c ++ body) ++ rest) ->
  on_rsp cswp_decode_response_header w =
    Some (Val (cmd_id t, c), read_to w p (varint_enc (cmd_id t) ++ varint_enc c) (memory w)).
Proof.
  intros Hc Hr. eapply on_rsp_reads; [by apply reads_response_header|].
  rewrite <- !app_assoc in *. exact Hr.
Qed.

Lemma verify_ok w p pr body m' rest :
  complete_ok (pr_complete pr) (memory w) body m' ->
  reading w p (response_bytes (pr_type pr) (ROk body) ++ rest) ->
  cswp_client_verify_response pr w =
    Some (CSWP_SUCCESS, read_to w p (response_bytes (pr_type pr) (ROk body)) m').
Proof.
  intros Hc Hr. unfold cswp_client_verify_response, response_bytes in *.
  erewrite M_bind_eq by (eapply read_header; [|exact Hr]; unfold is_u64; lia).
  cbv beta iota. rewrite Z.eqb_refl. change (0 =? CSWP_SUCCESS) with true. cbn [negb].
  cbv iota. rewrite M_bind_ret.
  rewrite app_assoc, <- (app_assoc _ body) in Hr.
  pose proof (reading_next w p _ (body ++ rest) (memory w) Hr) as Hr'.
  change (CSWP_SUCCESS =? CSWP_SUCCESS) with true. cbv iota. rewrite app_assoc.
  destruct (pr_complete pr) as [c|].
  - erewrite run_complete_ok by (exact Hc || exact Hr'). by rewrite read_to_next.
  - inversion Hc; subst. by rewrite app_nil_r.
Qed.

(** An error response: its code is the result, its message is kept. *)
Lemma verify_err w p pr c msg rest e :
  0 < c < 2 ^ 31 -> len msg < CSWP_ERR_MSG_SIZE -> errorMsg w = Some e ->
  reading w p (response_bytes (pr_type pr) (RErr c msg) ++ rest) ->
  cswp_client_verify_response pr w =
    Some (c, set_error (Some (c_str msg)) c
               (read_to w p (response_bytes (pr_type pr) (RErr c msg)) (memory w))).
Proof.
  intros Hc Hm He Hr. unfold cswp_client_verify_response, response_bytes in *.
  erewrite M_bind_eq by (eapply read_header; [|exact Hr]; unfold is_u64; lia).
  cbv beta iota. rewrite Z.eqb_refl. cbn [negb].
  destruct (Z.eqb_spec c CSWP_SUCCESS) as [->|Hne]; [unfold CSWP_SUCCESS in Hc; lia|].
  cbn [negb]. rewrite app_assoc, <- (app_assoc _ (string_enc msg)) in Hr.
  pose proof (reading_next w p _ (string_enc msg ++ rest) (memory w) Hr) as Hr'.
  set (w1 := read_to w p _ (memory w)) in *. set (p1 := adv p _) in *.
  assert (Hse : server_error c w1 =
    Some (c, set_error (Some (c_str msg)) c (read_to w1 p1 (string_enc msg) (memory w)))).
  { unfold server_error.
    assert (Hi : int32 c = c) by (apply int32_small; lia). rewrite Hi.
    erewrite M_bind_eq by reflexivity. erewrite M_bind_eq by reflexivity.
    assert (Hr'' : reading (set_error (errorMsg w1) c w1) p1 (string_enc msg ++ rest))
      by exact Hr'.
    erewrite M_bind_eq by (eapply on_rsp_reads; [|exact Hr''];
      apply reads_get_string; [done|unfold CSWP_ERR_MSG_SIZE; lia]).
    change (errorMsg w1) with (errorMsg w). rewrite He. done. }
  rewrite (M_bind_eq _ _ _ _ _ Hse).
  destruct (Z.eqb_spec c CSWP_SUCCESS); [done|].
  unfold w1, p1. rewrite read_to_next, <- app_assoc. done.
Qed.
End verify.

(** ** The loop over the pending responses *)

(** The update of the counter of completed operations, when the caller asked
    for it. *)
Definition tick (ops : ptr) (k : Z) (m : mem) : mem :=
  if decide (ops = None) then m else put_mem ops [k] m.

Definition counts (ops : ptr) (k : Z) (m : mem) : Prop :=
  ops = None \/ points m ops [k].

(** [answers ops k l bs m m']: the bytes [bs] answer the pending responses [l]
    successfully, in order; processing them changes the memory from [m], where
    [k] operations were counted, to [m']. *)
Inductive answers (ops : ptr) :
    Z -> list pending_response_t -> list Z -> mem -> mem -> Prop :=
  | answers_nil k m : answers ops k [] [] m m
  | answers_cons k pr l body bs m m1 m' :
      complete_ok (pr_complete pr) m body m1 -> counts ops k m1 ->
      answers ops (u32 (k + 1)) l bs (tick ops (u32 (k + 1)) m1) m' ->
      answers ops k (pr :: l) (response_bytes (pr_type pr) (ROk body) ++ bs) m m'.

Lemma points_put_mem_same m p vs ws :
  points m p vs -> length ws = length vs -> points (put_mem p ws m) p ws.
Proof.
  intros Hp Hl. apply put_mem_points. replace (len ws) with (len vs) by lia.
  by apply points_valid.
Qed.

Lemma counts_tick ops k k' m : counts ops k m -> counts ops k' (tick ops k' m).
Proof.
  unfold counts, tick. intros [->|Hp]; [by left|]. right.
  rewrite decide_False by (by intros ->). by eapply points_put_mem_same.
Qed.

(** The counter at the end. *)
Lemma answers_count ops k l bs m m' :
  answers ops k l bs m m' -> counts ops k m -> 0 <= k -> k + len l < 2 ^ 32 ->
  counts ops (k + len l) m'.
Proof.
  induction 1 as [k m|k pr l body bs m m1 m' Hc Hk Ha IH]; intros Hm Hk0 Hl.
  - by rewrite Z.add_0_r.
  - rewrite length_cons in *. rewrite u32_small in * by lia.
    replace (k + Z.of_nat (S (length l))) with (k + 1 + len l) by lia.
    apply IH; [by eapply counts_tick|lia|lia].
Qed.

Section process.
Context {T : Type} `{Transport T}.
Implicit Types (w : world T) (p : cswp_client_priv_t).

Lemma tick_eq w p bs ops k m :
  counts ops k m ->
  ((if decide (ops <> None /\ CSWP_SUCCESS = CSWP_SUCCESS) then
      n ← on_memory (load1 ops); on_memory (store ops [u32 (n + 1)])
    else mret tt) : ClientM T unit) (read_to w p bs m) =
    Some (tt, read_to w p bs (tick ops (u32 (k + 1)) m)).
Proof.
  intros [->|Hp].
  - rewrite decide_False by (by intros []). done.
  - assert (ops <> None) by (by intros ->). rewrite decide_True by done.
    unfold tick. rewrite decide_False by done.
    erewrite M_bind_eq with (a := k) (s' := read_to w p bs m).
    + apply on_memory_read_to. by apply (points_valid m ops [k]).
    + unfold on_memory, load1. rewrite memory_read_to.
      rewrite (E_bind_val _ _ _ _ _ (load_points m ops [k] Hp)). done.
Qed.

(** The answered responses are processed; the loop goes on with the rest. *)
Lemma process_answers ops k l bs m m' :
  answers ops k l bs m m' -> forall l2 w p bs0 rest,
  reading w p (bs0 ++ bs ++ rest) ->
  process_responses ops (l ++ l2) CSWP_SUCCESS (read_to w p bs0 m) =
    process_responses ops l2 CSWP_SUCCESS (read_to w p (bs0 ++ bs) m').
Proof.
  induction 1 as [k m|k pr l body bs m m1 m' Hc Hk Ha IH]; intros l2 w p bs0 rest Hr.
  - by rewrite app_nil_r.
  - cbn [app process_responses]. change (CSWP_SUCCESS =? CSWP_SUCCESS) with true. cbv iota.
    rewrite <- (app_assoc _ bs) in Hr.
    pose proof (reading_next w p _ _ m Hr) as Hr'.
    erewrite M_bind_eq by (eapply verify_ok; [exact Hc|exact Hr']). cbv beta.
    rewrite read_to_next.
    erewrite M_bind_eq by (apply tick_eq; exact Hk).
    rewrite app_assoc. apply (IH l2 w p _ rest). by rewrite <- app_assoc.
Qed.

(** ** The whole message *)

(** The private data after [bs] was received. *)
Definition filled (p : cswp_client_priv_t) (bs : list Z) : cswp_client_priv_t :=
  set_rsp (mkBuf (size (rsp p)) (len bs) 0 (splice (buf (rsp p)) 0 bs)) p.

Definition received w p (bs : list Z) (t' : T) : world T :=
  set_priv (Some (filled p bs)) (set_transport t' w).

(** The response buffer has its size. *)
Definition rsp_ok (p : cswp_client_priv_t) : Prop :=
  size (rsp p) = CSWP_REQ_RSP_BUFFER_SIZE /\ len (buf (rsp p)) = CSWP_REQ_RSP_BUFFER_SIZE.

Lemma filled_reading w p bs t' :
  rsp_ok p -> len bs <= CSWP_REQ_RSP_BUFFER_SIZE ->
  reading (received w p bs t') (filled p bs) bs.
Proof.
  intros [Hs Hb] Hl.
  change CSWP_REQ_RSP_BUFFER_SIZE with 16384 in *.
  assert (length (splice (buf (rsp p)) 0 bs) = length (buf (rsp p)))
    by (apply length_splice; lia).
  split_and!; [done| |].
  - constructor; simpl; lia.
  - unfold unread, content. simpl. rewrite Nat2Z.id, drop_0.
    exact (take_splice (buf (rsp p)) 0 bs ltac:(lia)).
Qed.

Lemma call_receive_eq f w p bs t' res :
  priv w = Some p -> rsp_ok p -> len bs <= CSWP_REQ_RSP_BUFFER_SIZE ->
  f CSWP_REQ_RSP_BUFFER_SIZE (transport w) = (TRet res, Some bs, t') ->
  (call_receive f;; upd_priv (fun p => set_rsp (cswp_buffer_seek 0 (rsp p)) p)) w =
    Some (tt, received w p bs t') /\
  exists w', call_receive f w = Some (res, w') /\
    upd_priv (fun p => set_rsp (cswp_buffer_seek 0 (rsp p)) p) w' =
      Some (tt, received w p bs t').
Proof.
  intros Hp [Hs Hb] Hl Hf.
  assert (Hr : call_receive f w = Some (res,
    set_priv (Some (set_rsp (set_used (len bs) (set_buf (splice (buf (rsp p)) 0 bs) (rsp p))) p))
      (set_transport t' w))).
  { unfold call_receive. erewrite M_bind_eq by reflexivity.
    erewrite M_bind_eq by (by apply get_priv_eq). rewrite Hs, Hf.
    erewrite M_bind_eq by reflexivity. rewrite decide_True by lia.
    by erewrite M_bind_eq by (apply upd_priv_eq; exact Hp). }
  split; [|eexists; split; [exact Hr|]].
  - erewrite M_bind_eq by exact Hr. done.
  - done.
Qed.

Definition start (ops : ptr) (m : mem) : mem := tick ops 0 m.

(** The two checks of a received message, as [cswp_client_transact_receive] has
    them: its size, and the number of its responses. *)
Abbreviation check_size := (
     upd_priv (fun p => set_rsp (cswp_buffer_seek 0 (rsp p)) p);;
     r ← on_rsp cswp_buffer_get_uint32;
     p ← get_priv;
     match r with
     | Fail _ => ub
     | Val rspSize =>
         if used (rsp p) <? rspSize then
           cswp_client_error CSWP_RESPONSE_SIZE_ERR
             (bytes_of "Incomplete response received.  Received " ++
              fmt_d (used (rsp p)) ++ bytes_of " bytes, expected " ++ fmt_d rspSize)
         else mret CSWP_SUCCESS
     end : ClientM T Z).
Abbreviation check_count := (
     r ← on_rsp cswp_buffer_get_varint;
     p ← get_priv;
     match r with
     | Fail _ => ub
     | Val numRsps =>
         if negb (numRsps =? u64 (num_cmds p)) then
           cswp_client_error CSWP_RESPONSE_SIZE_ERR
             (bytes_of "Incomplete response received.  Received " ++
              fmt_d numRsps ++ bytes_of " responses, expected " ++ fmt_d (num_cmds p))
         else mret CSWP_SUCCESS
     end : ClientM T Z).

Lemma check_size_eq w0 p0 w1 l rest :
  upd_priv (fun p => set_rsp (cswp_buffer_seek 0 (rsp p)) p) w0 = Some (tt, w1) ->
  reading w1 p0 (le_bytes 4 l ++ rest) -> used (rsp p0) = l -> is_u32 l ->
  check_size w0 = Some (CSWP_SUCCESS, read_to w1 p0 (le_bytes 4 l) (memory w1)).
Proof.
  intros H0 Hr Hu Hl. erewrite M_bind_eq by exact H0.
  erewrite M_bind_eq by (eapply on_rsp_reads; [|exact Hr]; by apply reads_get_uint32).
  erewrite M_bind_eq by reflexivity. cbv beta iota.
  change (used (rsp (adv p0 _))) with (used (rsp p0)). by rewrite Hu, Z.ltb_irrefl.
Qed.

Lemma check_count_eq w1 p1 n rest :
  reading w1 p1 (varint_enc n ++ rest) -> num_cmds p1 = n -> is_u64 n ->
  check_count w1 = Some (CSWP_SUCCESS, read_to w1 p1 (varint_enc n) (memory w1)).
Proof.
  intros Hr Hn Hl. erewrite M_bind_eq by (eapply on_rsp_reads; [|exact Hr]; by apply reads_get_varint).
  erewrite M_bind_eq by reflexivity. cbv beta iota.
  change (num_cmds (adv p1 _)) with (num_cmds p1). by rewrite Hn, u64_small, Z.eqb_refl.
Qed.

Lemma store_count_eq ops w :
  ops = None \/ valid (memory w) ops 1 ->
  ((if decide (ops = None) then mret tt else on_memory (store ops [0])) : ClientM T unit) w =
    Some (tt, set_memory (start ops (memory w)) w).
Proof.
  intros Ho. unfold start, tick. destruct (decide (ops = None)) as [->|Hne]; [by destruct w|].
  destruct Ho as [->|Hv]; [done|]. rewrite decide_False by done. by apply on_memory_store.
Qed.

(** A complete response message of the expected number of responses. *)
Lemma receive_frame ops w p n body t' :
  priv w = Some p -> priv_ok p -> n = num_cmds p ->
  (ops = None \/ valid (memory w) ops 1) ->
  len (rframe n body) <= CSWP_REQ_RSP_BUFFER_SIZE ->
  t_receive CSWP_REQ_RSP_BUFFER_SIZE (transport w) =
    (TRet CSWP_SUCCESS, Some (rframe n body), t') ->
  let w0 := received w p (rframe n body) t' in
  let p0 := filled p (rframe n body) in
  let h := le_bytes 4 (len (rframe n body)) ++ varint_enc n in
  reading w0 p0 (h ++ body) /\
  cswp_client_transact_receive ops w =
    process_responses ops (pending_responses p) CSWP_SUCCESS
      (read_to w0 p0 h (start ops (memory w))).
Proof.
  intros Hp Hok Hn Ho Hl Ht w0 p0 h.
  assert (Hlen : len (rframe n body) = 4 + len (varint_enc n ++ body)).
  { unfold rframe. rewrite length_app, length_le_bytes. lia. }
  assert (Hbs : h ++ body = rframe n body).
  { unfold h, rframe. by rewrite <- app_assoc, <- Hlen. }
  assert (Hr : reading w0 p0 (h ++ body)) by (rewrite Hbs; by apply filled_reading; [apply pok_rsp|]).
  split; [done|].
  unfold cswp_client_transact_receive. rewrite (M_bind_eq _ _ _ _ _ (store_count_eq ops w Ho)).
  destruct (call_receive_eq t_receive (set_memory (start ops (memory w)) w) p (rframe n body) t' CSWP_SUCCESS)
    as (_ & w' & Hc1 & Hc2); try done; [by apply pok_rsp|].
  erewrite M_bind_eq by exact Hc1. change (CSWP_SUCCESS =? CSWP_SUCCESS) with true. cbv iota.
  set (w1 := received (set_memory (start ops (memory w)) w) p (rframe n body) t') in *.
  assert (Hr1 : reading w1 p0 (le_bytes 4 (len (rframe n body)) ++ varint_enc n ++ body)).
  { unfold h in Hr. rewrite <- app_assoc in Hr. exact Hr. }
  change CSWP_REQ_RSP_BUFFER_SIZE with 16384 in Hl.
  rewrite (M_bind_eq _ _ _ _ _ (check_size_eq w' p0 w1 (len (rframe n body)) _ Hc2 Hr1 eq_refl ltac:(unfold is_u32; lia))).
  change (CSWP_SUCCESS =? CSWP_SUCCESS) with true. cbv iota.
  pose proof (reading_next w1 p0 _ _ (memory w1) Hr1) as Hr2. pose proof (pok_num _ Hok) as Hnc.
  rewrite (M_bind_eq _ _ _ _ _ (check_count_eq _ _ n _ Hr2 (eq_sym Hn) ltac:(unfold is_u64; lia))).
  change (CSWP_SUCCESS =? CSWP_SUCCESS) with true. cbv iota.
  rewrite read_to_next. by erewrite M_bind_eq by reflexivity.
Qed.
End process.

Lemma start_counts ops m : ops = None \/ valid m ops 1 -> counts ops 0 (start ops m).
Proof.
  unfold start, counts, tick. intros [->|Hv]; [by left|right].
  rewrite decide_False by (by eapply valid_not_null). by apply put_mem_points.
Qed.

(** A message that answers all the pending responses. *)
Lemma receive_answers {T} `{Transport T} ops (w : world T) p body t' m' :
  priv w = Some p -> priv_ok p -> num_cmds p = len (pending_responses p) ->
  (ops = None \/ valid (memory w) ops 1) ->
  answers ops 0 (pending_responses p) body (start ops (memory w)) m' ->
  len (rframe (num_cmds p) body) <= CSWP_REQ_RSP_BUFFER_SIZE ->
  t_receive CSWP_REQ_RSP_BUFFER_SIZE (transport w) =
    (TRet CSWP_SUCCESS, Some (rframe (num_cmds p) body), t') ->
  cswp_client_transact_receive ops w =
    Some (CSWP_SUCCESS,
      read_to (received w p (rframe (num_cmds p) body) t')
        (filled p (rframe (num_cmds p) body)) (rframe (num_cmds p) body) m').
Proof.
  intros Hp Hok Hn Ho Ha Hl Ht.
  destruct (receive_frame ops w p (num_cmds p) body t') as [Hr Heq]; try done.
  rewrite Heq. rewrite <- (app_nil_r (pending_responses p)).
  rewrite (process_answers _ _ _ _ _ _ Ha [] _ _ _ []) by (by rewrite app_nil_r).
  unfold process_responses, mret, M_ret. do 3 f_equal.
Qed.

Lemma filled_ok p bs n :
  priv_ok p -> len bs <= CSWP_REQ_RSP_BUFFER_SIZE -> priv_ok (adv (filled p bs) n).
Proof.
  intros [? ? ? ? [Hs Hb] ?] Hl. change CSWP_REQ_RSP_BUFFER_SIZE with 16384 in *.
  constructor; simpl; try done. split; [done|]. rewrite length_splice by lia. done.
Qed.

(** Sending a message and processing the answer to it. *)
Lemma exchange_stored {T} `{Transport T} ops (w : world T) p l mode resp t1 t2 m' :
  priv w = Some p -> priv_ok p -> num_cmds p = len l -> pending_responses p = nodes l ->
  t_send (frame (len l) mode (total l)) (transport w) = (TRet CSWP_SUCCESS, t1) ->
  t_receive CSWP_REQ_RSP_BUFFER_SIZE t1 = (TRet CSWP_SUCCESS, Some (rframe (len l) resp), t2) ->
  len (rframe (len l) resp) <= CSWP_REQ_RSP_BUFFER_SIZE ->
  (ops = None \/ valid (memory w) ops 1) ->
  answers ops 0 (nodes l) resp (start ops (memory w)) m' ->
  exists w' p', (call_send (frame (len l) mode (total l)) ≫= after_send ops) w =
      Some (CSWP_SUCCESS, w') /\
    priv w' = Some p' /\ priv_ok p' /\ batch_mode p' = batch_mode p /\
    memory w' = m' /\ transport w' = t2.
Proof.
  intros Hp Hok Hn Hpd H1 H2 Hrl Hops Ha.
  assert (Hsend : call_send (frame (len l) mode (total l)) w =
    Some (CSWP_SUCCESS, set_transport t1 w)).
  { unfold call_send. erewrite M_bind_eq by reflexivity. by rewrite H1. }
  rewrite (M_bind_eq _ _ _ _ _ Hsend). unfold after_send.
  change (CSWP_SUCCESS =? CSWP_SUCCESS) with true. cbv iota.
  rewrite <- Hn in Hrl, H2.
  assert (Hrecv := receive_answers ops (set_transport t1 w) p resp t2 m' Hp Hok).
  rewrite Hpd in Hrecv. specialize (Hrecv ltac:(rewrite Hn; unfold nodes; by rewrite length_fmap)
    Hops Ha Hrl H2).
  rewrite (M_bind_eq _ _ _ _ _ Hrecv). erewrite M_bind_eq by (by apply upd_priv_eq).
  eexists _, _. split; [reflexivity|]. split; [reflexivity|].
  split; [apply set_pending_ok, filled_ok; done|]. done.
Qed.

(** ** Properties *)

Definition ex_reg_read : pending_response_t :=
  {| pr_type := CSWP_REG_READ;
     pr_complete := Some (Creg_read {| rr_registerValues := Some (0%nat, 0);
                                       rr_registerValuesSize := 4 |}) |}.
Definition ex_close : pending_response_t :=
  {| pr_type := CSWP_DEVICE_CLOSE; pr_complete := None |}.
Definition ex_mem : mem := {[0%nat := Ints [0; 0; 0; 0]; 1%nat := Ints [9]]}.
Definition ex_pending : cswp_client_priv_t :=
  set_num_cmds 2 (set_pending [ex_reg_read; ex_close] fresh_priv).

Lemma ex_pending_ok : priv_ok ex_pending.
Proof. destruct fresh_priv_ok. by constructor. Qed.

Lemma ex_reg_read_ok vals :
  length vals = 2%nat -> Forall is_u32 vals ->
  complete_ok (pr_complete ex_reg_read) (start (Some (1%nat, 0)) ex_mem)
    (varint_enc (len vals) ++ concat (le_bytes 4 <$> vals))
    (put_mem (Some (0%nat, 0)) vals (start (Some (1%nat, 0)) ex_mem)).
Proof.
  intros Hl Hv. pose proof (ok_reg_read {| rr_registerValues := Some (0%nat, 0);
    rr_registerValuesSize := 4 |} (start (Some (1%nat, 0)) ex_mem) vals Hv) as Hok.
  rewrite Hl in *. apply Hok; [simpl; lia|simpl; lia|].
  exists [0; 0; 0; 0]. split; [reflexivity|simpl; lia].
Qed.

(** C1: when the transport delivers one complete message that answers all the
    pending responses successfully, whichever completions they have, the
    transaction succeeds: every response is processed in the order of the
    requests, its results are stored in the caller's memory as [complete_ok]
    says for its completion, and the counter of completed operations (when asked
    for) is the number of requests.  An answer is one that fits the variables of
    its caller; capabilities that name no registers are none. *)
Theorem receive_all_answered {T} `{Transport T} ops (w : world T) p body t' m' :
  priv w = Some p -> priv_ok p -> num_cmds p = len (pending_responses p) ->
  (ops = None \/ valid (memory w) ops 1) ->
  answers ops 0 (pending_responses p) body (start ops (memory w)) m' ->
  len (rframe (num_cmds p) body) <= CSWP_REQ_RSP_BUFFER_SIZE ->
  t_receive CSWP_REQ_RSP_BUFFER_SIZE (transport w) =
    (TRet CSWP_SUCCESS, Some (rframe (num_cmds p) body), t') ->
  counts ops (num_cmds p) m' /\
  cswp_client_transact_receive ops w =
    Some (CSWP_SUCCESS,
      read_to (received w p (rframe (num_cmds p) body) t')
        (filled p (rframe (num_cmds p) body)) (rframe (num_cmds p) body) m').
Proof.
  intros Hp Hok Hn Ho Ha Hl Ht. split.
  - rewrite Hn. destruct Hok as [_ _ _ _ _ ?].
    by apply (answers_count _ _ _ _ _ _ Ha); [apply start_counts|lia..].
  - by apply receive_answers.
Qed.

Lemma receive_all_answered_witness :
  let bs := [129; 4; 0; 2; 7; 0; 0; 0; 8; 0; 0; 0; 129; 2; 0] in
  let w := ex_world ex_pending ex_mem (mkScript [] [rframe 2 bs]) in
  let m := put_mem (Some (1%nat, 0)) [2] (put_mem (Some (1%nat, 0)) [1]
             (put_mem (Some (0%nat, 0)) [7; 8] (put_mem (Some (1%nat, 0)) [0] ex_mem))) in
  counts (Some (1%nat, 0)) 2 m /\
  cswp_client_transact_receive (Some (1%nat, 0)) w =
    Some (CSWP_SUCCESS, read_to (received w ex_pending (rframe 2 bs) (mkScript [] []))
                          (filled ex_pending (rframe 2 bs)) (rframe 2 bs) m).
Proof.
  intros bs w m.
  apply (receive_all_answered (Some (1%nat, 0)) w ex_pending bs (mkScript [] []) m).
  - reflexivity.
  - exact ex_pending_ok.
  - reflexivity.
  - right. exists [9]. split; [reflexivity|simpl; lia].
  - refine (answers_cons (Some (1%nat, 0)) 0 ex_reg_read [ex_close]
      (varint_enc 2 ++ concat (le_bytes 4 <$> [7; 8])) [129; 2; 0]
      (start (Some (1%nat, 0)) ex_mem)
      (put_mem (Some (0%nat, 0)) [7; 8] (start (Some (1%nat, 0)) ex_mem)) m _ _ _).
    + apply (ex_reg_read_ok [7; 8]); [done|]. repeat constructor; lia.
    + right. exists [0]. split; [reflexivity|simpl; split_and!; done || lia].
    + refine (answers_cons (Some (1%nat, 0)) 1 ex_close [] [] []
        (put_mem (Some (1%nat, 0)) [1]
             (put_mem (Some (0%nat, 0)) [7; 8] (put_mem (Some (1%nat, 0)) [0] ex_mem)))
        (put_mem (Some (1%nat, 0)) [1]
             (put_mem (Some (0%nat, 0)) [7; 8] (put_mem (Some (1%nat, 0)) [0] ex_mem))) m _ _ _).
      * apply ok_none.
      * right. exists [1]. split; [reflexivity|simpl; split_and!; done || lia].
      * apply answers_nil.
  - vm_compute. discriminate.
  - reflexivity.
Defined.

(** C13: an error response stops the processing of a message: the earlier
    responses took effect and are counted, the error code and message of the
    server become the client's, and no later completion runs, whatever follows
    in the message and in both error modes. *)
Theorem receive_stops_at_error {T} `{Transport T} ops (w : world T) p l1 pr l2 bs c msg rest t' m' e :
  priv w = Some p -> priv_ok p -> pending_responses p = l1 ++ pr :: l2 ->
  (ops = None \/ valid (memory w) ops 1) -> errorMsg w = Some e ->
  answers ops 0 l1 bs (start ops (memory w)) m' ->
  0 < c < 2 ^ 31 -> len msg < CSWP_ERR_MSG_SIZE -> len l1 < 2 ^ 32 ->
  let body := bs ++ response_bytes (pr_type pr) (RErr c msg) ++ rest in
  len (rframe (num_cmds p) body) <= CSWP_REQ_RSP_BUFFER_SIZE ->
  t_receive CSWP_REQ_RSP_BUFFER_SIZE (transport w) =
    (TRet CSWP_SUCCESS, Some (rframe (num_cmds p) body), t') ->
  exists w', cswp_client_transact_receive ops w = Some (c, w') /\
    errorCode w' = c /\ errorMsg w' = Some (c_str msg) /\ memory w' = m' /\
    counts ops (len l1) m'.
Proof.
  intros Hp Hok Hpd Ho He Ha Hc Hm Hl1 body Hl Ht.
  destruct (receive_frame ops w p (num_cmds p) body t') as [Hr Heq]; try done.
  set (w0 := received w p (rframe (num_cmds p) body) t') in *.
  set (p0 := filled p (rframe (num_cmds p) body)) in *.
  set (h := le_bytes 4 (len (rframe (num_cmds p) body)) ++ varint_enc (num_cmds p)) in *.
  rewrite Hpd in Heq.
  rewrite (process_answers _ _ _ _ _ _ Ha (pr :: l2) w0 p0 h
             (response_bytes (pr_type pr) (RErr c msg) ++ rest) Hr) in Heq.
  unfold body in Hr. rewrite app_assoc in Hr.
  pose proof (reading_next w0 p0 _ _ m' Hr) as Hr'.
  cbn [process_responses] in Heq. change (CSWP_SUCCESS =? CSWP_SUCCESS) with true in Heq.
  cbv iota in Heq.
  erewrite M_bind_eq in Heq by (eapply verify_err; [exact Hc|exact Hm|exact He|exact Hr']).
  cbv beta in Heq.
  rewrite decide_False in Heq by (unfold CSWP_SUCCESS; intros [_ ->]; lia).
  rewrite M_bind_ret in Heq.
  assert (Hend : process_responses ops l2 c = (mret c : ClientM T Z)).
  { destruct l2; [done|]. simpl. destruct (Z.eqb_spec c CSWP_SUCCESS); [|done].
    unfold CSWP_SUCCESS in *. lia. }
  rewrite Hend in Heq. eexists. split; [exact Heq|]. split_and!; try done.
  by apply (answers_count _ _ _ _ _ _ Ha); [apply start_counts|lia..].
Qed.

Lemma receive_stops_at_error_witness :
  let body := [129; 4; 128; 4; 3; 98; 97; 100; 129; 2; 0] in
  let w := ex_world ex_pending ex_mem (mkScript [] [rframe 2 body]) in
  exists w', cswp_client_transact_receive None w = Some (CSWP_REG_FAILED, w') /\
    errorCode w' = CSWP_REG_FAILED /\ errorMsg w' = Some (bytes_of "bad") /\
    memory w' = ex_mem /\ counts None 0 ex_mem.
Proof.
  intros body w.
  apply (receive_stops_at_error None w ex_pending [] ex_reg_read [ex_close] [] CSWP_REG_FAILED
    (bytes_of "bad") [129; 2; 0] (mkScript [] []) ex_mem []).
  - reflexivity.
  - exact ex_pending_ok.
  - reflexivity.
  - left. reflexivity.
  - reflexivity.
  - apply answers_nil.
  - unfold CSWP_REG_FAILED. lia.
  - reflexivity.
  - reflexivity.
  - vm_compute. discriminate.
  - reflexivity.
Defined.

(** [w] with the response read up to [n]. *)
Definition read_up_to {T} (w : world T) (p : cswp_client_priv_t) (n : Z) : world T :=
  set_priv (Some (set_rsp (set_pos n (rsp p)) p)) w.

Lemma mem_read_data {T} d (w : world T) p v data rest :
  0 <= mr_maxBytes d -> valid (memory w) (mr_buf d) (mr_maxBytes d) ->
  valid (memory w) (mr_bytesRead d) 1 ->
  reading w p ((v ++ data) ++ rest) ->
  cswp_buffer_get_varint (rsp p) = Some (Val (len data), set_pos (pos (rsp p) + len v) (rsp p)) ->
  let k := Z.min (len data) (mr_maxBytes d) in
  cswp_device_mem_read_complete d w =
    Some (if mr_maxBytes d <? len data then CSWP_OUTPUT_BUFFER_OVERFLOW else CSWP_SUCCESS,
          read_to w p (v ++ data) (put_mem (mr_bytesRead d) [k]
              (put_mem (mr_buf d) (take (Z.to_nat k) data) (memory w)))).
Proof.
  intros Hmax V1 V2 Hr Hv k.
  unfold cswp_device_mem_read_complete, cswp_decode_mem_read_response_body. rewrite <- app_assoc in Hr.
  pose proof (reading_next w p _ _ (memory w) Hr) as Hr'. destruct Hr as (Hp & _).
  erewrite M_bind_eq by (by apply (on_rsp_eq _ w p)).
  replace (set_priv (Some (set_rsp (set_pos (pos (rsp p) + len v) (rsp p)) p)) w)
    with (read_to w p v (memory w)) by (by destruct w).
  assert (Vk : valid (memory w) (mr_buf d) k) by (eapply valid_le; [exact V1|lia]).
  destruct (direct_copy _ _ data rest (mr_buf d) k Hr' Vk ltac:(lia)) as [Hd Hc].
  erewrite M_bind_eq by exact Hd. cbv beta iota. rewrite memory_read_to in Hc.
  assert (Hfin : forall res : Z,
    ((copy_from_rsp (mr_buf d) (pos (rsp (adv p (len v)))) k;;
      on_memory (store (mr_bytesRead d) [k]);; mret res) : ClientM T Z)
      (read_to (read_to w p v (memory w)) (adv p (len v)) data (memory w)) =
    Some (res, read_to w p (v ++ data) (put_mem (mr_bytesRead d) [k]
              (put_mem (mr_buf d) (take (Z.to_nat k) data) (memory w))))).
  { intros res. erewrite M_bind_eq by exact Hc.
    erewrite M_bind_eq by (apply on_memory_read_to; by apply put_mem_valid).
    by rewrite read_to_next. }
  rewrite memory_read_to. unfold k in *. destruct (Z.ltb_spec (mr_maxBytes d) (len data)).
  - rewrite Z.min_r in * by lia. apply Hfin.
  - rewrite Z.min_l in * by lia. apply Hfin.
Qed.

(** C14: the completion of a memory read on whatever bytes are left of the
    response.  A length that does not end, or more bytes announced than the
    response has, is [CSWP_BUFFER_EMPTY] and leaves the caller's memory alone;
    a length of more than ten bytes is undefined behaviour (the shift of
    [cswp_buffer_get_varint]); otherwise the first bytes are stored, never more
    than the size the caller asked for, their number is reported, and an excess
    is [CSWP_OUTPUT_BUFFER_OVERFLOW].  Nothing else of the memory changes. *)
Theorem mem_read_bounded {T} d (w : world T) p :
  priv w = Some p -> buf_ok (rsp p) -> bytes_ok (unread (rsp p)) ->
  0 <= mr_maxBytes d -> valid (memory w) (mr_buf d) (mr_maxBytes d) ->
  valid (memory w) (mr_bytesRead d) 1 ->
  cswp_device_mem_read_complete d w =
    match scan_varint 10 (unread (rsp p)) with
    | ScanOverlong => None
    | ScanEmpty => Some (CSWP_BUFFER_EMPTY, read_up_to w p (used (rsp p)))
    | ScanVal v =>
        let n := u64 (varint_val v) in
        let body := drop (length v) (unread (rsp p)) in
        let k := Z.min n (mr_maxBytes d) in
        if len body <? n then Some (CSWP_BUFFER_EMPTY, read_up_to w p (pos (rsp p) + len v))
        else Some (if mr_maxBytes d <? n then CSWP_OUTPUT_BUFFER_OVERFLOW else CSWP_SUCCESS,
                   set_memory (put_mem (mr_bytesRead d) [k]
                                 (put_mem (mr_buf d) (take (Z.to_nat k) body) (memory w)))
                     (read_up_to w p (pos (rsp p) + len v + n)))
    end /\
  forall k body b, block_of (mr_buf d) <> Some b -> block_of (mr_bytesRead d) <> Some b ->
    put_mem (mr_bytesRead d) [k] (put_mem (mr_buf d) (take (Z.to_nat k) body) (memory w)) !! b =
    memory w !! b.
Proof.
  intros Hp Hok Hby Hmax V1 V2. split.
  2: { intros k body b ? ?. by rewrite !put_mem_frame by done. }
  pose proof (get_varint_eq (rsp p) Hok (scanned_ok_bytes 10 _ Hby)) as Hv.
  destruct (scan_varint 10 (unread (rsp p))) as [v| |] eqn:Hscan; cbv zeta.
  - destruct (scan_varint_val _ _ _ Hby Hscan) as (_ & _ & body & Hu).
    rewrite Hu, drop_app_length. set (n := u64 (varint_val v)) in *.
    assert (Hn : 0 <= n) by (apply u64_range).
    assert (Hr : reading w p (v ++ body)) by done.
    destruct (Z.ltb_spec (len body) n).
    + unfold cswp_device_mem_read_complete, cswp_decode_mem_read_response_body.
      erewrite M_bind_eq by (by apply (on_rsp_eq _ w p)). cbv beta iota.
      destruct (reading_next w p v body (memory w) Hr) as (_ & Hok' & Hu').
      erewrite M_bind_eq.
      2: { eapply (on_rsp_eq _ _ (adv p (len v))); [done|]. unfold cswp_buffer_get_direct.
           unfold mbind, E_bind. rewrite require_r_empty by (done || by rewrite Hu'). done. }
      done.
    + rewrite <- (take_drop (Z.to_nat n) body) in Hr, Hu. rewrite app_assoc in Hr.
      set (data := take (Z.to_nat n) body) in *.
      assert (Hlen : len data = n) by (unfold data; rewrite length_take; lia).
      rewrite (mem_read_data d w p v data (drop (Z.to_nat n) body) Hmax V1 V2 Hr) by (by rewrite Hlen).
      assert (Ht : take (Z.to_nat (n `min` mr_maxBytes d)) data = take (Z.to_nat (n `min` mr_maxBytes d)) body)
        by (unfold data; rewrite take_take; f_equal; lia).
      rewrite Hlen, Ht. unfold read_to, read_up_to, adv. by rewrite length_app, Nat2Z.inj_add, Hlen, Z.add_assoc.
  - unfold cswp_device_mem_read_complete, cswp_decode_mem_read_response_body.
    by erewrite M_bind_eq by (by apply (on_rsp_eq _ w p)).
  - unfold cswp_device_mem_read_complete, cswp_decode_mem_read_response_body, on_rsp.
    unfold mbind, M_bind. rewrite (get_priv_eq w p Hp). by rewrite Hv.
Qed.

(** A client that has received [bs] and is about to read it. *)
Definition ex_reading (bs : list Z) : cswp_client_priv_t := filled fresh_priv bs.

Lemma mem_read_bounded_witness :
  let d := {| mr_buf := Some (0%nat, 0); mr_maxBytes := 2; mr_bytesRead := Some (1%nat, 0) |} in
  let p := ex_reading [3; 10; 11; 12] in
  let m' := put_mem (Some (1%nat, 0)) [2] (put_mem (Some (0%nat, 0)) [10; 11] ex_mem) in
  cswp_device_mem_read_complete d (ex_world p ex_mem tt) =
    Some (CSWP_OUTPUT_BUFFER_OVERFLOW, set_memory m' (read_up_to (ex_world p ex_mem tt) p 4)) /\
  cswp_device_mem_read_complete d (ex_world (ex_reading [3; 10]) ex_mem tt) =
    Some (CSWP_BUFFER_EMPTY, read_up_to (ex_world (ex_reading [3; 10]) ex_mem tt) (ex_reading [3; 10]) 1).
Proof.
  intros d p m'. subst p.
  assert (V1 : valid ex_mem (mr_buf d) (mr_maxBytes d)).
  { exists [0; 0; 0; 0]. split; [reflexivity|simpl; lia]. }
  assert (V2 : valid ex_mem (mr_bytesRead d) 1) by (exists [9]; split; [reflexivity|simpl; lia]).
  assert (Hr : forall bs, len bs <= 16384 -> buf_ok (rsp (ex_reading bs)) /\ unread (rsp (ex_reading bs)) = bs).
  { intros bs Hl. pose proof (filled_reading (ex_world fresh_priv ex_mem tt) fresh_priv bs tt
      (pok_rsp _ fresh_priv_ok) Hl) as (_ & H1 & H2). by split. }
  destruct (Hr [3; 10; 11; 12] ltac:(simpl; lia)) as [H1 H2].
  destruct (Hr [3; 10] ltac:(simpl; lia)) as [H3 H4]. split.
  - destruct (mem_read_bounded d (ex_world (ex_reading [3; 10; 11; 12]) ex_mem tt) (ex_reading [3; 10; 11; 12]) eq_refl H1 ltac:(rewrite H2; repeat constructor; done)
      ltac:(simpl; lia) V1 V2) as [-> _]. rewrite H2. reflexivity.
  - destruct (mem_read_bounded d (ex_world (ex_reading [3; 10]) ex_mem tt) (ex_reading [3; 10]) eq_refl H3
      ltac:(rewrite H4; repeat constructor; done) ltac:(simpl; lia) V1 V2) as [-> _]. rewrite H4. reflexivity.
Defined.

(** A response of another type than the one expected is refused: the result
    is [CSWP_UNEXPECTED_RESPONSE], the message names the type received, and no
    completion runs (the caller's memory is unchanged). *)
Theorem verify_refuses_wrong_type {T} `{Transport T} (w : world T) p pr t c rest e :
  priv w = Some p -> errorMsg w = Some e -> is_u64 c -> t <> pr_type pr ->
  reading w p ((varint_enc (cmd_id t) ++ varint_enc c) ++ rest) ->
  exists w', cswp_client_verify_response pr w = Some (CSWP_UNEXPECTED_RESPONSE, w') /\
    memory w' = memory w /\ errorCode w' = CSWP_UNEXPECTED_RESPONSE /\
    errorMsg w' = Some (bytes_of "Unexpected response: 0x" ++ fmt_lX (cmd_id t)).
Proof.
  intros Hp He Hc Ht Hr. unfold cswp_client_verify_response.
  erewrite M_bind_eq by (eapply on_rsp_reads; [|exact Hr]; by apply reads_response_header).
  cbv beta iota. destruct (Z.eqb_spec (cmd_id t) (cmd_id (pr_type pr))) as [Heq|_].
  { by apply cmd_id_inj in Heq. }
  cbn [negb]. unfold cswp_client_error. change (errorMsg (read_to _ _ _ _)) with (errorMsg w).
  rewrite He. eexists. split; [reflexivity|]. split_and!; try done.
  cbn [errorMsg set_error]. destruct t; reflexivity.
Qed.

Lemma verify_refuses_wrong_type_witness :
  exists w', cswp_client_verify_response ex_reg_read
      (ex_world (ex_reading [129; 2; 0]) ex_mem (mkScript [] [])) =
      Some (CSWP_UNEXPECTED_RESPONSE, w') /\
    memory w' = ex_mem /\ errorCode w' = CSWP_UNEXPECTED_RESPONSE /\
    errorMsg w' = Some (bytes_of "Unexpected response: 0x101").
Proof.
  apply (verify_refuses_wrong_type (ex_world (ex_reading [129; 2; 0]) ex_mem (mkScript [] []))
    (ex_reading [129; 2; 0]) ex_reg_read CSWP_DEVICE_CLOSE 0 [] []).
  - reflexivity.
  - reflexivity.
  - unfold is_u64. lia.
  - discriminate.
  - pose proof (filled_reading (ex_world fresh_priv ex_mem tt) fresh_priv [129; 2; 0] tt
      (pok_rsp _ fresh_priv_ok) ltac:(vm_compute; discriminate)) as (_ & H1 & H2).
    split; [reflexivity|]. split; [exact H1|exact H2].
Defined.

(** The error code of a response is a 64-bit varint but is converted to
    [int]: a multiple of [2 ^ 32] other than zero is an error on the wire that
    the client takes for success, running the completion. *)
Lemma error_code_truncated {T} `{Transport T} (w : world T) p pr k msg rest e :
  0 < k < 2 ^ 32 -> len msg < CSWP_ERR_MSG_SIZE -> errorMsg w = Some e ->
  pr_complete pr = None ->
  reading w p (response_bytes (pr_type pr) (RErr (k * 2 ^ 32) msg) ++ rest) ->
  exists w', cswp_client_verify_response pr w = Some (CSWP_SUCCESS, w') /\ errorCode w' = 0.
Proof.
  intros Hk Hm He Hpr Hr. unfold cswp_client_verify_response, response_bytes in *.
  assert (Hu : is_u64 (k * 2 ^ 32)) by (unfold is_u64; lia).
  erewrite M_bind_eq by (eapply read_header; [exact Hu|exact Hr]).
  cbv beta iota. rewrite Z.eqb_refl. cbn [negb].
  destruct (Z.eqb_spec (k * 2 ^ 32) CSWP_SUCCESS) as [Heq|_]; [unfold CSWP_SUCCESS in Heq; lia|].
  cbn [negb]. rewrite app_assoc, <- (app_assoc _ (string_enc msg)) in Hr.
  pose proof (reading_next w p _ (string_enc msg ++ rest) (memory w) Hr) as Hr'.
  assert (Hi : int32 (k * 2 ^ 32) = 0).
  { unfold int32. rewrite Z.add_comm, Z.mod_add by lia. done. }
  unfold server_error. rewrite Hi, Hpr.
  set (w1 := read_to w p _ (memory w)) in *. set (p1 := adv p _) in *.
  assert (Hr'' : reading (set_error (errorMsg w1) 0 w1) p1 (string_enc msg ++ rest))
    by exact Hr'.
  assert (Hs := on_rsp_reads (cswp_decode_error_response_body CSWP_ERR_MSG_SIZE) _ msg _ _ _
    (reads_get_string msg CSWP_ERR_MSG_SIZE Hm ltac:(unfold CSWP_ERR_MSG_SIZE; lia)) Hr'').
  unfold mbind, M_bind, gets, modify.
  rewrite Hs. change (errorMsg w1) with (errorMsg w). rewrite He.
  eexists. split; reflexivity.
Qed.

Lemma error_code_truncated_witness :
  exists w', cswp_client_verify_response ex_close
      (ex_world (ex_reading (response_bytes CSWP_DEVICE_CLOSE (RErr (2 ^ 32) (bytes_of "no"))))
         ex_mem (mkScript [] [])) =
    Some (CSWP_SUCCESS, w') /\ errorCode w' = 0.
Proof.
  apply (error_code_truncated
    (ex_world (ex_reading (response_bytes CSWP_DEVICE_CLOSE (RErr (2 ^ 32) (bytes_of "no"))))
         ex_mem (mkScript [] []))
    (ex_reading (response_bytes CSWP_DEVICE_CLOSE (RErr (2 ^ 32) (bytes_of "no"))))
    ex_close 1 (bytes_of "no") [] []).
  - lia.
  - reflexivity.
  - reflexivity.
  - reflexivity.
  - pose proof (filled_reading (ex_world fresh_priv ex_mem tt) fresh_priv
      (response_bytes CSWP_DEVICE_CLOSE (RErr (2 ^ 32) (bytes_of "no"))) tt
      (pok_rsp _ fresh_priv_ok) ltac:(vm_compute; discriminate)) as (_ & H1 & H2).
    split; [reflexivity|]. split; [exact H1|exact H2].
Defined.
