(* ===== verification/ClientSession.v ===== *)
(** Sessions of several users of one client: [cswp_init] and [cswp_term] count
    how often the client was initialised, and only the first and the last of
    them talk to the server. *)
From S2P Require Import Prelude Wire CswpTypes CswpBuffer Memory ClientCommands ClientState ClientTransact ClientBatch ClientInvariant ClientReading ClientReceive.

(** ** Nested sessions *)

(** What a nested [cswp_init] stores: the data of the first one. *)
Definition cached_init (v sv : Z) (s : list Z) (q1 q2 : ptr) (n : Z) (q3 : ptr) (m : mem) : mem :=
  put_mem q3 [u32 sv]
    (put_mem (ptr_add q2 (n - 1)) [0]
      (put_mem q2 (take (Z.to_nat (n - 1)) s ++ replicate (Z.to_nat (n - 1) - length s) 0)
        (put_mem q1 [v] m))).

Lemma valid_ptr_add m q n k : valid m q n -> 0 <= k < n -> valid m (ptr_add q k) 1.
Proof.
  intros Hv Hk. destruct q as [[b o]|]; [|done]. destruct Hv as (l & Hl & Hb).
  exists l. split; [done|]. simpl. lia.
Qed.

Lemma init_again {T} `{Transport T} (w : world T) p clientID v q1 q2 n q3 s :
  priv w = Some p -> 0 < connected p < 2 ^ 31 - 1 -> cswp_init_serverID p = Some s ->
  0 < n < 2 ^ 64 -> valid (memory w) q1 1 -> valid (memory w) q2 n -> valid (memory w) q3 1 ->
  cswp_init clientID v q1 q2 n q3 w =
    Some (CSWP_SUCCESS,
      set_memory (cached_init (cswp_init_serverProtocolVersion p) (cswp_init_serverVersion p) s
                    q1 q2 n q3 (memory w))
        (set_priv (Some (set_connected (connected p + 1) p)) w)).
Proof.
  intros Hp Hc Hs Hn V1 V2 V3. unfold cswp_init. rewrite (M_bind_eq _ _ _ _ _ (get_priv_eq w p Hp)).
  destruct (Z.ltb_spec 0 (connected p)); [|lia]. rewrite !(u64_small (n - 1)) by lia.
  assert (Hlen : len (take (Z.to_nat (n - 1)) s ++ replicate (Z.to_nat (n - 1) - length s) 0) = n - 1).
  { rewrite length_app, length_take, length_replicate. lia. }
  erewrite M_bind_eq by (by apply on_memory_store). rewrite Hs. unfold strncpy.
  erewrite M_bind_eq by (apply on_memory_store; rewrite Hlen;
    apply put_mem_valid; apply (valid_le _ _ n); [done|lia]).
  erewrite M_bind_eq by (apply on_memory_store; apply put_mem_valid, put_mem_valid;
    apply (valid_ptr_add _ _ n); [done|lia]).
  erewrite M_bind_eq by (apply on_memory_store; by do 3 apply put_mem_valid).
  unfold int_incr. destruct (Z.ltb_spec (connected p) (2 ^ 31 - 1)); [|lia].
  rewrite M_bind_ret. erewrite M_bind_eq by (apply upd_priv_eq; exact Hp). done.
Qed.

Lemma term_again {T} `{Transport T} (w : world T) p :
  priv w = Some p -> 1 < connected p ->
  cswp_term w = Some (CSWP_SUCCESS, set_priv (Some (set_connected (connected p - 1) (prepped p))) w).
Proof.
  intros Hp Hc. unfold cswp_term. rewrite (M_bind_eq _ _ _ _ _ (prep_eq w p Hp)).
  erewrite M_bind_eq by (by apply get_priv_eq).
  assert (Hcp : connected (prepped p) = connected p) by (unfold prepped; by case_decide).
  rewrite Hcp. destruct (Z.eqb_spec (connected p) 0); [lia|].
  erewrite M_bind_eq by (by apply upd_priv_eq).
  destruct (Z.ltb_spec 0 (connected p - 1)); [done|lia].
Qed.

(** The number of users of the client, which a command leaves alone. *)
Definition used_by (n : Z) (p : cswp_client_priv_t) : Prop :=
  connected p = n /\ len (buf (rsp p)) = CSWP_REQ_RSP_BUFFER_SIZE.

#[export] Instance used_by_closed n : RspClosed (used_by n).
Proof. split; [intros p b [? ?] [? ?]; split; simpl; [done|congruence]|by intros p [_ ?]]. Qed.

Section term.
Context {T : Type} `{Transport T}.
Implicit Types (w : world T) (p : cswp_client_priv_t).

Lemma finish_used_by n res t c :
  leads (inv (used_by n)) (inv (used_by n)) (finish_command res t c : ClientM T _).
Proof.
  unfold finish_command. destruct res as [u|e]; [|apply leads_ret].
  eapply (leads_bind _ (inv (used_by n))).
  - unfold cswp_client_add_node_for_pending_rsp. apply leads_get. intros p _.
    eapply leads_bind; [by apply (leads_upd _ (used_by n))|intros _].
    eapply leads_bind; [unfold int_incr; destruct (_ <? _); [apply leads_ret|apply leads_ub]|intros k].
    by apply leads_upd.
  - intros _. unfold cswp_client_send_to_transact. apply leads_get. intros p _.
    case_decide; [|apply leads_ret]. destruct (_ <? _); [|apply leads_ret].
    unfold cswp_client_transact. eapply leads_bind; [apply transact_send_leads; [typeclasses eauto|done..]|].
    intros r. eapply (leads_bind _ (inv (used_by n))).
    + destruct (_ =? _); [|apply leads_ret]. apply leads_inv, safe_transact_receive. typeclasses eauto.
    + intros r'. eapply leads_bind; [by apply (leads_upd _ (used_by n))|intros _]. apply leads_ret.
Qed.

(** The last [cswp_term] is the command, then the end of the connection. *)
Definition disconnect : ClientM T Z :=
  match t_disconnect with Some f => call_connect f | None => mret CSWP_SUCCESS end.

Lemma term_last w p :
  priv w = Some p -> connected p = 1 ->
  cswp_term w =
    (res ← run_command ReqTerm None; disconnect;;
     upd_priv (fun p => set_init_data (cswp_init_serverProtocolVersion p) None (cswp_init_serverVersion p) p);;
     mret res) (set_priv (Some (set_connected 0 (prepped p))) w).
Proof.
  intros Hp Hc. unfold cswp_term. rewrite (M_bind_eq _ _ _ _ _ (prep_eq w p Hp)).
  erewrite M_bind_eq by (by apply get_priv_eq).
  assert (Hcp : connected (prepped p) = 1) by (unfold prepped; by case_decide). rewrite Hcp.
  change (1 =? 0) with false. cbv iota. erewrite M_bind_eq by (by apply upd_priv_eq).
  change (0 <? 1 - 1) with false. change (1 - 1) with 0. cbv iota. rewrite set_priv_twice.
  unfold run_command. set (w1 := set_priv _ w).
  assert (Hprep : cswp_client_prep_priv_cmd_data w1 = Some (CSWP_SUCCESS, w1)).
  { rewrite (prep_eq w1 (set_connected 0 (prepped p)) eq_refl). unfold w1. rewrite set_priv_twice.
    do 4 f_equal. unfold prepped. simpl. repeat case_decide; done. }
  unfold mbind, M_bind. rewrite Hprep. cbn [encode_request].
  by destruct (on_cmd cswp_encode_term_command w1) as [[r w2]|].
Qed.
End term.

(** The same call [k] times. *)
Fixpoint calls {T} (k : nat) (m : ClientM T Z) : ClientM T (list Z) :=
  match k with
  | O => mret []
  | S k' => x ← m; xs ← calls k' m; mret (x :: xs)
  end.

Section nested.
Context {T : Type} `{Transport T}.
Implicit Types (w : world T) (p : cswp_client_priv_t).

Lemma inits_again k clientID v q1 q2 n q3 s : forall w p,
  priv w = Some p -> 0 < connected p -> connected p + Z.of_nat k < 2 ^ 31 ->
  cswp_init_serverID p = Some s ->
  0 < n < 2 ^ 64 -> valid (memory w) q1 1 -> valid (memory w) q2 n -> valid (memory w) q3 1 ->
  calls k (cswp_init clientID v q1 q2 n q3) w =
    Some (replicate k CSWP_SUCCESS,
      set_memory (Nat.iter k (cached_init (cswp_init_serverProtocolVersion p) (cswp_init_serverVersion p) s
                    q1 q2 n q3) (memory w))
        (set_priv (Some (set_connected (connected p + Z.of_nat k) p)) w)).
Proof.
  induction k as [|k IH]; intros w p Hp Hc Hk Hs Hn V1 V2 V3; cbn [calls].
  - unfold mret, M_ret. rewrite Z.add_0_r. destruct w, p. simpl in *. by subst.
  - erewrite M_bind_eq by (apply (init_again w p); done || lia).
    erewrite M_bind_eq.
    2: { apply (IH _ (set_connected (connected p + 1) p)); try done; simpl; try lia;
         unfold cached_init; repeat apply put_mem_valid; done. }
    unfold mret, M_ret. do 2 f_equal. rewrite Nat.iter_succ_r. simpl.
    replace (connected p + 1 + Z.of_nat k) with (connected p + Z.of_nat (S k)) by lia. done.
Qed.

Lemma terms_again k : forall w p,
  priv w = Some p -> Z.of_nat k < connected p ->
  exists p', calls k cswp_term w = Some (replicate k CSWP_SUCCESS, set_priv (Some p') w) /\
    connected p' = connected p - Z.of_nat k /\ cswp_init_serverID p' = cswp_init_serverID p /\
    (priv_ok p -> batch_mode p = BATCH_NONE -> priv_ok p' /\ batch_mode p' = BATCH_NONE).
Proof.
  induction k as [|k IH]; intros w p Hp Hk; cbn [calls].
  - exists p. split; [unfold mret, M_ret; destruct w; simpl in *; by subst|]. split_and!; [lia|done|by split].
  - erewrite M_bind_eq by (apply (term_again w p); done || lia).
    set (p1 := set_connected (connected p - 1) (prepped p)).
    destruct (IH (set_priv (Some p1) w) p1 eq_refl) as (p' & Hs & Hc & Hid & Hok); [simpl; lia|].
    exists p'. rewrite (M_bind_eq _ _ _ _ _ Hs). split; [done|]. split; [rewrite Hc; simpl; lia|].
    split; [rewrite Hid; unfold p1, prepped; by case_decide|].
    intros Hp0 Hb. apply Hok; [|unfold p1, prepped; by case_decide].
    pose proof (prepped_ok p Hp0) as []. by constructor.
Qed.

(** The end of the session, whatever becomes of the command. *)
Lemma term_ends w p res w' :
  priv w = Some p -> priv_ok p -> connected p = 1 -> cswp_term w = Some (res, w') ->
  exists p', priv w' = Some p' /\ connected p' = 0 /\ cswp_init_serverID p' = None /\
    match t_disconnect with Some d => exists t, transport w' = (d t).2 | None => True end.
Proof.
  intros Hp Hok Hc Hs. rewrite (term_last w p Hp Hc) in Hs.
  apply M_bind_inv in Hs as (r1 & w1 & H1 & Hs). apply M_bind_inv in Hs as (r2 & w2 & H2 & Hs).
  apply M_bind_inv in Hs as (u & w3 & H3 & Hs). unfold mret, M_ret in Hs. simplify_eq.
  assert (Hu : inv (used_by 0) w1).
  { assert (Hl : leads (inv (used_by 0)) (inv (used_by 0)) (run_command ReqTerm None : ClientM T Z)).
    { unfold run_command. eapply (leads_bind _ (inv (used_by 0))).
      - intros x a x' Hx (q & Hq & ? & ?). rewrite (prep_eq x q Hq) in Hx. simplify_eq.
        exists (prepped q). split; [done|]. unfold prepped. by case_decide.
      - intros _. eapply leads_bind; [by apply leads_on_cmd|]. intros r. apply finish_used_by. }
    apply (Hl _ _ _ H1). eexists. split; [done|]. split; [done|].
    pose proof (prepped_ok p Hok) as []. simpl. tauto. }
  assert (Hu2 : inv (used_by 0) w2).
  { unfold disconnect in H2. destruct t_disconnect.
    - eapply safe_call_connect; [exact H2|exact Hu].
    - unfold mret, M_ret in H2. by simplify_eq. }
  destruct Hu2 as (q & Hq & Hq0 & _). rewrite (upd_priv_eq _ _ _ Hq) in H3. simplify_eq.
  eexists. split; [done|]. split; [done|]. split; [done|]. unfold disconnect in H2.
  destruct t_disconnect as [d|]; [|done]. exists (transport w1). unfold call_connect in H2.
  apply M_bind_inv in H2 as (t & x & Ht & H2). unfold gets in Ht. simplify_eq.
  destruct (d (transport x)) as [tr t'] eqn:Hd. apply M_bind_inv in H2 as (y & x2 & Hy & H2).
  unfold modify in Hy. simplify_eq. simpl.
  destruct tr; simpl in H2; unfold mret, M_ret, cswp_client_error, ub in H2; try case_match; by simplify_eq.
Qed.

(** The end of the session when the server answers. *)
Lemma term_answered w p t1 t2 :
  priv w = Some p -> priv_ok p -> batch_mode p = BATCH_NONE -> connected p = 1 ->
  t_send (frame 1 BATCH_NONE (request_bytes ReqTerm)) (transport w) = (TRet CSWP_SUCCESS, t1) ->
  t_receive CSWP_REQ_RSP_BUFFER_SIZE t1 =
    (TRet CSWP_SUCCESS, Some (rframe 1 (response_bytes CSWP_TERM (ROk []))), t2) ->
  match t_disconnect with Some d => exists r, (d t2).1 = TRet r | None => True end ->
  exists w', cswp_term w = Some (CSWP_SUCCESS, w') /\
    transport w' = match t_disconnect with Some d => (d t2).2 | None => t2 end.
Proof.
  intros Hp Hok Hb Hc H1 H2 Hd. rewrite (term_last w p Hp Hc).
  set (p1 := set_connected 0 (prepped p)). set (w1 := set_priv (Some p1) w).
  assert (Hok1 : priv_ok p1) by (pose proof (prepped_ok p Hok) as []; by constructor).
  destruct (command_eq w1 p1 ReqTerm None) as (p2 & Hok2 & Hn2 & Hb2 & Hpd2 & Hcmd); try done.
  { unfold p1, prepped. by case_decide. }
  destruct (exchange_stored None (set_priv (Some p2) w1) p2 [(ReqTerm, None)] BATCH_NONE
    (response_bytes CSWP_TERM (ROk [])) t1 t2 (memory w)) as (w' & p' & He & Hp' & _ & _ & _ & Ht); try done.
  { by left. }
  { apply (answers_cons None 0 {| pr_type := CSWP_TERM; pr_complete := None |} [] [] []
      (memory w) (memory w) _ (ok_none _)); [by left|apply answers_nil]. }
  erewrite M_bind_eq; [|rewrite Hcmd; exact He].
  unfold disconnect. destruct t_disconnect as [d|].
  - destruct Hd as [r Hr]. assert (Hcc : call_connect d w' = Some (r, set_transport (d t2).2 w')).
    { unfold call_connect. erewrite M_bind_eq by reflexivity. rewrite Ht.
      destruct (d t2) as [tr t3]. simpl in Hr. by subst tr. }
    rewrite (M_bind_eq _ _ _ _ _ Hcc). erewrite M_bind_eq by (by apply upd_priv_eq). by eexists.
  - rewrite M_bind_ret. erewrite M_bind_eq by (by apply upd_priv_eq). by eexists.
Qed.
End nested.

(** ** Properties *)

(** C20: on a client that one [cswp_init] has connected, [k] more calls of
    [cswp_init] answer from what the first one received and [k] calls of
    [cswp_term] only give up their shares: none touches the transport, and all
    succeed.  The next [cswp_term] is the end of the session: whatever it
    returns, nobody is connected any more, the server's name is released and the
    transport was disconnected last; with a server that answers it sends exactly
    [CSWP_TERM], takes the response, disconnects and succeeds. *)
Theorem nested_session {T} `{Transport T} (w : world T) p clientID v q1 q2 n q3 s k :
  priv w = Some p -> priv_ok p -> batch_mode p = BATCH_NONE -> connected p = 1 ->
  1 + Z.of_nat k < 2 ^ 31 -> cswp_init_serverID p = Some s ->
  0 < n < 2 ^ 64 -> valid (memory w) q1 1 -> valid (memory w) q2 n -> valid (memory w) q3 1 ->
  exists w1 w2,
    calls k (cswp_init clientID v q1 q2 n q3) w = Some (replicate k CSWP_SUCCESS, w1) /\
    calls k cswp_term w1 = Some (replicate k CSWP_SUCCESS, w2) /\
    transport w1 = transport w /\ transport w2 = transport w /\
    connected <$> priv w1 = Some (1 + Z.of_nat k) /\ connected <$> priv w2 = Some 1 /\
    memory w2 = memory w1 /\
    memory w1 = Nat.iter k (cached_init (cswp_init_serverProtocolVersion p) (cswp_init_serverVersion p) s
                  q1 q2 n q3) (memory w) /\
    (forall res w3, cswp_term w2 = Some (res, w3) ->
       exists p3, priv w3 = Some p3 /\ connected p3 = 0 /\ cswp_init_serverID p3 = None /\
         match t_disconnect with Some d => exists t, transport w3 = (d t).2 | None => True end) /\
    (forall t1 t2,
       t_send (frame 1 BATCH_NONE (request_bytes ReqTerm)) (transport w) = (TRet CSWP_SUCCESS, t1) ->
       t_receive CSWP_REQ_RSP_BUFFER_SIZE t1 =
         (TRet CSWP_SUCCESS, Some (rframe 1 (response_bytes CSWP_TERM (ROk []))), t2) ->
       match t_disconnect with Some d => exists r, (d t2).1 = TRet r | None => True end ->
       exists w3, cswp_term w2 = Some (CSWP_SUCCESS, w3) /\
         transport w3 = match t_disconnect with Some d => (d t2).2 | None => t2 end).
Proof.
  intros Hp Hok Hb Hc Hk Hs Hn V1 V2 V3.
  pose proof (inits_again k clientID v q1 q2 n q3 s w p Hp ltac:(lia) ltac:(lia) Hs Hn V1 V2 V3) as Hi.
  set (w1 := set_memory _ _) in Hi. set (p1 := set_connected (connected p + Z.of_nat k) p) in *.
  destruct (terms_again k w1 p1 eq_refl) as (p2 & Ht & Hc2 & _ & Hok2); [simpl; lia|].
  destruct Hok2 as [Hok2 Hb2]; [by destruct Hok; constructor|done|].
  assert (Hc2' : connected p2 = 1) by (rewrite Hc2; simpl; lia).
  exists w1, (set_priv (Some p2) w1). split_and!; try done.
  - simpl. f_equal. lia.
  - simpl. by rewrite Hc2'.
  - intros res w3. by apply (term_ends _ p2).
  - intros t1 t2. exact (term_answered (set_priv (Some p2) w1) p2 t1 t2 eq_refl Hok2 Hb2 Hc2').
Qed.

Lemma nested_session_witness :
  let p := set_connected 1 (set_init_data 256 (Some [65; 66]) 7 fresh_priv) in
  let m := ({[0%nat := Ints [0]; 1%nat := Ints [9; 9; 9; 9]; 2%nat := Ints [0]]} : mem) in
  let w := ex_world p m (mkScript [] [rframe 1 (response_bytes CSWP_TERM (ROk []))]) in
  exists w1 w2 w3,
    calls 2 (cswp_init [] 256 (Some (0%nat, 0)) (Some (1%nat, 0)) 4 (Some (2%nat, 0))) w =
      Some ([CSWP_SUCCESS; CSWP_SUCCESS], w1) /\
    calls 2 cswp_term w1 = Some ([CSWP_SUCCESS; CSWP_SUCCESS], w2) /\
    sent (transport w2) = [] /\ connected <$> priv w1 = Some 3 /\
    cswp_term w2 = Some (CSWP_SUCCESS, w3) /\
    sent (transport w3) = [frame 1 BATCH_NONE (request_bytes ReqTerm)].
Proof.
  intros p m w.
  destruct (nested_session w p [] 256 (Some (0%nat, 0)) (Some (1%nat, 0)) 4 (Some (2%nat, 0)) [65; 66] 2)
    as (w1 & w2 & H1 & H2 & _ & Ht & Hc & _ & _ & _ & _ & Hlast); try reflexivity; try lia.
  - pose proof fresh_priv_ok as []. by constructor.
  - exists [0]. split; [reflexivity|simpl; lia].
  - exists [9; 9; 9; 9]. split; [reflexivity|simpl; lia].
  - exists [0]. split; [reflexivity|simpl; lia].
  - destruct (Hlast _ _ eq_refl eq_refl I) as (w3 & H3 & Ht3).
    exists w1, w2, w3. split_and!; try done; [by rewrite Ht|by rewrite Ht3].
Defined.
