(* ===== verification/DummyServer.v ===== *)
(** The test server [client_utility/dummy_server_main.cpp]: its own encoders and
    parsers of the wire format, the responses it makes up for every command, and
    the loop of [main] over the commands of one message.  The functions work on
    the bytes received and return the packet sent; the configuration, the
    sockets and the process are in [ServerMain.v], console output is left out. *)
From S2P Require Import Prelude Wire CswpTypes CswpBuffer Memory ClientCommands ClientState.

(** ** Constants of the server *)

Definition srv_SUCCESS : Z := 0x0000.
Definition srv_CANCELLED : Z := 0x0002.
Definition srv_UNSUPPORTED : Z := 0x0023.
Definition srv_DEVICE_UNSUPPORTED : Z := 0x0024.
Definition srv_NOT_PERMITTED : Z := 0x0028.
Definition srv_REG_FAILED : Z := 0x0200.

Definition msg_INIT : Z := 0x00000001.
Definition msg_TERM : Z := 0x00000002.
Definition msg_CLIENT_INFO : Z := 0x00000005.
Definition msg_SET_DEVICES : Z := 0x00000010.
Definition msg_GET_DEVICES : Z := 0x00000011.
Definition msg_GET_SYSTEM_DESCRIPTION : Z := 0x00000012.
Definition msg_DEVICE_OPEN : Z := 0x00000100.
Definition msg_DEVICE_CLOSE : Z := 0x00000101.
Definition msg_SET_CONFIG : Z := 0x00000102.
Definition msg_GET_CONFIG : Z := 0x00000103.
Definition msg_GET_DEVICE_CAPABILITIES : Z := 0x00000104.
Definition msg_REG_LIST : Z := 0x00000200.
Definition msg_REG_READ : Z := 0x00000201.
Definition msg_REG_WRITE : Z := 0x00000202.
Definition msg_MEM_READ : Z := 0x00000300.
Definition msg_MEM_WRITE : Z := 0x00000301.
Definition msg_MEM_POLL : Z := 0x00000302.

(** ** Encoding *)

(** Ten groups of seven bits hold a [uint64_t]. *)
Fixpoint encode_varint_loop (fuel : nat) (value : Z) : list Z :=
  match fuel with
  | O => [u8 value]
  | S f => if 0x80 <=? value then u8 (Z.lor value 0x80) :: encode_varint_loop f (Z.shiftr value 7)
           else [u8 value]
  end.

(** An [int] argument is converted to [uint64_t]. *)
Definition encode_varint (value : Z) : list Z := encode_varint_loop 9 (u64 value).

Definition encode_uint32 (value : Z) : list Z :=
  let value := u32 value in
  [u8 value; u8 (Z.shiftr value 8); u8 (Z.shiftr value 16); u8 (Z.shiftr value 24)].

Definition str_to_utf8_len_bytes (str : list Z) : list Z :=
  let length := int32 (len str) in
  encode_varint length ++ str.

Definition msg_len_bytes (rsp_len : Z) : list Z :=
  [u8 (Z.land rsp_len 0xFF); u8 (Z.land (Z.shiftr rsp_len 8) 0xFF);
   u8 (Z.land (Z.shiftr rsp_len 16) 0xFF); u8 (Z.land (Z.shiftr rsp_len 24) 0xFF)].

(** ** State: the response under construction

    [resp_buffer_size] is the length of [resp_buffer]; [sdf] stands for the
    file [vera_sil.sdf]. *)
Record srv := mkSrv {
  resp_buffer : option (list Z);
  resp_buffer_nresp : Z;
  sdf : list Z;
}.

Abbreviation SrvM := (M srv).

Definition response_add (resp : list Z) : SrvM unit := modify (fun s =>
  match resp_buffer s with
  | None => mkSrv (Some resp) 1 (sdf s)
  | Some b => mkSrv (Some (b ++ resp)) (resp_buffer_nresp s + 1) (sdf s)
  end).

(** The packet sent, [None] when there is no data. *)
Definition response_send : SrvM (option (list Z)) := fun s =>
  match resp_buffer s with
  | None => Some (None, s)
  | Some b =>
      let num_sub_responses := encode_varint (resp_buffer_nresp s) in
      let send_buffer_size := len b + 4 + len num_sub_responses in
      let packet := encode_uint32 send_buffer_size ++ num_sub_responses ++ b in
      Some (Some packet, mkSrv None (resp_buffer_nresp s) (sdf s))
  end.

(** [new uint8_t[rsp_len]] filled by the copies [chunks] one after the other:
    more bytes than [rsp_len] would be written outside it, fewer would leave
    uninitialised bytes to be sent. *)
Definition pack (rsp_len : Z) (chunks : list (list Z)) : SrvM (list Z) :=
  if len (concat chunks) =? rsp_len then mret (concat chunks) else ub.

(** [info.data] is an offset in the receive buffer. *)
Record cmdinfo := mkInfo {
  cmd_enc : Z;
  apnum : Z;
  data : Z;
}.

Definition response_err (info : cmdinfo) (errcode : Z) : SrvM unit :=
  let rsp_type := encode_varint (cmd_enc info) in
  let err_rsp := encode_varint errcode in
  rsp_bytes ← pack (len rsp_type + len err_rsp) [rsp_type; err_rsp];
  response_add rsp_bytes.

(** ** Parsing

    The arguments [data] of the C functions are the bytes from the pointer to
    the end of the receive buffer; a function returns the value read and the
    number of bytes consumed, [None] when it leaves the buffer or is otherwise
    undefined. *)

(** [(data[index] & 0x7F) << (index*7)] on [int]: undefined when the shift is 32
    or more or the result does not fit 32 bits. *)
Definition int_shl (x s : Z) : option Z :=
  if 32 <=? s then None
  else if 2 ^ 32 <=? Z.shiftl x s then None
  else Some (int32 (Z.shiftl x s)).

Fixpoint incoming_varint_loop (want : bool) (data : list Z) (index value : Z)
    : option (Z * Z) :=
  match data with
  | [] => None
  | b :: data' =>
      match (if want then int_shl (Z.land b 0x7F) (index * 7) else Some 0) with
      | None => None
      | Some x =>
          let value' := u64 (value + x) in
          if Z.land b 0x80 =? 0 then Some (value', index + 1)
          else incoming_varint_loop want data' (index + 1) value'
      end
  end.

(** [want] is [value != nullptr]. *)
Definition process_incoming_varint (want : bool) (data : list Z) : option (Z * Z) :=
  incoming_varint_loop want data 0 0.

(** [want] is [str_p != nullptr]: the bytes before the NUL put at the end. *)
Definition process_incoming_string (want : bool) (data : list Z)
    : option (list Z * Z) :=
  match process_incoming_varint true data with
  | None => None
  | Some (str_size, offset) =>
      if want then
        if len data <? offset + str_size then None
        else Some (take (Z.to_nat str_size) (drop (Z.to_nat offset) data), offset + str_size)
      else Some ([], int32 (offset + str_size))
  end.

Definition process_incoming_uint32 (data : list Z) : option (Z * Z) :=
  match data with
  | b0 :: b1 :: b2 :: b3 :: _ =>
      Some (Z.lor (Z.lor (Z.lor b0 (u32 (Z.shiftl b1 8))) (u32 (Z.shiftl b2 16)))
              (u32 (Z.shiftl b3 24)), 4)
  | _ => None
  end.

Definition process_incoming_uint64 (data : list Z) : option (Z * Z) :=
  match data with
  | b0 :: b1 :: b2 :: b3 :: b4 :: b5 :: b6 :: b7 :: _ =>
      Some (Z.lor (Z.lor (Z.lor (Z.lor (Z.lor (Z.lor (Z.lor b0
              (u64 (Z.shiftl b1 8))) (u64 (Z.shiftl b2 16))) (u64 (Z.shiftl b3 24)))
              (u64 (Z.shiftl b4 32))) (u64 (Z.shiftl b5 40))) (u64 (Z.shiftl b6 48)))
              (u64 (Z.shiftl b7 56)), 8)
  | _ => None
  end.

(** [data[offset++]] *)
Definition incoming_byte (data : list Z) : option (Z * Z) :=
  match data with b :: _ => Some (b, 1) | [] => None end.

(** The parser as a computation on the offset in the receive buffer [buffer]. *)
Abbreviation PM := (M Z).

Section parser.
Context (buffer : list Z).

(** [offset += f(data+offset, &x)] *)
Definition incoming {A} (f : list Z -> option (A * Z)) : PM A := fun offset =>
  if decide (0 <= offset) then
    match f (drop (Z.to_nat offset) buffer) with
    | Some (x, n) => Some (x, u64 (offset + n))
    | None => None
    end
  else None.

Definition in_varint : PM Z := incoming (process_incoming_varint true).
Definition in_string : PM (list Z) := incoming (process_incoming_string true).
Definition in_uint64 : PM Z := incoming process_incoming_uint64.
Definition in_uint32 : PM Z := incoming process_incoming_uint32.

(** [for (i = 0; i < n; i++)] *)
Fixpoint repeat_parse (n : nat) (body : PM unit) : PM unit :=
  match n with O => mret tt | S n' => body;; repeat_parse n' body end.

(** Register and memory commands, and the unknown ones. *)
Definition parse_access_command (enc : Z) : PM (option Z) :=
  if enc =? msg_REG_LIST then
    dev_id ← in_varint; mret (Some (int32 dev_id))
  else if enc =? msg_REG_READ then
    dev_id ← in_varint;
    count ← in_varint;
    repeat_parse (Z.to_nat count) (register_id ← in_varint; mret tt);;
    mret (Some (int32 dev_id))
  else if enc =? msg_REG_WRITE then
    dev_id ← in_varint;
    count ← in_varint;
    repeat_parse (Z.to_nat count)
      (register_id ← in_varint; register_data ← in_uint32; mret tt);;
    mret (Some (int32 dev_id))
  else if enc =? msg_MEM_READ then
    dev_id ← in_varint;
    address ← in_uint64;
    size ← in_varint;
    access_size ← in_varint;
    flags ← in_varint;
    mret (Some (int32 dev_id))
  else if enc =? msg_MEM_WRITE then
    dev_id ← in_varint;
    address ← in_uint64;
    size ← in_varint;
    access_size ← in_varint;
    flags ← in_varint;
    modify (fun offset => u64 (offset + size));;
    mret (Some (int32 dev_id))
  else if enc =? msg_MEM_POLL then
    dev_id ← in_varint;
    address ← in_uint64;
    size ← in_varint;
    access_size ← in_varint;
    flags ← in_varint;
    interval ← in_varint;
    modify (fun offset => u64 (offset + u64 (size * 2)));;
    mret (Some (int32 dev_id))
  else mret None.

(** The fields of one command; the result is [info->apnum], [None] for an
    unknown command. *)
Definition parse_command (enc : Z) : PM (option Z) :=
  if enc =? msg_INIT then
    protocol_version ← in_varint;
    client_id ← in_string;
    mret (Some (-1))
  else if enc =? msg_TERM then mret (Some (-1))
  else if enc =? msg_CLIENT_INFO then
    message ← in_string;
    mret (Some (-1))
  else if enc =? msg_SET_DEVICES then
    ndevs ← in_varint;
    repeat_parse (Z.to_nat ndevs)
      (device_name ← in_string; device_type ← in_string; mret tt);;
    mret (Some (-1))
  else if enc =? msg_GET_DEVICES then mret (Some (-1))
  else if enc =? msg_GET_SYSTEM_DESCRIPTION then mret (Some (-1))
  else if enc =? msg_DEVICE_OPEN then
    dev_id ← in_varint; mret (Some (int32 dev_id))
  else if enc =? msg_DEVICE_CLOSE then
    dev_id ← in_varint; mret (Some (int32 dev_id))
  else if enc =? msg_SET_CONFIG then
    dev_id ← in_varint;
    name ← in_string;
    value ← in_string;
    mret (Some (int32 dev_id))
  else if enc =? msg_GET_CONFIG then
    (* [name] is printed and freed, but was never set *)
    ub
  else if enc =? msg_GET_DEVICE_CAPABILITIES then
    dev_id ← in_varint; mret (Some (int32 dev_id))
  else parse_access_command enc.

(** The loop over the commands: those before the first unknown one. *)
Fixpoint parse_commands (n : nat) : PM (list cmdinfo) :=
  match n with
  | O => mret []
  | S n' =>
      enc ← in_varint;
      start ← gets id;
      apnum ← parse_command enc;
      match apnum with
      | None => mret []
      | Some a => infos ← parse_commands n'; mret (mkInfo (int32 enc) a start :: infos)
      end
  end.

(** The commands and the error mode. *)
Definition process_incoming_data : PM (list cmdinfo * Z) :=
  message_length ← in_uint32;
  num_sub_requests ← in_varint;
  error_mode ← incoming incoming_byte;
  infos ← parse_commands (Z.to_nat num_sub_requests);
  mret (infos, error_mode).
End parser.

(** ** The responses *)

Section fudge.
Context (buffer : list Z).

(** Type and success code, as every response starts. *)
Definition errcode0 : list Z := [0x0].

Definition fudge_init_cswp (info : cmdinfo) : SrvM Z :=
  let rsp_type := encode_varint (cmd_enc info) in
  let serverProtocolVersion := encode_varint 0x100 in
  let serverID := str_to_utf8_len_bytes (bytes_of "Vera CSWP Server") in
  let serverVersion := encode_varint 0x100 in
  rsp_bytes ← pack (len rsp_type + 1 + len serverProtocolVersion + len serverID +
                    len serverVersion)
              [rsp_type; errcode0; serverProtocolVersion; serverID; serverVersion];
  response_add rsp_bytes;;
  mret 0.

Definition fudge_term_cswp (info : cmdinfo) : SrvM Z :=
  let rsp_type := encode_varint (cmd_enc info) in
  rsp_bytes ← pack (len rsp_type + 1) [rsp_type; errcode0];
  response_add rsp_bytes;;
  mret 0.

Definition fudge_get_devices (info : cmdinfo) : SrvM Z :=
  let rsp_type := encode_varint (cmd_enc info) in
  let deviceCount := [0x3] in
  let dev0 := str_to_utf8_len_bytes (bytes_of "APB Bridge") ++
              str_to_utf8_len_bytes (bytes_of "memory") in
  let dev1 := str_to_utf8_len_bytes (bytes_of "System Memory Bridge") ++
              str_to_utf8_len_bytes (bytes_of "memory") in
  let dev2 := str_to_utf8_len_bytes (bytes_of "CTLP Bridge") ++
              str_to_utf8_len_bytes (bytes_of "nvctlp") in
  rsp_bytes ← pack (len rsp_type + 1 + 1 + len dev0 + len dev1 + len dev2)
              [rsp_type; errcode0; deviceCount; dev0; dev1; dev2];
  response_add rsp_bytes;;
  mret 0.

Definition fudge_get_sys_info (info : cmdinfo) : SrvM Z :=
  let rsp_type := encode_varint (cmd_enc info) in
  let format := [0x0] in
  file_data ← gets sdf;
  let file_size := encode_varint (len file_data) in
  rsp_bytes ← pack (len rsp_type + 1 + 1 + len file_size + len file_data)
              [rsp_type; errcode0; format; file_size; file_data];
  response_add rsp_bytes;;
  mret 0.

Definition fudge_open_dev (info : cmdinfo) : SrvM Z :=
  let rsp_type := encode_varint (cmd_enc info) in
  let deviceInfo0 := str_to_utf8_len_bytes (bytes_of "APB Bridge") in
  let deviceInfo1 := str_to_utf8_len_bytes (bytes_of "System Memory Bridge") in
  let deviceInfo2 := str_to_utf8_len_bytes (bytes_of "CTLP Bridge") in
  rsp_bytes ← pack (len rsp_type + 1 + len deviceInfo0 +
                    len rsp_type + 1 + len deviceInfo1 +
                    len rsp_type + 1 + len deviceInfo2)
              [rsp_type; errcode0; deviceInfo0; rsp_type; errcode0; deviceInfo1;
               rsp_type; errcode0; deviceInfo2];
  response_add rsp_bytes;;
  mret 0.

Definition fudge_close_dev (info : cmdinfo) : SrvM Z :=
  let rsp_type := encode_varint (cmd_enc info) in
  rsp_bytes ← pack (len rsp_type + 1 + len rsp_type + 1 + len rsp_type + 1)
              [rsp_type; errcode0; rsp_type; errcode0; rsp_type; errcode0];
  response_add rsp_bytes;;
  mret 0.

Definition fudge_get_dev_cap (info : cmdinfo) : SrvM Z :=
  let rsp_type := encode_varint (cmd_enc info) in
  let caps_data := 0x0 in
  let respond caps :=
    let capabilities := encode_varint caps in
    let capabilities_data := if apnum info =? 1 then [] else encode_varint caps_data in
    rsp_bytes ← pack (len rsp_type + 1 + len capabilities + len capabilities_data)
                [rsp_type; errcode0; capabilities; capabilities_data];
    response_add rsp_bytes;;
    mret 0 in
  if apnum info =? 0 then respond 0x203
  else if apnum info =? 1 then respond 0x202
  else if apnum info =? 2 then respond 0x01
  else mret (-1).

(** The register descriptions after the [return] of the other branch are
    never reached. *)
Definition fudge_get_reg_list (info : cmdinfo) : SrvM Z :=
  if (apnum info =? 1) || (apnum info =? 2) then
    let rsp_type := encode_varint (cmd_enc info) in
    let num_regs := [0x0] in
    rsp_bytes ← pack (len rsp_type + 1 + 1) [rsp_type; errcode0; num_regs];
    response_add rsp_bytes;;
    mret 0
  else mret srv_DEVICE_UNSUPPORTED.

(** The value of a register. *)
Definition rd_value (apnum register_id : Z) : Z :=
  if (apnum =? 0) && (register_id =? 0xd00) then 0
  else if (apnum =? 0) && (register_id =? 0xdf8) then 0
  else if (apnum =? 0) && (register_id =? 0xdfc) then 0x44770006
  else if (apnum =? 0) && (register_id =? 0x4e560000) then 0
  else if register_id =? 0xdfc then 0
  else 0x01020304.

(** [process_incoming_varint(info.data+inoffset, ...)] *)
Definition info_varint (want : bool) : PM Z := incoming buffer (process_incoming_varint want).

Fixpoint rd_values_loop (apnum : Z) (n : nat) : PM (list Z) :=
  match n with
  | O => mret []
  | S n' =>
      register_id ← info_varint true;
      rest ← rd_values_loop apnum n';
      mret (rd_value apnum register_id :: rest)
  end.

Definition fudge_get_dev_reg (info : cmdinfo) : SrvM Z :=
  if negb (apnum info =? 0) && negb (apnum info =? 2) then mret srv_REG_FAILED
  else
    match ((info_varint false;;
            count ← info_varint true;
            rd_values ← rd_values_loop (apnum info) (Z.to_nat count);
            mret (count, rd_values)) : PM (Z * list Z)) (data info) with
    | None => ub
    | Some ((count, rd_values), _) =>
        let rsp_type := encode_varint (cmd_enc info) in
        let rsp_count := encode_varint count in
        rsp_bytes ← pack (len rsp_type + 1 + len rsp_count + len rd_values * 4)
                    [rsp_type; errcode0; rsp_count; concat (le_bytes 4 <$> rd_values)];
        response_add rsp_bytes;;
        mret 0
    end.

Definition fudge_set_dev_reg (info : cmdinfo) : SrvM Z :=
  if negb (apnum info =? 0) && negb (apnum info =? 2) then mret srv_REG_FAILED
  else
    let rsp_type := encode_varint (cmd_enc info) in
    rsp_bytes ← pack (len rsp_type + 1) [rsp_type; errcode0];
    response_add rsp_bytes;;
    mret 0.

(** The address, eight bytes on the wire, is read as a varint. *)
Definition fudge_get_dev_mem (info : cmdinfo) : SrvM Z :=
  if negb (apnum info =? 0) && negb (apnum info =? 1) then mret (-1)
  else
    match ((info_varint false;;
            address ← info_varint true;
            info_varint true) : PM Z) (data info) with
    | None => ub
    | Some (size, _) =>
        let rsp_type := encode_varint (cmd_enc info) in
        let count := encode_varint size in
        let rd_values := (fun i => u8 (Z.of_nat i)) <$> seq 1 (Z.to_nat size) in
        rsp_bytes ← pack (len rsp_type + 1 + len count + len rd_values)
                    [rsp_type; errcode0; count; rd_values];
        response_add rsp_bytes;;
        mret 0
    end.

Definition fudge_set_dev_mem (info : cmdinfo) : SrvM Z :=
  if negb (apnum info =? 0) && negb (apnum info =? 1) then mret (-1)
  else
    let rsp_type := encode_varint (cmd_enc info) in
    rsp_bytes ← pack (len rsp_type + 1) [rsp_type; errcode0];
    response_add rsp_bytes;;
    mret 0.

Definition funcMap (enc : Z) : option (cmdinfo -> SrvM Z) :=
  if enc =? msg_INIT then Some fudge_init_cswp
  else if enc =? msg_TERM then Some fudge_term_cswp
  else if enc =? msg_GET_DEVICES then Some fudge_get_devices
  else if enc =? msg_GET_SYSTEM_DESCRIPTION then Some fudge_get_sys_info
  else if enc =? msg_DEVICE_OPEN then Some fudge_open_dev
  else if enc =? msg_DEVICE_CLOSE then Some fudge_close_dev
  else if enc =? msg_GET_DEVICE_CAPABILITIES then Some fudge_get_dev_cap
  else if enc =? msg_REG_LIST then Some fudge_get_reg_list
  else if enc =? msg_REG_READ then Some fudge_get_dev_reg
  else if enc =? msg_REG_WRITE then Some fudge_set_dev_reg
  else if enc =? msg_MEM_READ then Some fudge_get_dev_mem
  else if enc =? msg_MEM_WRITE then Some fudge_set_dev_mem
  else None.

(** One iteration of the loop of [main] over the commands: the new [cancel]
    and [running]. *)
Definition run_info (error_mode : Z) (info : cmdinfo) (cancel running : bool)
    : SrvM (bool * bool) :=
  res ← (if cancel then mret srv_CANCELLED
         else match funcMap (cmd_enc info) with
              | Some f => f info
              | None => mret srv_UNSUPPORTED
              end);
  cancel ← (if res =? srv_SUCCESS then mret cancel
            else response_err info res;;
                 mret (if error_mode =? 0 then cancel else true));
  if cmd_enc info =? msg_TERM then mret (true, false) else mret (cancel, running).

Fixpoint run_infos (error_mode : Z) (infos : list cmdinfo) (cancel running : bool)
    : SrvM bool :=
  match infos with
  | [] => mret running
  | info :: infos' =>
      x ← run_info error_mode info cancel running;
      run_infos error_mode infos' x.1 x.2
  end.
End fudge.

Definition SRV_BUFFER : Z := 4096.

(** One iteration of the loop of [main] on a message of the client: the packet
    sent, if any, and whether the server goes on. *)
Definition server_step (msg : list Z) : SrvM (option (list Z) * bool) :=
  let bytes_read := Z.min (len msg) (SRV_BUFFER - 1) in
  if bytes_read <=? 6 then mret (None, false)
  else
    let buffer := take (Z.to_nat bytes_read) msg ++
                  replicate (Z.to_nat (SRV_BUFFER - bytes_read)) 0 in
    match process_incoming_data buffer 0 with
    | None => ub
    | Some ((infos, error_mode), _) =>
        running ← run_infos buffer error_mode infos false true;
        packet ← response_send;
        mret (packet, running)
    end.

Definition srv_init (sdf : list Z) : srv := mkSrv None 0 sdf.

Example server_reg_read :
  server_step [12; 0; 0; 0; 1; 0; 129; 4; 0; 1; 252; 27] (srv_init []) =
    Some (Some [13; 0; 0; 0; 1; 129; 4; 0; 1; 6; 0; 119; 68], true, mkSrv None 1 []).
Proof. vm_compute. reflexivity. Qed.

(** ** Encoders and the wire format *)

Lemma lor_128_u8 v : u8 (Z.lor v 128) = v mod 128 + 128.
Proof.
  unfold u8. change (2 ^ 8) with 256. rewrite <- land_255, Z.land_lor_distr_l.
  change (Z.land 128 255) with 128. rewrite land_255.
  replace (v mod 128) with ((v mod 256) mod 128) by (apply Z.mod_mod_divide; by exists 2).
  pose proof (Z.mod_pos_bound v 256). set (b := v mod 256) in *.
  assert (Hall : forallb (fun n => Z.lor (Z.of_nat n) 128 =? Z.of_nat n mod 128 + 128)
    (seq 0 256) = true) by (vm_compute; done).
  rewrite forallb_forall in Hall. specialize (Hall (Z.to_nat b)).
  rewrite Z2Nat.id in Hall by lia. apply Z.eqb_eq, Hall, in_seq. lia.
Qed.

Lemma encode_varint_loop_eq f v :
  0 <= v < 128 ^ (Z.of_nat f + 1) -> encode_varint_loop f v = varint_bytes f v.
Proof.
  revert v. induction f as [|f IH]; intros v Hv; simpl.
  - simpl in Hv. rewrite u8_small, Z.mod_small by lia. done.
  - destruct (Z.leb_spec 128 v), (Z.ltb_spec 127 v); try lia.
    + by rewrite lor_128_u8, shiftr_7, IH by (by apply varint_fuel_step).
    + rewrite u8_small, Z.mod_small by lia. done.
Qed.

Lemma encode_varint_eq v : is_u64 v -> encode_varint v = varint_enc v.
Proof.
  intros Hv. unfold encode_varint. rewrite u64_small by done.
  apply encode_varint_loop_eq. unfold is_u64 in Hv.
  assert (2 ^ 64 < 128 ^ (Z.of_nat 9 + 1)) by (vm_compute; done). lia.
Qed.

Lemma encode_uint32_eq v : is_u32 v -> encode_uint32 v = le_bytes 4 v.
Proof.
  intros Hv. unfold encode_uint32, u8. rewrite u32_small by done.
  rewrite !Z.shiftr_div_pow2 by lia. cbn [le_bytes].
  rewrite !Z.div_div by lia. done.
Qed.

Lemma str_to_utf8_eq s : len s < 2 ^ 31 -> str_to_utf8_len_bytes s = string_enc s.
Proof.
  intros. unfold str_to_utf8_len_bytes, string_enc. rewrite int32_small by lia.
  rewrite encode_varint_eq by (unfold is_u64; lia). done.
Qed.

(** ** Reading varints *)

Lemma incoming_step b l k a :
  is_byte b -> 0 <= k <= 3 -> 0 <= a < 2 ^ (7 * k) ->
  incoming_varint_loop true (b :: l) k a =
    let a' := a + b mod 128 * 2 ^ (7 * k) in
    if b <? 128 then Some (a', k + 1) else incoming_varint_loop true l (k + 1) a'.
Proof.
  intros Hb Hk Ha. simpl. unfold int_shl. rewrite land_127, land_128 by done.
  pose proof (Z.mod_pos_bound b 128). rewrite Z.shiftl_mul_pow2 by lia.
  rewrite (Z.mul_comm k 7).
  assert (2 ^ (7 * k) <= 2 ^ 21) by (apply Z.pow_le_mono_r; lia).
  destruct (Z.leb_spec 32 (7 * k)); [lia|].
  destruct (Z.leb_spec (2 ^ 32) (b mod 128 * 2 ^ (7 * k))); [nia|].
  rewrite int32_small, u64_small by nia. by destruct (Z.ltb_spec b 128).
Qed.

Lemma incoming_fifth v f rest a :
  0 <= v -> 0 <= a < 2 ^ 28 -> (0 < f)%nat ->
  incoming_varint_loop true (varint_bytes f v ++ rest) 4 a =
    let t := a + v * 2 ^ 28 in
    if t <? 2 ^ 31 then Some (t, 5)
    else if t <? 2 ^ 32 then Some (t + 2 ^ 64 - 2 ^ 32, 5)
    else None.
Proof.
  intros Hv Ha Hf. destruct f as [|f]; [lia|]. simpl varint_bytes.
  pose proof (Z.mod_pos_bound v 128). destruct (Z.ltb_spec 127 v) as [H127|H127]; cbn [app].
  - destruct (Z.ltb_spec (a + v * 2 ^ 28) (2 ^ 31)); [lia|].
    destruct (Z.ltb_spec (a + v * 2 ^ 28) (2 ^ 32)); [lia|]. simpl.
    destruct (int_shl _ _); [|done].
    rewrite land_128 by (unfold is_byte; lia).
    destruct (Z.ltb_spec (v mod 128 + 128) 128); [lia|]. simpl.
    destruct (varint_bytes f (v / 128)) as [|b l] eqn:He; [|done].
    pose proof (varint_bytes_length f (v / 128)) as Hl. rewrite He in Hl. simpl in Hl. lia.
  - simpl. unfold int_shl. simpl. rewrite land_127, land_128, Z.shiftl_mul_pow2
      by (unfold is_byte; lia).
    rewrite !(Z.mod_small v) by lia.
    destruct (Z.ltb_spec v 128); [|lia]. simpl (0 =? 0).
    change (4 * 7) with 28.
    destruct (Z.leb_spec (2 ^ 32) (v * 2 ^ 28)), (Z.ltb_spec (a + v * 2 ^ 28) (2 ^ 31)),
      (Z.ltb_spec (a + v * 2 ^ 28) (2 ^ 32)); try lia; try done.
    + rewrite int32_small, u64_small by lia. done.
    + unfold int32, u64. do 2 f_equal.
      replace (v * 2 ^ 28 + 2 ^ 31) with (v * 2 ^ 28 - 2 ^ 31 + 1 * 2 ^ 32) by lia.
      rewrite Z.mod_add, (Z.mod_small (v * 2 ^ 28 - 2 ^ 31)) by lia.
      symmetry. apply Z.mod_unique_pos with (-1); lia.
Qed.

Lemma incoming_varint_bytes n : forall f v rest a k,
  k = 4 - Z.of_nat n -> 0 <= k -> (n < f)%nat -> 0 <= v -> 0 <= a < 2 ^ (7 * k) ->
  incoming_varint_loop true (varint_bytes f v ++ rest) k a =
    let t := a + v * 2 ^ (7 * k) in
    if t <? 2 ^ 31 then Some (t, k + len (varint_bytes f v))
    else if t <? 2 ^ 32 then Some (t + 2 ^ 64 - 2 ^ 32, k + len (varint_bytes f v))
    else None.
Proof.
  induction n as [|n IH]; intros f v rest a k Hk Hk0 Hf Hv Ha.
  - assert (k = 4) as -> by lia. change (7 * 4) with 28 in *.
    rewrite incoming_fifth by (done || lia). cbv zeta.
    destruct (Z.ltb_spec (a + v * 2 ^ 28) (2 ^ 32)).
    + destruct f as [|f]; [lia|]. simpl. destruct (Z.ltb_spec 127 v); [lia|]. done.
    + by destruct (Z.ltb_spec (a + v * 2 ^ 28) (2 ^ 31)); [lia|].
  - destruct f as [|f]; [lia|]. pose proof (Z.mod_pos_bound v 128).
    assert (Hp : 2 ^ (7 * (k + 1)) = 2 ^ (7 * k) * 128)
      by (change 128 with (2 ^ 7); rewrite <- Z.pow_add_r by lia; f_equal; lia).
    assert (2 ^ (7 * (k + 1)) <= 2 ^ 28) by (apply Z.pow_le_mono_r; lia).
    simpl varint_bytes. destruct (Z.ltb_spec 127 v); cbn [app].
    + rewrite incoming_step by (unfold is_byte; lia || done). cbv zeta.
      destruct (Z.ltb_spec (v mod 128 + 128) 128); [lia|].
      replace ((v mod 128 + 128) mod 128) with (v mod 128)
        by (replace (v mod 128 + 128) with (v mod 128 + 1 * 128) by lia;
            rewrite Z.mod_add, Z.mod_mod by lia; done).
      rewrite IH by (lia || nia || (apply Z.div_pos; lia)). cbv zeta.
      replace (a + v mod 128 * 2 ^ (7 * k) + v / 128 * 2 ^ (7 * (k + 1)))
        with (a + v * 2 ^ (7 * k)) by (rewrite Hp; pose proof (Z.div_mod v 128); nia).
      rewrite length_cons.
      by replace (k + 1 + len (varint_bytes f (v / 128)))
        with (k + Z.of_nat (S (length (varint_bytes f (v / 128))))) by lia.
    + rewrite incoming_step by (unfold is_byte; lia || done). cbv zeta.
      rewrite !(Z.mod_small v) by lia.
      destruct (Z.ltb_spec v 128); [|lia].
      destruct (Z.ltb_spec (a + v * 2 ^ (7 * k)) (2 ^ 31)); [done|nia].
Qed.

Lemma process_incoming_varint_eq v rest :
  is_u64 v ->
  process_incoming_varint true (varint_enc v ++ rest) =
    if v <? 2 ^ 31 then Some (v, len (varint_enc v))
    else if v <? 2 ^ 32 then Some (v + 2 ^ 64 - 2 ^ 32, len (varint_enc v))
    else None.
Proof.
  intros Hv. unfold process_incoming_varint, varint_enc.
  rewrite (incoming_varint_bytes 4) by (unfold is_u64 in *; simpl; lia).
  cbv zeta. change (7 * 0) with 0. rewrite Z.pow_0_r, Z.mul_1_r. done.
Qed.

(** Skipping a varint works whatever its value. *)
Lemma skip_varint_loop l rest k a :
  is_varint l -> 0 <= a < 2 ^ 64 ->
  incoming_varint_loop false (l ++ rest) k a = Some (a, k + len l).
Proof.
  intros Hl Ha. revert k. induction Hl as [b Hb|b l Hb Hl IH]; intros k; simpl;
    rewrite Z.add_0_r, u64_small, land_128 by (unfold is_byte; lia).
  - by destruct (Z.ltb_spec b 128); [|lia].
  - destruct (Z.ltb_spec b 128); [lia|]. simpl. rewrite IH. do 2 f_equal. lia.
Qed.

(** ** One response per command *)

(** The responses counted so far. *)
Definition nresp (s : srv) : Z :=
  match resp_buffer s with None => 0 | Some _ => resp_buffer_nresp s end.
Definition responses (s : srv) : list Z := default [] (resp_buffer s).

(** A handler that succeeds adds one response; one that fails adds none. *)
Definition one_response (m : SrvM Z) : Prop :=
  forall s r s', m s = Some (r, s') ->
    if r =? 0 then nresp s' = nresp s + 1 /\ resp_buffer s' <> None else s' = s.

Lemma response_add_eq resp s :
  exists s', response_add resp s = Some (tt, s') /\
    nresp s' = nresp s + 1 /\ responses s' = responses s ++ resp /\ resp_buffer s' <> None.
Proof.
  unfold response_add, modify, nresp, responses.
  destruct s as [[b|] n f]; eexists; simpl; split; try done.
Qed.

Lemma pack_eq n chunks s r s' :
  pack n chunks s = Some (r, s') -> s' = s /\ r = concat chunks /\ len r = n.
Proof.
  unfold pack. destruct (Z.eqb_spec (len (concat chunks)) n); [|done].
  unfold mret, M_ret. naive_solver.
Qed.

Lemma pack_ok chunks s n : n = len (concat chunks) -> pack n chunks s = Some (concat chunks, s).
Proof. intros ->. unfold pack. by rewrite Z.eqb_refl. Qed.

Lemma one_response_pack n chunks :
  one_response (rsp_bytes ← pack n chunks; response_add rsp_bytes;; mret 0).
Proof.
  intros s r s' Hm. apply M_bind_inv in Hm as (b & s1 & Hp & Hm).
  apply pack_eq in Hp as (-> & _ & _).
  destruct (response_add_eq b s) as (s2 & Ha & Hn & _ & Hne).
  rewrite (M_bind_eq _ _ _ _ _ Ha) in Hm. unfold mret, M_ret in Hm. by simplify_eq/=.
Qed.

Lemma one_response_fail c : c <> 0 -> one_response (mret c).
Proof.
  intros Hc s r s' Hm. unfold mret, M_ret in Hm. simplify_eq.
  by destruct (Z.eqb_spec r 0).
Qed.

Lemma one_response_gets {A} (f : srv -> A) (m : A -> SrvM Z) :
  (forall a, one_response (m a)) -> one_response (gets f ≫= m).
Proof. intros Hm s r s' H. by apply (Hm (f s)). Qed.

Lemma one_response_ub : one_response ub.
Proof. by intros s r s'. Qed.

Create HintDb handler.
#[local] Hint Resolve one_response_pack one_response_fail one_response_gets
  one_response_ub : handler.

Lemma funcMap_one_response buffer enc f info :
  funcMap buffer enc = Some f -> one_response (f info).
Proof.
  unfold funcMap. intros Hf.
  repeat (case_match; simplify_eq); clear;
    unfold fudge_init_cswp, fudge_term_cswp, fudge_get_devices, fudge_get_sys_info,
      fudge_open_dev, fudge_close_dev, fudge_get_dev_cap, fudge_get_reg_list,
      fudge_get_dev_reg, fudge_set_dev_reg, fudge_get_dev_mem, fudge_set_dev_mem;
    repeat case_match; eauto with handler;
    try (apply one_response_fail; unfold srv_DEVICE_UNSUPPORTED, srv_REG_FAILED; lia).
Qed.

Lemma response_err_eq info errcode s :
  exists s', response_err info errcode s = Some (tt, s') /\
    nresp s' = nresp s + 1 /\ resp_buffer s' <> None /\
    responses s' = responses s ++ encode_varint (cmd_enc info) ++ encode_varint errcode.
Proof.
  destruct (response_add_eq (encode_varint (cmd_enc info) ++ encode_varint errcode) s)
    as (s' & Ha & Hn & Hr & Hne).
  exists s'. split_and!; try done. unfold response_err.
  erewrite M_bind_eq; [exact Ha|].
  rewrite pack_ok; simpl; rewrite ?app_nil_r; [done|]. rewrite length_app. lia.
Qed.

Lemma run_info_nresp buffer em info cancel running s x s' :
  run_info buffer em info cancel running s = Some (x, s') -> nresp s' = nresp s + 1.
Proof.
  unfold run_info. intros Hm. apply M_bind_inv in Hm as (res & s1 & H1 & Hm).
  assert (Hres : if res =? 0 then nresp s1 = nresp s + 1 /\ resp_buffer s1 <> None else s1 = s).
  { destruct cancel; [by apply (one_response_fail srv_CANCELLED) in H1|].
    destruct (funcMap buffer (cmd_enc info)) as [f|] eqn:Hf.
    - by apply (funcMap_one_response _ _ _ _ Hf) in H1.
    - by apply (one_response_fail srv_UNSUPPORTED) in H1. }
  apply M_bind_inv in Hm as (c & s2 & H2 & Hm).
  assert (s' = s2) as -> by (destruct (cmd_enc info =? msg_TERM); unfold mret, M_ret in Hm; congruence).
  change (res =? srv_SUCCESS) with (res =? 0) in H2. destruct (res =? 0).
  - unfold mret, M_ret in H2. destruct Hres as [? _]. congruence.
  - subst s1. destruct (response_err_eq info res s) as (s3 & He & Hn & _).
    rewrite (M_bind_eq _ _ _ _ _ He) in H2. unfold mret, M_ret in H2. naive_solver.
Qed.

Lemma run_infos_nresp buffer em infos : forall cancel running s r s',
  run_infos buffer em infos cancel running s = Some (r, s') ->
  nresp s' = nresp s + len infos.
Proof.
  induction infos as [|info infos IH]; intros cancel running s r s' Hm; simpl in Hm.
  - unfold mret, M_ret in Hm. simplify_eq. simpl. lia.
  - apply M_bind_inv in Hm as ([c ru] & s1 & H1 & Hm). apply run_info_nresp in H1.
    apply IH in Hm. rewrite length_cons. lia.
Qed.

(** ** Cancellation *)

Lemma run_infos_cancel buffer em infos : forall running s,
  exists s', run_infos buffer em infos true running s =
      Some (running && forallb (fun i => negb (cmd_enc i =? msg_TERM)) infos, s') /\
    responses s' = responses s ++
      concat ((fun i => encode_varint (cmd_enc i) ++ encode_varint srv_CANCELLED) <$> infos).
Proof.
  induction infos as [|info infos IH]; intros running s.
  - exists s. rewrite andb_true_r, app_nil_r. done.
  - destruct (response_err_eq info srv_CANCELLED s) as (s1 & He & _ & _ & Hr).
    assert (Hi : run_info buffer em info true running s =
      Some ((true, running && negb (cmd_enc info =? msg_TERM)), s1)).
    { unfold run_info. rewrite M_bind_ret. simpl.
      rewrite (M_bind_eq _ _ _ _ _ (M_bind_eq _ _ _ _ _ He)).
      destruct (em =? 0), (cmd_enc info =? msg_TERM); simpl; by rewrite ?andb_true_r, ?andb_false_r. }
    destruct (IH (running && negb (cmd_enc info =? msg_TERM)) s1) as (s2 & H2 & Hr2).
    exists s2. simpl. rewrite (M_bind_eq _ _ _ _ _ Hi). simpl. rewrite H2, Hr2, Hr.
    rewrite <- andb_assoc, <- !app_assoc. done.
Qed.

(** ** Properties *)

(** The encoders of the server and of the client agree: both produce the
    wire format for 64-bit varints, 32-bit integers and strings. *)
Lemma server_encoders_agree :
  (forall v, is_u64 v -> encode_varint v = varint_enc v) /\
  (forall v, is_u32 v -> encode_uint32 v = le_bytes 4 v) /\
  (forall s, len s < 2 ^ 31 -> str_to_utf8_len_bytes s = string_enc s).
Proof. auto using encode_varint_eq, encode_uint32_eq, str_to_utf8_eq. Qed.

(** C18: the server's varint parser reads a varint of the wire format correctly
    up to 31 bits only: between 2^31 and 2^32 the sign bit of the [int] shift
    spreads over the upper half of the result, and above the shift itself is
    undefined behaviour. *)
Theorem server_varint_range v rest :
  is_u64 v ->
  process_incoming_varint true (varint_enc v ++ rest) =
    if v <? 2 ^ 31 then Some (v, len (varint_enc v))
    else if v <? 2 ^ 32 then Some (v + 2 ^ 64 - 2 ^ 32, len (varint_enc v))
    else None.
Proof. apply process_incoming_varint_eq. Qed.

Lemma server_varint_range_witness :
  is_u64 0x80000000 /\
  process_incoming_varint true (varint_enc 0x80000000 ++ []) = Some (0xFFFFFFFF80000000, 5).
Proof.
  assert (Hv : is_u64 0x80000000) by (unfold is_u64; lia). split; [exact Hv|].
  exact (server_varint_range 0x80000000 [] Hv).
Defined.

(** The server adds exactly one response to its message for every command it
    processes, successful, failed or cancelled, so the count it announces is the
    number of commands (which the client checks). *)
Lemma one_response_per_command buffer em infos cancel running s r s' :
  run_infos buffer em infos cancel running s = Some (r, s') ->
  nresp s' = nresp s + len infos.
Proof. apply run_infos_nresp. Qed.

Lemma one_response_per_command_witness :
  exists s', run_infos [] 0 [mkInfo msg_TERM (-1) 0; mkInfo 0x8000 (-1) 0] false true (srv_init []) =
    Some (false, s') /\ nresp s' = 2.
Proof.
  eexists. split; [vm_compute; reflexivity|].
  apply (one_response_per_command [] 0 [mkInfo msg_TERM (-1) 0; mkInfo 0x8000 (-1) 0] false true
    (srv_init []) false).
  vm_compute. reflexivity.
Defined.

(** C17: what the server does after a command that fails, in each mode of a
    message.  Without a batch ([BATCH_NONE], error mode 0) the failure does not
    affect the later commands.  In both modes of a batch, also in the one that
    is meant to continue, no handler runs any more: every later command is
    answered with [CSWP_CANCELLED], in order. *)
Theorem server_abort_semantics buffer mode info infos s res s1 :
  cmd_enc info <> msg_TERM ->
  (match funcMap buffer (cmd_enc info) with
   | Some f => f info
   | None => mret srv_UNSUPPORTED
   end) s = Some (res, s1) -> res <> 0 ->
  exists s2, responses s2 = responses s ++ encode_varint (cmd_enc info) ++ encode_varint res /\
    match mode with
    | BATCH_NONE =>
        run_infos buffer (batch_mode_id mode) (info :: infos) false true s =
          run_infos buffer (batch_mode_id mode) infos false true s2
    | BATCH_CONTINUE | BATCH_ABORT => exists s3,
        run_infos buffer (batch_mode_id mode) (info :: infos) false true s =
          Some (forallb (fun i => negb (cmd_enc i =? msg_TERM)) infos, s3) /\
        responses s3 = responses s2 ++
          concat ((fun i => encode_varint (cmd_enc i) ++ encode_varint srv_CANCELLED) <$> infos)
    end.
Proof.
  set (em := batch_mode_id mode).
  intros Ht Hf Hres.
  assert (s1 = s) as ->.
  { destruct (funcMap buffer (cmd_enc info)) as [f|] eqn:Hm.
    - apply (funcMap_one_response _ _ _ _ Hm) in Hf. by destruct (Z.eqb_spec res 0).
    - unfold mret, M_ret in Hf. congruence. }
  destruct (response_err_eq info res s) as (s2 & He & _ & _ & Hr).
  assert (Hi : run_info buffer em info false true s =
    Some ((if em =? 0 then false else true, true), s2)).
  { unfold run_info. rewrite (M_bind_eq _ _ _ _ _ Hf).
    change srv_SUCCESS with 0. destruct (Z.eqb_spec res 0); [done|].
    rewrite (M_bind_eq _ _ _ _ _ (M_bind_eq _ _ _ _ _ He)).
    by destruct (Z.eqb_spec (cmd_enc info) msg_TERM). }
  exists s2. split; [done|].
  assert (Hc : em <> 0 -> exists s3, run_infos buffer em (info :: infos) false true s =
      Some (forallb (fun i => negb (cmd_enc i =? msg_TERM)) infos, s3) /\
    responses s3 = responses s2 ++
      concat ((fun i => encode_varint (cmd_enc i) ++ encode_varint srv_CANCELLED) <$> infos)).
  { intros Hem. cbn [run_infos]. rewrite (M_bind_eq _ _ _ _ _ Hi).
    destruct (Z.eqb_spec em 0); [done|]. cbn [fst snd].
    destruct (run_infos_cancel buffer em infos true s2) as (s3 & H3 & Hr3).
    exists s3. by rewrite H3, Hr3. }
  destruct mode; [|by apply Hc..]. cbn [run_infos]. by rewrite (M_bind_eq _ _ _ _ _ Hi).
Qed.

Lemma server_abort_semantics_witness :
  exists s2, responses s2 = [128; 4; 36] /\
    exists s3,
      run_infos [] 1 [mkInfo msg_REG_LIST 0 0; mkInfo msg_DEVICE_CLOSE 0 0] false true (srv_init []) =
        Some (true, s3) /\
      responses s3 = responses s2 ++ [129; 2; 2].
Proof.
  apply (server_abort_semantics [] BATCH_CONTINUE (mkInfo msg_REG_LIST 0 0) [mkInfo msg_DEVICE_CLOSE 0 0]
    (srv_init []) srv_DEVICE_UNSUPPORTED (srv_init [])).
  - discriminate.
  - reflexivity.
  - discriminate.
Defined.
