(* ===== verification/ServerParse.v ===== *)
(** Client and server agree on requests: [process_incoming_data] of
    [client_utility/dummy_server_main.cpp] reads from a message of the client
    exactly the commands that were encoded, for the commands it understands. *)
From S2P Require Import Prelude Wire CswpTypes CswpBuffer Memory ClientCommands ClientState ClientTransact DummyServer.

(** ** Parsing steps *)

Section steps.
Context (buffer : list Z).

(** At every offset where the buffer goes on with [bs], [m] consumes [bs] and
    returns [a]. *)
Definition PReads {A} (m : PM A) (bs : list Z) (a : A) : Prop :=
  forall off rest, 0 <= off <= len buffer -> drop (Z.to_nat off) buffer = bs ++ rest ->
    m off = Some (a, off + len bs).

Lemma drop_next off bs rest :
  0 <= off -> drop (Z.to_nat off) buffer = bs ++ rest ->
  drop (Z.to_nat (off + len bs)) buffer = rest.
Proof.
  intros Ho Hd. rewrite Z2Nat.inj_add, <- drop_drop, Hd, Nat2Z.id by lia.
  apply drop_app_length.
Qed.

Lemma drop_bound off bs rest :
  0 <= off <= len buffer -> drop (Z.to_nat off) buffer = bs ++ rest ->
  off + len bs <= len buffer.
Proof.
  intros Ho Hd. apply (f_equal length) in Hd. rewrite length_drop, length_app in Hd. lia.
Qed.

Lemma preads_ret {A} (a : A) : PReads (mret a) [] a.
Proof. intros off rest Ho _. by rewrite Z.add_0_r. Qed.

Lemma preads_bind {A B} (m : PM A) (f : A -> PM B) bs1 bs2 a b :
  PReads m bs1 a -> PReads (f a) bs2 b -> PReads (m ≫= f) (bs1 ++ bs2) b.
Proof.
  intros H1 H2 off rest Ho Hd. rewrite <- app_assoc in Hd.
  rewrite (M_bind_eq _ _ _ _ _ (H1 off _ Ho Hd)).
  pose proof (drop_bound _ _ _ Ho Hd).
  rewrite (H2 _ rest) by (lia || apply drop_next; (done || lia)).
  by rewrite length_app, Nat2Z.inj_add, Z.add_assoc.
Qed.

(** One step of a run: what it leaves to parse. *)
Lemma preads_step {A} (m : PM A) bs a off rest :
  PReads m bs a -> 0 <= off <= len buffer -> drop (Z.to_nat off) buffer = bs ++ rest ->
  m off = Some (a, off + len bs) /\ 0 <= off + len bs <= len buffer /\
  drop (Z.to_nat (off + len bs)) buffer = rest.
Proof.
  intros Hm Ho Hd. pose proof (drop_bound _ _ _ Ho Hd). split_and!; [|lia|lia|].
  - by apply (Hm off rest).
  - apply drop_next; [lia|done].
Qed.

(** The last step of a chain of binds. *)
Lemma preads_end {A B} (m : PM A) (f : A -> PM B) bs a b :
  PReads m bs a -> PReads (f a) [] b -> PReads (m ≫= f) bs b.
Proof. intros H1 H2. rewrite <- (app_nil_r bs). by eapply preads_bind. Qed.

Lemma preads_repeat {A} (f : A -> list Z) (body : PM unit) (l : list A) :
  (forall x, x ∈ l -> PReads body (f x) tt) ->
  PReads (repeat_parse (length l) body) (concat (f <$> l)) tt.
Proof.
  induction l as [|x l IH]; intros Hb; [apply preads_ret|].
  rewrite fmap_cons. cbn [concat length repeat_parse]. eapply preads_bind.
  - apply Hb. set_solver.
  - apply IH. intros y Hy. apply Hb. set_solver.
Qed.

Hypothesis buffer_small : len buffer < 2 ^ 31.

Lemma preads_incoming {A} (f : list Z -> option (A * Z)) bs a :
  (forall rest, f (bs ++ rest) = Some (a, len bs)) -> PReads (incoming buffer f) bs a.
Proof.
  intros Hf off rest Ho Hd. unfold incoming. rewrite decide_True, Hd, Hf by lia.
  pose proof (drop_bound off bs rest Ho Hd). by rewrite u64_small by lia.
Qed.

Lemma incoming_varint_small v rest :
  0 <= v < 2 ^ 31 ->
  process_incoming_varint true (varint_enc v ++ rest) = Some (v, len (varint_enc v)).
Proof.
  intros Hv. rewrite process_incoming_varint_eq by (unfold is_u64; lia).
  by destruct (Z.ltb_spec v (2 ^ 31)); [|lia].
Qed.

Lemma preads_varint v : 0 <= v < 2 ^ 31 -> PReads (in_varint buffer) (varint_enc v) v.
Proof.
  intros Hv. apply preads_incoming. intros rest. by apply incoming_varint_small.
Qed.

Lemma preads_string s : len s < 2 ^ 31 -> PReads (in_string buffer) (string_enc s) s.
Proof.
  intros Hs. unfold string_enc. apply preads_incoming.
  intros rest. unfold process_incoming_string.
  rewrite <- app_assoc, incoming_varint_small, !length_app by lia.
  destruct (Z.ltb_spec (Z.of_nat (length (varint_enc (len s)) + (length s + length rest)))
    (len (varint_enc (len s)) + len s)); [lia|].
  rewrite !Nat2Z.id, drop_app_length, take_app_length. do 2 f_equal. lia.
Qed.

Lemma preads_uint32 v : is_u32 v -> PReads (in_uint32 buffer) (le_bytes 4 v) v.
Proof.
  intros Hv. apply preads_incoming. intros rest.
  pose proof (le_val_bytes 4 v) as Hval. pose proof (le_bytes_ok 4 v) as Hok.
  pose proof (length_le_bytes 4 v) as Hl.
  destruct (le_bytes 4 v) as [|b0 [|b1 [|b2 [|b3 [|]]]]]; try done.
  decompose_Forall. simpl. rewrite !u32_shiftl_byte by (done || lia). unfold is_byte in *.
  lor_fields. do 2 f_equal. change (256 ^ Z.of_nat 4) with (2 ^ 32) in Hval.
  rewrite Z.mod_small in Hval by done. simpl in Hval. lia.
Qed.

Lemma preads_uint64 v : is_u64 v -> PReads (in_uint64 buffer) (le_bytes 8 v) v.
Proof.
  intros Hv. apply preads_incoming. intros rest.
  pose proof (le_val_bytes 8 v) as Hval. pose proof (le_bytes_ok 8 v) as Hok.
  pose proof (length_le_bytes 8 v) as Hl.
  destruct (le_bytes 8 v) as [|b0 [|b1 [|b2 [|b3 [|b4 [|b5 [|b6 [|b7 [|]]]]]]]]]; try done.
  decompose_Forall. simpl. rewrite !u64_shiftl_byte by (done || lia). unfold is_byte in *.
  lor_fields. do 2 f_equal. change (256 ^ Z.of_nat 8) with (2 ^ 64) in Hval.
  rewrite Z.mod_small in Hval by done. simpl in Hval. lia.
Qed.

(** [offset += size] over [size] bytes of data. *)
Lemma preads_skip d : PReads (modify (fun off => u64 (off + len d))) d tt.
Proof.
  intros off rest Ho Hd. unfold modify. pose proof (drop_bound off d rest Ho Hd).
  by rewrite u64_small by lia.
Qed.
End steps.

(** ** Commands *)

(** The requests that the server parses as they were sent: those it knows
    (but [CSWP_GET_CONFIG] and [CSWP_MEM_POLL], whose parsing is wrong), with
    varints and string lengths below [2 ^ 31]. *)
Definition small (v : Z) : Prop := 0 <= v < 2 ^ 31.
Definition parse_ok (r : request) : Prop :=
  match r with
  | ReqInit v s => small v /\ small (len s)
  | ReqTerm | ReqGetDevices | ReqGetSystemDescription => True
  | ReqClientInfo s => small (len s)
  | ReqSetDevices ds =>
      small (len ds) /\ Forall (fun d => small (len d.1) /\ small (len d.2)) ds
  | ReqDeviceOpen n | ReqDeviceClose n | ReqGetDeviceCapabilities n | ReqRegList n => small n
  | ReqSetConfig n s v => small n /\ small (len s) /\ small (len v)
  | ReqRegRead n ids => small n /\ small (len ids) /\ Forall small ids
  | ReqMemRead n a s sz f => small n /\ is_u64 a /\ small s /\ small sz /\ small f
  | ReqMemWrite n a sz f d => small n /\ is_u64 a /\ small (len d) /\ small sz /\ small f
  | _ => False
  end.

(** The device number the server notes for a request. *)
Definition request_device (r : request) : Z :=
  match r with
  | ReqDeviceOpen n | ReqDeviceClose n | ReqGetDeviceCapabilities n | ReqRegList n
  | ReqSetConfig n _ _ | ReqRegRead n _ | ReqMemRead n _ _ _ _ | ReqMemWrite n _ _ _ _ => n
  | _ => -1
  end.

Section commands.
Context (buffer : list Z).
Hypothesis buffer_small : len buffer < 2 ^ 31.

(** One field of a request. *)
Ltac parse_field :=
  first [apply preads_varint | apply preads_string | apply preads_uint64
        | apply preads_skip]; unfold small in *; cbn [fst snd] in *; first [done | lia].

Lemma parse_command_reads r :
  parse_ok r ->
  PReads buffer (parse_command buffer (cmd_id (request_type r)))
    (fields_bytes (request_fields r)) (Some (request_device r)).
Proof.
  intros Hr.
  destruct r; simpl in Hr; try done; destruct_and?;
    cbn [cmd_id request_type request_fields request_device];
    rewrite ?fields_bytes_cons, ?devices_bytes, ?varints_bytes;
    cbv [parse_command parse_access_command msg_INIT msg_TERM msg_CLIENT_INFO
      msg_SET_DEVICES msg_GET_DEVICES msg_GET_SYSTEM_DESCRIPTION msg_DEVICE_OPEN
      msg_DEVICE_CLOSE msg_SET_CONFIG msg_GET_CONFIG msg_GET_DEVICE_CAPABILITIES
      msg_REG_LIST msg_REG_READ msg_REG_WRITE msg_MEM_READ msg_MEM_WRITE msg_MEM_POLL];
    cbn [Z.eqb Pos.eqb]; cbv iota.
  all: repeat (eapply preads_bind; [parse_field|]);
    rewrite ?Nat2Z.id, ?int32_small by (unfold small in *; lia); try apply preads_ret.
  - eapply preads_end; [|apply preads_ret]. apply preads_repeat. intros [d t] Hin.
    destruct (proj1 (list.Forall_forall _ _) H0 _ Hin).
    eapply preads_bind; [parse_field|]. eapply preads_end; [parse_field|apply preads_ret].
  - eapply preads_end; [|apply preads_ret]. apply preads_repeat. intros id Hin.
    pose proof (proj1 (list.Forall_forall _ _) H2 _ Hin).
    eapply preads_end; [parse_field|apply preads_ret].
Qed.

(** ** Messages *)

(** What the server notes for requests that start at [off]. *)
Fixpoint infos_at (off : Z) (rs : list request) : list cmdinfo :=
  match rs with
  | [] => []
  | r :: rs' =>
      mkInfo (cmd_id (request_type r)) (request_device r)
        (off + len (varint_enc (cmd_id (request_type r))))
      :: infos_at (off + len (request_bytes r)) rs'
  end.

Lemma parse_commands_reads rs : forall off rest,
  Forall parse_ok rs -> 0 <= off <= len buffer ->
  drop (Z.to_nat off) buffer = concat (request_bytes <$> rs) ++ rest ->
  parse_commands buffer (length rs) off =
    Some (infos_at off rs, off + len (concat (request_bytes <$> rs))).
Proof.
  induction rs as [|r rs IH]; intros off rest Hok Ho Hd.
  - simpl. by rewrite Z.add_0_r.
  - rewrite fmap_cons in *. cbn [concat length parse_commands infos_at] in *.
    apply Forall_cons_1 in Hok as [Hr Hok]. rewrite <- app_assoc in Hd.
    pose proof (drop_bound _ _ _ _ Ho Hd) as Hb.
    pose proof (drop_next _ _ _ _ (proj1 Ho) Hd) as Hd'.
    unfold request_bytes at 1 in Hd. rewrite fields_bytes_cons, <- app_assoc in Hd.
    set (t := request_type r) in *. cbn [field_bytes] in Hd. pose proof (cmd_id_range t) as Ht.
    destruct (preads_step _ _ _ _ _ _ (preads_varint _ buffer_small (cmd_id t) ltac:(lia)) Ho Hd)
      as (E1 & Ho2 & Hd2).
    rewrite (M_bind_eq _ _ _ _ _ E1). erewrite M_bind_eq by reflexivity.
    destruct (preads_step _ _ _ _ _ _ (parse_command_reads r Hr) Ho2 Hd2) as (E2 & _ & _).
    rewrite (M_bind_eq _ _ _ _ _ E2).
    assert (Hlen : off + len (varint_enc (cmd_id t)) + len (fields_bytes (request_fields r)) =
                   off + len (request_bytes r)).
    { unfold request_bytes. rewrite fields_bytes_cons, length_app. cbn [field_bytes]. fold t. lia. }
    assert (Ho' : 0 <= off + len (request_bytes r) <= len buffer) by lia.
    rewrite Hlen. erewrite M_bind_eq by (apply (IH _ rest Hok Ho' Hd')).
    rewrite int32_small by lia. rewrite length_app, Nat2Z.inj_add, Z.add_assoc. done.
Qed.
End commands.

(** Where the requests start in a message of [n] requests. *)
Definition body_offset (n : Z) : Z := 4 + len (varint_enc n) + 1.

Lemma parse_frame mode rs pad :
  let msg := frame (len rs) mode (concat (request_bytes <$> rs)) in
  Forall parse_ok rs -> len (msg ++ pad) < 2 ^ 31 -> small (len rs) ->
  process_incoming_data (msg ++ pad) 0 =
    Some ((infos_at (body_offset (len rs)) rs, batch_mode_id mode), len msg).
Proof.
  intros msg Hok Hl Hn. set (buffer := msg ++ pad) in *.
  set (body := concat (request_bytes <$> rs)) in *.
  assert (Hmsg : len msg = body_offset (len rs) + len body).
  { unfold msg, frame, body_offset. rewrite !length_app, length_le_bytes. simpl. lia. }
  assert (Hd0 : drop (Z.to_nat 0) buffer = le_bytes 4 (len msg) ++
    varint_enc (len rs) ++ [batch_mode_id mode] ++ body ++ pad).
  { rewrite Hmsg. unfold buffer, body_offset. change (Z.to_nat 0) with 0%nat.
    unfold msg, frame. rewrite drop_0, <- !app_assoc. do 2 f_equal.
    rewrite !length_app. simpl. lia. }
  assert (Hml : len msg <= len buffer) by (unfold buffer; rewrite length_app; lia).
  pose proof Hl as Hbl.
  assert (H0 : 0 <= 0 <= len buffer) by lia.
  assert (Hu : is_u32 (len msg)) by (unfold is_u32; lia).
  destruct (preads_step _ _ _ _ _ _ (preads_uint32 _ Hbl _ Hu) H0 Hd0) as (E1 & H1 & Hd1).
  destruct (preads_step _ _ _ _ _ _ (preads_varint _ Hbl _ Hn) H1 Hd1) as (E2 & H2 & Hd2).
  assert (Hm : forall rest, incoming_byte ([batch_mode_id mode] ++ rest) =
    Some (batch_mode_id mode, len [batch_mode_id mode])) by done.
  destruct (preads_step _ _ _ _ _ _ (preads_incoming _ Hbl incoming_byte _ _ Hm) H2 Hd2) as (E3 & H3 & Hd3).
  unfold process_incoming_data.
  rewrite (M_bind_eq _ _ _ _ _ E1), (M_bind_eq _ _ _ _ _ E2), (M_bind_eq _ _ _ _ _ E3), Nat2Z.id.
  erewrite M_bind_eq by (by eapply parse_commands_reads).
  cbv beta. unfold mret, M_ret.
  replace (0 + len (le_bytes 4 (len msg)) + len (varint_enc (len rs)) + len [batch_mode_id mode])
    with (body_offset (len rs)) by (rewrite length_le_bytes; unfold body_offset; simpl; lia).
  rewrite Hmsg. done.
Qed.

(** The fields of [CSWP_MEM_POLL], as the server consumes them. *)
Lemma mem_poll_cursor buffer n a sz f tries delay mask value off rest :
  len buffer < 2 ^ 31 -> 0 <= off <= len buffer -> length mask = length value ->
  is_u64 a -> Forall small [n; len mask; sz; f; tries] ->
  drop (Z.to_nat off) buffer =
    fields_bytes (request_fields (ReqMemPoll n a sz f tries delay mask value)) ++ rest ->
  parse_command buffer (cmd_id CSWP_MEM_POLL) off =
    Some (Some n, off + len (fields_bytes (request_fields (ReqMemPoll n a sz f tries delay mask value)))
                  - len (varint_enc delay)).
Proof.
  intros Hb Ho Hl Ha Hs Hd. decompose_Forall. cbn [request_fields] in *.
  rewrite !fields_bytes_cons in *. cbn [field_bytes] in *. change (fields_bytes []) with (@nil Z) in *.
  rewrite app_nil_r in *. set (tail := varint_enc delay ++ mask ++ value) in *.
  rewrite <- !app_assoc in Hd. pose proof (drop_bound _ _ _ _ Ho Hd) as _.
  change (parse_command buffer _) with
    (dev_id ← in_varint buffer; address ← in_uint64 buffer; size ← in_varint buffer;
     access_size ← in_varint buffer; flags ← in_varint buffer; interval ← in_varint buffer;
     modify (fun offset => u64 (offset + u64 (size * 2)));; mret (Some (int32 dev_id)) : PM (option Z)).
  assert (Hskip : len mask * 2 <= len tail)
    by (unfold tail; rewrite !length_app, Hl; lia).
  do 6 (match goal with
  | Hd : drop (Z.to_nat ?o) buffer = varint_enc ?v ++ _ |- _ =>
      destruct (preads_step _ _ _ _ _ _ (preads_varint _ Hb v ltac:(done)) Ho Hd) as (E1 & Ho1 & Hd1)
  | Hd : drop (Z.to_nat ?o) buffer = le_bytes 8 ?v ++ _ |- _ =>
      destruct (preads_step _ _ _ _ _ _ (preads_uint64 _ Hb v Ha) Ho Hd) as (E1 & Ho1 & Hd1)
  end; rewrite (M_bind_eq _ _ _ _ _ E1); clear Hd Ho E1; rename Ho1 into Ho, Hd1 into Hd).
  pose proof (drop_bound _ _ _ _ Ho Hd). unfold small in *.
  erewrite M_bind_eq by reflexivity. cbv beta.
  rewrite !u64_small, int32_small by (rewrite ?u64_small; lia).
  unfold mret, M_ret. do 2 f_equal. unfold tail. rewrite !length_app, Hl. lia.
Qed.

(** ** Properties *)

(** What the server notes of a request: its command, its device number, and
    where in the buffer its fields are. *)
Definition notes (buffer : list Z) (info : cmdinfo) (r : request) : Prop :=
  cmd_enc info = cmd_id (request_type r) /\ apnum info = request_device r /\
  exists rest, drop (Z.to_nat (data info)) buffer = fields_bytes (request_fields r) ++ rest.

Lemma infos_at_notes rs : forall buffer off rest, 0 <= off ->
  drop (Z.to_nat off) buffer = concat (request_bytes <$> rs) ++ rest ->
  Forall2 (notes buffer) (infos_at off rs) rs.
Proof.
  induction rs as [|r rs IH]; intros buffer off rest Ho Hd; [constructor|].
  rewrite fmap_cons in Hd. cbn [concat] in Hd. rewrite <- app_assoc in Hd. cbn [infos_at]. constructor.
  - split_and!; [done..|]. unfold request_bytes at 1 in Hd. rewrite fields_bytes_cons, <- app_assoc in Hd.
    eexists. exact (drop_next _ _ _ _ Ho Hd).
  - eapply (IH buffer _ rest); [lia|]. exact (drop_next _ _ _ _ Ho Hd).
Qed.

(** C8: the parser of the server ([process_incoming_data], which only splits a
    message and keeps for each request its command, its device number and a
    position) finds in every message of the client exactly the requests that
    were encoded, in order, and the error mode, and consumes exactly the
    message, whatever follows it in the buffer; the position it keeps for each
    request is the one at which the bytes of the fields of that request are, for
    the code that executes it.  This holds for every [request] of a
    command the server knows but [CSWP_GET_CONFIG] and [CSWP_MEM_POLL]
    ([parse_ok] is false of them and of the commands the server does not know;
    register writes are no [request]), with varint fields other than addresses
    below [2 ^ 31]. *)
Theorem server_parses_client_message mode rs pad :
  let msg := frame (len rs) mode (concat (request_bytes <$> rs)) in
  Forall parse_ok rs -> len (msg ++ pad) < 2 ^ 31 -> small (len rs) ->
  process_incoming_data (msg ++ pad) 0 =
    Some ((infos_at (body_offset (len rs)) rs, batch_mode_id mode), len msg) /\
  Forall2 (notes (msg ++ pad)) (infos_at (body_offset (len rs)) rs) rs.
Proof.
  intros msg Hok Hl Hn. split; [by apply parse_frame|].
  apply (infos_at_notes _ _ _ pad); [unfold body_offset; lia|].
  unfold msg, frame. rewrite <- !app_assoc. set (t := concat _ ++ pad).
  set (h := le_bytes 4 _). assert (Hh : length h = 4%nat) by apply length_le_bytes.
  rewrite !app_assoc. apply drop_app_length'. rewrite !length_app, Hh. unfold body_offset. simpl. lia.
Qed.

Lemma server_parses_client_message_witness :
  let msg := frame 2 BATCH_ABORT
    (concat (request_bytes <$> [ReqRegRead 2 [300; 7]; ReqMemWrite 1 4096 1 0 [5; 6]])) ++ [0; 0; 0] in
  process_incoming_data msg 0 = Some (([mkInfo 0x201 2 8; mkInfo 0x301 1 15], 2), 29) /\
  Forall2 (notes msg) [mkInfo 0x201 2 8; mkInfo 0x301 1 15]
    [ReqRegRead 2 [300; 7]; ReqMemWrite 1 4096 1 0 [5; 6]].
Proof.
  apply (server_parses_client_message BATCH_ABORT [ReqRegRead 2 [300; 7]; ReqMemWrite 1 4096 1 0 [5; 6]] [0; 0; 0]).
  - repeat constructor; simpl; lia.
  - vm_compute. reflexivity.
  - split; simpl; lia.
Defined.

(** The parser of the server does not know the number of tries of
    [CSWP_MEM_POLL]: it reads one varint where the client writes two, so after
    the request of the client the cursor is short of its end by the varint of
    the delay, and the next command of the message is read from the data. *)
Lemma server_mem_poll_short buffer n a sz f tries delay mask value off rest :
  len buffer < 2 ^ 31 -> 0 <= off <= len buffer -> length mask = length value ->
  is_u64 a -> Forall small [n; len mask; sz; f; tries] ->
  drop (Z.to_nat off) buffer =
    fields_bytes (request_fields (ReqMemPoll n a sz f tries delay mask value)) ++ rest ->
  parse_command buffer (cmd_id CSWP_MEM_POLL) off =
    Some (Some n, off + len (fields_bytes (request_fields (ReqMemPoll n a sz f tries delay mask value)))
                  - len (varint_enc delay)).
Proof. apply mem_poll_cursor. Qed.

Lemma server_mem_poll_short_witness :
  let buffer := [0; 0; 16; 0; 0; 0; 0; 0; 0; 0; 1; 1; 0; 5; 200; 1; 255; 3; 42] in
  parse_command buffer (cmd_id CSWP_MEM_POLL) 1 = Some (Some 0, 16).
Proof.
  apply (server_mem_poll_short [0; 0; 16; 0; 0; 0; 0; 0; 0; 0; 1; 1; 0; 5; 200; 1; 255; 3; 42]
    0 16 1 0 5 200 [255] [3] 1 [42]).
  - simpl. lia.
  - simpl. lia.
  - reflexivity.
  - unfold is_u64. lia.
  - repeat constructor; simpl; lia.
  - reflexivity.
Defined.
