(* ===== verification/EndToEnd.v ===== *)
(** Client and server together: the commands the test server answers
    ([served]), what it answers to a whole message, and a network that connects
    a client of [cswp_client.c] with the server of
    [client_utility/dummy_server_main.cpp] message by message. *)
From S2P Require Import Prelude Wire CswpTypes CswpBuffer Memory ClientCommands ClientState ClientComplete ClientTransact ClientApi ClientBatch ClientReading ClientReceive DummyServer ServerParse.

(** ** What the server answers *)

(** The body of the response to a request that is answered with exactly one
    successful response. *)
Definition served (r : request) : option (list Z) :=
  match r with
  | ReqInit _ _ =>
      Some (varint_enc 0x100 ++ string_enc (bytes_of "Vera CSWP Server") ++ varint_enc 0x100)
  | ReqGetDevices =>
      Some (varint_enc 3 ++ concat (string_enc <$>
        [bytes_of "APB Bridge"; bytes_of "memory"; bytes_of "System Memory Bridge";
         bytes_of "memory"; bytes_of "CTLP Bridge"; bytes_of "nvctlp"]))
  | ReqGetDeviceCapabilities n =>
      if n =? 0 then Some (varint_enc 0x203 ++ varint_enc 0)
      else if n =? 1 then Some (varint_enc 0x202)
      else if n =? 2 then Some (varint_enc 1 ++ varint_enc 0)
      else None
  | ReqRegList n => if (n =? 1) || (n =? 2) then Some (varint_enc 0) else None
  | ReqRegRead n ids =>
      if (n =? 0) || (n =? 2) then
        Some (varint_enc (len ids) ++ concat (le_bytes 4 <$> (rd_value n <$> ids)))
      else None
  | ReqMemWrite n _ _ _ _ => if (n =? 0) || (n =? 1) then Some [] else None
  | _ => None
  end.

(** [bs] was added as one response. *)
Definition adds (s s' : srv) (n : Z) (bs : list Z) : Prop :=
  responses s' = responses s ++ bs /\ nresp s' = nresp s + n /\
  (resp_buffer s <> None \/ 0 < n -> resp_buffer s' <> None) /\ sdf s' = sdf s.

Lemma respond_eq n chunks bs s :
  n = len (concat chunks) -> concat chunks = bs ->
  exists s', (rsp_bytes ← pack n chunks; response_add rsp_bytes;; mret 0) s = Some (0, s') /\
    adds s s' 1 bs.
Proof.
  intros Hn <-. destruct s as [[b|] k f];
    (erewrite M_bind_eq by (by apply pack_ok)); eexists; split; done.
Qed.

Lemma length_words vals : length (concat (le_bytes 4 <$> vals)) = (4 * length vals)%nat.
Proof.
  induction vals as [|v vals IH]; [done|].
  rewrite fmap_cons. cbn [concat]. rewrite length_app, length_le_bytes, IH. simpl. lia.
Qed.

(** The parsing that [fudge_get_dev_reg] does itself. *)
Section handler.
Context (buffer : list Z).
Hypothesis buffer_small : len buffer < 2 ^ 31.

Lemma preads_info_skip v : 0 <= v -> PReads buffer (info_varint buffer false) (varint_enc v) 0.
Proof.
  intros Hv. apply preads_incoming; [done|]. intros rest. unfold process_incoming_varint.
  rewrite skip_varint_loop by (lia || by apply varint_enc_wf). done.
Qed.

Lemma preads_rd_values n ids :
  Forall small ids ->
  PReads buffer (rd_values_loop buffer n (length ids)) (concat (varint_enc <$> ids))
    (rd_value n <$> ids).
Proof.
  induction 1 as [|id ids Hid Hids IH]; [apply preads_ret|].
  rewrite !fmap_cons. cbn [concat length rd_values_loop].
  eapply preads_bind; [by apply preads_varint|].
  eapply preads_end; [exact IH|apply preads_ret].
Qed.

Lemma get_dev_reg_served n ids off rest s :
  n = 0 \/ n = 2 -> small (len ids) -> Forall small ids -> 0 <= off <= len buffer ->
  drop (Z.to_nat off) buffer = fields_bytes (request_fields (ReqRegRead n ids)) ++ rest ->
  exists s', fudge_get_dev_reg buffer (mkInfo msg_REG_READ n off) s = Some (0, s') /\
    adds s s' 1 (response_bytes CSWP_REG_READ
      (ROk (varint_enc (len ids) ++ concat (le_bytes 4 <$> (rd_value n <$> ids))))).
Proof.
  intros Hn Hl Hids Ho Hd. cbn [request_fields] in Hd.
  rewrite !fields_bytes_cons, varints_bytes in Hd.
  assert (Hp : PReads buffer ((info_varint buffer false;;
            count ← info_varint buffer true;
            rd_values ← rd_values_loop buffer n (Z.to_nat count);
            mret (count, rd_values)) : PM (Z * list Z))
    (varint_enc n ++ varint_enc (len ids) ++ concat (varint_enc <$> ids))
    (len ids, rd_value n <$> ids)).
  { eapply preads_bind; [apply preads_info_skip; lia|].
    eapply preads_bind; [exact (preads_varint buffer buffer_small (len ids) Hl)|]. rewrite Nat2Z.id.
    eapply preads_end; [by apply preads_rd_values|apply preads_ret]. }
  unfold fudge_get_dev_reg. cbn [apnum data cmd_enc].
  destruct (Z.eqb_spec n 0), (Z.eqb_spec n 2); try lia; cbn [negb andb];
    rewrite (Hp off rest Ho Hd).
  all: apply respond_eq; cbn [concat]; rewrite app_nil_r, (encode_varint_eq (len ids))
    by (unfold is_u64, small in *; lia).
  1, 3: rewrite !length_app, length_words, length_fmap; unfold errcode0; simpl; lia.
  all: done.
Qed.

Lemma served_handler r body off rest s :
  served r = Some body -> parse_ok r -> 0 <= off <= len buffer ->
  drop (Z.to_nat off) buffer = fields_bytes (request_fields r) ++ rest ->
  let info := mkInfo (cmd_id (request_type r)) (request_device r) off in
  exists f s', funcMap buffer (cmd_enc info) = Some f /\ f info s = Some (0, s') /\
    adds s s' 1 (response_bytes (request_type r) (ROk body)).
Proof.
  intros Hs Hr Ho Hd info. cut (exists s', (match funcMap buffer (cmd_enc info) with
    | Some f => f info | None => mret srv_UNSUPPORTED end) s = Some (0, s') /\
    adds s s' 1 (response_bytes (request_type r) (ROk body))).
  { intros (s' & He & ?). destruct (funcMap buffer (cmd_enc info)) as [f|]; [|done].
    by exists f, s'. }
  destruct r as [| | | | | | | | | |n|n|n ids| |n| | | | |]; cbn [served] in Hs; try done;
    unfold info; clear info; cbn [request_type request_device cmd_enc cmd_id] in *.
  - change (funcMap buffer _) with (Some fudge_init_cswp). apply respond_eq; [done|].
    simplify_eq. done.
  - change (funcMap buffer _) with (Some fudge_get_devices). apply respond_eq; [done|].
    simplify_eq. done.
  - change (funcMap buffer _) with (Some fudge_get_dev_cap). unfold fudge_get_dev_cap.
    cbn [apnum cmd_enc].
    destruct (Z.eqb_spec n 0), (Z.eqb_spec n 1), (Z.eqb_spec n 2); try lia; simplify_eq;
      apply respond_eq; done.
  - change (funcMap buffer _) with (Some fudge_get_reg_list). unfold fudge_get_reg_list.
    cbn [apnum cmd_enc].
    revert Hs. destruct ((n =? 1) || (n =? 2)); intros; simplify_eq. apply respond_eq; done.
  - change (funcMap buffer _) with (Some (fudge_get_dev_reg buffer)). destruct Hr as (? & ? & ?).
    case_match eqn:Hn; simplify_eq. apply get_dev_reg_served with rest; try done.
    destruct (Z.eqb_spec n 0), (Z.eqb_spec n 2); [auto..|done].
  - change (funcMap buffer _) with (Some fudge_set_dev_mem). unfold fudge_set_dev_mem.
    cbn [apnum cmd_enc].
    destruct (Z.eqb_spec n 0), (Z.eqb_spec n 1); simplify_eq/=; apply respond_eq; done.
Qed.

(** The responses to all the commands of a message. *)
Definition answer (r : request) (body : list Z) : list Z :=
  response_bytes (request_type r) (ROk body).

Lemma served_not_term r body : served r = Some body -> cmd_id (request_type r) <> msg_TERM.
Proof. by destruct r. Qed.

Lemma run_info_served em r body off rest s :
  served r = Some body -> parse_ok r -> 0 <= off <= len buffer ->
  drop (Z.to_nat off) buffer = fields_bytes (request_fields r) ++ rest ->
  exists s', run_info buffer em (mkInfo (cmd_id (request_type r)) (request_device r) off)
               false true s = Some ((false, true), s') /\ adds s s' 1 (answer r body).
Proof.
  intros Hs Hr Ho Hd.
  destruct (served_handler r body off rest s Hs Hr Ho Hd) as (f & s' & Hf & He & Ha).
  exists s'. split; [|done]. unfold run_info. cbn [cmd_enc] in *. rewrite Hf.
  rewrite (M_bind_eq _ _ _ _ _ He).
  change (0 =? srv_SUCCESS) with true. cbv iota. rewrite M_bind_ret.
  destruct (Z.eqb_spec (cmd_id (request_type r)) msg_TERM) as [Ht|]; [|done].
  by destruct (served_not_term r body Hs).
Qed.

Lemma adds_trans s1 s2 s3 n m b c :
  0 <= n -> 0 <= m -> adds s1 s2 n b -> adds s2 s3 m c -> adds s1 s3 (n + m) (b ++ c).
Proof.
  intros ? ? (Hr1 & Hn1 & ? & Hs1) (Hr2 & Hn2 & ? & Hs2). unfold adds.
  rewrite Hr2, Hr1, Hn2, Hn1, Hs2, app_assoc. split_and!; [done|lia| |done].
  intros [?|?]; [by auto|]. destruct (decide (0 < m)); [by auto|]. 
  assert (0 < n) by lia. auto.
Qed.

Lemma run_infos_served em rs bodies : forall off rest s,
  Forall2 (fun r body => served r = Some body) rs bodies -> Forall parse_ok rs ->
  0 <= off <= len buffer ->
  drop (Z.to_nat off) buffer = concat (request_bytes <$> rs) ++ rest ->
  exists s', run_infos buffer em (infos_at off rs) false true s = Some (true, s') /\
    adds s s' (len rs) (concat (zip_with answer rs bodies)).
Proof.
  intros off rest s Hs. revert off s.
  induction Hs as [|r body rs bodies Hb Hs IH]; intros off s Hok Ho Hd.
  - exists s. split; [done|]. split_and!; simpl; rewrite ?app_nil_r; [done|lia| |done]. intros [?|?]; [done|lia].
  - apply Forall_cons_1 in Hok as [Hr Hok]. rewrite fmap_cons in Hd.
    cbn [concat infos_at zip_with] in *. rewrite <- app_assoc in Hd.
    pose proof (drop_bound _ _ _ _ Ho Hd) as Hbd.
    pose proof (drop_next _ _ _ _ (proj1 Ho) Hd) as Hd'.
    unfold request_bytes at 1 in Hd. rewrite fields_bytes_cons, <- app_assoc in Hd.
    cbn [field_bytes] in Hd. set (h := varint_enc (cmd_id (request_type r))) in *.
    pose proof (drop_bound _ _ _ _ Ho Hd) as Hb2.
    pose proof (drop_next _ _ _ _ (proj1 Ho) Hd) as Hd2.
    destruct (run_info_served em r body (off + len h) _ s Hb Hr ltac:(lia) Hd2)
      as (s1 & H1 & Ha1).
    destruct (IH (off + len (request_bytes r)) s1 Hok ltac:(lia) Hd') as (s2 & H2 & Ha2).
    exists s2. cbn [run_infos]. rewrite (M_bind_eq _ _ _ _ _ H1). split; [exact H2|].
    rewrite length_cons. replace (Z.of_nat (S (length rs))) with (1 + len rs) by lia.
    by apply adds_trans with s1; [lia|lia|..].
Qed.
End handler.

Lemma request_bytes_ne r : 1 <= len (request_bytes r).
Proof.
  unfold request_bytes. rewrite fields_bytes_cons, length_app. cbn [field_bytes].
  pose proof (varint_enc_length (cmd_id (request_type r))). lia.
Qed.

Lemma requests_length rs : len rs <= len (concat (request_bytes <$> rs)).
Proof.
  induction rs as [|r rs IH]; [done|]. rewrite fmap_cons. cbn [concat].
  rewrite length_app, length_cons. pose proof (request_bytes_ne r). lia.
Qed.

Lemma drop_frame n mode body pad :
  drop (Z.to_nat (body_offset n)) (frame n mode body ++ pad) = body ++ pad.
Proof.
  unfold frame. rewrite !(app_assoc (varint_enc n)), (app_assoc (le_bytes 4 _)), <- app_assoc.
  replace (Z.to_nat (body_offset n)) with (length (le_bytes 4
    (4 + len ((varint_enc n ++ [batch_mode_id mode]) ++ body)) ++ varint_enc n ++ [batch_mode_id mode])).
  - apply drop_app_length.
  - rewrite !length_app, length_le_bytes. unfold body_offset. simpl. lia.
Qed.

Lemma server_step_served rs bodies mode s :
  let msg := frame (len rs) mode (concat (request_bytes <$> rs)) in
  let resp := concat (zip_with answer rs bodies) in
  Forall2 (fun r body => served r = Some body) rs bodies -> Forall parse_ok rs ->
  rs <> [] -> resp_buffer s = None -> len msg <= 4095 -> len resp < 2 ^ 31 ->
  exists s', server_step msg s = Some ((Some (rframe (len rs) resp), true), s') /\
    resp_buffer s' = None /\ sdf s' = sdf s.
Proof.
  intros msg resp Hs Hok Hne Hnone Hl Hrl.
  pose proof (requests_length rs) as Hrs.
  pose proof (frame_length (len rs) mode (concat (request_bytes <$> rs))) as Hfl. fold msg in Hfl.
  pose proof (varint_enc_length (len rs)) as Hvl.
  assert (Hpos : 0 < len rs) by (destruct rs; [done|simpl; lia]).
  unfold server_step. change (SRV_BUFFER - 1) with 4095. rewrite Z.min_l by lia.
  destruct (Z.leb_spec (len msg) 6); [lia|].
  rewrite Nat2Z.id, firstn_all.
  set (pad := replicate _ 0). 
  assert (Hpad : len (msg ++ pad) = 4096).
  { unfold pad. rewrite length_app, length_replicate. change SRV_BUFFER with 4096. lia. }
  pose proof (parse_frame mode rs pad Hok) as Hparse. fold msg in Hparse.
  rewrite Hparse by (lia || (unfold small; lia)).
  assert (Ho : 0 <= body_offset (len rs) <= len (msg ++ pad)) by (unfold body_offset; lia).
  destruct (run_infos_served (msg ++ pad) ltac:(lia) (batch_mode_id mode) rs bodies
    (body_offset (len rs)) pad s Hs Hok Ho (drop_frame _ _ _ _))
    as (s1 & Hrun & Hr1 & Hn1 & Hne1 & Hsdf1).
  rewrite (M_bind_eq _ _ _ _ _ Hrun).
  destruct s1 as [[b|] k f]; [|by destruct Hne1; [right|]].
  unfold responses, nresp in Hr1, Hn1. rewrite Hnone in Hr1, Hn1. simpl in Hr1, Hn1, Hsdf1. subst b k f.
  exists (mkSrv None (len rs) (sdf s)). split; [|done].
  unfold response_send, rframe. fold resp.
  erewrite M_bind_eq by reflexivity. unfold mret, M_ret.
  cbn [resp_buffer resp_buffer_nresp sdf]. rewrite !Z.add_0_l.
  rewrite encode_varint_eq by (unfold is_u64; lia).
  rewrite encode_uint32_eq, length_app by (unfold is_u32; lia).
  do 6 f_equal. lia.
Qed.

(** ** The network

    [t_send] runs the server on the message; what it sends back waits until the
    client receives it.  [net_up] becomes false when the server stops, or when
    a message makes its behaviour undefined. *)
Record network := mkNet {
  net_srv : srv;
  net_inbox : list (list Z);
  net_up : bool;
}.

#[export] Instance network_transport : Transport network := {
  t_connect := None;
  t_disconnect := None;
  t_send d n :=
    if net_up n then
      match server_step d (net_srv n) with
      | Some ((packet, running), s) =>
          (TRet CSWP_SUCCESS, mkNet s (net_inbox n ++ option_list packet) running)
      | None => (TRet CSWP_SUCCESS, mkNet (net_srv n) (net_inbox n) false)
      end
    else (TThrow CSWP_COMMS (bytes_of "send failed"), n);
  t_receive k n :=
    match net_inbox n with
    | m :: ms => (TRet CSWP_SUCCESS, Some (take (Z.to_nat k) m), mkNet (net_srv n) ms (net_up n))
    | [] => (TThrow CSWP_COMMS (bytes_of "receive failed"), None, n)
    end;
  t_receive_async _ n := (TRet CSWP_ASYNC_MSG_END, None, n);
}.

(** Connected, with nothing under way. *)
Definition idle (n : network) : Prop :=
  net_up n = true /\ net_inbox n = [] /\ resp_buffer (net_srv n) = None.

(** ** The interface

    A transport behind which the test server listens: while it is linked, a
    message of served requests is answered with their responses.  [link_after]:
    what else an exchange may change. *)
Class ServerLink (T : Type) `{Transport T} := {
  linked : T -> Prop;
  link_after : relation T;
  link_again t t' : link_after t t' -> linked t';
  link_exchange t mode rs bodies :
    linked t -> Forall2 (fun r body => served r = Some body) rs bodies ->
    Forall parse_ok rs -> rs <> [] ->
    let msg := frame (len rs) mode (concat (request_bytes <$> rs)) in
    let resp := rframe (len rs) (concat (zip_with answer rs bodies)) in
    len msg <= 4095 -> len resp <= CSWP_REQ_RSP_BUFFER_SIZE ->
    exists t1 t2, t_send msg t = (TRet CSWP_SUCCESS, t1) /\
      t_receive CSWP_REQ_RSP_BUFFER_SIZE t1 = (TRet CSWP_SUCCESS, Some resp, t2) /\ link_after t t2;
}.

Lemma rframe_small n resp : len (rframe n resp) <= CSWP_REQ_RSP_BUFFER_SIZE -> len resp < 2 ^ 31.
Proof. change CSWP_REQ_RSP_BUFFER_SIZE with 16384. unfold rframe. rewrite !length_app. lia. Qed.

#[export] Instance network_link : ServerLink network.
Proof.
  refine {| linked := idle; link_after := fun _ n => idle n |}; [done|]. intros n mode rs bodies (Hup & Hin & Hnone) Hs Hok Hne msg resp Hl Hr.
  destruct (server_step_served rs bodies mode (net_srv n) Hs Hok Hne Hnone Hl (rframe_small _ _ Hr))
    as (s' & Hstep & Hnone' & _).
  exists (mkNet s' [resp] true), (mkNet s' [] true). unfold t_send, t_receive, network_transport.
  rewrite Hup, Hin. fold msg in Hstep. rewrite Hstep. split; [done|]. split; [|done].
  cbn [net_inbox net_srv net_up]. change CSWP_REQ_RSP_BUFFER_SIZE with 16384 in *. by rewrite take_ge by lia.
Defined.

Lemma rd_value_u32 n id : is_u32 (rd_value n id).
Proof. unfold rd_value, is_u32. repeat case_match; lia. Qed.

Lemma varints_length ids : len ids <= len (concat (varint_enc <$> ids)).
Proof.
  induction ids as [|id ids IH]; [done|]. rewrite fmap_cons. cbn [concat].
  rewrite length_app, length_cons. pose proof (varint_enc_length id). lia.
Qed.

Section link.
Context {T : Type} `{ServerLink T}.
Implicit Types w : world T.

(** Sending a message of served requests and processing what comes back. *)
Lemma exchange ops w p l bodies mode m' :
  let resp := concat (zip_with answer l.*1 bodies) in
  priv w = Some p -> priv_ok p -> num_cmds p = len l -> pending_responses p = nodes l ->
  linked (transport w) ->
  Forall2 (fun r body => served r = Some body) l.*1 bodies -> Forall parse_ok l.*1 -> l <> [] ->
  len (total l) <= 4095 - 15 -> len (rframe (len l) resp) <= CSWP_REQ_RSP_BUFFER_SIZE ->
  (ops = None \/ valid (memory w) ops 1) ->
  answers ops 0 (nodes l) resp (start ops (memory w)) m' ->
  exists w' p', (call_send (frame (len l) mode (total l)) ≫= after_send ops) w =
      Some (CSWP_SUCCESS, w') /\
    priv w' = Some p' /\ priv_ok p' /\ batch_mode p' = batch_mode p /\
    memory w' = m' /\ link_after (transport w) (transport w').
Proof.
  intros resp Hp Hok Hn Hpd Hlink Hs Hpo Hne Hl Hrl Hops Ha.
  assert (Hlen : len l.*1 = len l) by (by rewrite length_fmap).
  pose proof (varint_enc_length (len l)) as Hv.
  destruct (link_exchange (transport w) mode l.*1 bodies Hlink Hs Hpo) as (t1 & t2 & H1 & H2 & Hl2).
  { by destruct l. } { rewrite frame_length, Hlen. unfold total in Hl. lia. } { by rewrite Hlen. }
  rewrite Hlen in H1, H2.
  destruct (exchange_stored ops w p l mode resp t1 t2 m') as (w' & p' & Hx & Hp' & Hok' & Hb & Hm & Ht); try done.
  exists w', p'. by rewrite Ht.
Qed.

(** A single command against the server. *)
Lemma served_command w p r c body m' :
  priv w = Some p -> priv_ok p -> batch_mode p = BATCH_NONE -> linked (transport w) ->
  request_ok r -> parse_ok r -> served r = Some body ->
  len (request_bytes r) <= 4095 - 15 -> len body <= 16384 - 32 ->
  complete_ok c (memory w) body m' ->
  exists w' p', run_command r c w = Some (CSWP_SUCCESS, w') /\
    priv w' = Some p' /\ priv_ok p' /\ batch_mode p' = BATCH_NONE /\
    memory w' = m' /\ link_after (transport w) (transport w').
Proof.
  intros Hp Hok Hb Hlink Hro Hpo Hs Hl Hbl Hc.
  destruct (command_eq w p r c Hp Hok Hb Hro ltac:(lia)) as (p' & Hok' & Hn' & Hb' & Hpd' & ->).
  assert (Hresp : concat (zip_with answer [(r, c)].*1 [body]) =
    response_bytes (request_type r) (ROk body) ++ []) by done.
  assert (Htot : total [(r, c)] = request_bytes r) by (unfold total; simpl; by rewrite app_nil_r).
  destruct (exchange None (set_priv (Some p') w) p' [(r, c)] [body] BATCH_NONE m')
    as (w' & p2 & Hx & Hp2 & Hok2 & Hb2 & Hm & Hi); try done; rewrite ?Hresp, ?Htot; try done.
  - by repeat constructor.
  - by repeat constructor.
  - change CSWP_REQ_RSP_BUFFER_SIZE with 16384. unfold rframe, response_bytes.
    rewrite !length_app, length_le_bytes.
    pose proof (varint_enc_length (cmd_id (request_type r))).
    pose proof (varint_enc_length 0). pose proof (varint_enc_length (len [(r, c)])).
    simpl length. lia.
  - by left.
  - eapply (answers_cons None 0 {| pr_type := request_type r; pr_complete := c |}); [exact Hc|by left|].
    apply answers_nil.
  - rewrite Htot in Hx. exists w', p2. by rewrite Hb2, Hb'.
Qed.

(** A batch over any transport behind which the server listens. *)
Lemma batch_over_link w p abort l bodies ops m' :
  let resp := concat (zip_with answer l.*1 bodies) in
  priv w = Some p -> priv_ok p -> batch_mode p = BATCH_NONE -> linked (transport w) ->
  Forall request_ok l.*1 -> Forall parse_ok l.*1 ->
  Forall2 (fun r body => served r = Some body) l.*1 bodies -> l <> [] ->
  len (total l) <= 4095 - 15 -> len (rframe (len l) resp) <= CSWP_REQ_RSP_BUFFER_SIZE ->
  (ops = None \/ valid (memory w) ops 1) ->
  answers ops 0 (nodes l) resp (start ops (memory w)) m' ->
  exists w', (cswp_batch_begin abort;; xs ← run_commands l; r ← cswp_batch_end ops; mret (xs, r)) w =
      Some ((replicate (length l) CSWP_SUCCESS, CSWP_SUCCESS), w') /\
    memory w' = m' /\ counts ops (len l) m' /\ linked (transport w').
Proof.
  intros resp Hp Hok Hb Hlink Hro Hpo Hs Hne Hl Hrl Hops Ha.
  assert (Hll : 0 < len l < 2 ^ 31).
  { pose proof (requests_length l.*1) as Hr. rewrite length_fmap in Hr.
    unfold total in Hl. destruct l; [done|]. simpl in *. lia. }
  destruct (batch_eq w p abort l ops Hp Hok Hb Hro ltac:(lia) Hll)
    as (p' & Hok' & Hn' & Hpd' & ->).
  destruct (exchange ops (set_priv (Some p') w) p' l bodies
    (if abort then BATCH_ABORT else BATCH_CONTINUE) m')
    as (w' & q & Hx & Hq & _ & _ & Hm & Hi); try done.
  apply link_again in Hi. exists (set_priv (Some (set_batch_mode BATCH_NONE q)) w'). split_and!; try done.
  - unfold mbind, M_bind in *. destruct (call_send _ _) as [[res w1]|]; [|done].
    rewrite Hx, (upd_priv_eq _ _ q Hq). done.
  - rewrite <- Hm. replace (len l) with (0 + len (nodes l)) by (unfold nodes; rewrite length_fmap; lia).
    rewrite Hm. apply (answers_count _ _ _ _ _ _ Ha); [|lia|unfold nodes; rewrite length_fmap; lia].
    by apply start_counts.
Qed.

Lemma ids_small n ids : len (request_bytes (ReqRegRead n ids)) <= 4095 - 15 -> len ids <= 4076.
Proof.
  intros Hl. unfold request_bytes in Hl. cbn [request_fields] in Hl.
  rewrite !fields_bytes_cons, !length_app, varints_bytes in Hl.
  pose proof (varints_length ids). pose proof (varint_enc_length n).
  pose proof (varint_enc_length (len ids)). cbn [field_bytes] in Hl.
  change (length (varint_enc (cmd_id _))) with 2%nat in Hl. lia.
Qed.

(** Reading registers of device 0 or 2, as a command. *)
Lemma reg_read_served w p n ids q size :
  priv w = Some p -> priv_ok p -> batch_mode p = BATCH_NONE -> linked (transport w) ->
  n = 0 \/ n = 2 -> Forall small ids -> len (request_bytes (ReqRegRead n ids)) <= 4095 - 15 ->
  len ids <= size -> valid (memory w) q (len ids) ->
  exists w' p', run_command (ReqRegRead n ids)
      (Some (Creg_read (Build_cswp_reg_read_rsp_data q size))) w = Some (CSWP_SUCCESS, w') /\
    priv w' = Some p' /\ priv_ok p' /\ batch_mode p' = BATCH_NONE /\
    memory w' = put_mem q (rd_value n <$> ids) (memory w) /\ link_after (transport w) (transport w').
Proof.
  intros Hp Hok Hb Hlink Hn Hids Hl Hsz Hv.
  pose proof (ids_small n ids Hl) as Hln.
  assert (Hsv : served (ReqRegRead n ids) =
    Some (varint_enc (len ids) ++ concat (le_bytes 4 <$> (rd_value n <$> ids))))
    by (by destruct Hn as [-> | ->]).
  eapply served_command; try done.
  - split; [|lia]. cbn [request_fields]. do 2 (constructor; [simpl; unfold is_u64; lia|]).
    apply Forall_fmap. eapply Forall_impl; [|exact Hids]. unfold small. simpl. unfold is_u64. lia.
  - simpl. unfold small. split_and!; try done; lia.
  - pose proof (varint_enc_length (len ids)).
    rewrite length_app, length_words, length_fmap. lia.
  - rewrite <- (length_fmap (rd_value n) ids).
    apply (ok_reg_read (Build_cswp_reg_read_rsp_data q size)); rewrite ?length_fmap; simpl; try lia; try done.
    apply Forall_fmap, Forall_true. intros id. apply rd_value_u32.
Qed.

(** Reading registers of device 0 or 2 of the server, over any transport
    behind which it listens, through the public function, outside a batch, returns [CSWP_SUCCESS] and stores the values that
    the server has for them in the array of the caller, in order; nothing else
    in the memory changes, and both sides are ready for the next command. *)
Lemma reg_read_end_to_end w p n ids q size :
  priv w = Some p -> priv_ok p -> batch_mode p = BATCH_NONE -> linked (transport w) ->
  n = 0 \/ n = 2 -> Forall small ids -> len (request_bytes (ReqRegRead n ids)) <= 4095 - 15 ->
  len ids <= size -> valid (memory w) q (len ids) ->
  exists w', cswp_device_reg_read n (len ids) ids q size w = Some (CSWP_SUCCESS, w') /\
    memory w' = put_mem q (rd_value n <$> ids) (memory w) /\ linked (transport w').
Proof.
  intros Hp Hok Hb Hlink Hn Hids Hl Hsz Hv.
  destruct (reg_read_served w p n ids q size Hp Hok Hb Hlink Hn Hids Hl Hsz Hv) as (w' & p' & E & _ & _ & _ & Hm & Hi%link_again).
  exists w'. rewrite reg_read_is_command; [done|].
  pose proof (ids_small n ids Hl). lia.
Qed.
End link.

(** ** Properties *)


(** A client connected to a fresh server. *)
Definition ex_net : network := mkNet (srv_init []) [] true.


Lemma reg_read_end_to_end_witness :
  exists w', cswp_device_reg_read 0 2 [0xdfc; 0x10] (Some (0%nat, 0)) 4
      (ex_world fresh_priv ex_mem ex_net) = Some (CSWP_SUCCESS, w') /\
    memory w' = put_mem (Some (0%nat, 0)) [0x44770006; 0x01020304] ex_mem /\
    linked (transport w').
Proof.
  apply (reg_read_end_to_end (ex_world fresh_priv ex_mem ex_net) fresh_priv 0 [0xdfc; 0x10]
    (Some (0%nat, 0)) 4).
  - reflexivity.
  - exact fresh_priv_ok.
  - reflexivity.
  - repeat split.
  - by left.
  - repeat constructor; lia.
  - vm_compute. discriminate.
  - simpl. lia.
  - exists [0; 0; 0; 0]. split; [reflexivity|simpl; lia].
Defined.

(** The server reads the eight bytes of the address of a memory read as a
    varint, so it takes the size from what follows: when the two low bytes of
    the address are below 128 it answers with as many bytes as the second one
    says, whatever size was asked for. *)
Lemma server_mem_read_wrong_size buffer n a size acc flags off rest s :
  len buffer < 2 ^ 31 -> 0 <= off <= len buffer -> n = 0 \/ n = 1 -> is_u64 a ->
  a mod 256 < 128 -> (a / 256) mod 256 < 128 ->
  drop (Z.to_nat off) buffer =
    fields_bytes (request_fields (ReqMemRead n a size acc flags)) ++ rest ->
  let k := (a / 256) mod 256 in
  exists s', fudge_get_dev_mem buffer (mkInfo (cmd_id CSWP_MEM_READ) n off) s = Some (0, s') /\
    adds s s' 1 (response_bytes CSWP_MEM_READ
      (ROk (varint_enc k ++ (Z.of_nat <$> seq 1 (Z.to_nat k))))).
Proof.
  intros Hb Ho Hn Ha H1 H2 Hd k. cbn [request_fields] in Hd.
  rewrite !fields_bytes_cons in Hd. cbn [field_bytes] in Hd.
  assert (Hk : 0 <= k < 128) by (unfold k; pose proof (Z.mod_pos_bound (a / 256) 256); lia).
  assert (Hp : PReads buffer ((info_varint buffer false;; address ← info_varint buffer true;
      info_varint buffer true) : PM Z)
    (varint_enc n ++ varint_enc (a mod 256) ++ varint_enc k) k).
  { pose proof (Z.mod_pos_bound a 256).
    eapply preads_bind; [apply preads_info_skip; [done|lia]|].
    eapply preads_bind; [eapply (preads_varint buffer Hb (a mod 256)); unfold small; lia|].
    apply (preads_varint buffer Hb k). lia. }
  assert (Hd' : exists rest', drop (Z.to_nat off) buffer =
    (varint_enc n ++ varint_enc (a mod 256) ++ varint_enc k) ++ rest').
  { rewrite Hd, (varint_enc_small (a mod 256)), (varint_enc_small k)
      by (pose proof (Z.mod_pos_bound a 256); lia).
    change (le_bytes 8 a) with ([a mod 256] ++ [k] ++ le_bytes 6 (a / 256 / 256)).
    exists (le_bytes 6 (a / 256 / 256) ++ varint_enc size ++ varint_enc acc ++
      varint_enc flags ++ fields_bytes [] ++ rest).
    by rewrite <- !app_assoc. }
  destruct Hd' as [rest' Hd'].
  assert (Hbytes : (fun i => u8 (Z.of_nat i)) <$> seq 1 (Z.to_nat k) =
                   Z.of_nat <$> seq 1 (Z.to_nat k)).
  { apply list_fmap_ext. intros i x Hx. apply lookup_seq in Hx as [-> ?]. apply u8_small. lia. }
  unfold fudge_get_dev_mem. cbn [apnum data cmd_enc].
  destruct (Z.eqb_spec n 0), (Z.eqb_spec n 1); try lia; cbn [negb andb];
    rewrite (Hp off rest' Ho Hd').
  all: apply respond_eq; cbn [concat]; rewrite app_nil_r, (encode_varint_eq k), Hbytes
    by (unfold is_u64; lia).
  1, 3: rewrite !length_app; unfold errcode0; simpl; lia.
  all: done.
Qed.

Lemma server_mem_read_wrong_size_witness :
  exists s', fudge_get_dev_mem [0; 1; 16; 2; 0; 0; 0; 0; 0; 0; 8; 0; 0]
      (mkInfo (cmd_id CSWP_MEM_READ) 1 1) (srv_init []) = Some (0, s') /\
    adds (srv_init []) s' 1 [128; 6; 0; 2; 1; 2].
Proof.
  apply (server_mem_read_wrong_size [0; 1; 16; 2; 0; 0; 0; 0; 0; 0; 8; 0; 0]
    1 528 8 0 0 1 [] (srv_init [])).
  - simpl. lia.
  - simpl. lia.
  - by right.
  - unfold is_u64. lia.
  - reflexivity.
  - reflexivity.
  - reflexivity.
Defined.
