(* ===== verification/ServerReply.v ===== *)
(** What the test server answers to a message of the client, command by command:
    the responses of the commands that succeed, the codes of those that do not,
    and what the error mode of the message does to the later ones. *)
From S2P Require Import Prelude Wire CswpTypes CswpBuffer Memory ClientCommands ClientState ClientComplete ClientTransact ClientApi ClientBatch ClientReading ClientReceive DummyServer ServerParse EndToEnd.

(** ** Replies *)

(** [Answer]: the bytes that a handler adds, as one response; [Refuse]: the code
    of one that fails, which is sent without a message. *)
Inductive reply := Answer (bytes : list Z) | Refuse (code : Z).

Definition ok_response (r : request) (body : list Z) : list Z := response_bytes (request_type r) (ROk body).
Definition refusal (r : request) (code : Z) : list Z :=
  varint_enc (cmd_id (request_type r)) ++ varint_enc (u64 code).

(** The reply to each request that the server parses, but for two: the answer to
    a device opened or closed consists of three responses, counted as one; and
    a memory read takes its size from the second byte of the address, since the
    address is read as a varint (addresses with a continuation bit in their two
    low bytes are left out). *)
Definition reply_to (sdf : list Z) (r : request) : option reply :=
  match r with
  | ReqInit _ _ | ReqGetDevices => Answer ∘ ok_response r <$> served r
  | ReqTerm => Some (Answer (ok_response r []))
  | ReqGetSystemDescription =>
      Some (Answer (ok_response r (varint_enc 0 ++ varint_enc (len sdf) ++ sdf)))
  | ReqDeviceOpen _ =>
      Some (Answer (concat ((fun s => ok_response r (string_enc (bytes_of s))) <$>
        ["APB Bridge"; "System Memory Bridge"; "CTLP Bridge"]%string)))
  | ReqDeviceClose _ => Some (Answer (ok_response r [] ++ ok_response r [] ++ ok_response r []))
  | ReqGetDeviceCapabilities _ | ReqMemWrite _ _ _ _ _ =>
      Some (match served r with Some body => Answer (ok_response r body) | None => Refuse (-1) end)
  | ReqRegList _ =>
      Some (match served r with Some body => Answer (ok_response r body) | None => Refuse srv_DEVICE_UNSUPPORTED end)
  | ReqRegRead _ _ =>
      Some (match served r with Some body => Answer (ok_response r body) | None => Refuse srv_REG_FAILED end)
  | ReqMemRead n a _ _ _ =>
      if (n =? 0) || (n =? 1) then
        let k := a / 256 mod 256 in
        if (a mod 256 <? 128) && (k <? 128) then
          Some (Answer (ok_response r (varint_enc k ++ (Z.of_nat <$> seq 1 (Z.to_nat k)))))
        else None
      else Some (Refuse (-1))
  | ReqClientInfo _ | ReqSetDevices _ | ReqSetConfig _ _ _ => Some (Refuse srv_UNSUPPORTED)
  | _ => None
  end.

Definition is_term (r : request) : bool := match r with ReqTerm => true | _ => false end.

(** The responses to a message.  A failure cancels the commands after it in both
    modes of a batch, [CSWP_TERM] in any. *)
Fixpoint replies (mode : batch_mode_t) (cancel : bool) (l : list (request * reply)) : list Z :=
  match l with
  | [] => []
  | (r, x) :: l' =>
      match (if cancel then Refuse srv_CANCELLED else x) with
      | Answer bs => bs ++ replies mode (cancel || is_term r) l'
      | Refuse c => refusal r c ++ replies mode (cancel || negb (bool_decide (mode = BATCH_NONE)) || is_term r) l'
      end
  end.

(** ** The handlers *)

Lemma encode_varint_u64 v : encode_varint v = varint_enc (u64 v).
Proof.
  rewrite <- encode_varint_eq by apply u64_range. unfold encode_varint.
  by rewrite (u64_small (u64 v)) by apply u64_range.
Qed.

Lemma respond_bytes n chunks bs s :
  n = len (concat chunks) -> concat chunks = bs ->
  exists s', (rsp_bytes ← pack n chunks; response_add rsp_bytes;; mret 0) s = Some (0, s') /\ adds s s' 1 bs.
Proof. intros -> <-. by apply respond_eq. Qed.

Lemma refuse_adds info c s r :
  cmd_enc info = cmd_id (request_type r) ->
  exists s', response_err info c s = Some (tt, s') /\ adds s s' 1 (refusal r c).
Proof.
  intros Hi. unfold response_err, refusal.
  pose proof (cmd_id_u64 (request_type r)).
  rewrite Hi, (encode_varint_u64 c), encode_varint_eq by done.
  set (a := varint_enc _). set (b := varint_enc (u64 c)).
  assert (Hc : concat [a; b] = a ++ b) by (cbn [concat]; by rewrite app_nil_r).
  destruct s as [[x|] k f]; (erewrite M_bind_eq by (apply pack_ok; rewrite Hc, length_app; lia));
    rewrite Hc; eexists; split; done.
Qed.

Section handler.
Context (buffer : list Z).
Hypothesis buffer_small : len buffer < 2 ^ 31.

(** A handler that adds its answer, and one that fails. *)
Lemma answered n chunks bs s :
  n = len (concat chunks) -> concat chunks = bs ->
  exists s' c, (rsp_bytes ← pack n chunks; response_add rsp_bytes;; mret 0) s = Some (c, s') /\
    c = 0 /\ adds s s' 1 bs.
Proof. intros Hn Hb. destruct (respond_bytes n chunks bs s Hn Hb) as (s' & E & Ha). by exists s', 0. Qed.
Lemma refused c s : c <> 0 -> exists s' c', (mret c : SrvM Z) s = Some (c', s') /\ c' = c /\ c' <> 0 /\ s' = s.
Proof. intros. by exists s, c. Qed.

(** Every handler on its request. *)
Lemma reply_handler r x off rest s :
  reply_to (sdf s) r = Some x -> len (sdf s) < 2 ^ 64 -> parse_ok r -> 0 <= off <= len buffer ->
  drop (Z.to_nat off) buffer = fields_bytes (request_fields r) ++ rest ->
  let info := mkInfo (cmd_id (request_type r)) (request_device r) off in
  exists s' c, (match funcMap buffer (cmd_enc info) with Some f => f info | None => mret srv_UNSUPPORTED end) s =
      Some (c, s') /\
    match x with Answer bs => c = 0 /\ adds s s' 1 bs | Refuse e => c = e /\ c <> 0 /\ s' = s end.
Proof.
  intros Hx Hsdf Hr Ho Hd info.
  assert (Hserved : forall body, served r = Some body -> x = Answer (ok_response r body) ->
    exists s' c, (match funcMap buffer (cmd_enc info) with Some f => f info | None => mret srv_UNSUPPORTED end) s =
      Some (c, s') /\ match x with Answer bs => c = 0 /\ adds s s' 1 bs | Refuse e => c = e /\ c <> 0 /\ s' = s end).
  { intros body Hb ->. destruct (served_handler buffer buffer_small r body off rest s Hb Hr Ho Hd) as (f & s' & Hf & He & Ha).
    exists s', 0. cbv zeta in Hf. subst info. rewrite Hf. split; [exact He|]. by split. }
  destruct (served r) as [body|] eqn:Hsv.
  { apply (Hserved body eq_refl). destruct r; cbn [reply_to] in Hx; rewrite ?Hsv in Hx; try discriminate Hsv; by injection Hx. }
  clear Hserved. unfold info. clear info.
  destruct r; cbn [reply_to] in Hx; rewrite ?Hsv in Hx; try done;
    cbn [request_type request_device cmd_enc cmd_id] in *.
  - change (funcMap buffer _) with (Some fudge_term_cswp). simplify_eq. by apply answered.
  - change (funcMap buffer _) with (@None (cmdinfo -> SrvM Z)). simplify_eq. by apply refused.
  - change (funcMap buffer _) with (@None (cmdinfo -> SrvM Z)). simplify_eq. by apply refused.
  - change (funcMap buffer _) with (Some fudge_get_sys_info). simplify_eq. unfold fudge_get_sys_info.
    erewrite M_bind_eq by reflexivity. cbn [cmd_enc]. rewrite (encode_varint_eq (len (sdf s))) by (unfold is_u64; lia).
    apply (answered (len (encode_varint 18) + 1 + 1 + len (varint_enc (len (sdf s))) + len (sdf s))
      [encode_varint 18; errcode0; [0x0]; varint_enc (len (sdf s)); sdf s]); cbn [concat]; rewrite app_nil_r;
      [rewrite !length_app; unfold errcode0; simpl; lia|done].
  - change (funcMap buffer _) with (Some fudge_open_dev). simplify_eq. by apply answered.
  - change (funcMap buffer _) with (Some fudge_close_dev). simplify_eq. by apply answered.
  - change (funcMap buffer _) with (@None (cmdinfo -> SrvM Z)). simplify_eq. by apply refused.
  - change (funcMap buffer _) with (Some fudge_get_dev_cap). simplify_eq. unfold fudge_get_dev_cap. cbn [apnum].
    cbn [served] in Hsv. destruct (deviceNo =? 0); [done|]. destruct (deviceNo =? 1); [done|].
    destruct (deviceNo =? 2); [done|]. by apply refused.
  - change (funcMap buffer _) with (Some fudge_get_reg_list). simplify_eq. unfold fudge_get_reg_list. cbn [apnum].
    cbn [served] in Hsv. destruct ((deviceNo =? 1) || (deviceNo =? 2)); [done|]. by apply refused.
  - change (funcMap buffer _) with (Some (fudge_get_dev_reg buffer)). simplify_eq. unfold fudge_get_dev_reg. cbn [apnum].
    cbn [served] in Hsv. destruct (deviceNo =? 0); [done|]. destruct (deviceNo =? 2); [done|]. by apply refused.
  - change (funcMap buffer _) with (Some (fudge_get_dev_mem buffer)).
    destruct Hr as (Hn & Ha & _). destruct ((deviceNo =? 0) || (deviceNo =? 1)) eqn:Hdev.
    + destruct ((address mod 256 <? 128) && ((address / 256) mod 256 <? 128)) eqn:Hlow; simplify_eq.
      apply andb_true_iff in Hlow as [H1%Z.ltb_lt H2%Z.ltb_lt].
      destruct (server_mem_read_wrong_size buffer deviceNo address size accessSize flags off rest s buffer_small Ho)
        as (s' & E & Hadds); try done.
      { apply orb_true_iff in Hdev as [?%Z.eqb_eq|?%Z.eqb_eq]; auto. }
      by exists s', 0.
    + simplify_eq. unfold fudge_get_dev_mem. cbn [apnum]. apply orb_false_iff in Hdev as [-> ->]. by apply refused.
  - change (funcMap buffer _) with (Some fudge_set_dev_mem). simplify_eq. unfold fudge_set_dev_mem. cbn [apnum].
    cbn [served] in Hsv. destruct (deviceNo =? 0); [done|]. destruct (deviceNo =? 1); [done|]. by apply refused.
Qed.

(** ** A message *)

Lemma run_info_reply mode r x (cancel running : bool) off rest s :
  reply_to (sdf s) r = Some x -> len (sdf s) < 2 ^ 64 -> parse_ok r -> 0 <= off <= len buffer ->
  drop (Z.to_nat off) buffer = fields_bytes (request_fields r) ++ rest ->
  let failed := match (if cancel then Refuse srv_CANCELLED else x) with
                | Answer _ => false | Refuse _ => negb (bool_decide (mode = BATCH_NONE)) end in
  exists s', run_info buffer (batch_mode_id mode) (mkInfo (cmd_id (request_type r)) (request_device r) off)
      cancel running s = Some ((cancel || failed || is_term r, running && negb (is_term r)), s') /\
    adds s s' 1 (match (if cancel then Refuse srv_CANCELLED else x) with
                 | Answer bs => bs | Refuse c => refusal r c end).
Proof.
  intros Hx Hsdf Hr Ho Hd failed. set (info := mkInfo _ _ _).
  assert (Hc : exists s1 c, ((if cancel then mret srv_CANCELLED else
      match funcMap buffer (cmd_enc info) with Some f => f info | None => mret srv_UNSUPPORTED end) : SrvM Z) s =
      Some (c, s1) /\
    match (if cancel then Refuse srv_CANCELLED else x) with
    | Answer bs => c = 0 /\ adds s s1 1 bs | Refuse e => c = e /\ c <> 0 /\ s1 = s end).
  { destruct cancel; [by exists s, srv_CANCELLED|]. by apply (reply_handler r x off rest s). }
  destruct Hc as (s1 & c & E & Hc). unfold run_info. rewrite (M_bind_eq _ _ _ _ _ E).
  assert (Hterm : (cmd_enc info =? msg_TERM) = is_term r) by (by destruct r). rewrite Hterm.
  change srv_SUCCESS with 0. unfold failed. destruct (if cancel then Refuse srv_CANCELLED else x) as [bs|e].
  - destruct Hc as [-> Ha]. exists s1. split; [|done].
    change (0 =? 0) with true. cbv iota. rewrite M_bind_ret.
    by destruct cancel, running, (is_term r).
  - destruct Hc as (-> & Hne & ->). destruct (Z.eqb_spec e 0); [done|].
    destruct (refuse_adds info e s r eq_refl) as (s2 & E2 & Ha). exists s2. split; [|done].
    rewrite (M_bind_eq _ _ _ _ _ (M_bind_eq _ _ _ _ _ E2)).
    by destruct mode, cancel, running, (is_term r).
Qed.

Lemma run_infos_replies mode l : forall (cancel running : bool) off rest s,
  Forall (fun x => reply_to (sdf s) x.1 = Some x.2) l -> len (sdf s) < 2 ^ 64 -> Forall parse_ok l.*1 ->
  0 <= off <= len buffer ->
  drop (Z.to_nat off) buffer = concat (request_bytes <$> l.*1) ++ rest ->
  exists s', run_infos buffer (batch_mode_id mode) (infos_at off l.*1) cancel running s =
      Some (running && forallb (fun x => negb (is_term x.1)) l, s') /\
    adds s s' (len l) (replies mode cancel l).
Proof.
  induction l as [|[r x] l IH]; intros cancel running off rest s Hx Hsdf Hok Ho Hd.
  - exists s. split; [by rewrite andb_true_r|]. split_and!; simpl; rewrite ?app_nil_r; [done|lia| |done].
    intros [?|?]; [done|lia].
  - apply Forall_cons_1 in Hx as [Hx Hxs]. rewrite fmap_cons in *. apply Forall_cons_1 in Hok as [Hr Hok].
    rewrite fmap_cons in Hd. cbn [concat infos_at fst snd] in *. rewrite <- app_assoc in Hd.
    pose proof (drop_bound _ _ _ _ Ho Hd) as Hbd.
    pose proof (drop_next _ _ _ _ (proj1 Ho) Hd) as Hd'.
    unfold request_bytes at 1 in Hd. rewrite fields_bytes_cons, <- app_assoc in Hd.
    cbn [field_bytes] in Hd. set (h := varint_enc (cmd_id (request_type r))) in *.
    pose proof (drop_bound _ _ _ _ Ho Hd) as Hb2.
    pose proof (drop_next _ _ _ _ (proj1 Ho) Hd) as Hd2.
    destruct (run_info_reply mode r x cancel running (off + len h) _ s Hx Hsdf Hr ltac:(lia) Hd2)
      as (s1 & H1 & Ha1).
    assert (Hsame : sdf s1 = sdf s) by apply Ha1.
    destruct (IH (cancel || match (if cancel then Refuse srv_CANCELLED else x) with
        | Answer _ => false | Refuse _ => negb (bool_decide (mode = BATCH_NONE)) end || is_term r)
      (running && negb (is_term r)) (off + len (request_bytes r)) rest s1)
      as (s2 & H2 & Ha2); [by rewrite Hsame|by rewrite Hsame|done|lia|done|].
    exists s2. cbn [run_infos]. rewrite (M_bind_eq _ _ _ _ _ H1). cbn [fst snd]. rewrite H2. split.
    + cbn [forallb fst]. by rewrite andb_assoc.
    + cbn [length]. replace (Z.of_nat (S (length l))) with (1 + len l) by lia. cbn [replies].
      destruct (if cancel then Refuse srv_CANCELLED else x) as [bs|e]; rewrite ?orb_false_r in *;
        (apply (adds_trans buffer s s1 s2); [lia|lia|exact Ha1|exact Ha2]).
Qed.
End handler.

(** A whole message: what the server sends, and whether it goes on. *)
Lemma server_step_replies l mode s :
  let msg := frame (len l) mode (concat (request_bytes <$> l.*1)) in
  let resp := replies mode false l in
  Forall (fun x => reply_to (sdf s) x.1 = Some x.2) l -> len (sdf s) < 2 ^ 64 -> Forall parse_ok l.*1 ->
  l <> [] -> resp_buffer s = None -> len msg <= 4095 -> len resp < 2 ^ 31 ->
  exists s', server_step msg s =
      Some ((Some (rframe (len l) resp), forallb (fun x => negb (is_term x.1)) l), s') /\
    resp_buffer s' = None /\ sdf s' = sdf s.
Proof.
  intros msg resp Hx Hsdf Hok Hne Hnone Hl Hrl.
  pose proof (requests_length l.*1) as Hrs. rewrite length_fmap in Hrs.
  pose proof (frame_length (len l) mode (concat (request_bytes <$> l.*1))) as Hfl. fold msg in Hfl.
  pose proof (varint_enc_length (len l)) as Hvl.
  assert (Hpos : 0 < len l) by (destruct l; [done|simpl; lia]).
  unfold server_step. change (SRV_BUFFER - 1) with 4095. rewrite Z.min_l by lia.
  destruct (Z.leb_spec (len msg) 6); [lia|].
  rewrite Nat2Z.id, firstn_all.
  set (pad := replicate _ 0).
  assert (Hpad : len (msg ++ pad) = 4096).
  { unfold pad. rewrite length_app, length_replicate. change SRV_BUFFER with 4096. lia. }
  pose proof (parse_frame mode l.*1 pad Hok) as Hparse. rewrite length_fmap in Hparse. fold msg in Hparse.
  rewrite Hparse by (lia || (unfold small; lia)).
  assert (Ho : 0 <= body_offset (len l) <= len (msg ++ pad)) by (unfold body_offset; lia).
  destruct (run_infos_replies (msg ++ pad) ltac:(lia) mode l false true (body_offset (len l)) pad s Hx Hsdf Hok Ho
    (drop_frame _ _ _ _)) as (s1 & Hrun & Hr1 & Hn1 & Hne1 & Hsdf1).
  rewrite (M_bind_eq _ _ _ _ _ Hrun).
  destruct s1 as [[b|] k f]; [|by destruct Hne1; [right|]].
  unfold responses, nresp in Hr1, Hn1. rewrite Hnone in Hr1, Hn1. simpl in Hr1, Hn1, Hsdf1. subst b k f.
  exists (mkSrv None (len l) (sdf s)). split; [|done].
  unfold response_send, rframe. fold resp.
  erewrite M_bind_eq by reflexivity. unfold mret, M_ret.
  cbn [resp_buffer resp_buffer_nresp sdf]. rewrite !Z.add_0_l.
  rewrite encode_varint_eq by (unfold is_u64; lia).
  rewrite encode_uint32_eq, length_app by (unfold is_u32; lia).
  do 6 f_equal. lia.
Qed.
