(* ===== verification/CcuIn.v ===== *)
(** The command line input of the client utility ([ccu_in.cpp]): the checks on
    the argument strings and the extraction of the parameters of each command.
    A C function that returns [false] is a failing computation, so that the
    [if (!(f && g)) return false;] chains of the code are monadic sequences. *)
From S2P Require Import Prelude Wire CswpTypes Memory ClientState.

(** ** C strings and [sscanf]

    A string is the list of its characters without the terminating NUL. *)
Abbreviation cstr := (list Z).

Section input.
Context {S : Type}.

(** [return false] *)
Definition reject {A} : E S A := e_fail 0.

(** [argv[i]]; [argc] is the length of [argv]. *)
Definition arg (argv : list cstr) (i : nat) : E S cstr :=
  match argv !! i with Some s => mret s | None => e_ub end.

(** [s[i]]: the NUL is part of the object. *)
Definition char_at (s : cstr) (i : nat) : E S Z :=
  if decide (i < length s)%nat then mret (default 0 (s !! i))
  else if decide (i = length s) then mret 0 else e_ub.

Definition strcmp_eq (s : cstr) (t : string) : bool := bool_decide (s = bytes_of t).

Definition isspace (c : Z) : bool := (c =? 32) || ((9 <=? c) && (c <=? 13)).

Definition dec_digit (c : Z) : option Z :=
  if (48 <=? c) && (c <=? 57) then Some (c - 48) else None.
Definition hex_digit (c : Z) : option Z :=
  match dec_digit c with
  | Some d => Some d
  | None =>
      if (65 <=? c) && (c <=? 70) then Some (c - 55)
      else if (97 <=? c) && (c <=? 102) then Some (c - 87) else None
  end.

Fixpoint skip_space (s : cstr) : cstr :=
  match s with c :: s' => if isspace c then skip_space s' else s | [] => [] end.

Definition take_sign (s : cstr) : bool * cstr :=
  match s with
  | 45 :: s' => (true, s')
  | 43 :: s' => (false, s')
  | _ => (false, s)
  end.

(** The longest run of digits at the head of [s]. *)
Fixpoint digit_run (digit : Z -> option Z) (s : cstr) : list Z :=
  match s with
  | c :: s' => match digit c with Some d => d :: digit_run digit s' | None => [] end
  | [] => []
  end.

Definition digits_val (base : Z) (ds : list Z) : Z :=
  fold_left (fun acc d => acc * base + d) ds 0.

(** What one conversion of [sscanf] stores; [reject] when it is not assigned.
    A value that the object cannot hold is undefined (C11 7.21.6.2, 10); a
    minus sign negates as [strtoull] does. *)
Definition scan_unsigned (neg : bool) (base : Z) (ds : list Z) : E S Z :=
  if decide (ds = []) then reject
  else
    let v := digits_val base ds in
    if v <? 2 ^ 64 then mret (if neg then u64 (- v) else v) else e_ub.

(** [sscanf(s, "%llx", &v) == 1] *)
Definition sscanf_llx (s : cstr) : E S Z :=
  let (neg, s) := take_sign (skip_space s) in
  let ds := match s with
            | 48 :: x :: s' =>
                if (x =? 120) || (x =? 88) then digit_run hex_digit s'
                else digit_run hex_digit s
            | _ => digit_run hex_digit s
            end in
  scan_unsigned neg 16 ds.

(** [sscanf(s, "%llu", &v) == 1] *)
Definition sscanf_llu (s : cstr) : E S Z :=
  let (neg, s) := take_sign (skip_space s) in
  scan_unsigned neg 10 (digit_run dec_digit s).

(** [sscanf(s, "%d", &v) == 1] *)
Definition sscanf_d (s : cstr) : E S Z :=
  let (neg, s) := take_sign (skip_space s) in
  let ds := digit_run dec_digit s in
  if decide (ds = []) then reject
  else
    let v := if neg then - digits_val 10 ds else digits_val 10 ds in
    if (- 2 ^ 31 <=? v) && (v <? 2 ^ 31) then mret v else e_ub.

(** ** Checks on single arguments *)

Definition CCU_3LCMD_DEVCHAR_POS : nat := 7.
Definition CCU_4LCMD_DEVCHAR_POS : nat := 8.
Definition DEV0_MEM_MAX_BIN_SZ : Z := 4096.
Definition DEV1_MEM_MAX_BIN_SZ : Z := 262144.
Definition MEM_MAX_BIN_SZ : Z := DEV1_MEM_MAX_BIN_SZ.
Definition MAX_NUM_ETRS : Z := 32.

Definition is_valid_dec_str (str : cstr) : bool :=
  forallb (fun c => negb ((c <? 48) || (57 <? c))) str.

Definition is_valid_hex_str (hexstr : cstr) : E S Z :=
  match hexstr with
  | c0 :: c1 :: _ :: _ =>
      if negb (c0 =? 48) || (negb (c1 =? 120) && negb (c1 =? 88)) then reject
      else sscanf_llx hexstr
  | _ => reject
  end.

Definition is_valid_devID (devchar : Z) : E S Z :=
  if negb ((48 <=? devchar) && (devchar <=? 50)) then reject
  else mret (devchar - 48).

Definition is_valid_regW (szstr : cstr) (devID : Z) : E S Z :=
  if strcmp_eq szstr "1" then mret 1
  else if strcmp_eq szstr "2" then if devID =? 0 then reject else mret 2
  else reject.

(** The verdict of [is_valid_dec_str] is only printed. *)
Definition is_valid_get_mem_rd_sz (szstr : cstr) (op_type_dump : bool) : E S Z :=
  llvalue ← sscanf_llu szstr;
  if negb op_type_dump && (400 <? llvalue) then reject else mret llvalue.

Definition is_valid_set_mem_wr_sz (szstr : cstr) (devID : Z) : E S Z :=
  size ← (if strcmp_eq szstr "1" then mret 1
          else if strcmp_eq szstr "2" then mret 2
          else if strcmp_eq szstr "4" then mret 4
          else if strcmp_eq szstr "8" then mret 8
          else reject : E S Z);
  if (devID =? 0) && negb (size =? 4) then reject else mret size.

Definition is_mem_start_addr_aligned (devID addr total_bytes : Z) (op_type_fill : bool)
    : bool :=
  if (devID =? 0) && negb (Z.land addr 3 =? 0) then false
  else if devID =? 1 then
    if op_type_fill then Z.land addr 7 =? 0
    else
      negb (((total_bytes =? 2) && negb (Z.land addr 1 =? 0)) ||
            (((total_bytes =? 3) || (total_bytes =? 4)) && negb (Z.land addr 3 =? 0)) ||
            ((4 <? total_bytes) && negb (Z.land addr 7 =? 0)))
  else true.

Definition validate_and_get_etrID (etrStr : cstr) : E S Z :=
  etrID ← sscanf_d etrStr;
  if (MAX_NUM_ETRS <? etrID) || (etrID <? 0) then reject else mret etrID.

(** [if (!b) return false;] *)
Definition guard_ok (b : bool) : E S unit := if b then mret tt else reject.
End input.

(** ** Parameters of the commands *)

Record dev_cmd_t := mkDevCmd { dc_devID : Z }.

Record reg_cmd_t := mkRegCmd { rc_devID : Z; rc_regID : Z; rc_regSZ : Z; rc_value : Z }.

Record subreq_info := mkSubreq {
  saddr : Z;
  acc_sz : cswp_access_size_t;
  sr_size : Z;
  buf_idx : Z;
}.

(** [rw_values] is the address of the array of the structure, which has
    [MEM_MAX_BIN_SZ] bytes; [subreqs] its array of [MAX_NUM_SUBREQ] entries. *)
Record mem_cmd_t := mkMemCmd {
  mc_devID : Z;
  start_addr : Z;
  total_bytes : Z;
  rw_values : ptr;
  num_subreqs : Z;
  subreqs : list subreq_info;
  mc_flags : Z;
}.

Definition mem_params (devID addr total flags : Z) (m : mem_cmd_t) : mem_cmd_t :=
  mkMemCmd devID addr total (rw_values m) (num_subreqs m) (subreqs m) flags.

(** [m->rw_values[i] = f(i)] for [i] from 0 *)
Definition fill_values (m : mem_cmd_t) (n : Z) (f : Z -> Z) : MemM unit :=
  e_for (Z.to_nat n) 0 (fun i => store (ptr_add (rw_values m) i) [f i]).

(** An extra read for device 0 when the size is not a multiple of 4. *)
Definition round_size (devID total : Z) : Z :=
  if (devID =? 0) && negb (total mod 4 =? 0) then u64 (total + (4 - total mod 4)) else total.

(** [argc != n] is an error. *)
Definition check_argc (argv : list cstr) (n : Z) : MemM unit := guard_ok (len argv =? n).

Definition get_devID (argv : list cstr) (pos : nat) : MemM Z :=
  name ← arg argv 1; devchar ← char_at name pos; is_valid_devID devchar.

Definition extract_get_dev_cap_param (argv : list cstr) : MemM dev_cmd_t :=
  check_argc argv 2;;
  devID ← get_devID argv 7;
  mret (mkDevCmd devID).

Definition extract_get_dev_reg_param (argv : list cstr) : MemM reg_cmd_t :=
  check_argc argv 4;;
  devID ← get_devID argv CCU_3LCMD_DEVCHAR_POS;
  a3 ← arg argv 3; regID ← is_valid_hex_str a3;
  a2 ← arg argv 2; regSZ ← is_valid_regW a2 devID;
  mret (mkRegCmd devID regID regSZ 0).

Definition extract_set_dev_reg_param (argv : list cstr) : MemM reg_cmd_t :=
  check_argc argv 5;;
  devID ← get_devID argv CCU_3LCMD_DEVCHAR_POS;
  a3 ← arg argv 3; regID ← is_valid_hex_str a3;
  a4 ← arg argv 4; value ← is_valid_hex_str a4;
  a2 ← arg argv 2; regSZ ← is_valid_regW a2 devID;
  mret (mkRegCmd devID (u32 regID) regSZ value).

(** The device, the address and the size of a memory read. *)
Definition extract_mem_rd (argv : list cstr) (pos : nat) (op_type_dump : bool)
    : MemM (Z * Z * Z) :=
  check_argc argv 4;;
  devID ← get_devID argv pos;
  a2 ← arg argv 2; addr ← is_valid_hex_str a2;
  a3 ← arg argv 3; total ← is_valid_get_mem_rd_sz a3 op_type_dump;
  guard_ok (is_mem_start_addr_aligned devID addr total false);;
  mret (devID, addr, total).

Definition extract_get_dev_mem_param (argv : list cstr) (m : mem_cmd_t) : MemM mem_cmd_t :=
  '(devID, addr, total) ← extract_mem_rd argv CCU_3LCMD_DEVCHAR_POS false;
  mret (mem_params devID addr (round_size devID total) 0 m).

Definition extract_dump_dev_mem_param (argv : list cstr) (m : mem_cmd_t) : MemM mem_cmd_t :=
  '(devID, addr, total) ← extract_mem_rd argv CCU_4LCMD_DEVCHAR_POS true;
  guard_ok (total <=? (if devID =? 0 then DEV0_MEM_MAX_BIN_SZ else DEV1_MEM_MAX_BIN_SZ));;
  mret (mem_params devID addr (round_size devID total) 0 m).

Definition extract_set_dev_mem_param (argv : list cstr) (m : mem_cmd_t) : MemM mem_cmd_t :=
  check_argc argv 5;;
  devID ← get_devID argv CCU_3LCMD_DEVCHAR_POS;
  a2 ← arg argv 2; addr ← is_valid_hex_str a2;
  a4 ← arg argv 4; value ← is_valid_hex_str a4;
  a3 ← arg argv 3; total ← is_valid_set_mem_wr_sz a3 devID;
  guard_ok (is_mem_start_addr_aligned devID addr total false);;
  fill_values m total (fun i => u8 (Z.land (Z.shiftr value (i * 8)) 0xFF));;
  mret (mem_params devID addr total 0 m).

Section files.
(** The bytes of a file, or [None] when it cannot be opened. *)
Context (read_file : cstr -> option (list Z)).

(** The size of the file, whose bytes are now in [rw_values]. *)
Definition is_fill_data_ok (filename : cstr) (devID : Z) (m : mem_cmd_t) : MemM Z :=
  match read_file filename with
  | None => reject
  | Some buffer =>
      let file_sz := len buffer in
      (if devID =? 0 then
         guard_ok (negb (DEV0_MEM_MAX_BIN_SZ <? file_sz));;
         guard_ok (negb (file_sz <=? 4));;
         guard_ok (negb (negb (file_sz mod 4 =? 0)))
       else
         guard_ok (negb (DEV1_MEM_MAX_BIN_SZ <? file_sz));;
         guard_ok (negb (file_sz <=? 8)));;
      fill_values m file_sz (fun i => default 0 (buffer !! Z.to_nat i));;
      mret file_sz
  end.

(** [m->total_bytes] is passed to the alignment check before it is set; its
    value plays no part there. *)
Definition extract_fill_dev_mem_param (argv : list cstr) (m : mem_cmd_t) : MemM mem_cmd_t :=
  check_argc argv 4;;
  devID ← get_devID argv CCU_4LCMD_DEVCHAR_POS;
  a2 ← arg argv 2; addr ← is_valid_hex_str a2;
  guard_ok (is_mem_start_addr_aligned devID addr (total_bytes m) true);;
  a3 ← arg argv 3; total ← is_fill_data_ok a3 devID m;
  mret (mem_params devID addr total 0 m).
End files.

Definition extract_perf_cstrace_param (argv : list cstr) : MemM Z :=
  check_argc argv 3;;
  a2 ← arg argv 2; validate_and_get_etrID a2.

Example hex_1a : @is_valid_hex_str unit (bytes_of "0x1aF") tt = Some (Val 0x1AF, tt).
Proof. reflexivity. Qed.
Example hex_prefix_only : @is_valid_hex_str unit (bytes_of "0xg") tt = Some (Fail 0, tt).
Proof. reflexivity. Qed.
Example dec_minus : @sscanf_llu unit (bytes_of " -1") tt = Some (Val (2 ^ 64 - 1), tt).
Proof. reflexivity. Qed.

(** ** Lemmas *)

Lemma E_bind_inv {S A B} (m : E S A) (f : A -> E S B) s b s' :
  (m ≫= f) s = Some (Val b, s') ->
  exists a s1, m s = Some (Val a, s1) /\ f a s1 = Some (Val b, s').
Proof. unfold mbind, E_bind. destruct (m s) as [[[a|c] s1]|]; naive_solver. Qed.

(** Split a successful computation into its steps. *)
Ltac inv_ok H :=
  repeat match type of H with
  | (_ ≫= _) _ = Some (Val _, _) =>
      let a := fresh "a" in let s := fresh "s" in let E := fresh "E" in
      apply E_bind_inv in H as (a & s & E & H); simpl in H
  end.

(** Unfold the final steps of a computation. *)
Ltac ok_simpl := unfold guard_ok, reject, mret, E_ret, e_fail, e_ub in *.

Lemma guard_ok_inv {S} b (s s' : S) u : guard_ok b s = Some (Val u, s') -> b = true /\ s' = s.
Proof. destruct b; ok_simpl; intros H; by simplify_eq. Qed.

Lemma arg_inv {S} argv i (s s' : S) a : arg argv i s = Some (Val a, s') -> argv !! i = Some a /\ s' = s.
Proof. unfold arg. destruct (argv !! i); ok_simpl; intros H; by simplify_eq. Qed.

Definition digits_in (base : Z) : list Z -> Prop := Forall (fun d => 0 <= d < base).

Lemma digit_run_in digit base s :
  (forall c d, digit c = Some d -> 0 <= d < base) -> digits_in base (digit_run digit s).
Proof.
  intros Hd. induction s as [|c s IH]; simpl; [constructor|].
  destruct (digit c) eqn:E; constructor; [by eapply Hd|done].
Qed.
Lemma dec_digit_range c d : dec_digit c = Some d -> 0 <= d < 10.
Proof.
  unfold dec_digit. destruct (Z.leb_spec 48 c), (Z.leb_spec c 57); simpl; intros; simplify_eq; lia.
Qed.
Lemma hex_digit_range c d : hex_digit c = Some d -> 0 <= d < 16.
Proof.
  unfold hex_digit. destruct (dec_digit c) as [e|] eqn:E.
  - apply dec_digit_range in E. intros. simplify_eq. lia.
  - destruct (Z.leb_spec 65 c), (Z.leb_spec c 70), (Z.leb_spec 97 c), (Z.leb_spec c 102);
      simpl; intros; simplify_eq; lia.
Qed.

Lemma digits_val_nonneg base ds : 0 < base -> digits_in base ds -> 0 <= digits_val base ds.
Proof.
  intros Hb Hd. unfold digits_val.
  assert (Hg : forall acc, 0 <= acc -> 0 <= fold_left (fun acc d => acc * base + d) ds acc).
  { induction Hd as [|d ds Hd _ IH]; intros acc Ha; simpl; [done|]. apply IH. nia. }
  apply Hg. lia.
Qed.

Lemma scan_unsigned_u64 {S} neg base ds (s s' : S) v :
  0 < base -> digits_in base ds -> scan_unsigned neg base ds s = Some (Val v, s') -> is_u64 v /\ s' = s.
Proof.
  intros Hb Hd. unfold scan_unsigned. ok_simpl. case_decide; [done|].
  pose proof (digits_val_nonneg base ds Hb Hd).
  destruct (Z.ltb_spec (digits_val base ds) (2 ^ 64)); [|done].
  intros ?. simplify_eq/=. split; [|done]. destruct neg; [apply u64_range|]. by split.
Qed.

Lemma sscanf_llx_u64 {S} str (s s' : S) v : sscanf_llx str s = Some (Val v, s') -> is_u64 v /\ s' = s.
Proof.
  unfold sscanf_llx. destruct (take_sign _) as [neg l]. apply scan_unsigned_u64; [lia|].
  repeat case_match; apply digit_run_in, hex_digit_range.
Qed.
Lemma sscanf_llu_u64 {S} str (s s' : S) v : sscanf_llu str s = Some (Val v, s') -> is_u64 v /\ s' = s.
Proof.
  unfold sscanf_llu. destruct (take_sign _) as [neg l]. apply scan_unsigned_u64; [lia|].
  apply digit_run_in, dec_digit_range.
Qed.

Lemma hex_str_u64 {S} str (s s' : S) v : is_valid_hex_str str s = Some (Val v, s') -> is_u64 v /\ s' = s.
Proof.
  unfold is_valid_hex_str. ok_simpl. intros H. repeat case_match; try done.
  by apply sscanf_llx_u64 in H.
Qed.

Lemma get_devID_inv argv pos (x x' : mem) d :
  get_devID argv pos x = Some (Val d, x') -> 0 <= d <= 2 /\ x' = x.
Proof.
  unfold get_devID. intros H. inv_ok H. apply arg_inv in E as [_ ->].
  unfold char_at in E0. unfold is_valid_devID in H. ok_simpl.
  destruct (Z.leb_spec 48 a0), (Z.leb_spec a0 50); simpl in H; simplify_eq/=.
  repeat case_decide; simplify_eq/=; split; done || lia.
Qed.

Lemma rd_sz_inv {S} str dump (s s' : S) n :
  is_valid_get_mem_rd_sz str dump s = Some (Val n, s') ->
  is_u64 n /\ (dump = false -> n <= 400) /\ s' = s.
Proof.
  unfold is_valid_get_mem_rd_sz. ok_simpl. intros H. inv_ok H.
  apply sscanf_llu_u64 in E as [? ->].
  destruct dump, (Z.ltb_spec 400 a); simpl in H; by simplify_eq/=.
Qed.

Lemma wr_sz_inv {S} str d (s s' : S) n :
  is_valid_set_mem_wr_sz str d s = Some (Val n, s') ->
  n ∈ [1; 2; 4; 8] /\ (d = 0 -> n = 4) /\ s' = s.
Proof.
  unfold is_valid_set_mem_wr_sz. ok_simpl. intros H. inv_ok H.
  assert (Ha : a ∈ [1; 2; 4; 8] /\ s0 = s) by (repeat case_match; simplify_eq/=; set_solver).
  destruct Ha as [Ha ->].
  destruct (Z.eqb_spec d 0), (Z.eqb_spec a 4); simpl in H; simplify_eq/=; split_and!; done || lia.
Qed.

(** *** The alignment of the parameters *)

(** What holds of the parameters of an accepted command. *)
Record mem_cmd_ok (m : mem_cmd_t) : Prop := {
  ok_devID : 0 <= mc_devID m <= 2;
  ok_addr : is_u64 (start_addr m);
  ok_total : 0 <= total_bytes m <= MEM_MAX_BIN_SZ;
  ok_flags : mc_flags m = 0;
  ok_dev0 : mc_devID m = 0 -> start_addr m mod 4 = 0 /\ total_bytes m mod 4 = 0;
  ok_dev1 : mc_devID m = 1 ->
    (total_bytes m = 2 -> start_addr m mod 2 = 0) /\
    (3 <= total_bytes m <= 4 -> start_addr m mod 4 = 0) /\
    (4 < total_bytes m -> start_addr m mod 8 = 0);
}.

Lemma aligned_dev0 addr total fill :
  is_mem_start_addr_aligned 0 addr total fill = true -> addr mod 4 = 0.
Proof.
  unfold is_mem_start_addr_aligned. rewrite (land_mask 2) by lia. simpl. change (2 ^ 2) with 4.
  by destruct (Z.eqb_spec (addr mod 4) 0).
Qed.

Lemma aligned_dev1 addr total fill :
  is_mem_start_addr_aligned 1 addr total fill = true -> 
  (fill = true -> addr mod 8 = 0) /\ (fill = false ->
    (total = 2 -> addr mod 2 = 0) /\ (3 <= total <= 4 -> addr mod 4 = 0) /\
    (4 < total -> addr mod 8 = 0)).
Proof.
  unfold is_mem_start_addr_aligned.
  rewrite (land_mask 1), (land_mask 2), (land_mask 3) by lia. cbn [Z.eqb andb].
  change (2 ^ 1) with 2. change (2 ^ 2) with 4. change (2 ^ 3) with 8.
  destruct fill; [by intros ?%Z.eqb_eq|].
  destruct (Z.eqb_spec total 2), (Z.eqb_spec total 3), (Z.eqb_spec total 4), (Z.ltb_spec 4 total);
    try lia; destruct (Z.eqb_spec (addr mod 2) 0), (Z.eqb_spec (addr mod 4) 0), (Z.eqb_spec (addr mod 8) 0);
    simpl; intros; simplify_eq; split; done || lia.
Qed.

Lemma round_size_eq d total :
  0 <= total < 2 ^ 64 - 4 ->
  total <= round_size d total < total + 4 /\ (d = 0 -> round_size d total mod 4 = 0) /\
  (d <> 0 -> round_size d total = total).
Proof.
  intros Ht. unfold round_size. pose proof (Z.mod_pos_bound total 4).
  destruct (Z.eqb_spec d 0), (Z.eqb_spec (total mod 4) 0); cbn [negb andb]; try lia.
  rewrite u64_small by lia. split_and!; try lia. intros _.
  rewrite (Z.div_mod total 4) at 1 by lia.
  replace (4 * (total / 4) + total mod 4 + (4 - total mod 4)) with ((total / 4 + 1) * 4) by lia.
  by rewrite Z.mod_mul.
Qed.

(** *** Filling the array *)

Lemma store_for m q (f : Z -> Z) n : forall k,
  valid m q (Z.of_nat (k + n)) ->
  e_for n (Z.of_nat k) (fun i => store (ptr_add q i) [f i])
    (put_mem q (f <$> seqZ 0 (Z.of_nat k)) m) =
  Some (Val tt, put_mem q (f <$> seqZ 0 (Z.of_nat (k + n))) m).
Proof.
  induction n as [|n IH]; intros k Hv; simpl.
  { by rewrite Nat.add_0_r. }
  erewrite E_bind_val.
  2: { replace (Z.of_nat k) with (len (f <$> seqZ 0 (Z.of_nat k))) at 1
         by (rewrite length_fmap, length_seqZ; lia).
       apply put_mem_snoc. rewrite length_fmap, length_seqZ.
       eapply valid_le; [exact Hv|lia]. }
  cbv beta.
  replace ((f <$> seqZ 0 (Z.of_nat k)) ++ [f (Z.of_nat k)])
    with (f <$> seqZ 0 (Z.of_nat (Datatypes.S k))).
  2: { rewrite seqZ_S, fmap_app, Z.add_0_l. done. }
  replace (Z.of_nat k + 1) with (Z.of_nat (Datatypes.S k)) by lia.
  replace (k + Datatypes.S n)%nat with (Datatypes.S k + n)%nat in * by lia.
  by apply IH.
Qed.

Lemma fill_values_eq mc n f (m : mem) :
  0 <= n -> valid m (rw_values mc) n ->
  fill_values mc n f m = Some (Val tt, put_mem (rw_values mc) (f <$> seqZ 0 n) m).
Proof.
  intros Hn Hv. unfold fill_values.
  pose proof (store_for m (rw_values mc) f (Z.to_nat n) 0) as H. simpl in H.
  rewrite put_mem_nil, Z2Nat.id in H by lia. by apply H.
Qed.

Lemma value_bytes n v :
  (fun i => u8 (Z.land (Z.shiftr v (i * 8)) 0xFF)) <$> seqZ 0 (Z.of_nat n) = le_bytes n v.
Proof.
  revert v. induction n as [|n IH]; intros v; [done|].
  rewrite seqZ_cons by lia. replace (Z.pred (Z.of_nat (S n))) with (Z.of_nat n) by lia.
  simpl. f_equal.
  - rewrite Z.shiftr_0_r, land_255. apply u8_small, Z.mod_pos_bound. lia.
  - rewrite <- IH. rewrite <- (fmap_add_seqZ 1 0), <- list_fmap_compose. apply list_fmap_ext. intros i x Hx.
    apply lookup_seqZ in Hx as [-> ?]. simpl. f_equal. f_equal.
    replace ((1 + (0 + Z.of_nat i)) * 8) with (8 + (0 + Z.of_nat i) * 8) by lia.
    rewrite <- Z.shiftr_shiftr by lia. by rewrite (Z.shiftr_div_pow2 v 8).
Qed.

Lemma data_bytes (l : list Z) : (fun i => default 0 (l !! Z.to_nat i)) <$> seqZ 0 (len l) = l.
Proof.
  apply list_eq. intros i. rewrite list_lookup_fmap. destruct (decide (i < length l)%nat).
  - rewrite lookup_seqZ_lt by lia. simpl. rewrite Z.add_0_l, Nat2Z.id.
    destruct (lookup_lt_is_Some_2 l i) as [x ->]; done.
  - rewrite !lookup_ge_None_2; rewrite ?length_seqZ; done || lia.
Qed.

(** *** Printed numbers are read back *)

Definition digit_char (d : Z) : Z := if d <? 10 then 48 + d else 55 + d.

Lemma digits_chars base f : 2 <= base -> forall v acc, 0 <= v < base ^ Z.of_nat f -> (0 < f)%nat ->
  exists ds, digits base f v acc = (digit_char <$> ds) ++ acc /\ digits_in base ds /\
    ds <> [] /\ (forall x, fold_left (fun a d => a * base + d) ds x = x * base ^ len ds + v).
Proof.
  intros Hb. induction f as [|f IH]; intros v acc Hv Hf; [lia|]. simpl.
  fold (digit_char (v mod base)).
  pose proof (Z.mod_pos_bound v base). destruct (Z.ltb_spec v base).
  - exists [v]. rewrite Z.mod_small by lia. split_and!; [done|constructor; [lia|constructor]|done|].
    intros x. simpl. lia.
  - rewrite Nat2Z.inj_succ, Z.pow_succ_r in Hv by lia.
    assert (Hd : 0 <= v / base < base ^ Z.of_nat f).
    { split; [apply Z.div_pos; lia|]. apply Z.div_lt_upper_bound; lia. }
    assert (0 < f)%nat.
    { destruct f; [|lia]. simpl in Hd. rewrite Z.pow_0_r in Hd.
      assert (1 <= v / base) by (apply Z.div_le_lower_bound; lia). lia. }
    destruct (IH (v / base) (digit_char (v mod base) :: acc) Hd) as (ds & -> & Hin & Hne & Hval); [done|].
    exists (ds ++ [v mod base]). rewrite fmap_app, <- app_assoc. split_and!; [done| |by destruct ds|].
    + apply Forall_app. split; [done|]. constructor; [lia|constructor].
    + intros x. rewrite fold_left_app, Hval. simpl. rewrite length_app. simpl.
      rewrite Nat2Z.inj_add, Z.pow_add_r by lia. pose proof (Z.div_mod v base). simpl. lia.
Qed.

Lemma digit_run_chars base digit ds junk :
  (forall d, 0 <= d < base -> digit (digit_char d) = Some d) -> digits_in base ds ->
  (match junk with c :: _ => digit c = None | [] => True end) ->
  digit_run digit ((digit_char <$> ds) ++ junk) = ds.
Proof.
  intros Hd Hin Hj. induction Hin as [|d ds Hx _ IH]; simpl.
  - destruct junk; simpl; [done|]. by rewrite Hj.
  - rewrite Hd by done. by f_equal.
Qed.

Lemma hex_digit_char d : 0 <= d < 16 -> hex_digit (digit_char d) = Some d.
Proof.
  intros Hd. unfold hex_digit, dec_digit, digit_char.
  destruct (Z.ltb_spec d 10).
  - rewrite (proj2 (Z.leb_le 48 (48 + d))), (proj2 (Z.leb_le (48 + d) 57)) by lia.
    simpl. f_equal. lia.
  - rewrite (proj2 (Z.leb_le 48 (55 + d))), (proj2 (Z.leb_gt (55 + d) 57)) by lia. simpl.
    rewrite (proj2 (Z.leb_le 65 (55 + d))), (proj2 (Z.leb_le (55 + d) 70)) by lia.
    simpl. f_equal. lia.
Qed.
Lemma dec_digit_char d : 0 <= d < 10 -> dec_digit (digit_char d) = Some d.
Proof.
  intros Hd. unfold dec_digit, digit_char. rewrite (proj2 (Z.ltb_lt d 10)) by lia.
  rewrite (proj2 (Z.leb_le 48 (48 + d))), (proj2 (Z.leb_le (48 + d) 57)) by lia.
  simpl. f_equal. lia.
Qed.

Lemma digits_head base f v junk :
  2 <= base <= 16 -> 0 <= v < base ^ Z.of_nat f -> (0 < f)%nat ->
  take_sign (skip_space (digits base f v [] ++ junk)) = (false, digits base f v [] ++ junk).
Proof.
  intros Hb Hv Hf. destruct (digits_chars base f ltac:(lia) v [] Hv Hf) as (ds & -> & Hin & Hne & _).
  destruct ds as [|d ds]; [done|]. inversion Hin as [|? ? Hd _]; subst. simpl.
  assert (Hc : 48 <= digit_char d <= 70) by (unfold digit_char; case_match; lia).
  unfold isspace. destruct (Z.eqb_spec (digit_char d) 32), (Z.leb_spec 9 (digit_char d)),
    (Z.leb_spec (digit_char d) 13); try lia. simpl.
  assert (exists k, digit_char d = Z.of_nat k /\ (48 <= k <= 70)%nat) as (k & -> & Hk)
    by (exists (Z.to_nat (digit_char d)); lia).
  do 71 (destruct k as [|k]; [try lia; done|]). lia.
Qed.

Lemma scan_digits base f digit v junk :
  2 <= base <= 16 -> 0 <= v < base ^ Z.of_nat f -> (0 < f)%nat ->
  (forall d, 0 <= d < base -> digit (digit_char d) = Some d) ->
  (match junk with c :: _ => digit c = None | [] => True end) ->
  let ds := digit_run digit (digits base f v [] ++ junk) in
  ds <> [] /\ digits_val base ds = v.
Proof.
  intros Hb Hv Hf Hd Hj. destruct (digits_chars base f ltac:(lia) v [] Hv Hf) as (ds & -> & Hin & Hne & Hval).
  rewrite app_nil_r, (digit_run_chars base) by done. split; [done|].
  unfold digits_val. rewrite Hval. lia.
Qed.

Lemma hex_read_back {S} v (s : S) :
  is_u64 v -> is_valid_hex_str (bytes_of "0x" ++ fmt_lX v) s = Some (Val v, s).
Proof.
  intros Hv. unfold is_u64 in Hv.
  assert (Hp : 0 <= v < 16 ^ Z.of_nat 16) by (change (16 ^ Z.of_nat 16) with (2 ^ 64); lia).
  destruct (digits_chars 16 16 ltac:(lia) v [] Hp ltac:(lia)) as (ds & He & _ & Hne & _).
  destruct (scan_digits 16 16 hex_digit v [] ltac:(lia) Hp ltac:(lia) hex_digit_char I) as [Hn Hval].
  rewrite app_nil_r in Hn, Hval. unfold fmt_lX.
  destruct (digits 16 16 v []) as [|c l] eqn:E; [by destruct ds|].
  transitivity (@scan_unsigned S false 16 (digit_run hex_digit (c :: l)) s); [reflexivity|].
  unfold scan_unsigned. rewrite decide_False by done. rewrite Hval.
  by rewrite (proj2 (Z.ltb_lt v (2 ^ 64))) by lia.
Qed.

Lemma dec_read_back {S} v junk dump (s : S) :
  is_u64 v -> dump = true \/ v <= 400 ->
  (match junk with c :: _ => dec_digit c = None | [] => True end) ->
  is_valid_get_mem_rd_sz (digits 10 20 v [] ++ junk) dump s = Some (Val v, s).
Proof.
  intros Hv Hd Hj. unfold is_u64 in Hv.
  assert (Hp : 0 <= v < 10 ^ Z.of_nat 20).
  { assert (2 ^ 64 < 10 ^ Z.of_nat 20) by (vm_compute; done). lia. }
  destruct (scan_digits 10 20 dec_digit v junk ltac:(lia) Hp ltac:(lia) dec_digit_char Hj) as [Hn Hval].
  unfold is_valid_get_mem_rd_sz, sscanf_llu. rewrite digits_head by lia.
  unfold scan_unsigned. rewrite decide_False by done. rewrite Hval.
  rewrite (proj2 (Z.ltb_lt v (2 ^ 64))) by lia. erewrite E_bind_val by done. cbv beta.
  destruct Hd as [->|]; [done|]. by rewrite (proj2 (Z.ltb_ge 400 v)), andb_false_r by lia.
Qed.

Lemma mem_rd_inv argv pos dump (x x' : mem) d a t :
  extract_mem_rd argv pos dump x = Some (Val (d, a, t), x') ->
  0 <= d <= 2 /\ is_u64 a /\ is_u64 t /\ (dump = false -> t <= 400) /\ x' = x /\
  is_mem_start_addr_aligned d a t false = true.
Proof.
  unfold extract_mem_rd, check_argc. intros H. inv_ok H.
  apply guard_ok_inv in E as [_ ->]. apply get_devID_inv in E0 as [Hd ->].
  apply arg_inv in E1 as [_ ->]. apply hex_str_u64 in E2 as [Ha ->].
  apply arg_inv in E3 as [_ ->]. apply rd_sz_inv in E4 as (Ht & H4 & ->).
  apply guard_ok_inv in E5 as [Hal ->]. ok_simpl. by simplify_eq.
Qed.

(** A size that passed the alignment check, rounded for device 0. *)
Lemma read_params_ok d a t m :
  0 <= d <= 2 -> is_u64 a -> 0 <= t <= DEV1_MEM_MAX_BIN_SZ ->
  is_mem_start_addr_aligned d a t false = true ->
  (d = 0 -> t <= DEV0_MEM_MAX_BIN_SZ) -> mem_cmd_ok (mem_params d a (round_size d t) 0 m).
Proof.
  intros Hd Ha Ht Hal H0. unfold DEV0_MEM_MAX_BIN_SZ, DEV1_MEM_MAX_BIN_SZ in *.
  destruct (round_size_eq d t) as (Hr & Hr0 & Hrn); [lia|].
  constructor; simpl; [done|done| |done| |].
  - unfold MEM_MAX_BIN_SZ, DEV1_MEM_MAX_BIN_SZ. destruct (decide (d = 0)); [|rewrite Hrn by done; lia].
    specialize (H0 e). lia.
  - intros ->. split; [by apply aligned_dev0 in Hal|by apply Hr0].
  - intros ->. rewrite Hrn by done. apply aligned_dev1 in Hal. by apply Hal.
Qed.

Lemma get_extract_ok argv m (x : mem) m' x' :
  extract_get_dev_mem_param argv m x = Some (Val m', x') ->
  mem_cmd_ok m' /\ rw_values m' = rw_values m /\ x' = x /\ total_bytes m' <= 400.
Proof.
  unfold extract_get_dev_mem_param. intros H. inv_ok H. destruct a as [[d a] t].
  apply mem_rd_inv in E as (Hd & Ha & [Ht0 _] & Ht & -> & Hal). specialize (Ht eq_refl).
  ok_simpl. simplify_eq. split_and!; [|done|done|].
  - apply read_params_ok; try done; unfold DEV0_MEM_MAX_BIN_SZ, DEV1_MEM_MAX_BIN_SZ; lia.
  - simpl. destruct (round_size_eq d t) as (Hr & Hr0 & Hrn); [lia|].
    destruct (decide (d = 0)) as [->|]; [|rewrite Hrn by done; lia].
    assert (Hm : round_size 0 t mod 4 = 0) by auto. apply Z.mod_divide in Hm as [k Hk]; lia.
Qed.

Lemma dump_extract_ok argv m (x : mem) m' x' :
  extract_dump_dev_mem_param argv m x = Some (Val m', x') ->
  mem_cmd_ok m' /\ rw_values m' = rw_values m /\ x' = x.
Proof.
  unfold extract_dump_dev_mem_param. intros H. inv_ok H. destruct a as [[d a] t]. inv_ok H.
  apply mem_rd_inv in E as (Hd & Ha & [Ht0 _] & _ & -> & Hal).
  apply guard_ok_inv in E0 as [Ht%Z.leb_le ->]. ok_simpl. simplify_eq. split_and!; [|done..].
  unfold DEV0_MEM_MAX_BIN_SZ, DEV1_MEM_MAX_BIN_SZ in *.
  apply read_params_ok; unfold DEV0_MEM_MAX_BIN_SZ, DEV1_MEM_MAX_BIN_SZ; try done;
    destruct (Z.eqb_spec d 0); lia.
Qed.

Lemma hex_str_any {S S'} str (s s1 : S) (t : S') v :
  is_valid_hex_str str s = Some (Val v, s1) -> is_valid_hex_str str t = Some (Val v, t).
Proof.
  unfold is_valid_hex_str, sscanf_llx, scan_unsigned. intros H.
  destruct str as [|c0 [|c1 [|c2 l]]]; try done. ok_simpl. case_match; [done|].
  destruct (take_sign _) as [neg u]. case_decide; [done|]. case_match; [|done].
  by simplify_eq.
Qed.

(** Parameters whose address passed the check and whose size was not rounded. *)
Lemma write_params_ok d a t fill m :
  0 <= d <= 2 -> is_u64 a -> 0 <= t <= MEM_MAX_BIN_SZ -> (d = 0 -> t mod 4 = 0) ->
  is_mem_start_addr_aligned d a t fill = true -> mem_cmd_ok (mem_params d a t 0 m).
Proof.
  intros Hd Ha Ht H4 Hal. constructor; simpl; try done.
  - intros ->. split; [by apply aligned_dev0 in Hal|by apply H4].
  - intros ->. apply aligned_dev1 in Hal as [Hf Hn]. destruct fill; [|by apply Hn].
    specialize (Hf eq_refl). assert (8 * (a / 8) = a) by (pose proof (Z.div_mod a 8); lia).
    split_and!; intros _; [replace a with (a / 8 * 4 * 2) by lia|replace a with (a / 8 * 2 * 4) by lia|done];
      by rewrite Z.mod_mul.
Qed.

Lemma set_extract_ok argv m (x : mem) m' x' :
  valid x (rw_values m) MEM_MAX_BIN_SZ ->
  extract_set_dev_mem_param argv m x = Some (Val m', x') ->
  mem_cmd_ok m' /\ rw_values m' = rw_values m /\ total_bytes m' ∈ [1; 2; 4; 8] /\
  exists s v, argv !! 4%nat = Some s /\ is_valid_hex_str s tt = Some (Val v, tt) /\
    x' = put_mem (rw_values m) (le_bytes (Z.to_nat (total_bytes m')) v) x.
Proof.
  unfold extract_set_dev_mem_param, check_argc. intros Hv H. inv_ok H.
  apply guard_ok_inv in E as [_ ->]. apply get_devID_inv in E0 as [Hd ->].
  apply arg_inv in E1 as [_ ->]. apply hex_str_u64 in E2 as [Ha ->].
  apply arg_inv in E3 as [H4 ->]. pose proof E4 as Hx. apply hex_str_u64 in E4 as [_ ->].
  apply arg_inv in E5 as [_ ->]. apply wr_sz_inv in E6 as (Hn & Hn0 & ->).
  apply guard_ok_inv in E7 as [Hal ->].
  assert (Hr : 0 <= a6 <= 8) by (set_unfold; lia).
  rewrite fill_values_eq in E8.
  2: lia. 2: { eapply valid_le; [exact Hv|]. unfold MEM_MAX_BIN_SZ, DEV1_MEM_MAX_BIN_SZ. lia. }
  ok_simpl. simplify_eq. split_and!; [|done|done|].
  - eapply write_params_ok; try done; [unfold MEM_MAX_BIN_SZ, DEV1_MEM_MAX_BIN_SZ; lia|].
    by intros ->%Hn0.
  - exists a3, a4. split_and!; [done|by eapply hex_str_any|]. simpl. f_equal.
    rewrite <- value_bytes, Z2Nat.id by lia. done.
Qed.

Lemma fill_data_inv read_file name d m (x x' : mem) t :
  valid x (rw_values m) MEM_MAX_BIN_SZ ->
  is_fill_data_ok read_file name d m x = Some (Val t, x') ->
  4 < t <= MEM_MAX_BIN_SZ /\ (d = 0 -> t mod 4 = 0) /\ 
  exists data, read_file name = Some data /\ t = len data /\ x' = put_mem (rw_values m) data x.
Proof.
  unfold is_fill_data_ok. intros Hv H. destruct (read_file name) as [data|]; [|done].
  assert (Hb : 4 < len data <= MEM_MAX_BIN_SZ /\ (d = 0 -> len data mod 4 = 0) /\
    (fill_values m (len data) (fun i => default 0 (data !! Z.to_nat i));; mret (len data)) x = Some (Val t, x')).
  { unfold MEM_MAX_BIN_SZ, DEV0_MEM_MAX_BIN_SZ, DEV1_MEM_MAX_BIN_SZ in *.
    destruct (Z.eqb_spec d 0); apply E_bind_inv in H as (u & y & E & H); inv_ok E;
      repeat match goal with Hg : guard_ok _ _ = _ |- _ => apply guard_ok_inv in Hg as [Hg ->] end;
      rewrite negb_true_iff in *; rewrite ?Z.ltb_ge, ?Z.leb_gt in *;
      (split; [lia|split; [|exact H]]); [|done].
    intros _. by apply negb_false_iff, Z.eqb_eq in E. }
  destruct Hb as (Hb & Hd & He). apply E_bind_inv in He as (u & y & E & He).
  rewrite fill_values_eq, data_bytes in E.
  2: lia. 2: { eapply valid_le; [exact Hv|]. lia. }
  ok_simpl. simplify_eq. split; [lia|]. split; [done|]. by exists data.
Qed.

Lemma fill_extract_ok read_file argv m (x : mem) m' x' :
  valid x (rw_values m) MEM_MAX_BIN_SZ ->
  extract_fill_dev_mem_param read_file argv m x = Some (Val m', x') ->
  mem_cmd_ok m' /\ rw_values m' = rw_values m /\
  exists name data, argv !! 3%nat = Some name /\ read_file name = Some data /\
    total_bytes m' = len data /\ x' = put_mem (rw_values m) data x.
Proof.
  unfold extract_fill_dev_mem_param, check_argc. intros Hv H. inv_ok H.
  apply guard_ok_inv in E as [_ ->]. apply get_devID_inv in E0 as [Hd ->].
  apply arg_inv in E1 as [_ ->]. apply hex_str_u64 in E2 as [Ha ->].
  apply guard_ok_inv in E3 as [Hal ->]. apply arg_inv in E4 as [H3 ->].
  apply fill_data_inv in E5 as (Ht & Ht4 & data & Hf & -> & ->); [|done].
  ok_simpl. simplify_eq. split_and!; [|done|by exists a4, data].
  eapply (write_params_ok _ _ _ true); done || lia.
Qed.

Lemma get_devID_eq argv name pos d (x : mem) :
  argv !! 1%nat = Some name -> name !! pos = Some (48 + d) -> 0 <= d <= 2 ->
  get_devID argv pos x = Some (Val d, x).
Proof.
  intros Ha Hn Hd. unfold get_devID, arg. rewrite Ha. unfold char_at.
  erewrite E_bind_val by done. rewrite decide_True by (by eapply lookup_lt_Some).
  erewrite E_bind_val by done. rewrite Hn. simpl. unfold is_valid_devID.
  rewrite (proj2 (Z.leb_le 48 (48 + d))), (proj2 (Z.leb_le (48 + d) 50)) by lia. simpl.
  ok_simpl. do 3 f_equal. lia.
Qed.

Lemma regW_any {S S'} w d (s s1 : S) (t : S') n :
  is_valid_regW w d s = Some (Val n, s1) -> is_valid_regW w d t = Some (Val n, t).
Proof.
  unfold is_valid_regW. intros H. ok_simpl. repeat case_match; by simplify_eq.
Qed.

(** ** The commands on memory *)

Inductive mem_extract := GetMem | DumpMem | SetMem | FillMem.

Definition extract_mem_param (read_file : cstr -> option (list Z)) (c : mem_extract) :=
  match c with
  | GetMem => extract_get_dev_mem_param
  | DumpMem => extract_dump_dev_mem_param
  | SetMem => extract_set_dev_mem_param
  | FillMem => extract_fill_dev_mem_param read_file
  end.

Lemma extract_ok read_file c argv m (x : mem) m' x' :
  valid x (rw_values m) MEM_MAX_BIN_SZ ->
  extract_mem_param read_file c argv m x = Some (Val m', x') ->
  mem_cmd_ok m' /\ rw_values m' = rw_values m /\
  match c with
  | GetMem => x' = x /\ total_bytes m' <= 400
  | DumpMem => x' = x
  | SetMem => total_bytes m' ∈ [1; 2; 4; 8] /\
      exists s v, argv !! 4%nat = Some s /\ is_valid_hex_str s tt = Some (Val v, tt) /\
        x' = put_mem (rw_values m) (le_bytes (Z.to_nat (total_bytes m')) v) x
  | FillMem => exists name data, argv !! 3%nat = Some name /\ read_file name = Some data /\
      total_bytes m' = len data /\ x' = put_mem (rw_values m) data x
  end.
Proof.
  intros Hv H. destruct c; simpl in H.
  - apply get_extract_ok in H. naive_solver.
  - by apply dump_extract_ok in H.
  - by apply set_extract_ok in H.
  - by apply fill_extract_ok in H.
Qed.

(** The requests are left to the division. *)
Lemma extract_subreqs read_file c argv m (x : mem) m' x' :
  extract_mem_param read_file c argv m x = Some (Val m', x') -> subreqs m' = subreqs m.
Proof.
  intros H. destruct c; cbn [extract_mem_param] in H;
    unfold extract_get_dev_mem_param, extract_dump_dev_mem_param, extract_set_dev_mem_param,
      extract_fill_dev_mem_param in H; inv_ok H;
    repeat match goal with a : _ * _ |- _ => destruct a end; inv_ok H;
    ok_simpl; by simplify_eq.
Qed.

(** ** Properties *)

(** C24: whenever the arguments of a memory command are accepted, its device,
    address and size are valid: the size fits the array of the structure, and
    the address and the size meet the alignment of the device, whichever way
    they were rounded.  A read leaves the memory alone; a write has stored, and
    only stored, the bytes of its value or of its file in the array. *)
Theorem accepted_mem_command read_file c argv m (x : mem) m' x' :
  valid x (rw_values m) MEM_MAX_BIN_SZ ->
  extract_mem_param read_file c argv m x = Some (Val m', x') ->
  mem_cmd_ok m' /\ rw_values m' = rw_values m /\
  match c with
  | GetMem => x' = x /\ total_bytes m' <= 400
  | DumpMem => x' = x
  | SetMem => total_bytes m' ∈ [1; 2; 4; 8] /\
      exists s v, argv !! 4%nat = Some s /\ is_valid_hex_str s tt = Some (Val v, tt) /\
        x' = put_mem (rw_values m) (le_bytes (Z.to_nat (total_bytes m')) v) x
  | FillMem => exists name data, argv !! 3%nat = Some name /\ read_file name = Some data /\
      total_bytes m' = len data /\ x' = put_mem (rw_values m) data x
  end.
Proof. apply extract_ok. Qed.

(** The structure of a command before its parameters are extracted. *)
Definition ex_cmd : mem_cmd_t := mkMemCmd 77 77 77 (Some (0%nat, 0)) 77 [] 77.
Definition ex_array : mem := {[ 0%nat := Ints (replicate (Z.to_nat MEM_MAX_BIN_SZ) 0) ]}.

Lemma ex_array_valid : valid ex_array (rw_values ex_cmd) MEM_MAX_BIN_SZ.
Proof.
  exists (replicate (Z.to_nat MEM_MAX_BIN_SZ) 0). split; [done|].
  rewrite length_replicate. unfold MEM_MAX_BIN_SZ, DEV1_MEM_MAX_BIN_SZ. lia.
Qed.

Lemma accepted_mem_command_witness :
  mem_cmd_ok (mem_params 0 0x1000 12 0 ex_cmd) /\
  rw_values (mem_params 0 0x1000 12 0 ex_cmd) = rw_values ex_cmd /\
  ex_array = ex_array /\ 12 <= 400.
Proof.
  refine (accepted_mem_command (fun _ => None) GetMem
    [bytes_of "ccu"; bytes_of "get_dev0_mem"; bytes_of "0x1000"; bytes_of "10"]
    ex_cmd ex_array (mem_params 0 0x1000 12 0 ex_cmd) ex_array ex_array_valid _).
  reflexivity.
Defined.

(** every 64-bit number printed in hexadecimal is read back by the check on
    hexadecimal arguments, in both the parameters of a register write and
    anywhere else that it is used. *)
Lemma hex_argument_roundtrip {S} v (s : S) :
  is_u64 v -> is_valid_hex_str (bytes_of "0x" ++ fmt_lX v) s = Some (Val v, s).
Proof. apply hex_read_back. Qed.

Lemma hex_argument_roundtrip_witness :
  is_valid_hex_str (bytes_of "0xDEADBEEF") tt = Some (Val 0xDEADBEEF, tt).
Proof. apply (hex_argument_roundtrip 0xDEADBEEF tt). unfold is_u64. lia. Defined.

(** The read size is accepted whatever follows its digits: the string is
    found not to be decimal, but only a message is printed. *)
Lemma read_size_not_rejected {S} v c junk dump (s : S) :
  is_u64 v -> dump = true \/ v <= 400 -> dec_digit c = None ->
  let arg := digits 10 20 v [] ++ c :: junk in
  is_valid_dec_str arg = false /\ is_valid_get_mem_rd_sz arg dump s = Some (Val v, s).
Proof.
  intros Hv Hd Hc arg. split.
  - unfold is_valid_dec_str, arg. rewrite forallb_app. cbn [forallb]. unfold dec_digit in Hc.
    destruct (Z.leb_spec 48 c), (Z.leb_spec c 57), (Z.ltb_spec c 48), (Z.ltb_spec 57 c);
      try done; try lia; apply andb_false_r.
  - by apply dec_read_back.
Qed.

Lemma read_size_not_rejected_witness :
  is_valid_dec_str (bytes_of "12kB") = false /\
  is_valid_get_mem_rd_sz (bytes_of "12kB") false tt = Some (Val 12, tt).
Proof.
  apply (read_size_not_rejected 12 107 [66] false tt); [unfold is_u64; lia|right; lia|done].
Defined.

(** A register write keeps only the low 32 bits of the register number
    that the same argument gives a register read. *)
Lemma set_reg_truncates_id p name w id v d width (x : mem) :
  is_u64 id -> is_u64 v -> name !! CCU_3LCMD_DEVCHAR_POS = Some (48 + d) -> 0 <= d <= 2 ->
  is_valid_regW w d tt = Some (Val width, tt) ->
  let hex n := bytes_of "0x" ++ fmt_lX n in
  extract_get_dev_reg_param [p; name; w; hex id] x = Some (Val (mkRegCmd d id width 0), x) /\
  extract_set_dev_reg_param [p; name; w; hex id; hex v] x =
    Some (Val (mkRegCmd d (u32 id) width v), x).
Proof.
  intros Hid Hv Hn Hd Hw hex. split.
  - unfold extract_get_dev_reg_param, check_argc.
    erewrite E_bind_val by done. erewrite E_bind_val by (by eapply get_devID_eq).
    erewrite E_bind_val by done. erewrite E_bind_val by (by apply hex_read_back).
    erewrite E_bind_val by done. erewrite E_bind_val by (by eapply regW_any). done.
  - unfold extract_set_dev_reg_param, check_argc.
    erewrite E_bind_val by done. erewrite E_bind_val by (by eapply get_devID_eq).
    erewrite E_bind_val by done. erewrite E_bind_val by (by apply hex_read_back).
    erewrite E_bind_val by done. erewrite E_bind_val by (by apply hex_read_back).
    erewrite E_bind_val by done. erewrite E_bind_val by (by eapply regW_any). done.
Qed.

Lemma set_reg_truncates_id_witness :
  let argv := [bytes_of "ccu"; bytes_of "set_dev2_reg"; bytes_of "1"; bytes_of "0x1000000D0";
               bytes_of "0xA5"] in
  extract_get_dev_reg_param (take 4 argv) ∅ = Some (Val (mkRegCmd 2 0x1000000D0 1 0), ∅) /\
  extract_set_dev_reg_param argv ∅ = Some (Val (mkRegCmd 2 0xD0 1 0xA5), ∅).
Proof.
  apply (set_reg_truncates_id (bytes_of "ccu") (bytes_of "set_dev2_reg") (bytes_of "1")
    0x1000000D0 0xA5 2 1 ∅); unfold is_u64; try lia; reflexivity.
Defined.
