(* ===== verification/UsbIf.v ===== *)
(** The USB device class ([usb_device.h]) as the transports and the trace
    streaming see it: its data, the operations of [USBDevice] as the class
    [USBDevice], and what a device promises about the transfers it is given as
    the class [USBDeviceLaws]. *)
From S2P Require Import Prelude.

(** ** Data *)

Inductive Transfer_Status :=
  | Transfer_SUCCESS | Transfer_CANCELLED | Transfer_ERROR
  | Transfer_IN_PROGRESS | Transfer_NODATA.

#[export] Instance transfer_status_eq_dec : EqDecision Transfer_Status.
Proof. solve_decision. Defined.

Inductive ep_type := EP_TYPE_CONTROL | EP_TYPE_ISOCHRONOUS | EP_TYPE_BULK | EP_TYPE_INTERRUPT.
#[export] Instance ep_type_eq_dec : EqDecision ep_type.
Proof. solve_decision. Defined.

Record USBEPInfo := mkEP { ep_kind : ep_type; ep_addr : Z }.

Definition EP_DIR_OUT : Z := 0x00.
Definition EP_DIR_IN : Z := 0x80.
Definition EP_DIR_MASK : Z := 0x80.

Record USBDeviceIdentifier := mkUSBID {
  vendorID : Z; productID : Z; interfaceNumber : Z; deviceVersion : Z }.

(** What the callers report for a [USBException], and for an exception of the
    standard library. *)
Definition USB_EXCEPTION : Z := 0x0802.
Definition STD_EXCEPTION : Z := 0x0803.

(** The request type of a control transfer. *)
Definition CONTROL_RECIPIENT_ENDPOINT : Z := 2.
Definition CONTROL_TYPE_VENDOR : Z := Z.shiftl 2 5.
Definition CONTROL_DIR_OUT : Z := Z.shiftl 0 7.

(** ** The operations

    [D] is a device object with the world it acts on; [P] names the memory a
    transfer reads into, which the device fills when the transfer completes.
    [None] of the monad is undefined behaviour, [Fail] a [USBException]. *)

Record completion (P : Type) := Completed {
  c_token : Z; c_status : Transfer_Status; c_dest : P; c_data : list Z }.
Arguments Completed {P}.
Arguments c_token {P}.
Arguments c_status {P}.
Arguments c_dest {P}.
Arguments c_data {P}.

(** [completeTransfer]: it returns -1, or the next transfer completes, or none
    will unless another operation starts or cancels one, or it throws. *)
Inductive waiting (D P : Type) :=
  | NoTransfer
  | Completes (c : completion P) (d : D)
  | Blocked
  | Interrupted.
Arguments NoTransfer {D P}.
Arguments Completes {D P}.
Arguments Blocked {D P}.
Arguments Interrupted {D P}.

Class USBDevice (D P : Type) := {
  dev_create : USBDeviceIdentifier -> list Z -> D -> D;
  dev_connect : E D unit;
  dev_disconnect : D -> D;
  dev_getEndPoints : D -> list USBEPInfo;
  (** [controlTransfer reqType request value index] without data *)
  dev_controlTransfer : Z -> Z -> Z -> Z -> D -> Z * D;
  dev_submitReadTransfer : Z -> P -> Z -> E D Z;
  dev_submitQueuedReadTransfer : Z -> P -> Z -> E D Z;
  dev_pendingTransfers : D -> Z;
  dev_cancelTransfers : D -> D;
  dev_completeTransfer : D -> waiting D P;
}.

(** ** The promise

    Each transfer accepted is outstanding until it is returned, once, with its
    own token and its own destination; a token is never used again; and the exceptions have the
    codes above. *)

Record xfer (P : Type) := mkX { x_token : Z; x_dest : P }.
Arguments mkX {P}.
Arguments x_token {P}.
Arguments x_dest {P}.

Definition usb_code (c : Z) : Prop := c = USB_EXCEPTION \/ c = STD_EXCEPTION.

Class USBDeviceLaws (D P : Type) `{USBDevice D P} := {
  outstanding : D -> list (xfer P);
  next_token : D -> Z;
  create_law id serial d :
    outstanding (dev_create id serial d) = [] /\ 0 <= next_token (dev_create id serial d);
  connect_law d r d' :
    dev_connect d = Some (r, d') ->
    outstanding d' ≡ₚ outstanding d /\ next_token d' = next_token d;
  submit_read_law ep p n d r d' :
    dev_submitReadTransfer ep p n d = Some (r, d') ->
    next_token d <= next_token d' /\
    match r with
    | Val t => next_token d <= t < next_token d' /\
               outstanding d' ≡ₚ mkX t p :: outstanding d
    | Fail _ => outstanding d' ≡ₚ outstanding d
    end;
  submit_queued_law ep p n d r d' :
    dev_submitQueuedReadTransfer ep p n d = Some (r, d') ->
    next_token d <= next_token d' /\
    match r with
    | Val t => next_token d <= t < next_token d' /\
               outstanding d' ≡ₚ mkX t p :: outstanding d
    | Fail _ => outstanding d' ≡ₚ outstanding d
    end;
  complete_law d c d' :
    dev_completeTransfer d = Completes c d' ->
    outstanding d ≡ₚ mkX (c_token c) (c_dest c) :: outstanding d' /\
    next_token d' = next_token d;
  cancel_law d :
    outstanding (dev_cancelTransfers d) ≡ₚ outstanding d /\
    next_token (dev_cancelTransfers d) = next_token d;
  control_law rt rq v i d r d' :
    dev_controlTransfer rt rq v i d = (r, d') ->
    outstanding d' ≡ₚ outstanding d /\ next_token d' = next_token d;
  connect_raises : raises usb_code dev_connect;
  queued_raises ep p n : raises usb_code (dev_submitQueuedReadTransfer ep p n);
}.
