(* ===== verification/UsbDev.v ===== *)
(** The USB device over libusb ([client/plat_usb_if/usb_device_linux.cpp]): the
    class [USBDeviceLinux], its transfers (queued, in flight on an endpoint,
    completed), and the device as an instance of [USBDevice].  libusb and the
    bus behind it are the class [LibUSB]. *)
From S2P Require Import Prelude UsbIf.

Definition DEFAULT_CONFIGURATION_INDEX : Z := 0.
Definition MAX_URB_SIZE : Z := 16384.
Definition MAX_IN_FLIGHT : Z := 16.

(** ** What the code uses of libusb *)

Inductive libusb_status :=
  | LIBUSB_TRANSFER_COMPLETED | LIBUSB_TRANSFER_ERROR | LIBUSB_TRANSFER_TIMED_OUT
  | LIBUSB_TRANSFER_CANCELLED | LIBUSB_TRANSFER_STALL | LIBUSB_TRANSFER_NO_DEVICE
  | LIBUSB_TRANSFER_OVERFLOW.

Definition LIBUSB_ERROR_TIMEOUT : Z := -7.

Record device_descriptor := mkDesc {
  idVendor : Z; idProduct : Z; bcdDevice : Z; iSerialNumber : Z; iManufacturer : Z }.
Record endpoint_descriptor := mkEpDesc { bEndpointAddress : Z; bmAttributes : Z }.
Record interface_descriptor := mkIfDesc {
  bInterfaceNumber : Z; endpoint : list endpoint_descriptor }.
(** A configuration: for each interface its alternate settings. *)
Definition config_descriptor : Type := list (list interface_descriptor).

(** A [libusb_transfer]: its address, what it was filled with, and its result:
    [actual_length] bytes moved, [u_data] of them read into [u_dest]. *)
Record libusb_transfer (P : Type) := mkUrb {
  u_ptr : Z;
  u_endpoint : Z;
  u_type : ep_type;
  u_dest : P;
  u_length : Z;
  u_timeout : Z;
  u_status : libusb_status;
  actual_length : Z;
  u_data : list Z;
}.
Arguments mkUrb {P}.
Arguments u_ptr {P}.
Arguments u_endpoint {P}.
Arguments u_type {P}.
Arguments u_dest {P}.
Arguments u_length {P}.
Arguments u_timeout {P}.
Arguments u_status {P}.
Arguments actual_length {P}.
Arguments u_data {P}.

(** What comes next in a call of [libusb_handle_events_completed]: it calls
    back for a transfer, whose endpoint and address are given, with its result;
    it returns; it returns an error; or it goes on for ever.  A call that
    returns without having called back is made again at once, so it is no event
    of its own. *)
Inductive event (W : Type) :=
  | EvDone (ep ptr : Z) (st : libusb_status) (n : Z) (data : list Z) (w : W)
  | EvReturn (w : W)
  | EvError (err : Z) (w : W)
  | EvNever.
Arguments EvDone {W}.
Arguments EvReturn {W}.
Arguments EvError {W}.
Arguments EvNever {W}.

(** Handles and transfers are addresses, 0 is the null pointer; [None] is an
    error code. *)
Class LibUSB (W P : Type) := {
  libusb_init : W -> Z * W;
  libusb_exit : W -> W;
  libusb_get_device_list : W -> list Z;
  libusb_get_device_descriptor : Z -> W -> option device_descriptor;
  libusb_get_active_config_descriptor : Z -> W -> option config_descriptor;
  libusb_get_config_descriptor : Z -> Z -> W -> option config_descriptor;
  libusb_open : Z -> W -> option Z * W;
  libusb_close : Z -> W -> W;
  libusb_claim_interface : Z -> Z -> W -> Z * W;
  libusb_clear_halt : Z -> Z -> W -> Z * W;
  (** [libusb_control_transfer] without data, and for string descriptor [index]
      in language [langId] into 256 bytes: its result and the bytes written *)
  libusb_control_transfer : Z -> Z -> Z -> Z -> Z -> W -> Z * W;
  libusb_control_string : Z -> Z -> Z -> W -> Z * list Z * W;
  libusb_alloc_transfer : W -> Z * W;
  libusb_free_transfer : Z -> W -> W;
  libusb_submit_transfer : libusb_transfer P -> W -> Z * W;
  libusb_cancel_transfer : Z -> W -> W;
  (** given the completed flag of the call *)
  libusb_handle_event : bool -> W -> event W;
}.

(** ** The device *)

Record Transfer (P : Type) := mkTransfer { t_token : Z; t_transfer : libusb_transfer P }.
Arguments mkTransfer {P}.
Arguments t_token {P}.
Arguments t_transfer {P}.

(** [m_altSetting] is always 0. *)
Record USBDeviceLinux (W P : Type) := mkDev {
  m_deviceID : USBDeviceIdentifier;
  m_serialNumber : list Z;
  m_usbContext : bool;
  m_usbDev : Z;
  m_epInfo : list USBEPInfo;
  m_nextToken : Z;
  m_queuedTransfers : list (Transfer P);
  m_epInFlightTransfers : gmap Z (list (Transfer P));
  m_inFlightTransfers : Z;
  m_completedTransfers : list (Transfer P);
  m_completedFlag : bool;
  m_libusb : W;
}.
Arguments mkDev {W P}.
Arguments m_deviceID {W P}.
Arguments m_serialNumber {W P}.
Arguments m_usbContext {W P}.
Arguments m_usbDev {W P}.
Arguments m_epInfo {W P}.
Arguments m_nextToken {W P}.
Arguments m_queuedTransfers {W P}.
Arguments m_epInFlightTransfers {W P}.
Arguments m_inFlightTransfers {W P}.
Arguments m_completedTransfers {W P}.
Arguments m_completedFlag {W P}.
Arguments m_libusb {W P}.

Section device.
Context {W P : Type} `{LibUSB W P}.
Abbreviation Dev := (USBDeviceLinux W P).
Abbreviation DM := (E Dev).
Implicit Types d : Dev.

Definition set_lib w d : Dev :=
  mkDev (m_deviceID d) (m_serialNumber d) (m_usbContext d) (m_usbDev d) (m_epInfo d) (m_nextToken d)
    (m_queuedTransfers d) (m_epInFlightTransfers d) (m_inFlightTransfers d) (m_completedTransfers d)
    (m_completedFlag d) w.
Definition set_handles c h d : Dev :=
  mkDev (m_deviceID d) (m_serialNumber d) c h (m_epInfo d) (m_nextToken d)
    (m_queuedTransfers d) (m_epInFlightTransfers d) (m_inFlightTransfers d) (m_completedTransfers d)
    (m_completedFlag d) (m_libusb d).
Definition set_epInfo l d : Dev :=
  mkDev (m_deviceID d) (m_serialNumber d) (m_usbContext d) (m_usbDev d) l (m_nextToken d)
    (m_queuedTransfers d) (m_epInFlightTransfers d) (m_inFlightTransfers d) (m_completedTransfers d)
    (m_completedFlag d) (m_libusb d).
Definition set_nextToken t d : Dev :=
  mkDev (m_deviceID d) (m_serialNumber d) (m_usbContext d) (m_usbDev d) (m_epInfo d) t
    (m_queuedTransfers d) (m_epInFlightTransfers d) (m_inFlightTransfers d) (m_completedTransfers d)
    (m_completedFlag d) (m_libusb d).
Definition set_queues q i n c d : Dev :=
  mkDev (m_deviceID d) (m_serialNumber d) (m_usbContext d) (m_usbDev d) (m_epInfo d) (m_nextToken d)
    q i n c (m_completedFlag d) (m_libusb d).
Definition set_flag b d : Dev :=
  mkDev (m_deviceID d) (m_serialNumber d) (m_usbContext d) (m_usbDev d) (m_epInfo d) (m_nextToken d)
    (m_queuedTransfers d) (m_epInFlightTransfers d) (m_inFlightTransfers d) (m_completedTransfers d)
    b (m_libusb d).

Definition set_queued q d : Dev :=
  set_queues q (m_epInFlightTransfers d) (m_inFlightTransfers d) (m_completedTransfers d) d.
Definition set_completed c d : Dev :=
  set_queues (m_queuedTransfers d) (m_epInFlightTransfers d) (m_inFlightTransfers d) c d.
(** The deque of an endpoint, and the deque and the counter together. *)
Definition deque_of (ep : Z) d : list (Transfer P) := default [] (m_epInFlightTransfers d !! ep).
Definition set_deque (ep : Z) q n d : Dev :=
  set_queues (m_queuedTransfers d) (<[ep := q]> (m_epInFlightTransfers d)) n (m_completedTransfers d) d.

Definition on_lib {A} (f : W -> A * W) : DM A := fun d =>
  let (a, w) := f (m_libusb d) in Some (Val a, set_lib w d).
Definition throw_if (b : bool) : DM unit := if b then e_fail USB_EXCEPTION else mret tt.

(** ** Opening the device *)

(** [getUsbString] with the 256-byte buffer [buf]. *)
Definition string_request (h index langId : Z) (buf : list Z) : DM (Z * list Z) :=
  '(res, data) ← on_lib (fun w => libusb_control_string h index langId w);
  if len data <=? len buf then mret (res, splice buf 0 data) else e_ub.
Definition buf_at (buf : list Z) (i : nat) : Z := default 0 (buf !! i).

Definition getUsbString (h index langId : Z) : DM (Z * list Z) :=
  let buf := repeat 0 256 in
  '(res, buf, langId) ← (if langId =? 0 then
       '(res, buf) ← string_request h 0 0 buf;
       mret (res, buf, Z.lor (buf_at buf 2) (Z.shiftl (buf_at buf 3) 8))
     else mret (0, buf, langId));
  if res <? 0 then mret (res, [])
  else
    '(res, buf) ← string_request h index langId buf;
    if 2 <? res then
      let strLen := Z.quot (buf_at buf 0 - 2) 2 in
      (if strLen <? 0 then e_fail STD_EXCEPTION else mret tt);;
      mret (res, map (fun i => buf_at buf (2 + 2 * i)) (seq 0 (Z.to_nat strLen)))
    else mret (-1, []).

(** Open a device and keep it if it is the wanted one: 0 if not. *)
Definition try_open (dev : Z) (desc : device_descriptor) : DM Z :=
  r ← on_lib (libusb_open dev);
  match r with
  | None => mret 0
  | Some h =>
      serial ← e_gets m_serialNumber;
      found ← (if bool_decide (serial = []) then mret h
               else
                 '(r, s) ← getUsbString h (iSerialNumber desc) 0;
                 if 0 <? r then mret (if bool_decide (s = serial) then h else 0)
                 else
                   '(r, s) ← getUsbString h (iManufacturer desc) 0;
                   if 0 <? r then mret (if bool_decide (s = serial) then h else 0) else mret 0);
      (if found =? 0 then e_modify (fun d => set_lib (libusb_close h (m_libusb d)) d) else mret tt);;
      mret found
  end.

Fixpoint scan_interfaces (dev : Z) (desc : device_descriptor) (config : config_descriptor) : DM Z :=
  match config with
  | [] => mret 0
  | alts :: rest =>
      n ← e_gets (fun d => interfaceNumber (m_deviceID d));
      h ← (if existsb (fun a => bInterfaceNumber a =? n) alts then try_open dev desc else mret 0);
      if h =? 0 then scan_interfaces dev desc rest else mret h
  end.

Definition wanted (id : USBDeviceIdentifier) (desc : device_descriptor) : bool :=
  (idVendor desc =? vendorID id) && (idProduct desc =? productID id) &&
  ((bcdDevice desc =? deviceVersion id) || (deviceVersion id =? 0)).

Fixpoint scan_devices (devs : list Z) : DM Z :=
  match devs with
  | [] => mret 0
  | dev :: rest =>
      w ← e_gets m_libusb;
      id ← e_gets m_deviceID;
      match libusb_get_device_descriptor dev w with
      | Some desc =>
          if wanted id desc then
            match libusb_get_active_config_descriptor dev w with
            | Some config =>
                h ← scan_interfaces dev desc config;
                if h =? 0 then scan_devices rest else mret h
            | None => e_fail USB_EXCEPTION
            end
          else scan_devices rest
      | None => scan_devices rest
      end
  end.

Definition findAndOpenDeviceBySerialNumber : DM Z :=
  c ← e_gets m_usbContext;
  throw_if (negb c);;
  devs ← e_gets (fun d => libusb_get_device_list (m_libusb d));
  found ← scan_devices devs;
  throw_if (found =? 0);;
  mret found.

(** The four values of [bmAttributes & 3] are the transfer types of USB. *)
Definition ep_type_of (attr : Z) : ep_type :=
  match Z.land attr 3 with
  | 0 => EP_TYPE_CONTROL
  | 1 => EP_TYPE_ISOCHRONOUS
  | 2 => EP_TYPE_BULK
  | _ => EP_TYPE_INTERRUPT
  end.

(** The endpoints of the first interface with number [n]; an interface without
    an alternate setting is read outside its array. *)
Fixpoint interface_eps (n : Z) (config : config_descriptor) : DM (list USBEPInfo) :=
  match config with
  | [] => mret []
  | alts :: rest =>
      a ← e_index alts 0;
      if bInterfaceNumber a =? n
      then mret (map (fun e => mkEP (ep_type_of (bmAttributes e)) (bEndpointAddress e)) (endpoint a))
      else interface_eps n rest
  end.

Definition examineEndpoints : DM unit :=
  e_modify (set_epInfo []);;
  h ← e_gets m_usbDev;
  w ← e_gets m_libusb;
  match libusb_get_config_descriptor h DEFAULT_CONFIGURATION_INDEX w with
  | None => e_fail USB_EXCEPTION
  | Some config =>
      n ← e_gets (fun d => interfaceNumber (m_deviceID d));
      l ← interface_eps n config;
      e_modify (set_epInfo l)
  end.

Definition doDisconnect d : Dev :=
  let w1 := if m_usbDev d =? 0 then m_libusb d else libusb_close (m_usbDev d) (m_libusb d) in
  let w2 := if m_usbContext d then libusb_exit w1 else w1 in
  set_handles false 0 (set_lib w2 d).
Definition disconnect d : Dev := doDisconnect d.

Fixpoint clear_endpoints (l : list USBEPInfo) : DM unit :=
  match l with
  | [] => mret tt
  | e :: l' =>
      (if bool_decide (ep_kind e = EP_TYPE_BULK) then
         h ← e_gets m_usbDev;
         r ← on_lib (libusb_clear_halt h (ep_addr e));
         throw_if (r <? 0)
       else mret tt);;
      clear_endpoints l'
  end.

Definition connect : DM unit :=
  c ← e_gets m_usbContext;
  (if c : bool then mret tt
   else
     err ← on_lib libusb_init;
     throw_if (negb (err =? 0));;
     e_modify (fun d => set_handles true (m_usbDev d) d));;
  h ← findAndOpenDeviceBySerialNumber;
  e_modify (fun d => set_handles (m_usbContext d) h d);;
  (if h =? 0 then e_modify doDisconnect;; e_fail USB_EXCEPTION else mret tt);;
  id ← e_gets m_deviceID;
  r ← on_lib (libusb_claim_interface h (interfaceNumber id));
  throw_if (r <? 0);;
  examineEndpoints;;
  eps ← e_gets m_epInfo;
  clear_endpoints eps.

Definition getEndPoints d : list USBEPInfo := m_epInfo d.
Definition asyncTransferSize : Z := MAX_URB_SIZE.
Definition asyncTransferCount : Z := MAX_IN_FLIGHT.

Definition controlTransfer (reqType request value index : Z) d : Z * Dev :=
  let (r, w) := libusb_control_transfer (m_usbDev d) (u8 reqType) (u8 request) (u16 value) (u16 index)
                  (m_libusb d) in
  (r, set_lib w d).

(** ** Transfers *)

Definition createTransfer (ep : USBEPInfo) (p : P) (size wait_msecs : Z) : DM (libusb_transfer P) :=
  ptr ← on_lib libusb_alloc_transfer;
  match ep_kind ep with
  | EP_TYPE_BULK | EP_TYPE_INTERRUPT =>
      if ptr =? 0 then e_ub
      else mret (mkUrb ptr (u8 (ep_addr ep)) (ep_kind ep) p size wait_msecs LIBUSB_TRANSFER_COMPLETED 0 [])
  | _ =>
      e_modify (fun d => set_lib (libusb_free_transfer ptr (m_libusb d)) d);; e_fail USB_EXCEPTION
  end.

(** The loop keeps the last endpoint with the address. *)
Definition find_ep (address : Z) (l : list USBEPInfo) : option USBEPInfo :=
  fold_left (fun r e => if ep_addr e =? address then Some e else r) l None.

(** Given to libusb if the endpoint has room, else queued. *)
Definition dispatch (address : Z) (transfer : Transfer P) : DM unit :=
  epTransfers ← e_gets (deque_of address);
  if len epTransfers <? MAX_IN_FLIGHT then
    err ← on_lib (libusb_submit_transfer (t_transfer transfer));
    if err <? 0 then
      e_modify (fun d => set_lib (libusb_free_transfer (u_ptr (t_transfer transfer)) (m_libusb d)) d);;
      e_fail USB_EXCEPTION
    else
      e_modify (fun d => set_deque address (epTransfers ++ [transfer]) (u64 (m_inFlightTransfers d + 1)) d)
  else e_modify (fun d => set_queued (m_queuedTransfers d ++ [transfer]) d).

Definition new_token : DM Z :=
  token ← e_gets m_nextToken;
  if token =? 2 ^ 31 - 1 then e_ub else e_modify (set_nextToken (token + 1));; mret token.

Definition new_transfer (address dir : Z) (p : P) (size wait_msecs : Z) : DM (libusb_transfer P) :=
  eps ← e_gets m_epInfo;
  match find_ep address eps with
  | None => e_fail USB_EXCEPTION
  | Some ep =>
      throw_if (MAX_URB_SIZE <? size);;
      throw_if (negb (dir =? Z.land (ep_addr ep) EP_DIR_MASK));;
      createTransfer ep p size wait_msecs
  end.

Definition submitTransfer (address dir : Z) (p : P) (size wait_msecs : Z) : DM (Transfer P) :=
  token ← new_token;
  u ← new_transfer address dir p size wait_msecs;
  let transfer := mkTransfer token u in
  dispatch address transfer;;
  mret transfer.

Definition submitReadTransfer (ep : Z) (p : P) (size : Z) : DM Z :=
  t ← submitTransfer (u8 ep) EP_DIR_IN p size 1000; mret (t_token t).
Definition submitQueuedReadTransfer (ep : Z) (p : P) (size : Z) : DM Z :=
  t ← submitTransfer (u8 ep) EP_DIR_IN p size 0; mret (t_token t).
Definition submitWriteTransfer (ep : Z) (p : P) (size : Z) : DM Z :=
  t ← submitTransfer (u8 ep) EP_DIR_OUT p size 1000; mret (t_token t).

Definition pendingTransfers d : Z :=
  u64 (len (m_queuedTransfers d) + m_inFlightTransfers d + len (m_completedTransfers d)).

(** A transfer with its result. *)
Definition finish (st : libusb_status) (n : Z) (data : list Z) (t : Transfer P) : Transfer P :=
  let u := t_transfer t in
  mkTransfer (t_token t)
    (mkUrb (u_ptr u) (u_endpoint u) (u_type u) (u_dest u) (u_length u) (u_timeout u) st n data).
Definition mark_cancelled (t : Transfer P) : Transfer P :=
  finish LIBUSB_TRANSFER_CANCELLED (actual_length (t_transfer t)) (u_data (t_transfer t)) t.

(** The endpoints of a [std::map] with [uint8_t] keys are visited in order. *)
Definition in_flight d : list (Transfer P) := seqZ 0 256 ≫= fun ep => deque_of ep d.

Definition cancelTransfers d : Dev :=
  let w := fold_left (fun w t => libusb_cancel_transfer (u_ptr (t_transfer t)) w) (in_flight d) (m_libusb d) in
  set_lib w (set_queues [] (m_epInFlightTransfers d) (m_inFlightTransfers d)
               (m_completedTransfers d ++ map mark_cancelled (m_queuedTransfers d)) d).

Definition map_libusb_status (st : libusb_status) : Transfer_Status :=
  match st with
  | LIBUSB_TRANSFER_COMPLETED => Transfer_SUCCESS
  | LIBUSB_TRANSFER_CANCELLED => Transfer_CANCELLED
  | LIBUSB_TRANSFER_TIMED_OUT => Transfer_NODATA
  | LIBUSB_TRANSFER_STALL => Transfer_CANCELLED
  | LIBUSB_TRANSFER_NO_DEVICE | LIBUSB_TRANSFER_OVERFLOW | LIBUSB_TRANSFER_ERROR => Transfer_ERROR
  end.

(** The position of the last transfer with address [ptr]. *)
Fixpoint find_transfer (ptr : Z) (l : list (Transfer P)) : option nat :=
  match l with
  | [] => None
  | t :: l' => match find_transfer ptr l' with
               | Some i => Some (S i)
               | None => if u_ptr (t_transfer t) =? ptr then Some O else None
               end
  end.

(** [transfer_complete] in two parts: the transfer goes from the deque of its
    endpoint to the completed ones, and queued ones take its place (at most all
    of them). *)
Definition move_completed (ep ptr : Z) (st : libusb_status) (n : Z) (data : list Z) d : Dev :=
  let q := deque_of ep d in
  match find_transfer ptr q with
  | Some i =>
      set_flag true
        (set_completed (m_completedTransfers d ++ map (finish st n data) (option_list (q !! i)))
           (set_deque ep (delete i q) (u64 (m_inFlightTransfers d - 1)) d))
  | None => d
  end.

Fixpoint submit_more (fuel : nat) (ep : Z) d : Dev :=
  match fuel with
  | O => d
  | S f =>
      match m_queuedTransfers d with
      | [] => d
      | t :: rest =>
          if len (deque_of ep d) <? MAX_IN_FLIGHT then
            let (err, w) := libusb_submit_transfer (t_transfer t) (m_libusb d) in
            if err <? 0
            then set_queued rest (set_lib (libusb_free_transfer (u_ptr (t_transfer t)) w) d)
            else submit_more f ep
                   (set_deque ep (deque_of ep d ++ [t]) (u64 (m_inFlightTransfers d + 1))
                      (set_queued rest (set_lib w d)))
          else d
      end
  end.

Definition transfer_complete (ep ptr : Z) (st : libusb_status) (n : Z) (data : list Z) d : Dev :=
  let d1 := move_completed ep ptr st n data d in
  submit_more (length (m_queuedTransfers d1)) ep d1.

(** One call of [libusb_handle_events_completed]. *)
Inductive handled := HReturn (d : Dev) | HError (err : Z) (d : Dev) | HNever.

Fixpoint handle_events (fuel : nat) d : handled :=
  match fuel with
  | O => HNever
  | S f =>
      match libusb_handle_event (m_completedFlag d) (m_libusb d) with
      | EvDone ep ptr st n data w =>
          handle_events f (transfer_complete (u8 ep) ptr st n data (set_lib w d))
      | EvReturn w => HReturn (set_lib w d)
      | EvError err w => HError err (set_lib w d)
      | EvNever => HNever
      end
  end.
(** Every call back is for a transfer that libusb holds, and libusb holds only
    those in flight. *)
Definition event_fuel d : nat := S (length (in_flight d) + length (m_queuedTransfers d)).

(** What a call returns: the token, the status and the number of bytes, and
    where the data went; or -1, a wait without end, or an exception, which in
    [completeTransfer] is thrown while the lock is not held. *)
Inductive completed :=
  | CNone
  | CToken (t : Transfer P) (d : Dev)
  | CBlocked
  | CThrow (d : Dev).

Definition pop_completed d : completed :=
  match m_completedTransfers d with
  | [] => CBlocked
  | t :: rest =>
      CToken t (set_lib (libusb_free_transfer (u_ptr (t_transfer t)) (m_libusb d)) (set_completed rest d))
  end.

(** The loop of [completeTransfer]; a call of libusb that returns has called
    back, so the loop is entered at most that often. *)
Fixpoint wait_completed (fuel : nat) d : handled :=
  match m_completedTransfers d with
  | _ :: _ => HReturn d
  | [] =>
      match fuel with
      | O => HNever
      | S f =>
          match handle_events (event_fuel d) (set_flag false d) with
          | HReturn d' => wait_completed f d'
          | r => r
          end
      end
  end.

Definition completeTransfer d : completed :=
  if bool_decide (m_completedTransfers d = []) && (m_inFlightTransfers d =? 0) then CNone
  else
    match wait_completed (event_fuel d) d with
    | HReturn d' => pop_completed d'
    | HError _ d' => CThrow d'
    | HNever => CBlocked
    end.

(** The loop over the completed transfers takes [token] out of them: those
    before it go to the end. *)
Fixpoint rotate_to (token : Z) (l seen : list (Transfer P)) : option (Transfer P * list (Transfer P)) :=
  match l with
  | [] => None
  | t :: l' => if t_token t =? token then Some (t, l' ++ seen) else rotate_to token l' (seen ++ [t])
  end.

(** The loop has no bound, it also goes on after a time-out of libusb:
    [CBlocked] if it has not found the token after [waits] calls. *)
Fixpoint completeTransfer_forToken (waits : nat) (token : Z) d : completed :=
  match rotate_to token (m_completedTransfers d) [] with
  | Some (t, rest) =>
      CToken t (set_lib (libusb_free_transfer (u_ptr (t_transfer t)) (m_libusb d)) (set_completed rest d))
  | None =>
      match waits with
      | O => CBlocked
      | S n =>
          match handle_events (event_fuel d) (set_flag false d) with
          | HReturn d' => completeTransfer_forToken n token d'
          | HError err d' =>
              if err =? LIBUSB_ERROR_TIMEOUT then completeTransfer_forToken n token d' else CThrow d'
          | HNever => CBlocked
          end
      end
  end.

(** ** The device as a [USBDevice] *)

Definition completion_of (t : Transfer P) : completion P :=
  Completed (t_token t) (map_libusb_status (u_status (t_transfer t))) (u_dest (t_transfer t))
    (u_data (t_transfer t)).

#[export] Instance linux_device : USBDevice Dev P := {
  dev_create id serial d := mkDev id serial false 0 [] 0 [] ∅ 0 [] false (m_libusb d);
  dev_connect := connect;
  dev_disconnect := disconnect;
  dev_getEndPoints := getEndPoints;
  dev_controlTransfer := controlTransfer;
  dev_submitReadTransfer := submitReadTransfer;
  dev_submitQueuedReadTransfer := submitQueuedReadTransfer;
  dev_pendingTransfers := pendingTransfers;
  dev_cancelTransfers := cancelTransfers;
  dev_completeTransfer d :=
    match completeTransfer d with
    | CNone => NoTransfer
    | CToken t d' => Completes (completion_of t) d'
    | CBlocked => Blocked
    | CThrow _ => Interrupted
    end;
}.
End device.
