(* ===== verification/UsbScript.v ===== *)
(** A libusb whose completions are listed in advance, with one device on the
    bus: the witnesses and examples of the USB device run on it. *)
From S2P Require Import Prelude UsbIf UsbDev.

(** [ul_held]: endpoint and address of the transfers submitted and not called
    back; [ul_cancelled]: the addresses that were cancelled; [ul_script]:
    address, status and data of the transfers to complete, after which the
    cancelled ones do; [ul_room]: how many submissions are still accepted, if
    that is limited. *)
Record script_usb := mkUsb {
  ul_next : Z;
  ul_held : list (Z * Z);
  ul_cancelled : list Z;
  ul_script : list (Z * libusb_status * list Z);
  ul_room : option nat;
}.

Fixpoint pick_held (ptr : Z) (l : list (Z * Z)) : option (Z * list (Z * Z)) :=
  match l with
  | [] => None
  | (ep, p) :: l' => if p =? ptr then Some (ep, l')
                     else '(e, r) ← pick_held ptr l'; Some (e, (ep, p) :: r)
  end.

Fixpoint find_cancelled (c : list Z) (l : list (Z * Z)) : option (Z * Z) :=
  match l with
  | [] => None
  | (ep, p) :: l' => if existsb (Z.eqb p) c then Some (ep, p) else find_cancelled c l'
  end.

(** A vendor interface 1 with bulk endpoints 0x81 and 0x01 and the interrupt
    endpoint 0x82; the serial number is "AB". *)
Definition usb_config : config_descriptor :=
  [[mkIfDesc 0 []]; [mkIfDesc 1 [mkEpDesc 0x81 2; mkEpDesc 0x01 2; mkEpDesc 0x82 3]]].

#[export] Instance script_libusb {P} : LibUSB script_usb P := {
  libusb_init w := (0, w);
  libusb_exit w := w;
  libusb_get_device_list _ := [7];
  libusb_get_device_descriptor _ _ := Some (mkDesc 0x955 0x7045 0x100 3 1);
  libusb_get_active_config_descriptor _ _ := Some usb_config;
  libusb_get_config_descriptor _ _ _ := Some usb_config;
  libusb_open dev w := (Some dev, w);
  libusb_close _ w := w;
  libusb_claim_interface _ _ w := (0, w);
  libusb_clear_halt _ _ w := (0, w);
  libusb_control_transfer _ _ _ _ _ w := (0, w);
  libusb_control_string _ index _ w :=
    if index =? 0 then (4, [4; 3; 9; 4], w) else (6, [6; 3; 65; 0; 66; 0], w);
  libusb_alloc_transfer w := (ul_next w, mkUsb (ul_next w + 1) (ul_held w) (ul_cancelled w) (ul_script w) (ul_room w));
  libusb_free_transfer _ w := w;
  libusb_submit_transfer u w :=
    let held := ul_held w ++ [(u_endpoint u, u_ptr u)] in
    match ul_room w with
    | None => (0, mkUsb (ul_next w) held (ul_cancelled w) (ul_script w) None)
    | Some O => (-1, w)
    | Some (S n) => (0, mkUsb (ul_next w) held (ul_cancelled w) (ul_script w) (Some n))
    end;
  libusb_cancel_transfer p w := mkUsb (ul_next w) (ul_held w) (p :: ul_cancelled w) (ul_script w) (ul_room w);
  libusb_handle_event flag w :=
    if flag : bool then EvReturn w
    else
      let next := match ul_script w with
                  | (ptr, st, data) :: rest => '(ep, _) ← pick_held ptr (ul_held w); Some (ep, ptr, st, data, rest)
                  | [] => None
                  end in
      let dropped := '(ep, ptr) ← find_cancelled (ul_cancelled w) (ul_held w);
                     Some (ep, ptr, LIBUSB_TRANSFER_CANCELLED, [], ul_script w) in
      match (match next with Some e => Some e | None => dropped end) with
      | Some (ep, ptr, st, data, rest) =>
          EvDone ep ptr st (len data) data
            (mkUsb (ul_next w) (snd (default (0, []) (pick_held ptr (ul_held w)))) (ul_cancelled w) rest (ul_room w))
      | None => EvNever
      end;
}.

Abbreviation script_linux := (USBDeviceLinux script_usb Z).

Definition script_id : USBDeviceIdentifier := mkUSBID 0x955 0x7045 1 0.
(** Just created; the first transfer gets address 1. *)
Definition usb_new (script : list (Z * libusb_status * list Z)) (room : option nat) : script_linux :=
  mkDev script_id [65; 66] false 0 [] 0 [] ∅ 0 [] false (mkUsb 1 [] [] script room).

(** The device is found by its serial number. *)
Example connect_finds :
  match connect (usb_new [] None) with
  | Some (Val _, d) => (m_usbDev d, m_epInfo d)
  | _ => (0, [])
  end = (7, [mkEP EP_TYPE_BULK 0x81; mkEP EP_TYPE_BULK 0x01; mkEP EP_TYPE_INTERRUPT 0x82]).
Proof. vm_compute. reflexivity. Qed.
