(* ===== verification/UsbDevInv.v ===== *)
(** The transfers of a USB device: whatever is submitted, cancelled and
    completed, in whatever order libusb calls back, the counter of the transfers
    in flight is exact, no endpoint has more than [MAX_IN_FLIGHT] of them, and
    every token is returned once, unless libusb refused a queued transfer. *)
From S2P Require Import Prelude UsbIf UsbDev UsbScript.

Create HintDb usb.

Section invariant.
Context {W P : Type} `{LibUSB W P}.
Abbreviation Dev := (USBDeviceLinux W P).
Implicit Types d : Dev.

(** ** What a device owes *)

Definition xfer_of (t : Transfer P) : xfer P := mkX (t_token t) (u_dest (t_transfer t)).
Definition owed_transfers d : list (Transfer P) :=
  m_queuedTransfers d ++ in_flight d ++ m_completedTransfers d.
Definition owed d : list (xfer P) := map xfer_of (owed_transfers d).

Definition counted d : Prop :=
  m_inFlightTransfers d = len (in_flight d) /\ forall ep, len (deque_of ep d) <= MAX_IN_FLIGHT.

(** libusb accepts what it is given. *)
Definition accepting : Prop := forall (u : libusb_transfer P) (w : W), 0 <= (libusb_submit_transfer u w).1.

(** No token is given, and a transfer lost only if libusb refused it. *)
Record evolves d d' : Prop := {
  ev_owed : exists lost, owed d ≡ₚ lost ++ owed d' /\ (accepting -> lost = []);
  ev_next : m_nextToken d' = m_nextToken d;
  ev_counted : counted d -> counted d';
}.

Lemma evolves_same d d' :
  m_queuedTransfers d' = m_queuedTransfers d -> m_epInFlightTransfers d' = m_epInFlightTransfers d ->
  m_inFlightTransfers d' = m_inFlightTransfers d -> m_completedTransfers d' = m_completedTransfers d ->
  m_nextToken d' = m_nextToken d -> evolves d d'.
Proof.
  intros Hq Hi Hn Hc Ht. assert (Hf : in_flight d' = in_flight d) by (unfold in_flight, deque_of; by rewrite Hi).
  split.
  - exists []. split; [|done]. unfold owed, owed_transfers. by rewrite Hq, Hf, Hc.
  - done.
  - unfold counted, deque_of. by rewrite Hf, Hn, Hi.
Qed.
#[export] Instance evolves_preorder : PreOrder evolves.
Proof.
  split; [by intros d; apply evolves_same|].
  intros d d1 d2 [(l1 & Hp1 & Ha1) Hn1 Hc1] [(l2 & Hp2 & Ha2) Hn2 Hc2].
  split; [|congruence|by auto]. exists (l1 ++ l2).
  split; [by rewrite <- app_assoc, Hp1, Hp2|]. intros Ha. by rewrite Ha1, Ha2.
Qed.

(** ** The deques *)

Lemma in_flight_split ep d :
  0 <= ep < 256 -> exists A B, in_flight d = A ++ deque_of ep d ++ B /\
    forall q n, in_flight (set_deque ep q n d) = A ++ q ++ B.
Proof.
  intros Hep. assert (Hs : seqZ 0 256 = seqZ 0 ep ++ ep :: seqZ (ep + 1) (255 - ep)).
  { replace 256 with (ep + (256 - ep)) by lia. rewrite seqZ_app by lia. f_equal.
    rewrite Z.add_0_l, (seqZ_cons ep) by lia. f_equal. f_equal; lia. }
  unfold in_flight. rewrite Hs.
  exists (seqZ 0 ep ≫= fun e => deque_of e d), (seqZ (ep + 1) (255 - ep) ≫= fun e => deque_of e d).
  split; [by rewrite bind_app|]. intros q n. rewrite bind_app. simpl.
  assert (Hne : forall l, ep ∉ l -> (l ≫= fun e => deque_of e (set_deque ep q n d)) = l ≫= fun e => deque_of e d).
  { induction l as [|e l IH]; intros Hl; [done|]. apply not_elem_of_cons in Hl as [Hne Hl]. simpl.
    f_equal; [|by apply IH]. unfold deque_of, set_deque. simpl. by rewrite lookup_insert_ne by done. }
  rewrite !Hne by (rewrite elem_of_seqZ; lia). f_equal. f_equal.
  unfold deque_of, set_deque. simpl. by rewrite lookup_insert_eq.
Qed.

Lemma deque_of_set ep q n d e :
  deque_of e (set_deque ep q n d) = if decide (e = ep) then q else deque_of e d.
Proof.
  unfold deque_of, set_deque. simpl. case_decide as He; [subst; by rewrite lookup_insert_eq|].
  by rewrite lookup_insert_ne by done.
Qed.

Lemma len_bind_le {A B} (f : A -> list B) l n :
  (forall a, (length (f a) <= n)%nat) -> (length (l ≫= f) <= length l * n)%nat.
Proof.
  intros Hf. induction l as [|a l IH]; [done|].
  specialize (Hf a). simpl. rewrite length_app. unfold mbind in IH. lia.
Qed.
(** No counter overflows. *)
Lemma counted_small d : counted d -> 0 <= m_inFlightTransfers d <= 256 * MAX_IN_FLIGHT.
Proof.
  intros [-> Hb]. split; [lia|].
  assert (length (in_flight d) <= length (seqZ 0 256) * 16)%nat.
  { apply len_bind_le. intros e. specialize (Hb e). unfold MAX_IN_FLIGHT in Hb. lia. }
  rewrite length_seqZ in *. unfold MAX_IN_FLIGHT. lia.
Qed.

Lemma set_deque_counted ep q d :
  0 <= ep < 256 -> len q <= MAX_IN_FLIGHT -> counted d ->
  counted (set_deque ep q (u64 (m_inFlightTransfers d + (len q - len (deque_of ep d)))) d).
Proof.
  intros Hep Hq Hc. assert (Hs := counted_small _ Hc). destruct Hc as [Hn Hb].
  destruct (in_flight_split ep d Hep) as (A & B & Hd & Hset).
  rewrite Hd, !length_app in Hn. assert (Hbe := Hb ep). unfold MAX_IN_FLIGHT in *. split.
  - rewrite Hset, !length_app. simpl. rewrite u64_small by lia. lia.
  - intros e. rewrite deque_of_set. by case_decide.
Qed.

(** ** Completing *)

Lemma find_transfer_lookup ptr (l : list (Transfer P)) i :
  find_transfer ptr l = Some i -> exists t, l !! i = Some t /\ u_ptr (t_transfer t) = ptr.
Proof.
  revert i. induction l as [|t l IH]; intros i; simpl; [done|].
  destruct (find_transfer ptr l) as [j|].
  - intros [= <-]. destruct (IH j eq_refl) as (t' & ? & ?). by exists t'.
  - destruct (Z.eqb_spec (u_ptr (t_transfer t)) ptr); [|done]. intros [= <-]. by exists t.
Qed.

Lemma move_completed_owed ep ptr st n data d :
  0 <= ep < 256 -> owed (move_completed ep ptr st n data d) ≡ₚ owed d.
Proof.
  intros Hep. unfold move_completed. destruct (find_transfer ptr (deque_of ep d)) as [i|] eqn:Hf; [|done].
  apply find_transfer_lookup in Hf as (t & Ht & _). rewrite Ht. simpl.
  destruct (in_flight_split ep d Hep) as (A & B & Hd & Hset). unfold owed, owed_transfers. simpl.
  change (in_flight (set_flag _ _)) with (in_flight (set_deque ep (delete i (deque_of ep d))
    (u64 (m_inFlightTransfers d - 1)) d)). rewrite Hset, Hd.
  rewrite (delete_Permutation _ _ _ Ht) at 2. rewrite !map_app. simpl.
  change (xfer_of (finish st n data t)) with (xfer_of t). solve_Permutation.
Qed.

Lemma move_completed_evolves ep ptr st n data d :
  0 <= ep < 256 -> evolves d (move_completed ep ptr st n data d).
Proof.
  intros Hep. split.
  - exists []. split; [|done]. by rewrite move_completed_owed.
  - unfold move_completed. by destruct (find_transfer _ _).
  - unfold move_completed. destruct (find_transfer ptr (deque_of ep d)) as [i|] eqn:Hf; [|done].
    apply find_transfer_lookup in Hf as (t & Ht & _). intros Hc. assert (Hb := proj2 Hc ep).
    assert (Hl : length (deque_of ep d) = S (length (delete i (deque_of ep d)))).
    { rewrite length_delete by eauto. apply lookup_lt_Some in Ht. lia. }
    assert (Hq : len (delete i (deque_of ep d)) <= MAX_IN_FLIGHT) by lia.
    apply (set_deque_counted ep _ d Hep) in Hq; [|done].
    replace (_ + _) with (m_inFlightTransfers d - 1) in Hq by lia. exact Hq.
Qed.

Lemma submit_more_evolves fuel ep d : 0 <= ep < 256 -> evolves d (submit_more fuel ep d).
Proof.
  intros Hep. revert d. induction fuel as [|f IH]; intros d; simpl; [reflexivity|].
  destruct (m_queuedTransfers d) as [|t rest] eqn:Hq; [reflexivity|].
  destruct (Z.ltb_spec (len (deque_of ep d)) MAX_IN_FLIGHT) as [Hlt|]; [|reflexivity].
  destruct (libusb_submit_transfer (t_transfer t) (m_libusb d)) as [err w] eqn:Hs.
  destruct (Z.ltb_spec err 0).
  - split; [|done..]. exists [xfer_of t]. split.
    + unfold owed, owed_transfers. simpl. rewrite Hq. done.
    + intros Ha. specialize (Ha (t_transfer t) (m_libusb d)). rewrite Hs in Ha. simpl in Ha. lia.
  - etrans; [|apply IH].
    destruct (in_flight_split ep (set_queued rest (set_lib w d)) Hep) as (A & B & Hd & Hset). split.
    + exists []. split; [|done]. unfold owed, owed_transfers. rewrite Hset. simpl. rewrite Hq.
      change (in_flight (set_queued _ _)) with (in_flight d) in Hd. rewrite Hd.
      change (deque_of ep (set_queued _ _)) with (deque_of ep d). simpl. rewrite !map_app. simpl. solve_Permutation.
    + done.
    + intros Hc. assert (Hl := set_deque_counted ep (deque_of ep d ++ [t]) (set_queued rest (set_lib w d)) Hep).
      rewrite length_app in Hl. simpl in Hl.
      replace (Z.of_nat _ - _) with 1 in Hl by (change (deque_of ep (set_queued _ _)) with (deque_of ep d); lia).
      apply Hl; [lia|exact Hc].
Qed.

Lemma transfer_complete_evolves ep ptr st n data d :
  0 <= ep < 256 -> evolves d (transfer_complete ep ptr st n data d).
Proof.
  intros Hep. etrans; [by apply move_completed_evolves|]. by apply submit_more_evolves.
Qed.

Lemma set_lib_evolves w d : evolves d (set_lib w d).
Proof. by apply evolves_same. Qed.

Lemma handle_events_evolves fuel d :
  match handle_events fuel d with HReturn d' | HError _ d' => evolves d d' | HNever => True end.
Proof.
  revert d. induction fuel as [|f IH]; intros d; simpl; [done|].
  destruct (libusb_handle_event _ _) as [ep ptr st n data w|w|err w|]; [|apply set_lib_evolves..|done].
  set (d1 := transfer_complete _ _ _ _ _ _).
  assert (Hd1 : evolves d d1).
  { etrans; [apply (set_lib_evolves w)|]. apply transfer_complete_evolves, u8_byte. }
  specialize (IH d1). destruct (handle_events f d1); [by etrans..|done].
Qed.

Lemma wait_completed_evolves fuel d :
  match wait_completed fuel d with HReturn d' | HError _ d' => evolves d d' | HNever => True end.
Proof.
  revert d. induction fuel as [|f IH]; intros d; cbn [wait_completed];
    destruct (m_completedTransfers d); [done|reflexivity| |reflexivity].
  assert (Hh := handle_events_evolves (event_fuel d) (set_flag false d)).
  assert (Hf : evolves d (set_flag false d)) by by apply evolves_same.
  destruct (handle_events _ _) as [d1|err d1|]; [|by etrans|done].
  specialize (IH d1). assert (evolves d d1) by by etrans.
  destruct (wait_completed f d1); [by etrans..|done].
Qed.

Lemma pop_completed_owed d t d' :
  pop_completed d = CToken t d' ->
  owed d ≡ₚ xfer_of t :: owed d' /\ m_nextToken d' = m_nextToken d /\ (counted d -> counted d').
Proof.
  unfold pop_completed. destruct (m_completedTransfers d) as [|t0 rest] eqn:Hc; [done|].
  intros [= <- <-]. split; [|done]. unfold owed, owed_transfers.
  change (in_flight (set_lib _ _)) with (in_flight d). simpl. rewrite Hc.
  rewrite !map_app. simpl. solve_Permutation.
Qed.

(** [completeTransfer] returns a transfer that was owed, and owes it no more. *)
Lemma completeTransfer_owed d t d' :
  completeTransfer d = CToken t d' ->
  (exists lost, owed d ≡ₚ lost ++ xfer_of t :: owed d' /\ (accepting -> lost = [])) /\
  m_nextToken d' = m_nextToken d /\ (counted d -> counted d').
Proof.
  unfold completeTransfer. destruct (_ && _); [done|].
  assert (Hw := wait_completed_evolves (event_fuel d) d).
  destruct (wait_completed _ _) as [d1| |]; [|done..]. intros (Hp & Hn & Hc)%pop_completed_owed.
  destruct Hw as [(lost & Hl & Ha) Hn1 Hc1]. split; [|split; [congruence|auto]].
  exists lost. by rewrite Hl, Hp.
Qed.

(** ** Submitting and cancelling *)

Lemma cancelTransfers_owed d :
  owed (cancelTransfers d) ≡ₚ owed d /\ m_nextToken (cancelTransfers d) = m_nextToken d /\
  (counted d -> counted (cancelTransfers d)).
Proof.
  split; [|done]. unfold owed, owed_transfers, cancelTransfers.
  change (in_flight (set_lib _ _)) with (in_flight d). simpl.
  rewrite !map_app, map_map. change (fun t => xfer_of (mark_cancelled t)) with xfer_of. solve_Permutation.
Qed.

(** The parts of the state that say what is owed. *)
Definition book d := (m_nextToken d, m_queuedTransfers d, m_epInFlightTransfers d, m_inFlightTransfers d,
                      m_completedTransfers d).
Definition same_book d d' : Prop := book d' = book d.
#[export] Instance same_book_preorder : PreOrder same_book.
Proof. unfold same_book. split; [by intros d|intros d1 d2 d3 H1 H2; congruence]. Qed.
Lemma same_book_evolves d d' : same_book d d' -> evolves d d'.
Proof. unfold same_book, book. intros [= ?????]. by apply evolves_same. Qed.
End invariant.

Ltac book_tac := within_with ltac:(auto with usb within nocore).
#[export] Hint Extern 1 (within same_book (throw_if _)) =>
  unfold throw_if; case_match; [apply within_fail|apply within_ret] : usb.
#[export] Hint Extern 1 (same_book _ _) => reflexivity : usb.

Section operations.
Context {W P : Type} `{LibUSB W P}.
Abbreviation Dev := (USBDeviceLinux W P).
Abbreviation DM := (E Dev).
Implicit Types d : Dev.

Lemma on_lib_book {A} (f : W -> A * W) : within same_book (on_lib f : DM A).
Proof. intros d r d'. unfold on_lib. destruct (f (m_libusb d)) as [a w]. by intros [= <- <-]. Qed.
Hint Resolve on_lib_book : usb.

Lemma createTransfer_book ep p n w : within same_book (createTransfer ep p n w : DM _).
Proof. unfold createTransfer. book_tac. Qed.
Hint Resolve createTransfer_book : usb.
Lemma new_transfer_book a dir p n w : within same_book (new_transfer a dir p n w : DM _).
Proof. unfold new_transfer. book_tac. Qed.

Lemma getUsbString_book h i l : within same_book (getUsbString h i l : DM _).
Proof. unfold getUsbString, string_request. book_tac. Qed.
Hint Resolve getUsbString_book : usb.
Lemma try_open_book dev desc : within same_book (try_open dev desc : DM _).
Proof. unfold try_open. book_tac. Qed.
Hint Resolve try_open_book : usb.
Lemma scan_interfaces_book dev desc c : within same_book (scan_interfaces dev desc c : DM _).
Proof. induction c; simpl; book_tac. Qed.
Hint Resolve scan_interfaces_book : usb.
Lemma scan_devices_book l : within same_book (scan_devices l : DM _).
Proof. induction l; simpl; book_tac. Qed.
Hint Resolve scan_devices_book : usb.
Lemma interface_eps_book n c : within same_book (interface_eps n c : DM _).
Proof. induction c; simpl; book_tac. Qed.
Hint Resolve interface_eps_book : usb.
Lemma clear_endpoints_book l : within same_book (clear_endpoints l : DM _).
Proof. induction l; simpl; book_tac. Qed.
Hint Resolve clear_endpoints_book : usb.
Lemma connect_book : within same_book (connect : DM _).
Proof. unfold connect, findAndOpenDeviceBySerialNumber, examineEndpoints. book_tac. Qed.

Lemma same_book_owed d d' :
  same_book d d' -> owed d' = owed d /\ m_nextToken d' = m_nextToken d /\ (counted d -> counted d').
Proof.
  unfold same_book, book. intros [= Ht Hq Hi Hn Hc].
  assert (Hf : in_flight d' = in_flight d) by (unfold in_flight, deque_of; by rewrite Hi).
  unfold owed, owed_transfers, counted, deque_of. by rewrite Hf, Hq, Hc, Hn, Hi.
Qed.

Lemma dispatch_owed a t d r d' :
  0 <= a < 256 -> dispatch a t d = Some (r, d') ->
  owed d' ≡ₚ match r with Val _ => xfer_of t :: owed d | Fail _ => owed d end /\ m_nextToken d' = m_nextToken d /\
  (counted d -> counted d').
Proof.
  intros Ha. unfold dispatch. rewrite (E_bind_val _ _ _ _ _ eq_refl).
  destruct (Z.ltb_spec (len (deque_of a d)) MAX_IN_FLIGHT).
  - unfold mbind at 1, E_bind, on_lib. destruct (libusb_submit_transfer _ _) as [err w].
    destruct (err <? 0); [by intros [= <- <-]|]. intros [= <- <-].
    destruct (in_flight_split a (set_lib w d) Ha) as (A & B & Hd & Hset). split; [|split; [done|]].
    + unfold owed, owed_transfers. rewrite Hset. change (in_flight d) with (in_flight (set_lib w d)).
      rewrite Hd. simpl. rewrite !map_app. simpl. change (deque_of a (set_lib w d)) with (deque_of a d).
      solve_Permutation.
    + intros Hc. assert (Hl := set_deque_counted a (deque_of a d ++ [t]) (set_lib w d) Ha).
      change (deque_of a (set_lib w d)) with (deque_of a d) in Hl. rewrite length_app in Hl. simpl in Hl.
      replace (Z.of_nat _ - _) with 1 in Hl by lia. apply Hl; [lia|exact Hc].
  - intros [= <- <-]. split; [|done]. unfold owed, owed_transfers.
    change (in_flight (set_queued _ _)) with (in_flight d). simpl. rewrite !map_app. simpl. solve_Permutation.
Qed.

Lemma new_token_eq d r d' :
  new_token d = Some (r, d') -> r = Val (m_nextToken d) /\ d' = set_nextToken (m_nextToken d + 1) d.
Proof.
  unfold new_token. rewrite (E_bind_val _ _ _ _ _ eq_refl). destruct (_ =? _); [done|]. by intros [= <- <-].
Qed.

Lemma createTransfer_dest ep p n w d u d' :
  createTransfer ep p n w d = Some (Val u, d') -> u_dest u = p.
Proof.
  unfold createTransfer. intros Hc.
  apply E_bind_cases in Hc as [(ptr & d1 & _ & Hc)|(? & _ & [=])].
  destruct (ep_kind ep); try (by injection Hc as []); destruct (ptr =? 0); try done; by injection Hc as <- <-.
Qed.
Lemma new_transfer_dest a dir p n w d u d' :
  new_transfer a dir p n w d = Some (Val u, d') -> u_dest u = p.
Proof.
  unfold new_transfer. intros Hc. apply E_bind_cases in Hc as [(eps & d1 & _ & Hc)|(? & _ & [=])].
  destruct (find_ep a eps); [|done].
  apply E_bind_cases in Hc as [(? & d2 & _ & Hc)|(? & _ & [=])].
  apply E_bind_cases in Hc as [(? & d3 & _ & Hc)|(? & _ & [=])]. by eapply createTransfer_dest.
Qed.

(** A transfer that is accepted is owed, with the next token; one that is
    refused has used its token up. *)
Lemma submitTransfer_owed a dir p n w d r d' :
  0 <= a < 256 -> submitTransfer a dir p n w d = Some (r, d') ->
  m_nextToken d' = m_nextToken d + 1 /\ (counted d -> counted d') /\
  match r with
  | Val t => xfer_of t = mkX (m_nextToken d) p /\ owed d' ≡ₚ xfer_of t :: owed d
  | Fail _ => owed d' ≡ₚ owed d
  end.
Proof.
  intros Ha Hs. unfold submitTransfer in Hs.
  apply E_bind_cases in Hs as [(tok & d1 & Ht & Hs)|(c & Ht & _)]; apply new_token_eq in Ht as [[= ->] ->].
  change (owed d) with (owed (set_nextToken (m_nextToken d + 1) d)).
  change (counted d) with (counted (set_nextToken (m_nextToken d + 1) d)).
  apply E_bind_cases in Hs as [(u & d2 & Hu & Hs)|(c & Hu & ->)];
    assert (Hb := new_transfer_book _ _ _ _ _ _ _ _ Hu); apply same_book_owed in Hb as (Ho & Hn & Hc);
    [|by rewrite Ho, Hn].
  apply new_transfer_dest in Hu. subst p.
  apply E_bind_cases in Hs as [(x & d3 & Hd & [= <- <-])|(c & Hd & ->)];
    apply dispatch_owed in Hd as (Ho3 & Hn3 & Hc3); [|done| |done]; rewrite Hn3, Hn, Ho3, Ho;
    (split; [done|]); (split; [by auto|]); done.
Qed.
End operations.

(** ** What the device promises *)

Section promise.
Context {W P : Type} `{LibUSB W P}.
Abbreviation Dev := (USBDeviceLinux W P).
Implicit Types d : Dev.

Lemma submitRead_owed ep p n w d r d' :
  (t ← submitTransfer (u8 ep) EP_DIR_IN p n w; mret (t_token t)) d = Some (r, d') ->
  m_nextToken d <= m_nextToken d' /\
  match r with
  | Val t => m_nextToken d <= t < m_nextToken d' /\ owed d' ≡ₚ mkX t p :: owed d
  | Fail _ => owed d' ≡ₚ owed d
  end.
Proof.
  intros Hs. apply E_bind_cases in Hs as [(t & d1 & Ht & [= <- <-])|(c & Ht & ->)];
    apply submitTransfer_owed in Ht as (Hn & _ & Ho); try apply u8_byte; [|split; [lia|done]].
  destruct Ho as [Hx Ho]. injection Hx as Htok Hp. rewrite Hn, Htok, Ho. unfold xfer_of. rewrite Htok, Hp.
  split; [lia|]. split; [lia|done].
Qed.

(** The exceptions of the device. *)
Create HintDb raises.
Ltac raises_tac := raises_with ltac:(first [by left | by right | eauto with raises nocore]).
Lemma on_lib_raises {A} (f : W -> A * W) : raises usb_code (on_lib f : E Dev A).
Proof. intros d c d'. unfold on_lib. destruct (f _). done. Qed.
Hint Resolve on_lib_raises : raises.
Lemma throw_raises b : raises usb_code (throw_if b : E Dev unit).
Proof. unfold throw_if. raises_tac. Qed.
Hint Resolve throw_raises : raises.
Lemma getUsbString_raises h i l : raises usb_code (getUsbString h i l : E Dev _).
Proof. unfold getUsbString, string_request. raises_tac. Qed.
Hint Resolve getUsbString_raises : raises.
Lemma try_open_raises dev desc : raises usb_code (try_open dev desc : E Dev Z).
Proof. unfold try_open. raises_tac. Qed.
Hint Resolve try_open_raises : raises.
Lemma scan_interfaces_raises dev desc l : raises usb_code (scan_interfaces dev desc l : E Dev Z).
Proof. induction l as [|a l IH]; cbn [scan_interfaces]; raises_tac. Qed.
Hint Resolve scan_interfaces_raises : raises.
Lemma scan_devices_raises l : raises usb_code (scan_devices l : E Dev Z).
Proof. induction l as [|a l IH]; cbn [scan_devices]; raises_tac. Qed.
Hint Resolve scan_devices_raises : raises.
Lemma interface_eps_raises n l : raises usb_code (interface_eps n l : E Dev _).
Proof. induction l as [|a l IH]; cbn [interface_eps]; raises_tac. Qed.
Hint Resolve interface_eps_raises : raises.
Lemma clear_endpoints_raises l : raises usb_code (clear_endpoints l : E Dev unit).
Proof. induction l as [|a l IH]; cbn [clear_endpoints]; raises_tac. Qed.
Hint Resolve clear_endpoints_raises : raises.
Lemma connect_raises : raises usb_code (connect : E Dev unit).
Proof. unfold connect, findAndOpenDeviceBySerialNumber, examineEndpoints. raises_tac. Qed.
Lemma submitTransfer_raises a dir p n w : raises usb_code (submitTransfer a dir p n w : E Dev (Transfer P)).
Proof. unfold submitTransfer, new_token, new_transfer, createTransfer, dispatch. raises_tac. Qed.

(** Over a libusb that accepts what it is given, the device keeps the promise of
    [USBDeviceLaws]. *)
#[refine] Instance linux_laws (Hacc : accepting (W := W) (P := P)) : USBDeviceLaws Dev P :=
  {| outstanding := owed; next_token := m_nextToken |}.
Proof.
  - by intros id serial d.
  - intros d r d' Hc. apply connect_book, same_book_owed in Hc as (-> & -> & _). done.
  - intros ep p n d r d'. apply submitRead_owed.
  - intros ep p n d r d'. apply submitRead_owed.
  - intros d c d' Hc. simpl in Hc. destruct (completeTransfer d) as [|t d1| |] eqn:Ht; try done.
    injection Hc as <- <-. apply completeTransfer_owed in Ht as ((lost & Ho & Hl) & Hn & _).
    by rewrite Ho, (Hl Hacc).
  - intros d. destruct (cancelTransfers_owed d) as (Ho & Hn & _). done.
  - intros rt rq v i d r d'. simpl. unfold controlTransfer.
    destruct (libusb_control_transfer _ _ _ _ _ _) as [x w]. by intros [= <- <-].
  - exact connect_raises.
  - intros ep p n. simpl. unfold submitQueuedReadTransfer. assert (Hr := submitTransfer_raises). raises_tac.
Defined.
End promise.


(** ** Sessions *)

Section sessions.
Context {W P : Type} `{LibUSB W P}.
Abbreviation Dev := (USBDeviceLinux W P).
Implicit Types d : Dev.

Inductive op :=
  | OConnect
  | ORead (ep : Z) (p : P) (size : Z)
  | OQueuedRead (ep : Z) (p : P) (size : Z)
  | OWrite (ep : Z) (p : P) (size : Z)
  | OCancel
  | OComplete
  | OCompleteFor (waits : nat) (token : Z)
  | ODisconnect.

(** An operation with the tokens that it gives and those that it returns.  A
    call that waits for ever changes nothing; [completeTransfer] throwing leaves
    the lock in an undefined state. *)
Definition submitted (r : option (result Z * Dev)) : option (list Z * list Z * Dev) :=
  match r with
  | Some (Val t, d') => Some ([t], [], d')
  | Some (Fail _, d') => Some ([], [], d')
  | None => None
  end.
Definition run_op (o : op) d : option (list Z * list Z * Dev) :=
  match o with
  | OConnect => '(_, d') ← connect d; Some ([], [], d')
  | ORead ep p n => submitted (submitReadTransfer ep p n d)
  | OQueuedRead ep p n => submitted (submitQueuedReadTransfer ep p n d)
  | OWrite ep p n => submitted (submitWriteTransfer ep p n d)
  | OCancel => Some ([], [], cancelTransfers d)
  | OComplete =>
      match completeTransfer d with
      | CToken t d' => Some ([], [t_token t], d')
      | CThrow _ => None
      | _ => Some ([], [], d)
      end
  | OCompleteFor waits token =>
      match completeTransfer_forToken waits token d with
      | CToken t d' => Some ([], [t_token t], d')
      | CThrow d' => Some ([], [], d')
      | _ => Some ([], [], d)
      end
  | ODisconnect => Some ([], [], disconnect d)
  end.
Fixpoint run_ops (os : list op) d : option (list Z * list Z * Dev) :=
  match os with
  | [] => Some ([], [], d)
  | o :: os' =>
      '(acc, ret, d1) ← run_op o d;
      '(acc', ret', d2) ← run_ops os' d1;
      Some (acc ++ acc', ret ++ ret', d2)
  end.

Definition owed_tokens d : list Z := map x_token (owed d).

(** What one operation does, and what a sequence of them does. *)
Record accounts (acc ret : list Z) d d' : Prop := {
  ac_tokens : exists lost, acc ++ owed_tokens d ≡ₚ lost ++ ret ++ owed_tokens d' /\
                           (accepting (W := W) (P := P) -> lost = []);
  ac_next : m_nextToken d <= m_nextToken d';
  ac_fresh : Forall (fun t => m_nextToken d <= t < m_nextToken d') acc;
  ac_counted : counted d -> counted d';
}.

Lemma evolves_accounts d d' : evolves d d' -> accounts [] [] d d'.
Proof.
  intros [(lost & Hp & Ha) Hn Hc]. split; [|lia|done|done].
  exists (map x_token lost). split; [|intros Hacc; by rewrite (Ha Hacc)].
  unfold owed_tokens. by rewrite Hp, map_app.
Qed.
Lemma accounts_submit ep dir p n w d :
  match submitted ((t ← submitTransfer (u8 ep) dir p n w; mret (t_token t)) d) with
  | Some (acc, ret, d') => accounts acc ret d d'
  | None => True
  end.
Proof.
  match goal with |- context [submitted ?m] => destruct m as [[r d']|] eqn:Hs; [|done] end.
  apply E_bind_cases in Hs as [(t & d1 & Ht & [= <- <-])|(c & Ht & ->)];
    apply submitTransfer_owed in Ht as (Hn & Hc & Ho); try apply u8_byte; simpl.
  - destruct Ho as [Hx Ho]. apply (f_equal x_token) in Hx. simpl in Hx. rewrite Hx.
    split; [|lia|repeat constructor; lia|done]. exists []. split; [|done].
    unfold owed_tokens. rewrite Ho. simpl. by rewrite Hx.
  - split; [|lia|done|done]. exists []. split; [|done]. unfold owed_tokens. by rewrite Ho.
Qed.
Lemma accounts_completed d t d' lost :
  owed d ≡ₚ lost ++ xfer_of t :: owed d' -> (accepting (W := W) (P := P) -> lost = []) ->
  m_nextToken d' = m_nextToken d -> (counted d -> counted d') -> accounts [] [t_token t] d d'.
Proof.
  intros Ho Ha Hn Hc. split; [|lia|done|done].
  exists (map x_token lost). split; [|intros Hacc; by rewrite (Ha Hacc)].
  unfold owed_tokens. by rewrite Ho, map_app.
Qed.

Lemma rotate_to_perm token (l seen : list (Transfer P)) t rest :
  rotate_to token l seen = Some (t, rest) -> seen ++ l ≡ₚ t :: rest.
Proof.
  revert seen. induction l as [|t0 l IH]; intros seen; simpl; [done|].
  destruct (t_token t0 =? token); [intros [= <- <-]; solve_Permutation|].
  intros Hr. rewrite <- (IH _ Hr). solve_Permutation.
Qed.
Lemma forToken_accounts waits token d :
  match completeTransfer_forToken waits token d with
  | CToken t d' => exists d1, evolves d d1 /\ owed d1 ≡ₚ xfer_of t :: owed d' /\
                     m_nextToken d' = m_nextToken d1 /\ (counted d1 -> counted d')
  | CThrow d' => evolves d d'
  | _ => True
  end.
Proof.
  revert d. induction waits as [|n IH]; intros d; cbn [completeTransfer_forToken];
    (destruct (rotate_to token (m_completedTransfers d) []) as [[t rest]|] eqn:Hr;
     [apply rotate_to_perm in Hr; exists d; split; [done|]; split; [|done];
      unfold owed, owed_transfers; simpl in Hr; rewrite Hr;
      change (in_flight (set_lib _ _)) with (in_flight d); simpl; rewrite !map_app; simpl; solve_Permutation|]);
    [done|].
  assert (Hh := handle_events_evolves (event_fuel d) (set_flag false d)).
  assert (Hf : evolves d (set_flag false d)) by by apply evolves_same.
  assert (Hnext : forall d1, evolves (set_flag false d) d1 ->
    match completeTransfer_forToken n token d1 with
    | CToken t d' => exists d2, evolves d d2 /\ owed d2 ≡ₚ xfer_of t :: owed d' /\
                       m_nextToken d' = m_nextToken d2 /\ (counted d2 -> counted d')
    | CThrow d' => evolves d d'
    | _ => True
    end).
  { intros d1 Hd1. specialize (IH d1). destruct (completeTransfer_forToken n token d1); try done.
    - destruct IH as (d2 & He & ?). exists d2. split; [|done]. by do 2 (etrans; [eassumption|]).
    - by do 2 (etrans; [eassumption|]). }
  destruct (handle_events _ _) as [d1|err d1|]; [by apply Hnext| |done].
  destruct (err =? _); [by apply Hnext|]. by etrans.
Qed.

Lemma run_op_accounts o d acc ret d' : run_op o d = Some (acc, ret, d') -> accounts acc ret d d'.
Proof.
  destruct o as [|ep p n|ep p n|ep p n| | |waits token|]; simpl; intros Hr.
  - destruct (connect d) as [[r d1]|] eqn:Hc; [|done]. injection Hr as <- <- <-.
    by apply evolves_accounts, same_book_evolves, (connect_book _ _ _ Hc).
  - assert (Ha := accounts_submit ep EP_DIR_IN p n 1000 d). unfold submitReadTransfer in Hr. by rewrite Hr in Ha.
  - assert (Ha := accounts_submit ep EP_DIR_IN p n 0 d). unfold submitQueuedReadTransfer in Hr. by rewrite Hr in Ha.
  - assert (Ha := accounts_submit ep EP_DIR_OUT p n 1000 d). unfold submitWriteTransfer in Hr. by rewrite Hr in Ha.
  - injection Hr as <- <- <-. destruct (cancelTransfers_owed d) as (Ho & Hn & Hc).
    apply evolves_accounts. split; [|done|done]. exists []. by rewrite Ho.
  - destruct (completeTransfer d) as [|t d1| |] eqn:Ht; try done;
      injection Hr as <- <- <-; try (by apply evolves_accounts).
    apply completeTransfer_owed in Ht as ((lost & Ho & Ha) & Hn & Hc). by eapply accounts_completed.
  - assert (Hf := forToken_accounts waits token d).
    destruct (completeTransfer_forToken waits token d) as [|t d1| |d1]; injection Hr as <- <- <-;
      try (by apply evolves_accounts).
    destruct Hf as (d2 & [(lost & Hl & Ha) Hn2 Hc2] & Ho & Hn & Hc).
    eapply (accounts_completed _ _ _ lost); [by rewrite Hl, Ho|done|congruence|auto].
  - injection Hr as <- <- <-. by apply evolves_accounts, same_book_evolves.
Qed.

Lemma run_op_single o d acc ret d' : run_op o d = Some (acc, ret, d') -> NoDup acc.
Proof.
  assert (Hs : forall r, submitted r = Some (acc, ret, d') -> NoDup acc).
  { intros [[[t|c] d1]|]; intros [=]; subst; auto using NoDup_singleton, NoDup_nil_2. }
  destruct o; simpl; eauto.
  - destruct (connect d) as [[r d1]|]; [|done]. intros [= <- <- <-]. apply NoDup_nil_2.
  - intros [= <- <- <-]. apply NoDup_nil_2.
  - destruct (completeTransfer d); intros [=]; subst; apply NoDup_nil_2.
  - destruct (completeTransfer_forToken _ _ d); intros [=]; subst; apply NoDup_nil_2.
  - intros [= <- <- <-]. apply NoDup_nil_2.
Qed.

Lemma run_ops_accounts os d acc ret d' :
  run_ops os d = Some (acc, ret, d') -> accounts acc ret d d' /\ NoDup acc.
Proof.
  revert d acc ret. induction os as [|o os IH]; intros d acc ret; simpl.
  { intros [= <- <- <-]. split; [by apply evolves_accounts|constructor]. }
  destruct (run_op o d) as [[[acc1 ret1] d1]|] eqn:Ho; [|done]. simpl.
  destruct (run_ops os d1) as [[[acc2 ret2] d2]|] eqn:Hr; [|done]. simpl. intros [= <- <- <-].
  apply run_op_single in Ho as Hone.
  apply run_op_accounts in Ho as [(l1 & Hp1 & Ha1) Hn1 Hf1 Hc1].
  apply IH in Hr as [[(l2 & Hp2 & Ha2) Hn2 Hf2 Hc2] Hnd]. split; [split|].
  - exists (l1 ++ l2). split; [|intros Ha; by rewrite Ha1, Ha2].
    rewrite (Permutation_app_comm acc1), <- app_assoc, Hp1.
    rewrite (app_assoc l1), (Permutation_app_comm (l1 ++ ret1)), <- !app_assoc.
    rewrite app_assoc, Hp2. solve_Permutation.
  - lia.
  - apply Forall_app. split; eapply list.Forall_impl; try eassumption; simpl; lia.
  - auto.
  - apply list.NoDup_app. split; [done|]. split; [|done]. intros t Ht1 Ht2.
    rewrite list.Forall_forall in Hf1, Hf2. apply Hf1 in Ht1. apply Hf2 in Ht2. lia.
Qed.

(** C31: Whatever is submitted, cancelled and completed, and in whatever order
    libusb calls back: no token is given twice; every token given is returned
    once or still owed, except for queued transfers that libusb refused; the
    counter of the transfers in flight is exact, and no endpoint has more than
    [MAX_IN_FLIGHT] of them. *)
Theorem transfers_conserved os id serial d acc ret d' :
  run_ops os (dev_create id serial d) = Some (acc, ret, d') ->
  NoDup acc /\
  (exists lost, acc ≡ₚ lost ++ ret ++ owed_tokens d' /\ (accepting (W := W) (P := P) -> lost = [])) /\
  m_inFlightTransfers d' = len (in_flight d') /\
  (forall ep, len (deque_of ep d') <= MAX_IN_FLIGHT) /\
  pendingTransfers d' = u64 (len (owed d')).
Proof.
  intros Hr. apply run_ops_accounts in Hr as [[Ht _ _ Hc] Hnd].
  assert (Hc0 : counted d') by by apply Hc. destruct Hc0 as [Hn Hb].
  split; [done|]. split; [|split; [done|split; [done|]]].
  - destruct Ht as (lost & Hp & Ha). exists lost. split; [|done]. rewrite <- Hp.
    change (owed_tokens (dev_create id serial d)) with (@nil Z). by rewrite app_nil_r.
  - unfold pendingTransfers, owed, owed_transfers. rewrite Hn, length_map, !length_app. f_equal. lia.
Qed.
End sessions.

Definition usb_session : list (op (P := Z)) :=
  OConnect :: repeat (OQueuedRead 0x81 100 16) 17 ++ [ORead 0x82 200 8; OComplete; OComplete; OCancel; OComplete].
Definition usb_done : list (Z * libusb_status * list Z) :=
  [(2, LIBUSB_TRANSFER_COMPLETED, [1; 2]); (18, LIBUSB_TRANSFER_TIMED_OUT, []);
   (1, LIBUSB_TRANSFER_CANCELLED, [])].
Definition usb_facts (p : list Z * list Z * script_linux) := (p.1.2, len p.1.1, m_inFlightTransfers p.2).
Lemma usb_session_run :
  usb_facts <$> run_ops usb_session (dev_create script_id [65; 66] (usb_new usb_done None)) =
    Some ([1; 17; 0], 18, 15).
Proof. vm_compute. reflexivity. Qed.

Lemma transfers_conserved_witness :
  exists acc ret d', run_ops usb_session (dev_create script_id [65; 66] (usb_new usb_done None)) =
      Some (acc, ret, d') /\ NoDup acc /\ ret = [1; 17; 0] /\ len (in_flight d') = 15.
Proof.
  destruct (fmap_Some_1 _ _ _ usb_session_run) as ([[acc ret] d'] & He & Hf).
  unfold usb_facts in Hf. cbn [fst snd] in Hf. apply pair_eq in Hf as [[Hr _]%pair_eq Hn].
  destruct (transfers_conserved _ _ _ _ _ _ _ He) as (Hnd & _ & Hc & _).
  exists acc, ret, d'. split; [exact He|]. split; [exact Hnd|]. split; [done|]. by rewrite <- Hc.
Defined.
