(* ===== verification/UsbDrain.v ===== *)
(** Cancelled transfers come back: with a libusb that calls back for what it was
    told to cancel, as many calls of [completeTransfer] as there are transfers
    pending return all of them.  And what goes wrong when an endpoint has more
    transfers than [MAX_IN_FLIGHT]. *)
From S2P Require Import Prelude UsbIf UsbDev UsbScript UsbDevInv.

(** What libusb promises: it holds what was submitted until it calls back
    ([lu_held]: endpoint and address), and once everything that it holds is
    cancelled ([lu_live] is what is not), every call calls back for some of it. *)
Class CancelLaws (W P : Type) `{LibUSB W P} := {
  lu_held : W -> list (Z * Z);
  lu_live : W -> list Z;
  live_law w q : q ∈ lu_live w -> q ∈ map snd (lu_held w);
  cancel_transfer_law p w :
    lu_held (libusb_cancel_transfer p w) = lu_held w /\
    forall q, q ∈ lu_live (libusb_cancel_transfer p w) -> q ∈ lu_live w /\ q <> p;
  free_transfer_law p w :
    lu_held (libusb_free_transfer p w) = lu_held w /\ lu_live (libusb_free_transfer p w) = lu_live w;
  event_law flag w :
    lu_live w = [] -> flag = true \/ lu_held w <> [] ->
    match libusb_handle_event flag w with
    | EvDone ep ptr _ _ _ w' => lu_held w ≡ₚ (ep, ptr) :: lu_held w' /\ lu_live w' = []
    | EvReturn w' => flag = true /\ lu_held w' = lu_held w /\ lu_live w' = []
    | _ => False
    end;
}.

Section drain.
Context {W P : Type} `{CancelLaws W P}.
Abbreviation Dev := (USBDeviceLinux W P).
Implicit Types d : Dev.

Definition tag (t : Transfer P) : Z * Z := (u_endpoint (t_transfer t), u_ptr (t_transfer t)).

(** The device and libusb agree: the counter is exact, libusb holds what is in
    flight, and a transfer is in the deque of its own endpoint. *)
Record synced d : Prop := {
  sy_counted : counted d;
  sy_held : lu_held (m_libusb d) ≡ₚ map tag (in_flight d);
  sy_filed : map_Forall (fun ep q => Forall (fun t => u_endpoint (t_transfer t) = ep) q)
               (m_epInFlightTransfers d);
}.

(** After a cancellation there is nothing in the queue, and nothing that
    libusb holds is live. *)
Record ready d : Prop := {
  re_synced : synced d;
  re_queue : m_queuedTransfers d = [];
  re_live : lu_live (m_libusb d) = [];
}.

Lemma filed_deque ep d t :
  synced d -> t ∈ deque_of ep d -> u_endpoint (t_transfer t) = ep.
Proof.
  intros Hs Ht. unfold deque_of in Ht. destruct (_ !! ep) as [q|] eqn:Hq; [|by apply elem_of_nil in Ht].
  assert (Hf := sy_filed _ Hs ep q Hq). simpl in Hf. rewrite list.Forall_forall in Hf. auto.
Qed.
Lemma elem_of_in_flight t d : t ∈ in_flight d <-> exists ep, 0 <= ep < 256 /\ t ∈ deque_of ep d.
Proof.
  unfold in_flight. rewrite list_elem_of_bind. split.
  - intros (ep & Ht & Hep). apply elem_of_seqZ in Hep. exists ep. split; [lia|done].
  - intros (ep & Hep & Ht). exists ep. split; [done|]. apply elem_of_seqZ. lia.
Qed.

Lemma find_transfer_some (l : list (Transfer P)) t :
  t ∈ l -> is_Some (find_transfer (u_ptr (t_transfer t)) l).
Proof.
  induction l as [|t0 l IH]; intros Ht; [by apply elem_of_nil in Ht|]. simpl.
  apply elem_of_cons in Ht as [->|Ht].
  - destruct (find_transfer _ l); [eauto|]. rewrite Z.eqb_refl. eauto.
  - destruct (IH Ht) as [i ->]. eauto.
Qed.

(** A call back for a transfer in flight completes one. *)
Lemma move_completed_synced ep ptr st n data d w :
  synced d -> m_queuedTransfers d = [] -> lu_held (m_libusb d) ≡ₚ (ep, ptr) :: lu_held w ->
  let d' := transfer_complete (u8 ep) ptr st n data (set_lib w d) in
  synced d' /\ m_queuedTransfers d' = [] /\ m_libusb d' = w /\ owed d' ≡ₚ owed d /\
  length (in_flight d) = S (length (in_flight d')) /\ m_completedFlag d' = true /\ m_completedTransfers d' <> [].
Proof.
  intros Hs Hq Hp. cbn zeta. assert (Hh := sy_held _ Hs). assert (Hf := sy_filed _ Hs).
  assert (Hin : (ep, ptr) ∈ map tag (in_flight d)) by (rewrite <- Hh, Hp; apply elem_of_cons; by left).
  apply list_elem_of_fmap in Hin as (t & Htag & Ht). injection Htag as He Hptr.
  apply elem_of_in_flight in Ht as (ep' & Hb & Ht).
  assert (ep' = ep) as -> by by rewrite He, (filed_deque ep' d t).
  rewrite u8_small by done.
  assert (Hev := transfer_complete_evolves ep ptr st n data (set_lib w d) Hb).
  destruct (find_transfer_some (deque_of ep d) t Ht) as [i Hi]. rewrite <- Hptr in Hi.
  apply find_transfer_lookup in Hi as Hlk. destruct Hlk as (t' & Ht' & Hptr').
  assert (Htag' : tag t' = (ep, ptr)).
  { unfold tag. rewrite Hptr'. f_equal. apply (filed_deque ep d _ Hs). by eapply list_elem_of_lookup_2. }
  set (dm := move_completed ep ptr st n data (set_lib w d)).
  assert (Hdm : transfer_complete ep ptr st n data (set_lib w d) = dm /\
                dm = set_flag true (set_completed (m_completedTransfers d ++ [finish st n data t'])
                       (set_deque ep (delete i (deque_of ep d)) (u64 (m_inFlightTransfers d - 1)) (set_lib w d)))).
  { unfold transfer_complete. fold dm. unfold dm, move_completed.
    change (deque_of ep (set_lib w d)) with (deque_of ep d). rewrite Hi, Ht'. simpl. rewrite Hq. done. }
  destruct Hdm as [Htc Hdm]. rewrite Htc in *.
  destruct (in_flight_split ep d Hb) as (A & B & Hd & Hset).
  assert (Hper : in_flight d ≡ₚ t' :: in_flight dm).
  { rewrite Hdm, Hd. change (in_flight (set_flag _ _)) with
      (in_flight (set_deque ep (delete i (deque_of ep d)) (u64 (m_inFlightTransfers d - 1)) d)).
    rewrite Hset. rewrite (delete_Permutation _ _ _ Ht') at 1. solve_Permutation. }
  assert (Ho : owed dm ≡ₚ owed d) by exact (move_completed_owed ep ptr st n data (set_lib w d) Hb).
  assert (Hlen : length (in_flight d) = S (length (in_flight dm))) by by rewrite Hper.
  assert (Hlib : m_libusb dm = w) by by rewrite Hdm.
  split; [|split_and!; try done; rewrite Hdm; [done|done|by destruct (m_completedTransfers d)]].
  split.
  - by apply (ev_counted _ _ Hev), (sy_counted _ Hs).
  - rewrite Hlib. apply (Permutation_cons_inv (a := (ep, ptr))).
    rewrite <- Hp, Hh, Hper. simpl. by rewrite Htag'.
  - rewrite Hdm. simpl. apply map_Forall_insert_2; [|done].
    apply list.Forall_forall. intros t0 Ht0. apply (filed_deque ep d _ Hs).
    by eapply list_elem_of_delete_inv.
Qed.
Lemma move_completed_ready ep ptr st n data d w :
  ready d -> lu_held (m_libusb d) ≡ₚ (ep, ptr) :: lu_held w -> lu_live w = [] ->
  let d' := transfer_complete (u8 ep) ptr st n data (set_lib w d) in
  ready d' /\ owed d' ≡ₚ owed d /\ length (in_flight d) = S (length (in_flight d')) /\
  m_completedFlag d' = true /\ m_completedTransfers d' <> [].
Proof.
  intros [Hs Hq Hl] Hp Hw. cbn zeta.
  destruct (move_completed_synced ep ptr st n data d w Hs Hq Hp) as (Hs' & Hq' & Hw' & Hrest).
  split; [|exact Hrest]. split; [done|done|by rewrite Hw'].
Qed.

Lemma set_lib_ready w d :
  ready d -> lu_held w = lu_held (m_libusb d) -> lu_live w = [] -> ready (set_lib w d).
Proof. intros [[Hc Hh Hf] Hq Hl] He Hw. split; [split|..]; simpl; [done|by rewrite He|done..]. Qed.
Lemma set_flag_ready b d : ready d -> ready (set_flag b d).
Proof. intros [[Hc Hh Hf] Hq Hl]. by split. Qed.

Lemma handle_events_ready fuel d :
  ready d -> (length (in_flight d) < fuel)%nat ->
  (if m_completedFlag d then m_completedTransfers d <> [] else in_flight d <> []) ->
  exists d', handle_events fuel d = HReturn d' /\ ready d' /\ owed d' ≡ₚ owed d /\
    m_completedTransfers d' <> [].
Proof.
  revert d. induction fuel as [|f IH]; intros d Hd Hf Hflag; [lia|]. simpl.
  assert (Hev := event_law (m_completedFlag d) _ (re_live _ Hd)).
  assert (Hcond : m_completedFlag d = true \/ lu_held (m_libusb d) <> []).
  { revert Hflag. destruct (m_completedFlag d); [by left|intros Hflag; right]. intros Hn. apply Hflag.
    assert (Hh := sy_held _ (re_synced _ Hd)). rewrite Hn in Hh. apply Permutation_nil_l in Hh.
    by destruct (in_flight d). }
  specialize (Hev Hcond). destruct (libusb_handle_event _ _) as [ep ptr st n data w|w| |]; [| |done..].
  - destruct Hev as [Hp Hw].
    destruct (move_completed_ready ep ptr st n data d w Hd Hp Hw) as (Hr & Ho & Hlen & Hfl & Hne).
    destruct (IH _ Hr) as (d' & Hd' & Hr' & Ho' & Hn'); [lia|by rewrite Hfl|].
    exists d'. split; [done|]. split; [done|]. by rewrite Ho', Ho.
  - destruct Hev as (Ht & Hh & Hl). rewrite Ht in Hflag. exists (set_lib w d).
    split; [done|]. split; [by apply set_lib_ready|]. split; [done|done].
Qed.

Lemma owed_ready d : ready d -> owed_transfers d = in_flight d ++ m_completedTransfers d.
Proof. intros Hd. unfold owed_transfers. by rewrite (re_queue _ Hd). Qed.

Lemma pop_ready d :
  ready d -> m_completedTransfers d <> [] ->
  exists t d', pop_completed d = CToken t d' /\ ready d' /\ owed d ≡ₚ xfer_of t :: owed d'.
Proof.
  intros Hr Hc. destruct (pop_completed d) as [|t d'| |] eqn:Hp;
    try (by unfold pop_completed in Hp; destruct (m_completedTransfers d)).
  exists t, d'. split; [done|]. split; [|by apply pop_completed_owed in Hp as [? _]].
  unfold pop_completed in Hp. destruct (m_completedTransfers d) as [|t0 rest]; [done|]. injection Hp as -> <-.
  destruct (free_transfer_law (u_ptr (t_transfer t)) (m_libusb d)) as [Hh Hl].
  apply (set_lib_ready _ (set_completed rest d)); [|done|by rewrite Hl, (re_live _ Hr)].
  by destruct Hr as [[? ? ?] ? ?].
Qed.

Lemma wait_ready d :
  ready d -> in_flight d <> [] -> m_completedTransfers d = [] ->
  exists d', wait_completed (event_fuel d) d = HReturn d' /\ ready d' /\ owed d' ≡ₚ owed d /\
    m_completedTransfers d' <> [].
Proof.
  intros Hd Hne Hc.
  destruct (handle_events_ready (event_fuel d) (set_flag false d)) as (d1 & Hh & Hr & Ho & Hn).
  - by apply set_flag_ready.
  - unfold event_fuel. change (in_flight (set_flag false d)) with (in_flight d). lia.
  - exact Hne.
  - exists d1. split; [|done]. unfold event_fuel at 1. cbn [wait_completed]. rewrite Hc, Hh.
    destruct (_ + _)%nat; cbn [wait_completed]; by destruct (m_completedTransfers d1).
Qed.

(** A call returns a transfer as long as there is one. *)
Lemma completeTransfer_ready d :
  ready d -> owed d <> [] ->
  exists t d', completeTransfer d = CToken t d' /\ ready d' /\ owed d ≡ₚ xfer_of t :: owed d'.
Proof.
  intros Hd Hne. unfold completeTransfer. destruct (m_completedTransfers d) as [|t0 rest] eqn:Hc.
  - assert (Hin : in_flight d <> []).
    { intros He. apply Hne. unfold owed. by rewrite owed_ready, He, Hc. }
    assert (Hz : (m_inFlightTransfers d =? 0) = false).
    { rewrite (proj1 (sy_counted _ (re_synced _ Hd))). apply Z.eqb_neq. by destruct (in_flight d). }
    rewrite Hz, andb_false_r. destruct (wait_ready d Hd Hin Hc) as (d1 & -> & Hr & Ho & Hn).
    destruct (pop_ready d1 Hr Hn) as (t & d2 & Hp & Hr2 & Ho2). exists t, d2. split; [done|]. split; [done|].
    by rewrite <- Ho.
  - simpl. unfold event_fuel. cbn [wait_completed]. rewrite Hc. apply pop_ready; [done|by rewrite Hc].
Qed.

Lemma cancelTransfers_ready d : synced d -> ready (cancelTransfers d).
Proof.
  intros Hs. unfold cancelTransfers.
  set (cancel := fun (w : W) (t : Transfer P) => libusb_cancel_transfer (u_ptr (t_transfer t)) w).
  assert (Hfold : forall l w, lu_held (fold_left cancel l w) = lu_held w /\
    forall q, q ∈ lu_live (fold_left cancel l w) -> q ∈ lu_live w /\ q ∉ map (fun t => u_ptr (t_transfer t)) l).
  { induction l as [|t l IH]; intros w; simpl; [split; [done|]; intros q Hq; split; [done|apply not_elem_of_nil]|].
    destruct (IH (cancel w t)) as [Hh Hl].
    destruct (cancel_transfer_law (u_ptr (t_transfer t)) w) as [Hh1 Hl1]. split; [by rewrite Hh|].
    intros q Hq. apply Hl in Hq as [Hq Hnin]. apply Hl1 in Hq as [Hq Hne]. split; [done|].
    by apply not_elem_of_cons. }
  destruct (Hfold (in_flight d) (m_libusb d)) as [Hh Hl]. destruct Hs as [Hc Hheld Hf].
  split; [split|..]; simpl; [exact Hc|by rewrite Hh|done|done|].
  apply elem_of_nil_inv. intros q Hq. apply Hl in Hq as [Hq Hnin]. apply Hnin.
  apply live_law in Hq. rewrite Hheld in Hq. by rewrite map_map in Hq.
Qed.

Lemma drain_ready n d :
  ready d -> length (owed d) = n ->
  exists ret d', run_ops (repeat OComplete n) d = Some ([], ret, d') /\ ready d' /\
    ret ≡ₚ map x_token (owed d) /\ owed d' = [].
Proof.
  revert d. induction n as [|n IH]; intros d Hd Hn; simpl.
  { exists [], d. split; [done|]. split; [done|]. by destruct (owed d). }
  destruct (completeTransfer_ready d Hd) as (t & d1 & Ht & Hd1 & Ho); [by intros He; rewrite He in Hn|].
  rewrite Ht. simpl.
  destruct (IH d1 Hd1) as (ret & d2 & -> & Hr2 & Hp & He); [rewrite Ho in Hn; by injection Hn|].
  eexists _, d2. split; [done|]. split; [done|]. split; [|done]. rewrite Ho. simpl. by rewrite Hp.
Qed.

(** A device that agrees with libusb gets back what it cancels. *)
Lemma cancelled_drain d :
  synced d ->
  exists ret d', run_ops (OCancel :: repeat OComplete (length (owed d))) d = Some ([], ret, d') /\
    ret ≡ₚ owed_tokens d /\ pendingTransfers d' = 0 /\ completeTransfer d' = CNone.
Proof.
  intros Hs. apply cancelTransfers_ready in Hs as Hr. destruct (cancelTransfers_owed d) as (Ho & _ & _).
  destruct (drain_ready (length (owed d)) _ Hr) as (ret & d' & Hd & Hr' & Hp & He); [by rewrite Ho|].
  exists ret, d'. split; [simpl; by rewrite Hd|]. split; [unfold owed_tokens; by rewrite Hp, Ho|].
  unfold owed in He. apply fmap_nil_inv in He. rewrite owed_ready in He by done. apply app_nil in He as [Hi Hc].
  assert (Hn := proj1 (sy_counted _ (re_synced _ Hr'))). rewrite Hi in Hn. split.
  - unfold pendingTransfers. by rewrite (re_queue _ Hr'), Hc, Hn.
  - unfold completeTransfer. by rewrite Hc, Hn.
Qed.
End drain.

(** ** On the scripted libusb *)

Definition live_of (w : script_usb) : list Z :=
  filter (fun p => existsb (Z.eqb p) (ul_cancelled w) = false) (map snd (ul_held w)).

Lemma pick_held_perm ptr l ep r : pick_held ptr l = Some (ep, r) -> l ≡ₚ (ep, ptr) :: r.
Proof.
  revert ep r. induction l as [|[e p] l IH]; intros ep r; simpl; [done|].
  destruct (Z.eqb_spec p ptr) as [->|]; [by intros [= <- <-]|].
  destruct (pick_held ptr l) as [[e' r']|]; [|done]. simpl. intros [= <- <-].
  rewrite (IH e' r' eq_refl). constructor.
Qed.
Lemma find_cancelled_some c l :
  l <> [] -> filter (fun p => existsb (Z.eqb p) c = false) (map snd l) = [] ->
  exists ep p r, find_cancelled c l = Some (ep, p) /\ pick_held p l = Some (ep, r).
Proof.
  destruct l as [|[ep p] l]; [done|]. intros _ Hf. cbn [map snd] in Hf. rewrite filter_cons in Hf.
  case_decide as Hc; [done|]. apply not_false_iff_true in Hc. simpl. rewrite Hc.
  exists ep, p, l. by rewrite Z.eqb_refl.
Qed.

Lemma filter_perm_nil c (l l' : list (Z * Z)) x :
  l ≡ₚ x :: l' -> filter (fun p => existsb (Z.eqb p) c = false) (map snd l) = [] ->
  filter (fun p => existsb (Z.eqb p) c = false) (map snd l') = [].
Proof.
  intros Hp Hl. apply (Permutation_map snd) in Hp. simpl in Hp.
  apply (filter_Permutation (fun p => existsb (Z.eqb p) c = false)) in Hp. rewrite Hl, filter_cons in Hp.
  case_decide; apply Permutation_nil_l in Hp; done.
Qed.

#[export] Instance script_cancel_laws : CancelLaws script_usb Z.
Proof.
  refine {| lu_held := ul_held; lu_live := live_of |}.
  - intros w q. unfold live_of. by intros [_ Hq]%list_elem_of_filter.
  - intros p w. split; [done|]. intros q. unfold live_of. simpl. rewrite !list_elem_of_filter.
    intros [Hc Hq]. apply orb_false_iff in Hc as [Hne Hc]. apply Z.eqb_neq in Hne. done.
  - done.
  - intros flag w Hl Hc. simpl. destruct flag; [done|]. destruct Hc as [|Hne]; [done|].
    destruct (find_cancelled_some _ _ Hne Hl) as (ep & p & r & Hf & Hp). rewrite Hf.
    assert (Hgo : forall ep ptr st data rest r, pick_held ptr (ul_held w) = Some (ep, r) ->
      match EvDone ep ptr st (len data) data (mkUsb (ul_next w) (snd (default (0, []) (pick_held ptr (ul_held w))))
              (ul_cancelled w) rest (ul_room w)) with
      | EvDone ep ptr _ _ _ w' => ul_held w ≡ₚ (ep, ptr) :: ul_held w' /\ live_of w' = []
      | EvReturn w' => false = true /\ ul_held w' = ul_held w /\ live_of w' = []
      | _ => False
      end).
    { intros ep1 ptr1 st1 data1 rest1 r1 Hp1. rewrite Hp1. simpl. apply pick_held_perm in Hp1.
      split; [done|]. unfold live_of. simpl. by eapply filter_perm_nil. }
    destruct (ul_script w) as [|[[ptr st] data] rest]; [exact (Hgo ep p LIBUSB_TRANSFER_CANCELLED [] [] r Hp)|].
    destruct (pick_held ptr (ul_held w)) as [[ep1 r1]|] eqn:Hp1; cbn [mbind option_bind].
    + exact (Hgo ep1 ptr st data rest r1 Hp1).
    + exact (Hgo ep p LIBUSB_TRANSFER_CANCELLED [] ((ptr, st, data) :: rest) r Hp).
Defined.

(** ** An endpoint with more than [MAX_IN_FLIGHT] transfers

    The queue is shared, and [transfer_complete] fills the deque of the endpoint
    that has just got room from it, whatever endpoint its transfers are for. *)

Definition fill (n : nat) : list (op (P := Z)) := repeat (OQueuedRead 0x81 100 16) n.
Definition after_ops (ops : list (op (P := Z))) (d : script_linux) :=
  option_map (fun p : list Z * list Z * script_linux =>
      (p.1.2, owed_tokens p.2, match completeTransfer p.2 with CNone => true | _ => false end))
    (run_ops ops d).

(** The transfer that waits for endpoint 0x81 ends up in the deque of 0x82, and
    when libusb has completed it, it is not found there: its token is never
    returned. *)
Example transfer_misfiled :
  after_ops (OConnect :: fill 17 ++ [ORead 0x82 200 8; OComplete; OComplete])
    (usb_new [(18, LIBUSB_TRANSFER_COMPLETED, []); (17, LIBUSB_TRANSFER_COMPLETED, [1])] None)
  = Some ([17], seqZ 0 17, false).
Proof. vm_compute. reflexivity. Qed.

(** A queued transfer that libusb refuses is freed, and its token never
    returned; if all are refused, the rest stays queued for ever:
    [completeTransfer] finds nothing, although transfers are pending. *)
Example queued_transfers_stuck :
  after_ops (OConnect :: fill 34 ++ repeat OComplete 16)
    (usb_new (map (fun p => (p, LIBUSB_TRANSFER_COMPLETED, [1])) (seqZ 1 16)) (Some 16%nat))
  = Some (seqZ 0 16, [32; 33], true).
Proof. vm_compute. reflexivity. Qed.
