(* ===== verification/Trace.v ===== *)
(** Trace streaming: [StreamingTraceBase] ([cstrace_base.cpp]) with its USB
    implementation [StreamingTraceUSB] ([cstrace_usb.cpp]) and the client class
    [StreamingTraceUSBClient] ([cstrace_plat_if.cpp]), as one object, since the
    base class calls back into the derived ones.  An operation runs in the
    monad [E]: [Fail c] is an exception, with the code of a [CSTraceEx] and
    [USB_EXCEPTION] for a [USBException]; [None] is undefined behaviour or
    [std::terminate].  The methods that hold the lock throughout are functions;
    [Detach], [Disconnect], [WaitForEvent] and the data thread, which release
    it, are the steps of [TraceRun.v]. *)
From S2P Require Import Prelude UsbIf.

(** ** Codes *)

Definition CSTRACE_NO_CONNECTION : Z := 0x0201.
Definition CSTRACE_COMMSERROR : Z := 0x0203.
Definition CSTRACE_TIMEOUT : Z := 0x0204.
Definition CSTRACE_INVALID_SINK : Z := 0x0206.
Definition CSTRACE_SINK_NOT_ATTACHED : Z := 0x0207.
Definition CSTRACE_SINK_NOT_STARTED : Z := 0x0208.
Definition CSTRACE_INVALID_EVENT_TYPE : Z := 0x0210.
Definition CSTRACE_INVALID_TARGET : Z := 0x0211.

(** [CSTraceEventType], as the integers that the clients exchange. *)
Definition CSTRACE_EVENT_TYPE_NONE : Z := 0.
Definition CSTRACE_EVENT_TYPE_EVENT : Z := 1.
Definition CSTRACE_EVENT_TYPE_ERROR : Z := 2.
Definition CSTRACE_EVENT_TYPE_DATA : Z := 3.
Definition CSTRACE_EVENT_TYPE_END_OF_DATA : Z := 4.

Definition USB_CSTRACE_EP_REQ_SET_SINK : Z := 1.
Definition USB_CSTRACE_EP_REQ_SET_TX_TIMEOUT : Z := 3.
Definition USB_CSTRACE_EP_REQ_SET_BUF_SIZE : Z := 5.
Definition USB_CSTRACE_EP_REQ_SET_WATER_MARK : Z := 7.
Definition USB_CSTRACE_EP_REQ_ATTACH_STREAM : Z := 16.
Definition USB_CSTRACE_EP_REQ_DETACH_STREAM : Z := 17.
Definition USB_CSTRACE_EP_REQ_START_STREAM : Z := 18.
Definition USB_CSTRACE_EP_REQ_STOP_STREAM : Z := 20.
Definition CSTREAM_END_SESSION : Z := 5.
Definition DEFAULT_ETR_BUFFER_SIZE : Z := 8 * 1024.
Definition DEFAULT_ETR_WATERMARK : Z := 4 * 1024.
Definition ETR_TX_TIMEOUT : Z := 100.
Definition USB_TRACE_BUFFERS_SIZE : Z := DEFAULT_ETR_BUFFER_SIZE.
Definition USB_TRACE_BUFFERS_COUNT : Z := 11.
Definition USB_TRACE_EVTBUFFERS_SIZE : Z := 256.
Definition USB_TRACE_EVTBUFFERS_COUNT : Z := 1.
Definition MAX_NUM_ETRS : nat := 32.

(** ** State *)

(** A client's buffer: [eb_buf] is the memory of [pBuf], [size] its length. *)
Record CSTraceEventBuffer := mkEvBuf { eb_type : Z; eb_buf : list Z; eb_used : Z }.
Definition eb_size (b : CSTraceEventBuffer) : Z := len (eb_buf b).

Record SinkDetails := mkSink {
  sink_name : list Z;
  sink_metadata : list Z;
  dataBufferCount : Z;
  dataBufferSize : Z;
  eventBufferCount : Z;
  eventBufferSize : Z;
}.

(** A buffer's token and the address of the client's structure. *)
Record Buffer := mkBuffer { buf_token : Z; buf_ptr : Z }.

Inductive Status := DETACHED | ATTACHED | ACTIVE | DETACHING | EXITED.
#[export] Instance status_eq_dec : EqDecision Status.
Proof. solve_decision. Defined.

(** [transportID] is unset until the sink is attached. *)
Record SinkState := mkState {
  status : Status;
  transportID : option Z;
  pendingBuffers : list Buffer;
  queuedBuffers : list Buffer;
  eventBuffers : list Buffer;
  completedEventTokens : list Z;
}.

Definition new_state : SinkState := mkState DETACHED None [] [] [] [].

Definition set_status v (st : SinkState) :=
  mkState v (transportID st) (pendingBuffers st) (queuedBuffers st) (eventBuffers st) (completedEventTokens st).
Definition set_transport v (st : SinkState) :=
  mkState (status st) v (pendingBuffers st) (queuedBuffers st) (eventBuffers st) (completedEventTokens st).
Definition set_pendings v (st : SinkState) :=
  mkState (status st) (transportID st) v (queuedBuffers st) (eventBuffers st) (completedEventTokens st).
Definition set_queued v (st : SinkState) :=
  mkState (status st) (transportID st) (pendingBuffers st) v (eventBuffers st) (completedEventTokens st).
Definition set_events v (st : SinkState) :=
  mkState (status st) (transportID st) (pendingBuffers st) (queuedBuffers st) v (completedEventTokens st).
Definition set_completed v (st : SinkState) :=
  mkState (status st) (transportID st) (pendingBuffers st) (queuedBuffers st) (eventBuffers st) v.

Record EndpointInfo := mkEndpoint { e_addr : Z; attachedSink : Z }.

(** Where a read transfer puts its data: the memory of a client's buffer, or
    [m_controlMsg]. *)
Inductive dest := ToBuffer (p : Z) | ToControl.

(** The data thread: its sink and where it is.  [Calling]: about to call
    [completeTransfer] for [buf], the lock released; [Waiting]: in that call;
    [Exiting]: out of its loop; [Ended]: returned, not yet joined. *)
Inductive pc := AtLoop | Calling (buf : Buffer) | Waiting (buf : Buffer) | Exiting | Ended.
Record thread := mkThread { th_sink : Z; th_pc : pc }.
#[export] Instance buffer_eq_dec : EqDecision Buffer.
Proof. solve_decision. Defined.
#[export] Instance pc_eq_dec : EqDecision pc.
Proof. solve_decision. Defined.
#[export] Instance thread_eq_dec : EqDecision thread.
Proof. solve_decision. Defined.

Section state.
Context (D : Type).

(** The fields of the three classes.  [m_dataThread] is empty or a thread that
    was not joined; [dumped] is what the trace data callback was called with;
    [client_bufs] are the clients' buffers. *)
Record Trace := mkTrace {
  m_usb : bool;
  m_dev : D;
  m_sinkInfo : list SinkDetails;
  m_sinkState : list SinkState;
  m_nextToken : Z;
  m_dataThread : option thread;
  m_dataCallback : bool;
  m_dataTransferTokens : list Z;
  m_usbID : USBDeviceIdentifier;
  m_targetID : list Z;
  m_bufferSize : Z;
  m_bufferWM : Z;
  m_traceEndpoints : list EndpointInfo;
  m_controlEP : option Z;
  m_controlToken : Z;
  m_controlMsg : list Z;
  client_bufs : gmap Z CSTraceEventBuffer;
  dumped : list (list Z);
}.
End state.
Arguments mkTrace {D}.
Arguments m_usb {D}.
Arguments m_dev {D}.
Arguments m_sinkInfo {D}.
Arguments m_sinkState {D}.
Arguments m_nextToken {D}.
Arguments m_dataThread {D}.
Arguments m_dataCallback {D}.
Arguments m_dataTransferTokens {D}.
Arguments m_usbID {D}.
Arguments m_targetID {D}.
Arguments m_bufferSize {D}.
Arguments m_bufferWM {D}.
Arguments m_traceEndpoints {D}.
Arguments m_controlEP {D}.
Arguments m_controlToken {D}.
Arguments m_controlMsg {D}.
Arguments client_bufs {D}.
Arguments dumped {D}.

Section setters.
Context {D : Type}.
Implicit Types s : Trace D.

Definition set_usb (b : bool) s : Trace D :=
  mkTrace b (m_dev s) (m_sinkInfo s) (m_sinkState s) (m_nextToken s) (m_dataThread s)
    (m_dataCallback s) (m_dataTransferTokens s) (m_usbID s) (m_targetID s) (m_bufferSize s)
    (m_bufferWM s) (m_traceEndpoints s) (m_controlEP s) (m_controlToken s) (m_controlMsg s)
    (client_bufs s) (dumped s).
Definition set_sinks i l s : Trace D :=
  mkTrace (m_usb s) (m_dev s) i l (m_nextToken s) (m_dataThread s) (m_dataCallback s)
    (m_dataTransferTokens s) (m_usbID s) (m_targetID s) (m_bufferSize s) (m_bufferWM s)
    (m_traceEndpoints s) (m_controlEP s) (m_controlToken s) (m_controlMsg s) (client_bufs s)
    (dumped s).
Definition set_callback b s : Trace D :=
  mkTrace (m_usb s) (m_dev s) (m_sinkInfo s) (m_sinkState s) (m_nextToken s) (m_dataThread
    s) b (m_dataTransferTokens s) (m_usbID s) (m_targetID s) (m_bufferSize s) (m_bufferWM s)
    (m_traceEndpoints s) (m_controlEP s) (m_controlToken s) (m_controlMsg s) (client_bufs s)
    (dumped s).
Definition set_dev v s : Trace D :=
  mkTrace (m_usb s) v (m_sinkInfo s) (m_sinkState s) (m_nextToken s) (m_dataThread s)
    (m_dataCallback s) (m_dataTransferTokens s) (m_usbID s) (m_targetID s) (m_bufferSize s)
    (m_bufferWM s) (m_traceEndpoints s) (m_controlEP s) (m_controlToken s) (m_controlMsg s)
    (client_bufs s) (dumped s).
Definition set_token v s : Trace D :=
  mkTrace (m_usb s) (m_dev s) (m_sinkInfo s) (m_sinkState s) v (m_dataThread s)
    (m_dataCallback s) (m_dataTransferTokens s) (m_usbID s) (m_targetID s) (m_bufferSize s)
    (m_bufferWM s) (m_traceEndpoints s) (m_controlEP s) (m_controlToken s) (m_controlMsg s)
    (client_bufs s) (dumped s).
Definition set_thread v s : Trace D :=
  mkTrace (m_usb s) (m_dev s) (m_sinkInfo s) (m_sinkState s) (m_nextToken s) v
    (m_dataCallback s) (m_dataTransferTokens s) (m_usbID s) (m_targetID s) (m_bufferSize s)
    (m_bufferWM s) (m_traceEndpoints s) (m_controlEP s) (m_controlToken s) (m_controlMsg s)
    (client_bufs s) (dumped s).
Definition set_transfers v s : Trace D :=
  mkTrace (m_usb s) (m_dev s) (m_sinkInfo s) (m_sinkState s) (m_nextToken s) (m_dataThread
    s) (m_dataCallback s) v (m_usbID s) (m_targetID s) (m_bufferSize s) (m_bufferWM s)
    (m_traceEndpoints s) (m_controlEP s) (m_controlToken s) (m_controlMsg s) (client_bufs s)
    (dumped s).
Definition set_endpoints v s : Trace D :=
  mkTrace (m_usb s) (m_dev s) (m_sinkInfo s) (m_sinkState s) (m_nextToken s) (m_dataThread
    s) (m_dataCallback s) (m_dataTransferTokens s) (m_usbID s) (m_targetID s) (m_bufferSize
    s) (m_bufferWM s) v (m_controlEP s) (m_controlToken s) (m_controlMsg s) (client_bufs s)
    (dumped s).
Definition set_control v s : Trace D :=
  mkTrace (m_usb s) (m_dev s) (m_sinkInfo s) (m_sinkState s) (m_nextToken s) (m_dataThread
    s) (m_dataCallback s) (m_dataTransferTokens s) (m_usbID s) (m_targetID s) (m_bufferSize
    s) (m_bufferWM s) (m_traceEndpoints s) (m_controlEP s) v (m_controlMsg s) (client_bufs
    s) (dumped s).
Definition set_message v s : Trace D :=
  mkTrace (m_usb s) (m_dev s) (m_sinkInfo s) (m_sinkState s) (m_nextToken s) (m_dataThread
    s) (m_dataCallback s) (m_dataTransferTokens s) (m_usbID s) (m_targetID s) (m_bufferSize
    s) (m_bufferWM s) (m_traceEndpoints s) (m_controlEP s) (m_controlToken s) v (client_bufs
    s) (dumped s).
Definition set_bufs v s : Trace D :=
  mkTrace (m_usb s) (m_dev s) (m_sinkInfo s) (m_sinkState s) (m_nextToken s) (m_dataThread
    s) (m_dataCallback s) (m_dataTransferTokens s) (m_usbID s) (m_targetID s) (m_bufferSize
    s) (m_bufferWM s) (m_traceEndpoints s) (m_controlEP s) (m_controlToken s) (m_controlMsg
    s) v (dumped s).
Definition set_dumped v s : Trace D :=
  mkTrace (m_usb s) (m_dev s) (m_sinkInfo s) (m_sinkState s) (m_nextToken s) (m_dataThread
    s) (m_dataCallback s) (m_dataTransferTokens s) (m_usbID s) (m_targetID s) (m_bufferSize
    s) (m_bufferWM s) (m_traceEndpoints s) (m_controlEP s) (m_controlToken s) (m_controlMsg
    s) (client_bufs s) v.
Definition set_eps l c s : Trace D :=
  mkTrace (m_usb s) (m_dev s) (m_sinkInfo s) (m_sinkState s) (m_nextToken s) (m_dataThread
    s) (m_dataCallback s) (m_dataTransferTokens s) (m_usbID s) (m_targetID s) (m_bufferSize
    s) (m_bufferWM s) l c (m_controlToken s) (m_controlMsg s) (client_bufs s) (dumped s).
End setters.

(** ** The device and the sinks *)

Section operations.
Context {D : Type} `{USBDevice D dest}.
Implicit Types s : Trace D.
Abbreviation T := (E (Trace D)).

Definition on_dev {A} (m : E D A) : T A := zoom m_dev set_dev m.
Definition throw_if (b : bool) (c : Z) : T unit := if b then e_fail c else mret tt.

Definition isConnected s : bool := m_usb s.
Definition CheckConnected : T unit :=
  c ← e_gets isConnected; throw_if (negb c) CSTRACE_NO_CONNECTION.

(** [if (sink >= (int)m_sinkInfo.size()) throw]: a negative sink passes. *)
Definition check_sink (sink : Z) : T unit :=
  n ← e_gets (fun s => len (m_sinkInfo s)); throw_if (n <=? sink) CSTRACE_INVALID_SINK.

Definition sink_details (sink : Z) : T SinkDetails := l ← e_gets m_sinkInfo; e_index l sink.
Definition sink_state (sink : Z) : T SinkState := l ← e_gets m_sinkState; e_index l sink.
Definition upd_sink (sink : Z) (f : SinkState -> SinkState) : T unit :=
  st ← sink_state sink;
  e_modify (fun s => set_sinks (m_sinkInfo s) (<[Z.to_nat sink := f st]> (m_sinkState s)) s).

Definition get_buf (p : Z) : T CSTraceEventBuffer :=
  m ← e_gets client_bufs; match m !! p with Some b => mret b | None => e_ub end.
Definition upd_buf (p : Z) (f : CSTraceEventBuffer -> CSTraceEventBuffer) : T unit :=
  b ← get_buf p; e_modify (fun s => set_bufs (<[p := f b]> (client_bufs s)) s).

(** ** [StreamingTraceUSBClient] *)

Definition endpointSetParam (addr request value : Z) : T Z :=
  fun s =>
    let (r, d) := dev_controlTransfer
                    (Z.lor CONTROL_DIR_OUT (Z.lor CONTROL_TYPE_VENDOR CONTROL_RECIPIENT_ENDPOINT))
                    request value addr (m_dev s) in
    Some (Val r, set_dev d s).

(** A request that throws if it fails. *)
Definition set_param (addr request value : Z) : T unit :=
  r ← endpointSetParam (u16 addr) request value; throw_if (r <? 0) USB_EXCEPTION.

Definition submitControlChannelRequest : T unit :=
  ep ← e_gets m_controlEP;
  match ep with
  | None => e_ub
  | Some ep => t ← on_dev (dev_submitReadTransfer ep ToControl 8); e_modify (set_control t)
  end.

(** The first endpoint attached to [sink]; -1 is a free one. *)
Fixpoint epForSink (sink : Z) (l : list EndpointInfo) : option (nat * Z) :=
  match l with
  | [] => None
  | e :: l' => if attachedSink e =? sink then Some (0%nat, e_addr e)
               else '(i, a) ← epForSink sink l'; Some (S i, a)
  end.

Definition set_attached (i : nat) (addr sink : Z) : T unit :=
  e_modify (fun s => set_endpoints (<[i := mkEndpoint addr sink]> (m_traceEndpoints s)) s).

Definition attachDevice (sink : Z) : T unit :=
  bs ← e_gets m_bufferSize;
  wm ← e_gets m_bufferWM;
  throw_if (negb (bs mod 4096 =? 0)) USB_EXCEPTION;;
  throw_if (0xFFFF000 <? bs) USB_EXCEPTION;;
  throw_if (negb (wm mod 4096 =? 0)) USB_EXCEPTION;;
  throw_if (bs <=? wm) USB_EXCEPTION;;
  eps ← e_gets m_traceEndpoints;
  match epForSink (-1) eps with
  | None => e_fail USB_EXCEPTION
  | Some (i, addr) =>
      set_param addr USB_CSTRACE_EP_REQ_SET_SINK (u16 sink);;
      set_param addr USB_CSTRACE_EP_REQ_SET_TX_TIMEOUT ETR_TX_TIMEOUT;;
      set_param addr USB_CSTRACE_EP_REQ_SET_BUF_SIZE (Z.land (bs / 4096) 0xFFFF);;
      set_param addr USB_CSTRACE_EP_REQ_SET_WATER_MARK (Z.land (wm / 4096) 0xFFFF);;
      set_param addr USB_CSTRACE_EP_REQ_ATTACH_STREAM 0;;
      submitControlChannelRequest;;
      set_attached i addr sink;;
      upd_sink sink (set_transport (Some (u32 addr)))
  end.

(** [detachDevice] up to its loop over the pending transfers. *)
Definition detach_stream (sink : Z) : T unit :=
  eps ← e_gets m_traceEndpoints;
  match epForSink sink eps with
  | None => mret tt
  | Some (i, addr) =>
      endpointSetParam (u16 addr) USB_CSTRACE_EP_REQ_DETACH_STREAM 0;; set_attached i addr (-1)
  end.

Definition startDevice (sink : Z) : T unit :=
  eps ← e_gets m_traceEndpoints;
  match epForSink sink eps with
  | None => e_fail USB_EXCEPTION
  | Some (_, addr) =>
      c ← e_gets m_controlToken;
      (if c =? -1 then submitControlChannelRequest else mret tt);;
      set_param addr USB_CSTRACE_EP_REQ_START_STREAM 0
  end.

Definition stopDevice (sink : Z) : T unit := mret tt.

Definition doFlush (sink : Z) : T unit :=
  eps ← e_gets m_traceEndpoints;
  match epForSink sink eps with
  | None => e_fail USB_EXCEPTION
  | Some (_, addr) => set_param addr USB_CSTRACE_EP_REQ_STOP_STREAM 0
  end.

Definition usbSetup : T unit :=
  e_modify (fun s =>
    let eps := dev_getEndPoints (m_dev s) in
    set_eps
      (omap (fun ep => if bool_decide (Z.land (ep_addr ep) EP_DIR_MASK = EP_DIR_IN) &&
                          bool_decide (ep_kind ep = EP_TYPE_BULK)
                       then Some (mkEndpoint (ep_addr ep) (-1)) else None) eps)
      (fold_left (fun c ep => if bool_decide (Z.land (ep_addr ep) EP_DIR_MASK = EP_DIR_IN) &&
                                 bool_decide (ep_kind ep = EP_TYPE_INTERRUPT)
                              then Some (ep_addr ep) else c) eps (m_controlEP s)) s).

(** The static table of [discoverSinks]: two sockets with 16 sinks each. *)
Definition etr_names : list (list Z) :=
  map bytes_of
    ["etr-system-main"; "etr-system-top"; "etr-system-hsio"; "etr-compute-top";
     "etr-mem0-top"; "etr-mem0-io128-0"; "etr-mem0-io128-1";
     "etr-mem1-top"; "etr-mem1-io128-0"; "etr-mem1-io128-1";
     "etr-mem2-top"; "etr-mem2-io128-0"; "etr-mem2-io128-1";
     "etr-mem3-top"; "etr-mem3-io128-0"; "etr-mem3-io128-1";
     "etr-c1-system-main"; "etr-c1-system-top"; "etr-c1-system-hsio"; "etr-c1-compute-top";
     "etr-c1-mem0-top"; "etr-c1-mem0-io128-0"; "etr-c1-mem0-io128-1";
     "etr-c1-mem1-top"; "etr-c1-mem1-io128-0"; "etr-c1-mem1-io128-1";
     "etr-c1-mem2-top"; "etr-c1-mem2-io128-0"; "etr-c1-mem2-io128-1";
     "etr-c1-mem3-top"; "etr-c1-mem3-io128-0"; "etr-c1-mem3-io128-1"]%string.

Definition discoverSinks : list SinkDetails :=
  map (fun n => mkSink n [] USB_TRACE_BUFFERS_COUNT USB_TRACE_BUFFERS_SIZE
                  USB_TRACE_EVTBUFFERS_COUNT USB_TRACE_EVTBUFFERS_SIZE)
    (take MAX_NUM_ETRS etr_names).

(** ** [StreamingTraceUSB] *)

(** [m_usb.reset()] destroys the device object, which disconnects it.  The
    device identifier of the client class is always there. *)
Definition destroy_on_fail (m : T unit) : T unit := fun s =>
  match m s with
  | Some (Fail c, s') => Some (Fail c, set_usb false (set_dev (dev_disconnect (m_dev s')) s'))
  | r => r
  end.
Definition doConnect : T unit :=
  e_modify (fun s => set_usb true (set_dev (dev_create (m_usbID s) (m_targetID s) (m_dev s)) s));;
  destroy_on_fail (on_dev dev_connect;; usbSetup).

Definition doDisconnect : T unit :=
  e_modify (fun s => if m_usb s then set_usb false (set_dev (dev_disconnect (m_dev s)) s) else s).

Definition submitBuffer (sink : Z) (buf : Buffer) : T unit :=
  st ← sink_state sink;
  b ← get_buf (buf_ptr buf);
  match transportID st with
  | None => e_ub
  | Some ep =>
      t ← on_dev (dev_submitQueuedReadTransfer (int32 ep) (ToBuffer (buf_ptr buf)) (eb_size b));
      e_modify (fun s => set_transfers (m_dataTransferTokens s ++ [t]) s)
  end.

(** Without a device it dereferences a null pointer. *)
Definition doCancelPendingBuffers (sink : Z) : T unit :=
  c ← e_gets isConnected;
  if c : bool then e_modify (fun s => set_dev (dev_cancelTransfers (m_dev s)) s) else e_ub.

(** ** [StreamingTraceBase] *)

(** [while (pending.size() < dataBufferCount && !queued.empty())]: at most
    every queued buffer is submitted. *)
Fixpoint submit_loop (fuel : nat) (sink : Z) : T unit :=
  match fuel with
  | O => mret tt
  | S f =>
      st ← sink_state sink;
      info ← sink_details sink;
      match queuedBuffers st with
      | buf :: rest =>
          if len (pendingBuffers st) <? dataBufferCount info then
            submitBuffer sink buf;;
            upd_sink sink (fun st => set_pendings (pendingBuffers st ++ [buf]) (set_queued rest st));;
            submit_loop f sink
          else mret tt
      | [] => mret tt
      end
  end.
Definition submitBuffers (sink : Z) : T unit :=
  st ← sink_state sink; submit_loop (length (queuedBuffers st)) sink.

(** With the fix of [Connect] for a sink that has no event buffer. *)
Definition need_event (i : SinkDetails) : SinkDetails :=
  if eventBufferCount i =? 0
  then mkSink (sink_name i) (sink_metadata i) (dataBufferCount i) (dataBufferSize i) 1 256
  else i.

Definition Connect : T unit :=
  c ← e_gets isConnected;
  if c : bool then mret tt
  else
    doConnect;;
    e_modify (fun s =>
      let infos := map need_event discoverSinks in
      set_sinks infos (map (fun _ => new_state) infos) s).

Definition GetSinkCount : T Z := CheckConnected;; e_gets (fun s => len (m_sinkInfo s)).
Definition GetSinkDetails (sink : Z) : T SinkDetails :=
  CheckConnected;; check_sink sink;; sink_details sink.
Definition GetConfigItem (sink : Z) (name : option (list Z)) : T (list Z) :=
  CheckConnected;; check_sink sink;;
  match name with
  | Some key =>
      if decide (key = bytes_of "name") then i ← sink_details sink; mret (sink_name i)
      else if decide (key = bytes_of "metadata") then i ← sink_details sink; mret (sink_metadata i)
      else mret []
  | None => mret []
  end.
Definition SetConfigItem (sink : Z) (name value : list Z) : T unit :=
  CheckConnected;; check_sink sink.

Definition SetTraceDataCallback : T unit := e_modify (set_callback true).
Definition ClearTraceDataCallback : T unit := e_modify (set_callback false).

(** [Attach], and its last step: assigning to [m_dataThread] destroys a thread
    that is still there, which is [std::terminate] whether or not it has ended. *)
Definition attach_sink (sink : Z) : T unit :=
  CheckConnected;; check_sink sink;;
  st ← sink_state sink;
  (if decide (status st = DETACHED) then upd_sink sink (set_status ATTACHED) else mret tt);;
  attachDevice sink.
Definition start_thread (sink : Z) : T unit :=
  th ← e_gets m_dataThread;
  match th with
  | Some _ => e_ub
  | None => e_modify (set_thread (Some (mkThread sink AtLoop)))
  end.
Definition Attach (sink : Z) : T unit := attach_sink sink;; start_thread sink.

(** [SubmitEventBuffer] in three parts: its checks, which leave the buffer
    reset, [++m_nextToken] on an [int], and the queues. *)
Definition submit_checks (sink p : Z) : T Status :=
  CheckConnected;; check_sink sink;;
  st ← sink_state sink;
  throw_if (bool_decide (status st = DETACHED)) CSTRACE_SINK_NOT_ATTACHED;;
  upd_buf p (fun b => mkEvBuf CSTRACE_EVENT_TYPE_NONE (eb_buf b) 0);;
  mret (status st).
Definition alloc_token : T Z :=
  token ← e_gets m_nextToken;
  if token =? 2 ^ 31 - 1 then e_ub else e_modify (set_token (token + 1));; mret token.
Definition enqueue (sink bufferType : Z) (st : Status) (buf : Buffer) : T unit :=
  if bufferType =? CSTRACE_EVENT_TYPE_DATA then
    upd_sink sink (fun st => set_queued (queuedBuffers st ++ [buf]) st);;
    if decide (st = ACTIVE) then submitBuffers sink else mret tt
  else if bufferType =? CSTRACE_EVENT_TYPE_EVENT then
    upd_sink sink (fun st => set_events (eventBuffers st ++ [buf]) st)
  else e_fail CSTRACE_INVALID_EVENT_TYPE.
Definition SubmitEventBuffer (sink bufferType p : Z) : T Z :=
  st ← submit_checks sink p;
  token ← alloc_token;
  enqueue sink bufferType st (mkBuffer token p);;
  mret token.

Definition Start (sink : Z) : T unit :=
  CheckConnected;; check_sink sink;;
  st ← sink_state sink;
  throw_if (bool_decide (status st = DETACHED)) CSTRACE_SINK_NOT_ATTACHED;;
  upd_sink sink (set_status ACTIVE);;
  submitBuffers sink;;
  startDevice sink.

Fixpoint return_events (fuel : nat) (sink : Z) : T unit :=
  match fuel with
  | O => mret tt
  | S f =>
      st ← sink_state sink;
      match eventBuffers st with
      | [] => mret tt
      | buf :: rest =>
          upd_buf (buf_ptr buf) (fun b => mkEvBuf CSTRACE_EVENT_TYPE_NONE (eb_buf b) 0);;
          upd_sink sink (fun st => set_completed (completedEventTokens st ++ [buf_token buf])
                                     (set_events rest st));;
          return_events f sink
      end
  end.

Definition Stop (sink : Z) : T unit :=
  CheckConnected;; check_sink sink;;
  st ← sink_state sink;
  if decide (status st = DETACHING) then mret tt
  else
    throw_if (negb (bool_decide (status st = ACTIVE))) CSTRACE_SINK_NOT_STARTED;;
    stopDevice sink;;
    upd_sink sink (set_status DETACHING);;
    doCancelPendingBuffers sink;;
    return_events (length (eventBuffers st)) sink.

Definition Flush (sink : Z) : T unit :=
  CheckConnected;; check_sink sink;;
  st ← sink_state sink;
  throw_if (bool_decide (status st = DETACHED)) CSTRACE_SINK_NOT_ATTACHED;;
  doFlush sink.

Definition doSendStateEvent (sink eventType : Z) : T unit :=
  st ← sink_state sink;
  match eventBuffers st with
  | [] => mret tt
  | buf :: rest =>
      upd_buf (buf_ptr buf) (fun b => mkEvBuf eventType (eb_buf b) (eb_used b));;
      upd_sink sink (fun st => set_completed (completedEventTokens st ++ [buf_token buf])
                                 (set_events rest st))
  end.
Definition SendStateEvent (sink eventType : Z) : T unit :=
  check_sink sink;; doSendStateEvent sink eventType.

Definition GetState (sink : Z) : T Status :=
  n ← e_gets (fun s => len (m_sinkInfo s));
  if n <=? sink then mret EXITED else st ← sink_state sink; mret (status st).
End operations.

(** The factory and the constructor: a new object has no device and no sink. *)
Definition CreateStreamingTrace {D} (type : list Z) (id : USBDeviceIdentifier) (serial : list Z)
    (d : D) (bufs : gmap Z CSTraceEventBuffer) : result (Trace D) :=
  if decide (type = bytes_of "usb") then
    Val (mkTrace false d [] [] 0 None false [] id serial DEFAULT_ETR_BUFFER_SIZE
           DEFAULT_ETR_WATERMARK [] None (-1) (repeat 0 8) bufs [])
  else Fail CSTRACE_INVALID_TARGET.
