(* ===== verification/TraceRun.v ===== *)
(** Trace streaming as a concurrent system: the data thread
    ([StreamingTraceBase::dataThread]) and one client, whose calls [Detach],
    [Disconnect] and [WaitForEvent] release the lock while they wait.  A [turn]
    is what runs between two releases of the lock; [step] executes a turn, [run]
    a sequence of turns, any interleaving being one. *)
From S2P Require Import Prelude UsbIf Trace.

(** ** [waitForBuffer] *)

Definition u16_at (l : list Z) (i : nat) : Z :=
  Z.lor (default 0 (l !! i)) (Z.shiftl (default 0 (l !! S i)) 8).

Inductive wait_res := Again | GotBuffer | NoBuffer.

(** Where the client is while the lock is released: joining the thread, waiting
    for the pending buffers, or for the last transfers, of a [Detach]; joining
    the thread of a [Disconnect]; waiting for an event. *)
Inductive client :=
  | Idle
  | JoinDetach (sink : Z)
  | WaitDetach (sink : Z)
  | InDetach (sink : Z) (buf : Buffer)
  | DrainDetach (sink : Z)
  | JoinDisconnect
  | InWait (sink : Z).
#[export] Instance client_eq_dec : EqDecision client.
Proof. solve_decision. Defined.

Section wait.
Context {D : Type} `{USBDevice D dest}.
Implicit Types s : Trace D.
Abbreviation T := (E (Trace D)).

(** The device fills the memory of a transfer, and no more than its size. *)
Definition write_dest (c : completion dest) : T unit :=
  match c_dest c with
  | ToBuffer p =>
      b ← get_buf p;
      if len (c_data c) <=? eb_size b
      then upd_buf p (fun b => mkEvBuf (eb_type b) (splice (eb_buf b) 0 (c_data c)) (eb_used b))
      else e_ub
  | ToControl =>
      if len (c_data c) <=? 8
      then e_modify (fun s => set_message (splice (m_controlMsg s) 0 (c_data c)) s)
      else e_ub
  end.

Definition completeUsbTransfer (sink token : Z) (st : Transfer_Status) (used : Z) : T bool :=
  ctrl ← e_gets m_controlToken;
  if negb (token =? ctrl) then mret false
  else if bool_decide (st = Transfer_SUCCESS) && (8 <=? used) then
    msg ← e_gets m_controlMsg;
    (if (u16_at msg 2 =? CSTREAM_END_SESSION) && (sink =? u16_at msg 0)
     then doSendStateEvent sink CSTRACE_EVENT_TYPE_END_OF_DATA else mret tt);;
    submitControlChannelRequest;; mret true
  else if decide (st = Transfer_NODATA) then submitControlChannelRequest;; mret true
  else
    state ← (if decide (st = Transfer_CANCELLED) then GetState sink else mret EXITED);
    if decide (st = Transfer_CANCELLED /\ state = DETACHING)
    then submitControlChannelRequest;; mret true
    else e_modify (set_control (-1));; mret false.

(** The type and size a buffer gets from the transfer that filled it. *)
Definition fill_status (st : Transfer_Status) (used : Z) (b : CSTraceEventBuffer) : CSTraceEventBuffer :=
  match st with
  | Transfer_SUCCESS | Transfer_IN_PROGRESS => mkEvBuf CSTRACE_EVENT_TYPE_DATA (eb_buf b) used
  | Transfer_CANCELLED => mkEvBuf CSTRACE_EVENT_TYPE_END_OF_DATA (eb_buf b) 0
  | Transfer_NODATA => mkEvBuf CSTRACE_EVENT_TYPE_DATA (eb_buf b) 0
  | Transfer_ERROR => mkEvBuf CSTRACE_EVENT_TYPE_ERROR (eb_buf b) 0
  end.

(** One turn of the loop of [waitForBuffer], [c] being what [completeTransfer]
    returned. *)
Definition waitForBuffer (sink : Z) (buf : Buffer) (c : completion dest) : T wait_res :=
  write_dest c;;
  expCtrlToken ← e_gets m_controlToken;
  tokens ← e_gets m_dataTransferTokens;
  let expDataToken := default (-1) (head tokens) in
  if c_token c =? -1 then mret NoBuffer
  else if c_token c =? expCtrlToken then
    ok ← completeUsbTransfer sink (c_token c) (c_status c) (len (c_data c));
    mret (if ok : bool then Again else NoBuffer)
  else if c_token c =? expDataToken then
    e_modify (set_transfers (tail tokens));;
    upd_buf (buf_ptr buf) (fill_status (c_status c) (len (c_data c)));;
    mret GotBuffer
  else mret NoBuffer.

(** ** The data thread *)

(** The rest of [WaitForDataEvent] when it got [buf]. *)
Definition complete_event (sink : Z) (buf : Buffer) : T unit :=
  b ← get_buf (buf_ptr buf);
  let used := u32 (eb_used b) in
  e_modify (fun s =>
    if (eb_type b =? CSTRACE_EVENT_TYPE_DATA) && (0 <? used) && m_dataCallback s
    then set_dumped (dumped s ++ [take (Z.to_nat used) (eb_buf b)]) s else s);;
  upd_sink sink (fun st => set_pendings (tail (pendingBuffers st)) st);;
  st ← sink_state sink;
  (if decide (status st = ACTIVE) then submitBuffers sink else mret tt);;
  upd_sink sink (fun st => set_completed (completedEventTokens st ++ [buf_token buf]) st).

(** What the thread does at [p]: [None] when it has to wait. *)
Definition thread_at (sink : Z) (p : pc) : T (option pc) :=
  match p with
  | AtLoop =>
      check_sink sink;;
      st ← sink_state sink;
      c ← e_gets isConnected;
      if negb c || bool_decide (status st = DETACHED) then mret (Some Exiting)
      else mret (Calling <$> head (pendingBuffers st))
  | Calling buf =>
      c ← e_gets isConnected;
      d ← e_gets m_dev;
      if negb c then e_ub
      else match dev_completeTransfer d with
           | NoTransfer => mret (Some Exiting)
           | Interrupted => e_ub
           | Completes _ _ | Blocked => mret (Some (Waiting buf))
           end
  | Waiting buf =>
      d ← e_gets m_dev;
      match dev_completeTransfer d with
      | Completes c d' =>
          e_modify (set_dev d');;
          r ← waitForBuffer sink buf c;
          match r with
          | Again => mret (Some (Calling buf))
          | NoBuffer => mret (Some Exiting)
          | GotBuffer => complete_event sink buf;; mret (Some AtLoop)
          end
      | NoTransfer | Blocked => mret None
      | Interrupted => e_ub
      end
  | Exiting => upd_sink sink (set_status EXITED);; mret (Some Ended)
  | Ended => mret None
  end.

(** The [catch (...)] of [dataThread]: an exception ends the loop.  (Nothing
    throws once the thread is out of it.) *)
Definition thread_step : M (Trace D) unit := fun s =>
  match m_dataThread s with
  | None => Some (tt, s)
  | Some th =>
      match thread_at (th_sink th) (th_pc th) s with
      | Some (Val (Some p), s') => Some (tt, set_thread (Some (mkThread (th_sink th) p)) s')
      | Some (Val None, s') => Some (tt, s')
      | Some (Fail _, s') => Some (tt, set_thread (Some (mkThread (th_sink th) Exiting)) s')
      | None => None
      end
  end.

(** ** The client *)

Inductive call :=
  | CConnect
  | CDisconnect
  | CSetTraceDataCallback (on : bool)
  | CAttach (sink : Z)
  | CDetach (sink : Z)
  | CStart (sink : Z)
  | CStop (sink : Z)
  | CFlush (sink : Z)
  | CSubmitEventBuffer (sink bufferType p : Z)
  | CWaitForEvent (sink : Z)
  | CSendStateEvent (sink eventType : Z).

(** A turn of the client goes on waiting, or returns. *)
Inductive outcome := Wait (c : client) | Return (v : Z).

Definition signal_detach (sink : Z) : T unit :=
  CheckConnected;; check_sink sink;; upd_sink sink (set_status DETACHED).
Definition Detach (sink : Z) : T outcome :=
  signal_detach sink;;
  th ← e_gets m_dataThread;
  match th with
  | Some _ => mret (Wait (JoinDetach sink))
  | None => doCancelPendingBuffers sink;; mret (Wait (WaitDetach sink))
  end.

(** [detachDevice] comes after the loop over the pending buffers. *)
Definition leave_wait (sink : Z) : T outcome :=
  detach_stream sink;; mret (Wait (DrainDetach sink)).
Definition end_detach (sink : Z) : T outcome :=
  upd_sink sink (fun st => set_queued [] (set_pendings [] (set_events [] st)));; mret (Return 0).

Definition Disconnect_end : T outcome :=
  doDisconnect;; e_modify (fun s => set_callback false (set_sinks [] [] s));; mret (Return 0).
Definition Disconnect : T outcome :=
  e_modify (fun s => set_sinks (m_sinkInfo s) (map (set_status DETACHED) (m_sinkState s)) s);;
  n ← e_gets (fun s => length (m_sinkState s));
  e_for n 0 doCancelPendingBuffers;;
  th ← e_gets m_dataThread;
  match th with
  | Some _ => mret (Wait JoinDisconnect)
  | None => Disconnect_end
  end.

Definition take_event (sink : Z) (none : T outcome) : T outcome :=
  st ← sink_state sink;
  match completedEventTokens st with
  | t :: rest => upd_sink sink (set_completed rest);; mret (Return t)
  | [] => none
  end.
Definition WaitForEvent (sink : Z) : T outcome :=
  check_sink sink;; take_event sink (mret (Wait (InWait sink))).

Definition joined : T bool :=
  th ← e_gets m_dataThread;
  match th with
  | Some (mkThread _ Ended) => e_modify (set_thread None);; mret true
  | _ => mret false
  end.

(** A turn of the loop of [detachDevice] over the transfers that are left. *)
Definition drain_detach (sink : Z) : T outcome :=
  d ← e_gets m_dev;
  if 0 <? dev_pendingTransfers d then
    match dev_completeTransfer d with
    | NoTransfer => end_detach sink
    | Completes cp d' => e_modify (set_dev d');; write_dest cp;; mret (Wait (DrainDetach sink))
    | Blocked => mret (Wait (DrainDetach sink))
    | Interrupted => e_ub
    end
  else end_detach sink.

(** The client goes on: [timed_out] is what [timed_wait] says. *)
Definition resume (c : client) (timed_out : bool) : T outcome :=
  match c with
  | Idle => mret (Wait Idle)
  | JoinDetach sink =>
      j ← joined;
      if j : bool then doCancelPendingBuffers sink;; mret (Wait (WaitDetach sink))
      else mret (Wait c)
  | WaitDetach sink =>
      st ← sink_state sink;
      d ← e_gets m_dev;
      match pendingBuffers st with
      | [] => leave_wait sink
      | buf :: _ =>
          match dev_completeTransfer d with
          | NoTransfer => leave_wait sink
          | Interrupted => e_ub
          | Completes _ _ | Blocked => mret (Wait (InDetach sink buf))
          end
      end
  | InDetach sink buf =>
      d ← e_gets m_dev;
      match dev_completeTransfer d with
      | Completes c d' =>
          e_modify (set_dev d');;
          r ← waitForBuffer sink buf c;
          match r with
          | Again => mret (Wait (WaitDetach sink))
          | NoBuffer => leave_wait sink
          | GotBuffer =>
              upd_sink sink (fun st => set_pendings (tail (pendingBuffers st)) st);;
              mret (Wait (WaitDetach sink))
          end
      | NoTransfer | Blocked => mret (Wait c)
      | Interrupted => e_ub
      end
  | DrainDetach sink => drain_detach sink
  | JoinDisconnect => j ← joined; if j : bool then Disconnect_end else mret (Wait c)
  | InWait sink =>
      st ← sink_state sink;
      if timed_out then take_event sink (e_fail CSTRACE_TIMEOUT)
      else if decide (status st = EXITED) then e_fail CSTRACE_COMMSERROR
      else take_event sink (mret (Wait c))
  end.

Definition returns {A} (m : T A) (f : A -> Z) : T outcome := a ← m; mret (Return (f a)).

Definition start_call (c : call) : T outcome :=
  match c with
  | CConnect => returns Connect (fun _ => 0)
  | CDisconnect => Disconnect
  | CSetTraceDataCallback true => returns SetTraceDataCallback (fun _ => 0)
  | CSetTraceDataCallback false => returns ClearTraceDataCallback (fun _ => 0)
  | CAttach sink => returns (Attach sink) (fun _ => 0)
  | CDetach sink => Detach sink
  | CStart sink => returns (Start sink) (fun _ => 0)
  | CStop sink => returns (Stop sink) (fun _ => 0)
  | CFlush sink => returns (Flush sink) (fun _ => 0)
  | CSubmitEventBuffer sink ty p => returns (SubmitEventBuffer sink ty p) id
  | CWaitForEvent sink => WaitForEvent sink
  | CSendStateEvent sink ty => returns (SendStateEvent sink ty) (fun _ => 0)
  end.

(** ** The system *)

Record Sys := mkSys { s_trace : Trace D; s_client : client }.

Inductive turn := TCall (c : call) | TResume (timed_out : bool) | TThread.

(** What a client sees of a turn: the value or the exception of a call. *)
Definition obs : Type := option (result Z).

Definition client_turn (m : T outcome) (s : Trace D) : option (obs * Sys) :=
  match m s with
  | Some (Val (Wait c), s') => Some (None, mkSys s' c)
  | Some (Val (Return v), s') => Some (Some (Val v), mkSys s' Idle)
  | Some (Fail c, s') => Some (Some (Fail c), mkSys s' Idle)
  | None => None
  end.

(** A call starts only when no other is under way. *)
Definition step (t : turn) (s : Sys) : option (obs * Sys) :=
  match t with
  | TCall c => match s_client s with
               | Idle => client_turn (start_call c) (s_trace s)
               | _ => Some (None, s)
               end
  | TResume b => client_turn (resume (s_client s) b) (s_trace s)
  | TThread => match thread_step (s_trace s) with
               | Some (_, s') => Some (None, mkSys s' (s_client s))
               | None => None
               end
  end.

Fixpoint run (ts : list turn) (s : Sys) : option (list obs * Sys) :=
  match ts with
  | [] => Some ([], s)
  | t :: ts' =>
      '(o, s1) ← step t s;
      '(os, s2) ← run ts' s1;
      Some (o :: os, s2)
  end.
End wait.
Arguments Sys : clear implicits.
