(* ===== verification/TraceScript.v ===== *)
(** A USB device whose completions are listed in advance: the witnesses and the
    examples of the trace streaming run on it. *)
From S2P Require Import Prelude UsbIf Trace TraceRun.

(** [sd_out]: the transfers outstanding, oldest first; [sd_script]: the token,
    the status and the data of each transfer to come.  One that is not
    outstanding yet blocks. *)
Record script_dev := mkScript {
  sd_next : Z;
  sd_out : list (xfer dest);
  sd_script : list (Z * Transfer_Status * list Z);
}.

(** Take the transfer with token [t] out of a list. *)
Fixpoint pick (t : Z) (l : list (xfer dest)) : option (xfer dest * list (xfer dest)) :=
  match l with
  | [] => None
  | x :: l' => if x_token x =? t then Some (x, l')
               else '(y, r) ← pick t l'; Some (y, x :: r)
  end.

Definition sd_submit (p : dest) : E script_dev Z := fun d =>
  Some (Val (sd_next d), mkScript (sd_next d + 1) (sd_out d ++ [mkX (sd_next d) p]) (sd_script d)).

#[export] Instance script_device : USBDevice script_dev dest := {
  dev_create _ _ d := mkScript 0 [] (sd_script d);
  dev_connect := mret tt;
  dev_disconnect d := mkScript (sd_next d) [] (sd_script d);
  dev_getEndPoints _ := [mkEP EP_TYPE_BULK 0x81; mkEP EP_TYPE_INTERRUPT 0x82];
  dev_controlTransfer _ _ _ _ d := (0, d);
  dev_submitReadTransfer _ p _ := sd_submit p;
  dev_submitQueuedReadTransfer _ p _ := sd_submit p;
  dev_pendingTransfers d := len (sd_out d);
  dev_cancelTransfers d := d;
  dev_completeTransfer d :=
    match sd_out d, sd_script d with
    | [], _ => NoTransfer
    | _, [] => Blocked
    | _, (t, st, data) :: rest =>
        match pick t (sd_out d) with
        | Some (x, out) => Completes (Completed t st (x_dest x) data) (mkScript (sd_next d) out rest)
        | None => Blocked
        end
    end;
}.

Lemma pick_perm t l x r : pick t l = Some (x, r) -> x_token x = t /\ l ≡ₚ x :: r.
Proof.
  revert x r. induction l as [|y l IH]; intros x r; simpl; [done|].
  destruct (Z.eqb_spec (x_token y) t) as [He|].
  - intros [= <- <-]. done.
  - destruct (pick t l) as [[z q]|]; [|done]. simpl. intros [= <- <-].
    destruct (IH z q eq_refl) as [Ht Hp]. split; [done|]. rewrite Hp. constructor.
Qed.

#[export] Instance script_laws : USBDeviceLaws script_dev dest.
Proof.
  refine {| outstanding := sd_out; next_token := sd_next |}.
  - done.
  - by intros d r d' [= <- <-].
  - intros ep p n d r d' [= <- <-]. simpl. split; [lia|]. split; [lia|]. by rewrite Permutation_app_comm.
  - intros ep p n d r d' [= <- <-]. simpl. split; [lia|]. split; [lia|]. by rewrite Permutation_app_comm.
  - intros d c d' Hc. simpl in Hc. destruct (sd_out d) as [|x0 l] eqn:Ho; [done|].
    destruct (sd_script d) as [|[[t st] data] rest]; [done|].
    destruct (pick t (x0 :: l)) as [[x out]|] eqn:Hp; [|done]. injection Hc as <- <-. simpl.
    apply pick_perm in Hp as [<- ->]. by destruct x.
  - done.
  - by intros rt rq v i d r d' [= <- <-].
  - by intros d c d'.
  - by intros ep p n d c d'.
Defined.

(** The start of a session: an object is created and connected, and sink 0
    attached; [n] client buffers of 16 bytes each. *)
Definition script_bufs (n : nat) : gmap Z CSTraceEventBuffer :=
  list_to_map (map (fun i => (Z.of_nat i, mkEvBuf 0 (repeat 0 16) 0)) (seq 0 n)).
Definition script_new (n : nat) (script : list (Z * Transfer_Status * list Z)) : result (Trace script_dev) :=
  CreateStreamingTrace (bytes_of "usb") (mkUSBID 0 0 1 0) [] (mkScript 0 [] script) (script_bufs n).
Definition script_run (n : nat) (script : list (Z * Transfer_Status * list Z)) (ts : list turn) :
    option (list obs * Sys script_dev) :=
  match script_new n script with
  | Val T => run ts (mkSys T Idle)
  | Fail _ => None
  end.

Lemma script_run_inv n script ts r :
  script_run n script ts = Some r ->
  exists s, CreateStreamingTrace (bytes_of "usb") (mkUSBID 0 0 1 0) [] (mkScript 0 [] script)
              (script_bufs n) = Val s /\ run ts (mkSys s Idle) = Some r.
Proof.
  unfold script_run, script_new. destruct (CreateStreamingTrace _ _ _ _ _) as [s|]; [|done]. eauto.
Qed.

(** The thread runs for [n] turns. *)
Definition threads (n : nat) : list turn := repeat TThread n.

(** Three buffers are streamed: the control transfer has token 0 (in [Attach]),
    the data transfers 1, 2 and 3. *)
Example stream_run :
  fst <$> script_run 3 [(1, Transfer_SUCCESS, [7; 8]); (2, Transfer_SUCCESS, [9])]
    ([TCall CConnect; TCall (CSetTraceDataCallback true); TCall (CAttach 0); TCall (CStart 0);
      TCall (CSubmitEventBuffer 0 3 0); TCall (CSubmitEventBuffer 0 3 1);
      TCall (CSubmitEventBuffer 0 1 2)] ++ threads 6 ++
     [TCall (CWaitForEvent 0); TCall (CWaitForEvent 0); TCall (CWaitForEvent 0); TResume true])
  = Some ([Some (Val 0); Some (Val 0); Some (Val 0); Some (Val 0); Some (Val 0); Some (Val 1); Some (Val 2);
           None; None; None; None; None; None; Some (Val 0); Some (Val 1); None; Some (Fail CSTRACE_TIMEOUT)]).
Proof. vm_compute. reflexivity. Qed.
