(* ===== verification/TraceQueue.v ===== *)
(** What a trace sink promises: the buffers given to it come back, each once,
    the data buffers in the order in which they were submitted and the event
    buffers in theirs.  [Queue] is the specification; every turn of the system
    of [TraceRun.v] is a sequence of its actions on each sink ([turn_acts]). *)
From S2P Require Import Prelude UsbIf Trace TraceRun.

Create HintDb trace.

(** ** The specification *)

Record Queue := mkQueue { q_data : list Z; q_events : list Z; q_done : list Z }.

(** A data or an event buffer is submitted; the oldest data buffer is filled;
    the oldest data buffer is lost; the oldest event buffer is returned; the
    client takes a token; everything not returned is given up. *)
Inductive action := Push (t : Z) | PushEvent (t : Z) | Finish | Lose | Post | Take (t : Z) | Clear.

Definition qact (a : action) (q : Queue) : option Queue :=
  match a, q with
  | Push t, mkQueue d e c => Some (mkQueue (d ++ [t]) e c)
  | PushEvent t, mkQueue d e c => Some (mkQueue d (e ++ [t]) c)
  | Finish, mkQueue (t :: d) e c => Some (mkQueue d e (c ++ [t]))
  | Lose, mkQueue (t :: d) e c => Some (mkQueue d e c)
  | Post, mkQueue d (t :: e) c => Some (mkQueue d e (c ++ [t]))
  | Take t, mkQueue d e (t' :: c) => if decide (t = t') then Some (mkQueue d e c) else None
  | Clear, mkQueue d e c => Some (mkQueue [] [] c)
  | _, _ => None
  end.
Fixpoint qacts (l : list action) (q : Queue) : option Queue :=
  match l with
  | [] => Some q
  | a :: l' => q' ← qact a q; qacts l' q'
  end.

(** How many buffers are lost. *)
Fixpoint loses (l : list action) : nat :=
  match l with
  | [] => 0
  | Lose :: l' => S (loses l')
  | _ :: l' => loses l'
  end.
Lemma loses_app l1 l2 : loses (l1 ++ l2) = (loses l1 + loses l2)%nat.
Proof. induction l1 as [|[] l1 IH]; simpl; by rewrite ?IH. Qed.
Lemma loses_none l : Lose ∉ l -> loses l = 0%nat.
Proof. induction l as [|a l IH]; intros Hl; [done|]. destruct a; simpl; (apply IH || exfalso); set_solver. Qed.

Lemma qacts_app l1 l2 q q1 : qacts l1 q = Some q1 -> qacts (l1 ++ l2) q = qacts l2 q1.
Proof.
  revert q. induction l1 as [|a l1 IH]; intros q; simpl; [by intros [= ->]|].
  destruct (qact a q) as [q'|]; simpl; [apply IH|done].
Qed.

(** The tokens that a queue holds and those that actions put in. *)
Definition q_tokens (q : Queue) : list Z := q_data q ++ q_events q ++ q_done q.
Definition pushed (l : list action) : list Z :=
  omap (fun a => match a with Push t | PushEvent t => Some t | _ => None end) l.

Lemma pushed_cons a l : pushed (a :: l) = pushed [a] ++ pushed l.
Proof. by destruct a. Qed.
Lemma pushed_app l1 l2 : pushed (l1 ++ l2) = pushed l1 ++ pushed l2.
Proof. induction l1 as [|a l1 IH]; [done|]. rewrite pushed_cons, <- app_assoc, <- IH, <- pushed_cons. done. Qed.

(** No token appears from nowhere, none is duplicated. *)
Lemma qacts_tokens l q q' :
  qacts l q = Some q' -> exists gone, pushed l ++ q_tokens q ≡ₚ gone ++ q_tokens q'.
Proof.
  revert q. induction l as [|a l IH]; intros q; simpl.
  { intros [= ->]. by exists []. }
  destruct (qact a q) as [q1|] eqn:Ha; [|done]. simpl. intros Hl.
  destruct (IH q1 Hl) as [gone IHl]. destruct q as [d e c].
  assert (Hone : exists g, pushed [a] ++ q_tokens (mkQueue d e c) ≡ₚ g ++ q_tokens q1).
  { destruct a as [t|t| | | |t|]; simpl in Ha.
    - injection Ha as <-. exists []. unfold q_tokens; simpl. solve_Permutation.
    - injection Ha as <-. exists []. unfold q_tokens; simpl. solve_Permutation.
    - destruct d; [done|]. injection Ha as <-. exists []. unfold q_tokens; simpl. solve_Permutation.
    - destruct d as [|x d]; [done|]. injection Ha as <-. exists [x]. done.
    - destruct e; [done|]. injection Ha as <-. exists []. unfold q_tokens; simpl. solve_Permutation.
    - destruct c as [|x c]; [done|]. case_decide; [|done]. injection Ha as <-. exists [x].
      unfold q_tokens; simpl. solve_Permutation.
    - injection Ha as <-. exists (d ++ e). unfold q_tokens; simpl. solve_Permutation. }
  destruct Hone as [g Hone]. exists (g ++ gone).
  change (pushed (a :: l) ++ q_tokens (mkQueue d e c) ≡ₚ (g ++ gone) ++ q_tokens q').
  rewrite pushed_cons, <- app_assoc. etrans; [|rewrite <- app_assoc; apply Permutation_app_head, IHl].
  rewrite !app_assoc, (Permutation_app_comm (pushed [a])), <- !app_assoc.
  rewrite Hone. solve_Permutation.
Qed.

(** ** Reasoning about a method *)

Section methods.
Context {D : Type} `{USBDevice D dest}.
Implicit Types s : Trace D.
Abbreviation T := (E (Trace D)).

Lemma within_throw {R : Trace D -> Trace D -> Prop} `{!PreOrder R} b c :
  within R (throw_if b c : T unit).
Proof. destruct b; [apply within_fail|apply within_ret]. Qed.

(** What the transfers of a device do not change. *)
Definition core s := (m_usb s, m_sinkInfo s, m_sinkState s, m_nextToken s, m_dataThread s).
Definition keeps s s' : Prop := core s' = core s.
#[export] Instance keeps_preorder : PreOrder keeps.
Proof. unfold keeps. split; [by intros s|intros s1 s2 s3 H1 H2; congruence]. Qed.
End methods.

#[export] Hint Extern 1 (within _ (throw_if _ _)) => apply within_throw : trace.

(** Methods are taken apart down to their accesses to the state. *)
Ltac within_tac := within_with ltac:(auto with trace within nocore).

Section keeps.
Context {D : Type} `{USBDevice D dest}.
Implicit Types s : Trace D.
Abbreviation T := (E (Trace D)).

Lemma on_dev_keeps {A} (m : E D A) : within keeps (on_dev m).
Proof.
  intros s r s'. unfold on_dev, zoom. destruct (m (m_dev s)) as [[a d]|]; [|done].
  by intros [= <- <-].
Qed.
Hint Resolve on_dev_keeps : trace.

Lemma endpointSetParam_keeps a r v : within keeps (endpointSetParam a r v : T Z).
Proof.
  intros s x s'. unfold endpointSetParam. destruct (dev_controlTransfer _ _ _ _ _). by intros [= <- <-].
Qed.
Hint Resolve endpointSetParam_keeps : trace.
Lemma set_param_keeps a r v : within keeps (set_param a r v : T unit).
Proof. unfold set_param. within_tac. Qed.
Hint Resolve set_param_keeps : trace.
Lemma submitControlChannelRequest_keeps : within keeps (submitControlChannelRequest : T unit).
Proof. unfold submitControlChannelRequest. within_tac. Qed.
Lemma set_attached_keeps i a k : within keeps (set_attached i a k : T unit).
Proof. unfold set_attached. within_tac. Qed.
Hint Resolve submitControlChannelRequest_keeps set_attached_keeps : trace.
Lemma detach_stream_keeps k : within keeps (detach_stream k : T unit).
Proof. unfold detach_stream. within_tac. Qed.
Lemma startDevice_keeps k : within keeps (startDevice k : T unit).
Proof. unfold startDevice. within_tac. Qed.
Lemma doFlush_keeps k : within keeps (doFlush k : T unit).
Proof. unfold doFlush. within_tac. Qed.
Lemma get_buf_keeps p : within keeps (get_buf p : T CSTraceEventBuffer).
Proof. unfold get_buf. within_tac. Qed.
Hint Resolve get_buf_keeps : trace.
Lemma upd_buf_keeps p f : within keeps (upd_buf p f : T unit).
Proof. unfold upd_buf. within_tac. Qed.
Hint Resolve upd_buf_keeps : trace.
Lemma sink_state_keeps k : within keeps (sink_state k : T SinkState).
Proof. unfold sink_state. within_tac. Qed.
Lemma sink_details_keeps k : within keeps (sink_details k : T SinkDetails).
Proof. unfold sink_details. within_tac. Qed.
Hint Resolve sink_state_keeps sink_details_keeps : trace.
Lemma submitBuffer_keeps k b : within keeps (submitBuffer k b : T unit).
Proof. unfold submitBuffer. within_tac. Qed.
Lemma doCancel_keeps k : within keeps (doCancelPendingBuffers k : T unit).
Proof. unfold doCancelPendingBuffers. within_tac. Qed.
Lemma write_dest_keeps c : within keeps (write_dest c : T unit).
Proof. unfold write_dest. within_tac. Qed.
Lemma CheckConnected_keeps : within keeps (CheckConnected : T unit).
Proof. unfold CheckConnected. within_tac. Qed.
Lemma check_sink_keeps k : within keeps (check_sink k : T unit).
Proof. unfold check_sink. within_tac. Qed.
Lemma GetState_keeps k : within keeps (GetState k : T Status).
Proof. unfold GetState. within_tac. Qed.
End keeps.
#[export] Hint Resolve on_dev_keeps endpointSetParam_keeps set_param_keeps
  submitControlChannelRequest_keeps set_attached_keeps detach_stream_keeps startDevice_keeps
  doFlush_keeps get_buf_keeps upd_buf_keeps sink_state_keeps sink_details_keeps
  submitBuffer_keeps doCancel_keeps write_dest_keeps CheckConnected_keeps check_sink_keeps
  GetState_keeps : trace.

(** ** How a method changes a sink *)

(** The tokens of the data buffers in the order in which they will be filled,
    those of the event buffers, and those that a client can wait for. *)
Definition abs (st : SinkState) : Queue :=
  mkQueue (map buf_token (pendingBuffers st ++ queuedBuffers st))
    (map buf_token (eventBuffers st)) (completedEventTokens st).

(** More buffers may be pending, up to [n]. *)
Definition grows (n : Z) (st st' : SinkState) : Prop :=
  len (pendingBuffers st') <= Z.max (len (pendingBuffers st)) n.

Section changes.
Context {D : Type} `{USBDevice D dest}.
Implicit Types s : Trace D.
Abbreviation T := (E (Trace D)).

Definition buffer_count s (k : Z) : Z :=
  default 0 (dataBufferCount <$> m_sinkInfo s !! Z.to_nat k).

(** [acts] are done to sink [k], with fresh tokens, and nothing to the others. *)
Record changes (k : Z) (acts : list action) s s' : Prop := {
  ch_usb : m_usb s' = m_usb s;
  ch_info : m_sinkInfo s' = m_sinkInfo s;
  ch_len : length (m_sinkState s') = length (m_sinkState s);
  ch_next : m_nextToken s <= m_nextToken s';
  ch_nodup : NoDup (pushed acts);
  ch_fresh : Forall (fun t => m_nextToken s <= t < m_nextToken s') (pushed acts);
  ch_other i : i <> Z.to_nat k -> m_sinkState s' !! i = m_sinkState s !! i;
  ch_sink st : m_sinkState s !! Z.to_nat k = Some st ->
    exists st', m_sinkState s' !! Z.to_nat k = Some st' /\
      qacts acts (abs st) = Some (abs st') /\ grows (buffer_count s k) st st';
}.

(** Pending buffers stay pending. *)
Definition steady (k : Z) s s' : Prop :=
  m_dataThread s' = m_dataThread s /\
  forall st, m_sinkState s !! Z.to_nat k = Some st ->
    exists st', m_sinkState s' !! Z.to_nat k = Some st' /\
      pendingBuffers st `prefix_of` pendingBuffers st'.

(** Both, for actions that satisfy [L] and without a new token. *)
Definition moves (L : action -> Prop) (k : Z) s s' : Prop :=
  steady k s s' /\ m_nextToken s' = m_nextToken s /\
  exists acts, Forall L acts /\ changes k acts s s'.

Lemma grows_refl n st : grows n st st.
Proof. unfold grows. lia. Qed.
Lemma grows_trans n st1 st2 st3 : grows n st1 st2 -> grows n st2 st3 -> grows n st1 st3.
Proof. unfold grows. lia. Qed.
#[export] Instance steady_preorder k : PreOrder (steady k).
Proof.
  split; [by split; eauto|]. intros s1 s2 s3 [T1 H1] [T2 H2]. split; [congruence|].
  intros st Hst. destruct (H1 st Hst) as (st2 & Hst2 & P2). destruct (H2 st2 Hst2) as (st3 & Hst3 & P3).
  exists st3. split; [done|]. by etrans.
Qed.
Lemma keeps_steady k s s' : keeps s s' -> steady k s s'.
Proof. intros [= Hu Hi Hs Hn Ht]. split; [done|]. rewrite Hs. eauto. Qed.

Lemma changes_refl k s : changes k [] s s.
Proof.
  split; try done; [apply NoDup_nil_2|]. intros st Hst. exists st. eauto using grows_refl.
Qed.
Lemma changes_trans k a1 a2 s1 s2 s3 :
  changes k a1 s1 s2 -> changes k a2 s2 s3 -> changes k (a1 ++ a2) s1 s3.
Proof.
  intros [U1 I1 L1 N1 D1 F1 O1 S1] [U2 I2 L2 N2 D2 F2 O2 S2]. split; try congruence; [lia| | | |].
  - rewrite pushed_app. apply list.NoDup_app. repeat split; [done| |done].
    intros t Ht1 Ht2. rewrite list.Forall_forall in F1, F2. specialize (F1 t Ht1). specialize (F2 t Ht2). lia.
  - rewrite pushed_app. apply Forall_app. split; (eapply list.Forall_impl; [eassumption|simpl; lia]).
  - intros i Hi. rewrite O2, O1; done.
  - intros st Hst. destruct (S1 st Hst) as (st1 & Hst1 & Hq1 & Hg1).
    destruct (S2 st1 Hst1) as (st2 & Hst2 & Hq2 & Hg2). exists st2.
    split; [done|]. split; [by rewrite (qacts_app _ _ _ _ Hq1)|].
    assert (buffer_count s2 k = buffer_count s1 k) as Hc by (unfold buffer_count; by rewrite I1).
    rewrite Hc in Hg2. by eapply grows_trans.
Qed.
#[export] Instance moves_preorder L k : PreOrder (moves L k).
Proof.
  split.
  - intros s. split; [reflexivity|]. split; [done|]. exists []. split; [constructor|apply changes_refl].
  - intros s1 s2 s3 (T1 & N1 & a1 & L1 & C1) (T2 & N2 & a2 & L2 & C2).
    split; [by etrans|]. split; [congruence|]. exists (a1 ++ a2).
    split; [by apply Forall_app|by eapply changes_trans].
Qed.

Lemma keeps_changes k s s' : keeps s s' -> changes k [] s s'.
Proof.
  unfold keeps, core. intros [= Hu Hi Hs Hn Ht]. split; try congruence; try done; [lia|apply NoDup_nil_2|].
  intros st Hst. exists st. rewrite Hs. eauto using grows_refl.
Qed.
Lemma keeps_moves L k s s' : keeps s s' -> moves L k s s'.
Proof.
  intros Hk. assert (Hk' := Hk). injection Hk' as _ _ _ Hn Ht. split; [by apply keeps_steady|]. split; [done|].
  exists []. split; [constructor|by apply keeps_changes].
Qed.
Lemma within_keeps L k {A} (m : T A) : within keeps m -> within (moves L k) m.
Proof. apply within_weaken, keeps_moves. Qed.

(** ** Reading and writing a sink *)

Lemma sink_state_inv k s r s' :
  sink_state k s = Some (r, s') ->
  exists st, 0 <= k /\ m_sinkState s !! Z.to_nat k = Some st /\ r = Val st /\ s' = s.
Proof.
  unfold sink_state. intros Hs. apply E_bind_cases in Hs as [(l & s1 & [= <- <-] & Hs)|(c & [=] & _)].
  unfold e_index in Hs. case_decide; [|done]. destruct (m_sinkState s !! _) as [st|]; [|done].
  injection Hs as <- <-. eauto.
Qed.
Lemma sink_state_eq k s st :
  0 <= k -> m_sinkState s !! Z.to_nat k = Some st -> sink_state k s = Some (Val st, s).
Proof.
  intros Hk Hst. unfold sink_state. erewrite E_bind_val by reflexivity.
  by apply e_index_eq.
Qed.

Lemma sink_details_inv k s r s' :
  sink_details k s = Some (r, s') ->
  exists i, m_sinkInfo s !! Z.to_nat k = Some i /\ r = Val i /\ s' = s.
Proof.
  unfold sink_details. intros Hs. apply E_bind_cases in Hs as [(l & s1 & [= <- <-] & Hs)|(c & [=] & _)].
  unfold e_index in Hs. case_decide; [|done]. destruct (m_sinkInfo s !! _) as [i|]; [|done].
  injection Hs as <- <-. eauto.
Qed.

Lemma get_buf_inv p s r s' :
  get_buf p s = Some (r, s') -> exists b, client_bufs s !! p = Some b /\ r = Val b /\ s' = s.
Proof.
  unfold get_buf. intros Hs. apply E_bind_cases in Hs as [(l & s1 & [= <- <-] & Hs)|(c & [=] & _)].
  destruct (client_bufs s !! p) as [b|]; [|done]. injection Hs as <- <-. eauto.
Qed.

Definition put_sink (k : Z) (st : SinkState) s : Trace D :=
  set_sinks (m_sinkInfo s) (<[Z.to_nat k := st]> (m_sinkState s)) s.

Lemma upd_sink_inv k f s r s' :
  upd_sink k f s = Some (r, s') ->
  exists st, 0 <= k /\ m_sinkState s !! Z.to_nat k = Some st /\ r = Val tt /\
    s' = put_sink k (f st) s.
Proof.
  unfold upd_sink. intros Hs. apply E_bind_cases in Hs as [(st & s1 & Hs & Hr)|(c & Hs & _)].
  - apply sink_state_inv in Hs as (st' & Hk & Hst & [= <-] & ->). injection Hr as <- <-. eauto.
  - by apply sink_state_inv in Hs as (st' & Hk & Hst & [=] & _).
Qed.
Lemma upd_sink_eq k f s st :
  0 <= k -> m_sinkState s !! Z.to_nat k = Some st ->
  upd_sink k f s = Some (Val tt, put_sink k (f st) s).
Proof.
  intros Hk Hst. unfold upd_sink. by erewrite E_bind_val by (by apply sink_state_eq).
Qed.

Lemma put_sink_changes k acts st st' s :
  m_sinkState s !! Z.to_nat k = Some st ->
  pushed acts = [] -> qacts acts (abs st) = Some (abs st') -> grows (buffer_count s k) st st' ->
  changes k acts s (put_sink k st' s).
Proof.
  intros Hst Hp Hq Hg. split; try done; simpl.
  - by rewrite length_insert.
  - rewrite Hp. apply NoDup_nil_2.
  - by rewrite Hp.
  - intros i Hi. by rewrite list_lookup_insert_ne.
  - intros st0 Hst0. rewrite Hst in Hst0. injection Hst0 as <-. exists st'.
    split; [|done]. apply list_lookup_insert_eq. by eapply lookup_lt_Some.
Qed.
Lemma put_sink_steady k st st' s :
  m_sinkState s !! Z.to_nat k = Some st -> pendingBuffers st `prefix_of` pendingBuffers st' ->
  steady k s (put_sink k st' s).
Proof.
  intros Hst Hp. split; [done|]. intros st0 Hst0. rewrite Hst in Hst0. injection Hst0 as <-.
  exists st'. split; [|done]. apply list_lookup_insert_eq. by eapply lookup_lt_Some.
Qed.
Lemma put_sink_moves L k st st' s acts :
  m_sinkState s !! Z.to_nat k = Some st ->
  Forall L acts -> pushed acts = [] -> qacts acts (abs st) = Some (abs st') ->
  grows (buffer_count s k) st st' -> pendingBuffers st `prefix_of` pendingBuffers st' ->
  moves L k s (put_sink k st' s).
Proof.
  intros. split; [by eapply put_sink_steady|]. split; [done|]. exists acts. split; [done|].
  by eapply put_sink_changes.
Qed.
Lemma upd_sink_moves L k f :
  (forall st, abs (f st) = abs st /\ pendingBuffers (f st) = pendingBuffers st) ->
  within (moves L k) (upd_sink k f : T unit).
Proof.
  intros Hf s r s' Hs. apply upd_sink_inv in Hs as (st & _ & Hst & _ & ->).
  destruct (Hf st) as [Ha Hp]. eapply (put_sink_moves _ _ _ _ _ []); [done|constructor|done| | |].
  - simpl. by rewrite Ha.
  - unfold grows. rewrite Hp. lia.
  - by rewrite Hp.
Qed.
Lemma set_status_moves L k v : within (moves L k) (upd_sink k (set_status v) : T unit).
Proof. by apply upd_sink_moves. Qed.
Lemma set_transport_moves L k v : within (moves L k) (upd_sink k (set_transport v) : T unit).
Proof. by apply upd_sink_moves. Qed.
End changes.
#[export] Hint Resolve set_status_moves set_transport_moves : trace.
#[export] Hint Extern 1 (moves _ _ ?s _) => apply keeps_moves; reflexivity : trace.
#[export] Hint Extern 2 (within (moves _ _) _) => apply within_keeps; solve [auto with trace within nocore] : trace.

(** ** The methods *)

(** Bookkeeping only, or event buffers are returned. *)
Abbreviation silent := (moves (fun _ => False)).
Abbreviation posting := (moves (eq Post)).

Ltac run_inv :=
  repeat match goal with
  | Hm : (_ ≫= _) _ = Some _ |- _ =>
      apply E_bind_cases in Hm as [(? & ? & ? & Hm)|(? & Hm & ->)]
  | Hm : sink_state _ _ = Some _ |- _ =>
      apply sink_state_inv in Hm as (? & ? & ? & ? & ->); simplify_eq
  | Hm : sink_details _ _ = Some _ |- _ =>
      apply sink_details_inv in Hm as (? & ? & ? & ->); simplify_eq
  | Hm : upd_sink _ _ _ = Some _ |- _ =>
      apply upd_sink_inv in Hm as (? & ? & ? & ? & ->); simplify_eq
  | Hm : e_gets _ _ = Some _ |- _ => injection Hm; clear Hm; intros; subst
  | Hm : e_modify _ _ = Some _ |- _ => injection Hm; clear Hm; intros; subst
  | Hm : mret _ _ = Some _ |- _ => injection Hm; clear Hm; intros; subst
  | Hm : e_fail _ _ = Some _ |- _ => injection Hm; clear Hm; intros; subst
  | Hm : e_ub _ = Some _ |- _ => discriminate Hm
  | Hm : Val _ = Fail _ |- _ => discriminate Hm
  end.

Section methods_change.
Context {D : Type} `{USBDevice D dest}.
Implicit Types s : Trace D.
Abbreviation T := (E (Trace D)).

Lemma moves_mono (L1 L2 : action -> Prop) k s s' :
  (forall a, L1 a -> L2 a) -> moves L1 k s s' -> moves L2 k s s'.
Proof.
  intros HL (Ht & Hn & acts & Ha & Hc). split; [done|]. split; [done|]. exists acts. split; [|done].
  by eapply list.Forall_impl.
Qed.
Lemma silent_posting k {A} (m : T A) : within (silent k) m -> within (posting k) m.
Proof. apply within_weaken. intros s s'. by apply moves_mono. Qed.

(** The next queued buffer is submitted. *)
Lemma submit_one k s st buf rest :
  m_sinkState s !! Z.to_nat k = Some st -> queuedBuffers st = buf :: rest ->
  len (pendingBuffers st) < buffer_count s k ->
  silent k s (put_sink k (set_pendings (pendingBuffers st ++ [buf]) (set_queued rest st)) s).
Proof.
  intros Hst Hq Hn. eapply (put_sink_moves _ _ _ _ _ []); [done|constructor|done| | |].
  - unfold abs. simpl. rewrite Hq, <- app_assoc. done.
  - unfold grows. simpl. rewrite length_app. simpl. lia.
  - by eexists.
Qed.

Lemma submit_loop_silent n k : within (silent k) (submit_loop n k : T unit).
Proof.
  induction n as [|n IH]; [apply within_ret|]. intros s r s' Hs. cbn [submit_loop] in Hs.
  run_inv. destruct (queuedBuffers _) as [|buf rest] eqn:Hq; [run_inv; reflexivity|].
  case_match eqn:Hlt; [|run_inv; reflexivity]. apply Z.ltb_lt in Hlt.
  apply E_bind_cases in Hs as [(u & s1 & Hb & Hs)|(c & Hb & ->)].
  2: { apply submitBuffer_keeps in Hb. by apply keeps_moves. }
  apply submitBuffer_keeps in Hb. etrans; [by apply keeps_moves|].
  injection Hb as Hb1 Hb2 Hb3 Hb4 Hb5. run_inv. etrans; [|eapply IH, Hs].
  match goal with Hst : m_sinkState s1 !! _ = Some ?st, Hst0 : m_sinkState _ !! _ = Some ?st0 |- _ =>
    rewrite Hb3, Hst0 in Hst; injection Hst as <- end.
  eapply submit_one; [by rewrite Hb3|done|]. unfold buffer_count. rewrite Hb2. by simplify_option_eq.
Qed.
Lemma submitBuffers_silent k : within (silent k) (submitBuffers k : T unit).
Proof.
  unfold submitBuffers. apply within_bind; [auto with trace|]. intros st. apply submit_loop_silent.
Qed.
Hint Resolve submitBuffers_silent : trace.

Lemma attachDevice_silent k : within (silent k) (attachDevice k : T unit).
Proof. unfold attachDevice. within_tac. Qed.
Hint Resolve attachDevice_silent : trace.
Lemma attach_sink_silent k : within (silent k) (attach_sink k : T unit).
Proof. unfold attach_sink. within_tac. Qed.
Lemma attach_sink_valid k s u s' :
  attach_sink k s = Some (Val u, s') -> 0 <= k < len (m_sinkState s').
Proof.
  intros Hs. assert (Hc := attach_sink_silent k _ _ _ Hs). destruct Hc as (_ & _ & acts & _ & [_ _ -> _ _ _ _ _]).
  unfold attach_sink in Hs. apply E_bind_cases in Hs as [(? & s1 & Hs1 & Hs)|(c & _ & [=])].
  apply CheckConnected_keeps in Hs1. injection Hs1 as _ _ <- _ _.
  apply E_bind_cases in Hs as [(? & s2 & Hs2 & Hs)|(c & _ & [=])].
  apply check_sink_keeps in Hs2. injection Hs2 as _ _ <- _ _.
  apply E_bind_cases in Hs as [(? & s3 & Hs3 & _)|(c & _ & [=])].
  apply sink_state_inv in Hs3 as (st & Hk & Hst & _). apply lookup_lt_Some in Hst. lia.
Qed.
Lemma Start_silent k : within (silent k) (Start k : T unit).
Proof. unfold Start. within_tac. Qed.
Lemma Flush_silent k : within (silent k) (Flush k : T unit).
Proof. unfold Flush. within_tac. Qed.

(** The oldest event buffer is returned. *)
Lemma post_one k s st buf rest :
  m_sinkState s !! Z.to_nat k = Some st -> eventBuffers st = buf :: rest ->
  posting k s (put_sink k (set_completed (completedEventTokens st ++ [buf_token buf])
                             (set_events rest st)) s).
Proof.
  intros Hst He. eapply (put_sink_moves _ _ _ _ _ [Post]); [done|by repeat constructor|done| | |done].
  - unfold abs. simpl. by rewrite He.
  - unfold grows. simpl. lia.
Qed.
Lemma post_step k p f buf rest st s r s' :
  m_sinkState s !! Z.to_nat k = Some st -> eventBuffers st = buf :: rest ->
  (upd_buf p f;; upd_sink k (fun st => set_completed (completedEventTokens st ++ [buf_token buf])
                                         (set_events rest st))) s = Some (r, s') ->
  posting k s s'.
Proof.
  intros Hst He Hs. apply E_bind_cases in Hs as [(u & s1 & Hb & Hs)|(c & Hb & ->)].
  2: { apply upd_buf_keeps in Hb. by apply keeps_moves. }
  apply upd_buf_keeps in Hb. etrans; [by apply keeps_moves|]. injection Hb as _ _ Hb3 _ _.
  rewrite <- Hb3 in Hst. run_inv. by eapply post_one.
Qed.
Lemma doSendStateEvent_posts k ty : within (posting k) (doSendStateEvent k ty : T unit).
Proof.
  intros s r s' Hs. unfold doSendStateEvent in Hs. run_inv.
  destruct (eventBuffers _) as [|buf rest] eqn:He; [run_inv; reflexivity|]. by eapply post_step.
Qed.
Lemma return_events_posts n k : within (posting k) (return_events n k : T unit).
Proof.
  induction n as [|n IH]; [apply within_ret|]. intros s r s' Hs. cbn [return_events] in Hs. run_inv.
  destruct (eventBuffers _) as [|buf rest] eqn:He; [run_inv; reflexivity|].
  rewrite <- E_bind_assoc in Hs. apply E_bind_cases in Hs as [(u & s1 & Hb & Hs)|(c & Hb & ->)].
  - etrans; [by eapply post_step|eapply IH, Hs].
  - by eapply post_step.
Qed.
Hint Resolve doSendStateEvent_posts return_events_posts : trace.
Lemma SendStateEvent_posts k ty : within (posting k) (SendStateEvent k ty : T unit).
Proof. unfold SendStateEvent. within_tac. Qed.
Lemma Stop_posts k : within (posting k) (Stop k : T unit).
Proof. unfold Stop, stopDevice. within_tac. Qed.
Lemma completeUsbTransfer_posts k t st n : within (posting k) (completeUsbTransfer k t st n : T bool).
Proof. unfold completeUsbTransfer. within_tac. Qed.
Hint Resolve completeUsbTransfer_posts : trace.
Lemma waitForBuffer_posts k b c : within (posting k) (waitForBuffer k b c : T wait_res).
Proof. unfold waitForBuffer. within_tac. Qed.

Lemma silent_changes k s s' : silent k s s' -> changes k [] s s'.
Proof. intros (_ & _ & acts & Ha & Hc). destruct Ha; [done|contradiction]. Qed.

(** Submitting a buffer takes a token, and puts the buffer in its queue. *)
Lemma token_changes k acts st st' s s0 :
  keeps s s0 -> m_sinkState s !! Z.to_nat k = Some st ->
  (acts = [] \/ pushed acts = [m_nextToken s]) ->
  qacts acts (abs st) = Some (abs st') -> pendingBuffers st' = pendingBuffers st ->
  changes k acts s (put_sink k st' (set_token (m_nextToken s0 + 1) s0)).
Proof.
  intros [= Hu Hi Hs Hn Ht] Hst Hp Hq Hpend. split; simpl; try congruence; try lia.
  - by rewrite length_insert, Hs.
  - destruct Hp as [->| ->]; [apply NoDup_nil_2|apply NoDup_singleton].
  - destruct Hp as [->| ->]; [done|]. repeat constructor; lia.
  - intros i Hne. by rewrite list_lookup_insert_ne, Hs.
  - intros st0 Hst0. rewrite Hst in Hst0. injection Hst0 as <-. exists st'. repeat split; [|done|].
    + apply list_lookup_insert_eq. rewrite Hs. by eapply lookup_lt_Some.
    + unfold grows. rewrite Hpend. lia.
Qed.

Lemma token_steady k st st' s s0 :
  keeps s s0 -> m_sinkState s0 !! Z.to_nat k = Some st ->
  pendingBuffers st' = pendingBuffers st ->
  steady k s (put_sink k st' (set_token (m_nextToken s0 + 1) s0)).
Proof.
  intros Hk Hst Hp. etrans; [by apply keeps_steady|]. etrans; [|eapply put_sink_steady; [exact Hst|by rewrite Hp]].
  split; [done|]. simpl. eauto.
Qed.

Definition submit_acts (ty : Z) s s' : list action :=
  if m_nextToken s' =? m_nextToken s then []
  else if ty =? CSTRACE_EVENT_TYPE_DATA then [Push (m_nextToken s)]
  else if ty =? CSTRACE_EVENT_TYPE_EVENT then [PushEvent (m_nextToken s)]
  else [].
Definition accepts (ty : Z) (r : result Z) s s' : Prop :=
  match r with
  | Val t => t = m_nextToken s /\ m_nextToken s' = t + 1 /\
             (ty = CSTRACE_EVENT_TYPE_DATA \/ ty = CSTRACE_EVENT_TYPE_EVENT)
  | Fail _ => True
  end.

Lemma submit_checks_keeps k p : within keeps (submit_checks k p : T Status).
Proof. unfold submit_checks. within_tac. Qed.

Lemma enqueue_type k ty v buf s u s' :
  enqueue k ty v buf s = Some (Val u, s') ->
  ty = CSTRACE_EVENT_TYPE_DATA \/ ty = CSTRACE_EVENT_TYPE_EVENT.
Proof.
  unfold enqueue. destruct (Z.eqb_spec ty CSTRACE_EVENT_TYPE_DATA); [by left|].
  destruct (Z.eqb_spec ty CSTRACE_EVENT_TYPE_EVENT); [by right|done].
Qed.
Lemma alloc_token_inv s r s' :
  alloc_token s = Some (r, s') -> r = Val (m_nextToken s) /\ s' = set_token (m_nextToken s + 1) s.
Proof.
  unfold alloc_token. intros Hs. run_inv. case_match; by run_inv.
Qed.
Lemma enqueue_changes k ty v buf s0 s r s' :
  keeps s0 s -> buf_token buf = m_nextToken s ->
  enqueue k ty v buf (set_token (m_nextToken s + 1) s) = Some (r, s') ->
  steady k s0 s' /\ m_nextToken s' = m_nextToken s0 + 1 /\
  changes k (if ty =? CSTRACE_EVENT_TYPE_DATA then [Push (m_nextToken s0)]
             else if ty =? CSTRACE_EVENT_TYPE_EVENT then [PushEvent (m_nextToken s0)] else []) s0 s'.
Proof.
  intros Hk Hb Hs. assert (Hk' := Hk). injection Hk' as Hu Hi Hst Hn Ht. unfold enqueue in Hs.
  destruct (ty =? CSTRACE_EVENT_TYPE_DATA) eqn:H1; [|destruct (ty =? CSTRACE_EVENT_TYPE_EVENT) eqn:H2].
  - run_inv. assert (silent k (put_sink k (set_queued (queuedBuffers x1 ++ [buf]) x1)
               (set_token (m_nextToken s + 1) s)) s') as Hsil.
    { revert Hs. case_decide; [apply submitBuffers_silent|intros [= _ ->]; reflexivity]. }
    assert (Hsil' := Hsil). destruct Hsil' as (Ht' & Hn' & _).
    split; [etrans; [|exact Ht']; eapply token_steady; [exact Hk|exact H2|done]|]. split; [rewrite Hn'; simpl; lia|].
    eapply (changes_trans k [Push _] [] s0); [|by apply silent_changes].
    eapply token_changes; [done|by rewrite <- Hst|by right| |done].
    unfold abs. simpl. rewrite !map_app. simpl. by rewrite Hb, Hn, app_assoc.
  - run_inv. split; [eapply token_steady; [exact Hk|done|done]|]. split; [simpl; lia|].
    eapply token_changes; [done|by rewrite <- Hst|by right| |done].
    unfold abs. simpl. rewrite !map_app. simpl. by rewrite Hb, Hn.
  - run_inv. split; [split; [done|by rewrite <- Hst; eauto]|]. split; [simpl; lia|]. split; simpl; try congruence; try done; [lia|apply NoDup_nil_2|].
    intros st Hk0. exists st. rewrite Hst. eauto using grows_refl.
Qed.

Lemma SubmitEventBuffer_changes k ty p s r s' :
  SubmitEventBuffer k ty p s = Some (r, s') ->
  steady k s s' /\ changes k (submit_acts ty s s') s s' /\ accepts ty r s s'.
Proof.
  intros Hs. unfold SubmitEventBuffer in Hs.
  apply E_bind_cases in Hs as [(v & s1 & Hc & Hs)|(c & Hc & ->)]; apply submit_checks_keeps in Hc.
  2: { assert (Hc' := Hc). injection Hc' as _ _ _ Hn Ht. unfold submit_acts. rewrite Hn, Z.eqb_refl.
       split; [by apply keeps_steady|]. split; [by apply keeps_changes|done]. }
  assert (Hn : m_nextToken s1 = m_nextToken s) by by injection Hc.
  apply E_bind_cases in Hs as [(t & s2 & Ha & Hs)|(c & Ha & ->)];
    apply alloc_token_inv in Ha as [Ht ->]; [injection Ht as ->|done].
  assert (Hq : exists r', enqueue k ty v (mkBuffer (m_nextToken s1) p)
                            (set_token (m_nextToken s1 + 1) s1) = Some (r', s') /\
               match r' with Val _ => r = Val (m_nextToken s1) | Fail c => r = Fail c end).
  { apply E_bind_cases in Hs as [(u & s3 & He & Hs)|(c & He & ->)];
      [exists (Val u)|exists (Fail c)]; by run_inv. }
  destruct Hq as (r' & He & Hr). assert (He' := He).
  eapply enqueue_changes in He' as (Ht & Hn' & Hch); [|exact Hc|done]. rewrite Hn in Hr.
  split; [done|]. unfold submit_acts. rewrite Hn', (proj2 (Z.eqb_neq (m_nextToken s + 1) _)) by lia.
  split; [done|]. destruct r' as [u|c]; subst r; [|done]. simpl. by eapply enqueue_type in He.
Qed.
End methods_change.

(** ** The data thread *)

Section thread.
Context {D : Type} `{USBDevice D dest}.
Implicit Types s : Trace D.
Abbreviation T := (E (Trace D)).

(** [buf] is the oldest pending buffer of sink [k]. *)
Definition oldest (k : Z) (buf : Buffer) s : Prop :=
  exists st rest, m_sinkState s !! Z.to_nat k = Some st /\ pendingBuffers st = buf :: rest.
Lemma steady_oldest k buf s s' : steady k s s' -> oldest k buf s -> oldest k buf s'.
Proof.
  intros [_ Hst] (st & rest & Hk & Hp). destruct (Hst st Hk) as (st' & Hk' & more & Hp').
  exists st', (rest ++ more). split; [done|]. by rewrite Hp', Hp.
Qed.

(** The oldest buffer goes away; what is done with its token comes later. *)
Lemma pop_changes k buf s s1 st rest :
  keeps s s1 -> m_sinkState s !! Z.to_nat k = Some st -> pendingBuffers st = buf :: rest ->
  changes k [Lose] s (put_sink k (set_pendings (tail (pendingBuffers st)) st) s1).
Proof.
  intros Hk Hst Hp. eapply (changes_trans k [] [Lose]); [by apply keeps_changes|].
  injection Hk as _ _ Hs _ _. rewrite <- Hs in Hst. eapply put_sink_changes; [done..| |].
  - unfold abs. simpl. by rewrite Hp.
  - unfold grows. simpl. rewrite Hp. simpl. lia.
Qed.
Lemma finish_changes k buf s s' st rest st' :
  m_sinkState s !! Z.to_nat k = Some st -> pendingBuffers st = buf :: rest ->
  changes k [Lose] s s' -> m_sinkState s' !! Z.to_nat k = Some st' ->
  changes k [Finish] s (put_sink k (set_completed (completedEventTokens st' ++ [buf_token buf]) st') s').
Proof.
  intros Hst Hp [Hu Hi Hl Hn _ _ Ho Hs] Hst'. split; try done.
  - simpl. by rewrite length_insert.
  - apply NoDup_nil_2.
  - intros i Hne. simpl. rewrite list_lookup_insert_ne by done. auto.
  - intros st0 Hst0. rewrite Hst in Hst0. injection Hst0 as <-.
    destruct (Hs st Hst) as (st2 & Hst2 & Hq & Hg). rewrite Hst' in Hst2. injection Hst2 as <-.
    eexists. split; [apply list_lookup_insert_eq; by eapply lookup_lt_Some|]. split; [|done].
    revert Hq. unfold abs at 1 3. simpl. rewrite Hp. simpl. unfold abs. intros [= Hd He Hc]. simpl. by rewrite Hd, He, Hc.
Qed.

Lemma complete_event_changes k buf s r s' :
  oldest k buf s -> complete_event k buf s = Some (r, s') ->
  m_dataThread s' = m_dataThread s /\ m_nextToken s' = m_nextToken s /\
  match r with Val _ => changes k [Finish] s s' | Fail _ => changes k [Lose] s s' end.
Proof.
  intros (st & rest & Hst & Hp) Hs. unfold complete_event in Hs.
  apply E_bind_cases in Hs as [(b & s1 & Hb & Hs)|(c & Hb & ->)].
  2: { by apply get_buf_inv in Hb as (b & _ & ? & _). }
  apply get_buf_keeps in Hb. apply E_bind_cases in Hs as [(u & s2 & Hd & Hs)|(c & Hd & ->)]; [|done].
  assert (Hk : keeps s s2).
  { etrans; [exact Hb|]. injection Hd as _ <-. by case_match. }
  assert (Hs2 : m_sinkState s2 = m_sinkState s) by by injection Hk.
  assert (Hpop := pop_changes k buf s s2 st rest Hk Hst Hp).
  apply E_bind_cases in Hs as [(u' & s3 & Hu & Hs)|(c & Hu & ->)]; [|by run_inv].
  apply upd_sink_inv in Hu as (st0 & _ & Hst0 & _ & ->).
  rewrite Hs2, Hst in Hst0. injection Hst0 as <-.
  apply E_bind_cases in Hs as [(st1 & s3 & Hst1 & Hs)|(c & Hst1 & ->)]; [|by run_inv].
  apply sink_state_inv in Hst1 as (st1' & _ & _ & _ & ->).
  assert (Hcore : forall s3, silent k (put_sink k (set_pendings (tail (pendingBuffers st)) st) s2) s3 ->
    m_dataThread s3 = m_dataThread s /\ m_nextToken s3 = m_nextToken s /\ changes k [Lose] s s3).
  { intros s3 Hsil. assert (Hsil' := Hsil). destruct Hsil' as ([Ht _] & Hn & _).
    injection Hk as _ _ _ Hn2 Ht2. split; [by rewrite Ht|]. split; [by rewrite Hn|].
    eapply (changes_trans k [Lose] []); [done|by apply silent_changes]. }
  apply E_bind_cases in Hs as [(u2 & s3 & Hsub & Hs)|(c & Hsub & ->)].
  - destruct (Hcore s3) as (Ht & Hn & Hc).
    { revert Hsub. case_decide; [apply submitBuffers_silent|intros [= _ ->]; reflexivity]. }
    apply upd_sink_inv in Hs as (st3 & _ & Hst3 & -> & ->). split; [done|]. split; [done|].
    by eapply finish_changes.
  - apply Hcore. revert Hsub. case_decide; [apply submitBuffers_silent|done].
Qed.

(** The buffer that the thread is waiting for is the oldest one. *)
Definition pc_ok (k : Z) (p : pc) s : Prop :=
  match p with Calling buf | Waiting buf => oldest k buf s | _ => True end.
Definition thread_ok s : Prop :=
  match m_dataThread s with
  | Some th => 0 <= th_sink th < len (m_sinkState s) /\ pc_ok (th_sink th) (th_pc th) s
  | None => True
  end.

Definition by_thread (a : action) : Prop := a = Post \/ a = Finish \/ a = Lose.
Record thread_changes (k : Z) (r : result (option pc)) (acts : list action) s s' : Prop := {
  tc_thread : m_dataThread s' = m_dataThread s;
  tc_next : m_nextToken s' = m_nextToken s;
  tc_changes : changes k acts s s';
  tc_acts : Forall by_thread acts;
  tc_lose : Lose ∈ acts -> exists c, r = Fail c;
  tc_once : (loses acts <= 1)%nat;
  tc_pc p : r = Val (Some p) -> pc_ok k p s';
}.

Lemma quiet_turn k r s s' :
  keeps s s' -> (forall p, r = Val (Some p) -> pc_ok k p s') -> thread_changes k r [] s s'.
Proof.
  intros Hk Hp. assert (Hk' := Hk). injection Hk' as _ _ _ Hn Ht. split; try done.
  - by apply keeps_changes.
  - by intros ?%not_elem_of_nil.
  - simpl. lia.
Qed.

Lemma posts_lose_nothing acts : Forall (eq Post) acts -> Lose ∉ acts.
Proof. intros Ha Hl. rewrite list.Forall_forall in Ha. by specialize (Ha _ Hl). Qed.

Lemma posting_turn k r s s' :
  posting k s s' -> (forall p, r = Val (Some p) -> pc_ok k p s') -> exists acts, thread_changes k r acts s s'.
Proof.
  intros ([Ht _] & Hn & acts & Ha & Hc) Hp. exists acts. split; try done.
  - eapply list.Forall_impl; [exact Ha|]. intros a <-. by left.
  - by intros Hl%posts_lose_nothing.
  - rewrite loses_none by (by apply posts_lose_nothing). lia.
Qed.

Lemma waiting_turn k buf c d' s r s' :
  oldest k buf s ->
  (e_modify (set_dev d');;
   w ← waitForBuffer k buf c;
   match w with
   | Again => mret (Some (Calling buf))
   | NoBuffer => mret (Some Exiting)
   | GotBuffer => complete_event k buf;; mret (Some AtLoop)
   end) s = Some (r, s') ->
  exists acts, thread_changes k r acts s s'.
Proof.
  intros Ho Hs. apply E_bind_cases in Hs as [(u & s1 & [= _ <-] & Hs)|(x & Hd & ->)]; [|done].
  apply E_bind_cases in Hs as [(w & s1 & Hw & Hs)|(x & Hw & ->)]; apply waitForBuffer_posts in Hw.
  2: { by apply posting_turn; [etrans; [apply keeps_moves|exact Hw]|]. }
  assert (Hp1 : posting k s s1) by by (etrans; [apply keeps_moves|exact Hw]).
  assert (Ho1 : oldest k buf s1) by (eapply steady_oldest; [apply Hp1|done]).
  destruct w.
  - injection Hs as <- <-. apply posting_turn; [done|]. by intros p [= <-].
  - assert (Hq : exists r', complete_event k buf s1 = Some (r', s') /\
      match r' with Val _ => r = Val (Some AtLoop) | Fail c => r = Fail c end).
    { apply E_bind_cases in Hs as [(u' & s2 & Hc & [= <- <-])|(x & Hc & ->)];
        [exists (Val u')|exists (Fail x)]; done. }
    destruct Hq as (r' & Hc & Hr). destruct (complete_event_changes _ _ _ _ _ Ho1 Hc) as (Ht & Hn & Hch).
    destruct Hp1 as ([Ht1 _] & Hn1 & acts & Ha & Hc1).
    exists (acts ++ [match r' with Val _ => Finish | Fail _ => Lose end]). split; try congruence.
    + eapply changes_trans; [done|]. by destruct r'.
    + apply Forall_app. split; [eapply list.Forall_impl; [exact Ha|]; intros a <-; by left|].
      constructor; [|constructor]. unfold by_thread. destruct r'; auto.
    + rewrite elem_of_app, list_elem_of_singleton. intros [Hl|Hl].
      * by apply posts_lose_nothing in Ha.
      * destruct r'; [done|]. by exists code.
    + rewrite loses_app, loses_none by (by apply posts_lose_nothing). destruct r'; simpl; lia.
    + intros p Hp. destruct r' as [|]; [|congruence]. by simplify_eq.
  - injection Hs as <- <-. apply posting_turn; [done|]. by intros p [= <-].
Qed.

Lemma thread_at_changes k p s r s' :
  pc_ok k p s -> thread_at k p s = Some (r, s') -> exists acts, thread_changes k r acts s s'.
Proof.
  intros Hp Hs. destruct p as [|buf|buf| |]; simpl in Hs.
  - exists []. apply E_bind_cases in Hs as [(u & s1 & Hc & Hs)|(c & Hc & ->)]; apply check_sink_keeps in Hc;
      [|by apply quiet_turn]. run_inv.
    case_match; run_inv; (apply quiet_turn; [done|]); [by intros p [= <-]|]. intros p [= Hh].
    match goal with Hst : m_sinkState _ !! _ = Some ?st |- _ =>
      destruct (pendingBuffers st) as [|buf rest] eqn:Hb; [done|] end.
    injection Hh as <-. by eexists _, _.
  - run_inv. case_match; [done|]. case_match; run_inv; try done; exists [];
      (apply quiet_turn; [done|]); by intros p [= <-].
  - apply E_bind_cases in Hs as [(d & s1 & [= <- <-] & Hs)|(x & [=] & _)].
    case_match; [| |run_inv|done]; [run_inv|by eapply waiting_turn|]; exists []; by apply quiet_turn.
  - run_inv. exists []. split; try done; [|by intros ?%not_elem_of_nil|simpl; lia|by intros p [= <-]].
    eapply put_sink_changes; [done..|unfold grows; simpl; lia].
  - run_inv. exists []. by apply quiet_turn.
Qed.

(** A thread that has to wait does nothing. *)
Lemma thread_at_blocked k p s s' : thread_at k p s = Some (Val None, s') -> keeps s s'.
Proof.
  intros Hs. destruct p as [|buf|buf| |]; simpl in Hs.
  - apply E_bind_cases in Hs as [(u & s1 & Hc & Hs)|(c & Hc & [=])]. apply check_sink_keeps in Hc.
    etrans; [exact Hc|]. apply E_bind_cases in Hs as [(st & s2 & Hst & Hs)|(x & _ & [=])].
    apply sink_state_inv in Hst as (st0 & _ & _ & _ & ->).
    apply E_bind_cases in Hs as [(c & s2 & [= <- <-] & Hs)|(x & [=] & _)].
    case_match; [done|]. by injection Hs as _ <-.
  - apply E_bind_cases in Hs as [(c & s1 & [= <- <-] & Hs)|(x & [=] & _)].
    apply E_bind_cases in Hs as [(d & s1 & [= <- <-] & Hs)|(x & [=] & _)].
    case_match; [done|]. by case_match.
  - apply E_bind_cases in Hs as [(d & s1 & [= <- <-] & Hs)|(x & [=] & _)].
    case_match; [by injection Hs as <-| |by injection Hs as <-|done].
    apply E_bind_cases in Hs as [(u & s1 & _ & Hs)|(x & _ & [=])].
    apply E_bind_cases in Hs as [([] & s2 & _ & Hs)|(x & _ & [=])]; [done| |done].
    by apply E_bind_cases in Hs as [(u2 & s3 & _ & [=])|(x & _ & [=])].
  - by apply E_bind_cases in Hs as [(u & s1 & _ & [=])|(x & _ & [=])].
  - by injection Hs as <-.
Qed.
End thread.
