(* ===== verification/TraceDetach.v ===== *)
(** [Detach] and a second [Attach]: when they return and what they leave. *)
From S2P Require Import Prelude UsbIf Trace TraceRun TraceScript TraceQueue.

Section detach.
Context {D : Type} `{USBDevice D dest}.
Implicit Types (s : Trace D) (S : Sys D).

(** What [Detach] does before it joins the thread. *)
Definition detaching (k : Z) (st : SinkState) s : Trace D := put_sink k (set_status DETACHED st) s.

Lemma Detach_joins k st s th :
  isConnected s = true -> 0 <= k < len (m_sinkInfo s) -> m_sinkState s !! Z.to_nat k = Some st ->
  m_dataThread s = Some th ->
  Detach k s = Some (Val (Wait (JoinDetach k)), detaching k st s).
Proof.
  intros Hc Hk Hst Ht. unfold Detach.
  rewrite (E_bind_val _ _ _ tt (detaching k st s)).
  - unfold mbind, E_bind, e_gets. simpl. by rewrite Ht.
  - unfold signal_detach, CheckConnected, check_sink, throw_if.
    rewrite (E_bind_val _ _ _ tt s) by (unfold mbind, E_bind, e_gets; by rewrite Hc).
    rewrite (E_bind_val _ _ _ tt s); [by apply upd_sink_eq; [lia|]|].
    unfold mbind, E_bind, e_gets. by destruct (Z.leb_spec (len (m_sinkInfo s)) k); [lia|].
Qed.

(** C30: a client that detaches a sink while the data thread waits for data of
    the device does not come back before the device delivers: [Detach] marks the
    sink and joins the thread before it cancels the transfers, so as long as no
    transfer completes the call does not return, whatever turns follow, the
    transfers stay submitted (the device is not touched), the thread goes on
    waiting, and every other call has to wait for it. *)
Theorem detach_waits_for_data k buf ts s st :
  isConnected s = true -> 0 <= k < len (m_sinkInfo s) -> m_sinkState s !! Z.to_nat k = Some st ->
  m_dataThread s = Some (mkThread k (Waiting buf)) ->
  dev_completeTransfer (m_dev s) = Blocked ->
  exists os, run (TCall (CDetach (k)) :: ts) (mkSys s Idle) =
      Some (os, mkSys (detaching k st s) (JoinDetach (k))) /\
    Forall (eq None) os /\ m_dev (detaching k st s) = m_dev s /\
    m_dataThread (detaching k st s) = m_dataThread s.
Proof.
  intros Hc Hi Hst Ht Hd. set (S := mkSys (detaching k st s) (JoinDetach (k))).
  assert (Hrun : exists os, run ts S = Some (os, S) /\ Forall (eq None) os).
  { induction ts as [|t ts (os & Hr & Ho)]; [by exists []|]. exists (None :: os). split; [|by constructor].
    assert (Hstep : step t S = Some (None, S)).
    { destruct t as [c|b|]; [done| |]; simpl.
      - unfold client_turn, resume, joined, mbind, E_bind, e_gets. simpl. by rewrite Ht.
      - unfold thread_step. simpl. rewrite Ht. simpl. unfold mbind, E_bind, e_gets. simpl. by rewrite Hd. }
    simpl. rewrite Hstep. simpl. by rewrite Hr. }
  destruct Hrun as (os & Hr & Ho). exists (None :: os). split_and!; [|by constructor|done..].
  simpl. unfold client_turn, start_call. rewrite (Detach_joins k st s _ Hc Hi Hst Ht). simpl.
  fold S. by rewrite Hr.
Qed.

(** While there is a data thread, even one that has ended, [Attach] does not
    return: it throws, or the process ends. *)
Lemma attach_twice_fails k s u s' : m_dataThread s <> None -> Attach k s <> Some (Val u, s').
Proof.
  intros Ht Hs. unfold Attach in Hs.
  apply E_bind_cases in Hs as [(u1 & s1 & Ha & Hs)|(x & _ & [=])]. apply attach_sink_silent in Ha.
  destruct Ha as ([Hth _] & _). unfold start_thread in Hs.
  apply E_bind_cases in Hs as [(th & s2 & [= <- <-] & Hs)|(x & _ & [=])].
  rewrite Hth in Hs. by destruct (m_dataThread s).
Qed.
End detach.

Definition detach_start : list turn :=
  [TCall CConnect; TCall (CAttach 0); TCall (CStart 0); TCall (CSubmitEventBuffer 0 3 0)] ++ threads 2.
Definition is_blocked (d : script_dev) : bool :=
  match dev_completeTransfer d with Blocked => true | _ => false end.
Definition detach_facts (p : list obs * Sys script_dev) :=
  let s := s_trace p.2 in
  st ← m_sinkState s !! 0%nat;
  Some (bool_decide (s_client p.2 = Idle) && isConnected s && (0 <? len (m_sinkInfo s)) &&
        bool_decide (m_dataThread s = Some (mkThread 0 (Waiting (mkBuffer 0 0)))) && is_blocked (m_dev s)).
Lemma detach_run :
  detach_facts <$> script_run 1 [] detach_start = Some (Some true).
Proof. vm_compute. reflexivity. Qed.

Definition detach_turns : list turn :=
  [TCall (CDetach 0); TResume false; TThread; TCall (CWaitForEvent 0); TResume true].
Lemma detach_waits_for_data_witness :
  exists os S os' S', script_run 1 [] detach_start = Some (os, S) /\
    run detach_turns S = Some (os', S') /\ Forall (eq None) os' /\
    s_client S' = JoinDetach 0 /\ m_dev (s_trace S') = m_dev (s_trace S).
Proof.
  destruct (fmap_Some_1 _ _ _ detach_run) as ([os [s c]] & He & Hall). unfold detach_facts in Hall.
  cbn [snd fst s_trace s_client] in Hall. destruct (m_sinkState s !! 0%nat) as [st|] eqn:Hst; [|discriminate Hall].
  cbn [mbind option_bind] in Hall. apply (inj Some) in Hall. symmetry in Hall.
  apply andb_prop in Hall as [Hall Hd]. apply andb_prop in Hall as [Hall Ht].
  apply andb_prop in Hall as [Hall Hi]. apply andb_prop in Hall as [Hc Hcon].
  apply bool_decide_eq_true_1 in Hc, Ht. apply Z.ltb_lt in Hi. unfold is_blocked in Hd.
  destruct (dev_completeTransfer _) eqn:Hdev; try discriminate Hd. subst c.
  destruct (detach_waits_for_data 0 (mkBuffer 0 0) [TResume false; TThread; TCall (CWaitForEvent 0); TResume true]
    s st Hcon ltac:(lia) Hst Ht Hdev) as (os' & Hr & Ho & Hdv & _).
  exists os, (mkSys s Idle), os', (mkSys (detaching 0 st s) (JoinDetach 0)). by split_and!.
Defined.

(** A detached sink is not [DETACHED] but [EXITED], since the thread leaves that
    status when it ends: buffers are still accepted, and wait for ever. *)
Example detached_accepts :
  option_map (fun p : list obs * Sys script_dev => rev p.1 !! 0%nat)
   (script_run 2 [(1, Transfer_SUCCESS, [7]); (0, Transfer_CANCELLED, [])]
      (detach_start ++ threads 1 ++ [TCall (CDetach 0)] ++ threads 3 ++ repeat (TResume false) 6 ++
       [TCall (CSubmitEventBuffer 0 3 1)]))
  = Some (Some (Some (Val 1))).
Proof. vm_compute. reflexivity. Qed.

(** [Detach] leaves the tokens of transfers it has not seen complete, so the
    next session takes its first buffer for an unknown transfer: the thread
    ends, and the client gets nothing but time-outs. *)
Example stale_token_ends_thread :
  option_map (fun p : list obs * Sys script_dev =>
      (rev p.1 !! 0%nat, m_dataTransferTokens (s_trace p.2), th_pc <$> m_dataThread (s_trace p.2)))
   (script_run 3 [(1, Transfer_SUCCESS, [7]); (0, Transfer_CANCELLED, []); (2, Transfer_CANCELLED, []);
                  (4, Transfer_SUCCESS, [8])]
      ([TCall CConnect; TCall (CAttach 0); TCall (CStart 0); TCall (CSubmitEventBuffer 0 3 0);
        TCall (CSubmitEventBuffer 0 3 1); TThread; TThread; TThread; TCall (CDetach 0)] ++
       threads 2 ++ repeat (TResume false) 6 ++
       [TCall (CAttach 0); TCall (CStart 0); TCall (CSubmitEventBuffer 0 3 2)] ++ threads 4 ++
       [TCall (CWaitForEvent 0); TCall (CWaitForEvent 0); TResume true]))
  = Some (Some (Some (Fail CSTRACE_TIMEOUT)), [2; 4], Some Ended).
Proof. vm_compute. reflexivity. Qed.
