(* ===== verification/TraceInv.v ===== *)
(** The invariant of trace streaming: whatever a client calls and however the
    data thread is scheduled, tokens are unique, the device is never given more
    buffers than the sink declares, and the thread and the client wait for the
    oldest pending buffer ([run_inv]). *)
From S2P Require Import Prelude UsbIf Trace TraceRun TraceScript TraceQueue.

(** ** Tokens of all sinks *)

Definition all_tokens (l : list SinkState) : list Z := concat (map (fun st => q_tokens (abs st)) l).

Lemma all_tokens_insert l k st st' :
  l !! k = Some st ->
  exists others, all_tokens l ≡ₚ q_tokens (abs st) ++ others /\
    all_tokens (<[k := st']> l) ≡ₚ q_tokens (abs st') ++ others.
Proof.
  intros Hk. exists (all_tokens (take k l ++ drop (S k) l)). unfold all_tokens.
  assert (k < length l)%nat by by eapply lookup_lt_Some.
  rewrite insert_take_drop by done. rewrite <- (take_drop_middle l k st Hk) at 1.
  rewrite !map_app, !concat_app. simpl. split; solve_Permutation.
Qed.
Lemma all_tokens_same l l' :
  Forall2 (fun st st' => abs st = abs st') l l' -> all_tokens l = all_tokens l'.
Proof. unfold all_tokens. induction 1 as [|st st' l l' He _ IH]; simpl; [done|]. by rewrite He, IH. Qed.

Section invariant.
Context {D : Type} `{USBDevice D dest}.
Implicit Types s : Trace D.

Record trace_inv s : Prop := {
  inv_len : length (m_sinkInfo s) = length (m_sinkState s);
  inv_conn : m_usb s = false -> m_sinkState s = [];
  inv_count i info st :
    m_sinkInfo s !! i = Some info -> m_sinkState s !! i = Some st ->
    len (pendingBuffers st) <= dataBufferCount info;
  inv_nodup : NoDup (all_tokens (m_sinkState s));
  inv_fresh : Forall (fun t => 0 <= t < m_nextToken s) (all_tokens (m_sinkState s));
  inv_next : 0 <= m_nextToken s;
}.

Lemma changes_insert k acts s s' st :
  changes k acts s s' -> m_sinkState s !! Z.to_nat k = Some st ->
  exists st', m_sinkState s' = <[Z.to_nat k := st']> (m_sinkState s) /\
    qacts acts (abs st) = Some (abs st') /\ grows (buffer_count s k) st st'.
Proof.
  intros Hc Hst. destruct (ch_sink _ _ _ _ Hc st Hst) as (st' & Hst' & Hq & Hg).
  exists st'. split; [|done]. apply list_eq. intros i. destruct (decide (i = Z.to_nat k)) as [->|Hne].
  - rewrite list_lookup_insert_eq by (by eapply lookup_lt_Some). done.
  - rewrite list_lookup_insert_ne by done. by apply (ch_other _ _ _ _ Hc).
Qed.
Lemma changes_none k acts s s' :
  changes k acts s s' -> m_sinkState s !! Z.to_nat k = None -> m_sinkState s' = m_sinkState s.
Proof.
  intros Hc Hk. apply list_eq. intros i. destruct (decide (i = Z.to_nat k)) as [->|Hne].
  - rewrite Hk. apply lookup_ge_None. rewrite (ch_len _ _ _ _ Hc). by apply lookup_ge_None.
  - by apply (ch_other _ _ _ _ Hc).
Qed.

(** Actions on one sink preserve the invariant. *)
Lemma trace_inv_changes k acts s s' : trace_inv s -> changes k acts s s' -> trace_inv s'.
Proof.
  intros [Hl Hc Hb Hd Hf Hn] Hch. assert (Hch' := Hch). destruct Hch' as [Cu Ci Cl Cn Cd Cf _ _].
  destruct (m_sinkState s !! Z.to_nat k) as [st|] eqn:Hst.
  2: { assert (Hs := changes_none _ _ _ _ Hch Hst). split; rewrite ?Hs, ?Ci, ?Cu; try done; [|lia].
       eapply list.Forall_impl; [exact Hf|simpl; lia]. }
  destruct (changes_insert _ _ _ _ _ Hch Hst) as (st' & Hs & Hq & Hg).
  destruct (all_tokens_insert _ _ _ st' Hst) as (others & Ht & Ht').
  destruct (qacts_tokens _ _ _ Hq) as (gone & Hp).
  assert (Hall : pushed acts ++ all_tokens (m_sinkState s) ≡ₚ gone ++ all_tokens (m_sinkState s')).
  { by rewrite Hs, Ht, Ht', !app_assoc, Hp. }
  split; rewrite ?Ci, ?Cu, ?Cl; try done; [| | | |lia].
  - intros Hu. specialize (Hc Hu). by rewrite Hc in Hst.
  - intros i info st0 Hi. rewrite Hs. intros [(<- & <- & _)|[_ Hst0]]%list_lookup_insert_Some; [|by eapply Hb].
    specialize (Hb _ _ _ Hi Hst). unfold grows, buffer_count in Hg. rewrite Hi in Hg. simpl in Hg. lia.
  - assert (Hnd : NoDup (gone ++ all_tokens (m_sinkState s'))); [|apply list.NoDup_app in Hnd; tauto].
    rewrite <- Hall. apply list.NoDup_app. split; [done|]. split; [|done]. intros t Hp1 Hp2.
    rewrite list.Forall_forall in Cf, Hf. specialize (Cf t Hp1). specialize (Hf t Hp2). lia.
  - assert (Hfr : Forall (fun t => 0 <= t < m_nextToken s') (gone ++ all_tokens (m_sinkState s'))); [|apply Forall_app in Hfr; tauto].
    rewrite <- Hall. apply Forall_app. split; (eapply list.Forall_impl; [eassumption|simpl; lia]).
Qed.
Lemma trace_inv_moves L k s s' : trace_inv s -> moves L k s s' -> trace_inv s'.
Proof. intros Hi (_ & _ & acts & _ & Hc). by eapply trace_inv_changes. Qed.
Lemma trace_inv_keeps s s' : trace_inv s -> keeps s s' -> trace_inv s'.
Proof. intros Hi Hk. eapply (trace_inv_changes 0); [done|by apply keeps_changes]. Qed.

(** Only the statuses, or the thread, change. *)
Lemma trace_inv_sinks s f :
  (forall st, abs (f st) = abs st /\ pendingBuffers (f st) = pendingBuffers st) ->
  trace_inv s -> trace_inv (set_sinks (m_sinkInfo s) (map f (m_sinkState s)) s).
Proof.
  intros Hf [Hl Hc Hb Hd Hfr Hn].
  assert (Ht : all_tokens (map f (m_sinkState s)) = all_tokens (m_sinkState s)).
  { symmetry. apply all_tokens_same. apply Forall2_fmap_r, list.Forall_Forall2_diag, Forall_true.
    intros st. by destruct (Hf st). }
  split; simpl; rewrite ?Ht, ?length_map; try done.
  - intros Hu. by rewrite (Hc Hu).
  - intros i info st Hi. change (map f (m_sinkState s)) with (f <$> m_sinkState s).
    rewrite list_lookup_fmap. intros (st0 & Hst0 & ->)%fmap_Some.
    destruct (Hf st0) as [_ ->]. by eapply Hb.
Qed.
Lemma thread_ok_sinks s f :
  (forall st, pendingBuffers (f st) = pendingBuffers st) ->
  thread_ok s -> thread_ok (set_sinks (m_sinkInfo s) (map f (m_sinkState s)) s).
Proof.
  intros Hf. unfold thread_ok. simpl. destruct (m_dataThread s) as [[k p]|]; [|done].
  rewrite length_map. intros [Hk Hp]. split; [done|].
  assert (Ho : forall b, oldest k b s -> oldest k b (set_sinks (m_sinkInfo s) (map f (m_sinkState s)) s)).
  { intros b (st & rest & Hst & Hb). exists (f st), rest. rewrite Hf. split; [|done]. simpl.
    change (map f (m_sinkState s)) with (f <$> m_sinkState s). by rewrite list_lookup_fmap, Hst. }
  destruct p; simpl in *; auto.
Qed.
Lemma trace_inv_thread s v : trace_inv s -> trace_inv (set_thread v s).
Proof. by intros []. Qed.

(** ** The thread and the client *)

Lemma oldest_changes k buf acts j s s' :
  changes j acts s s' -> Z.to_nat k <> Z.to_nat j -> oldest k buf s -> oldest k buf s'.
Proof.
  intros Hc Hne (st & rest & Hst & Hp). exists st, rest. by rewrite (ch_other _ _ _ _ Hc).
Qed.
Lemma steady_oldest_any k buf acts j s s' :
  changes j acts s s' -> steady j s s' -> oldest k buf s -> oldest k buf s'.
Proof.
  intros Hc Hs Ho. destruct (decide (Z.to_nat k = Z.to_nat j)) as [He|Hne]; [|by eapply oldest_changes].
  unfold oldest in *. rewrite He in *. by eapply (steady_oldest j).
Qed.

Definition client_ok (c : client) s : Prop :=
  match c with
  | WaitDetach _ | DrainDetach _ => m_dataThread s = None
  | InDetach k buf => m_dataThread s = None /\ oldest k buf s
  | _ => True
  end.
Record sys_inv (c : client) s : Prop := {
  si_trace : trace_inv s;
  si_thread : thread_ok s;
  si_client : client_ok c s;
}.

Lemma thread_ok_steady k acts s s' :
  changes k acts s s' -> steady k s s' -> thread_ok s -> thread_ok s'.
Proof.
  intros Hc Hs. unfold thread_ok. rewrite (proj1 Hs). destruct (m_dataThread s) as [[i p]|]; [|done].
  rewrite (ch_len _ _ _ _ Hc). intros [Hi Hp]. split; [done|]. simpl in *.
  destruct p; try done; by eapply steady_oldest_any.
Qed.

Lemma sys_inv_steady c c' k acts s s' :
  changes k acts s s' -> steady k s s' -> client_ok c' s' -> sys_inv c s -> sys_inv c' s'.
Proof.
  intros Hc Hs Hcl [Ht Hth _]. split; [by eapply trace_inv_changes|by eapply thread_ok_steady|done].
Qed.
Lemma sys_inv_moves L c c' k s s' :
  moves L k s s' -> client_ok c' s' -> sys_inv c s -> sys_inv c' s'.
Proof. intros (Hs & _ & acts & _ & Hc) ?. by eapply sys_inv_steady. Qed.
Lemma sys_inv_keeps c c' s s' : keeps s s' -> client_ok c' s' -> sys_inv c s -> sys_inv c' s'.
Proof. intros Hk. by eapply sys_inv_moves, (keeps_moves (fun _ => False) 0). Qed.

(** ** The turns of the client *)

Abbreviation T := (E (Trace D)).
(** Where the client is after a turn. *)
Definition after (r : result outcome) : client :=
  match r with Val (Wait c) => c | _ => Idle end.

Lemma returns_inv {A} (m : T A) f s r s' :
  returns m f s = Some (r, s') -> after r = Idle /\ exists r', m s = Some (r', s').
Proof.
  unfold returns. intros Hs. apply E_bind_cases in Hs as [(a & s1 & Hm & [= <- <-])|(c & Hm & ->)]; eauto.
Qed.
Lemma returns_moves {A} L k (m : T A) f s r s' :
  within (moves L k) m -> sys_inv Idle s -> returns m f s = Some (r, s') -> sys_inv (after r) s'.
Proof.
  intros Hm Hi Hs. apply returns_inv in Hs as (-> & r' & Hs). by eapply sys_inv_moves; [eapply Hm, Hs|..].
Qed.

Lemma Attach_inv k s r s' : sys_inv Idle s -> Attach k s = Some (r, s') -> sys_inv Idle s'.
Proof.
  intros Hi Hs. unfold Attach in Hs.
  apply E_bind_cases in Hs as [(u & s1 & Hs1 & Hs)|(c & Hs1 & ->)].
  2: { by eapply sys_inv_moves; [eapply attach_sink_silent, Hs1|..]. }
  assert (Hv := attach_sink_valid _ _ _ _ Hs1). apply attach_sink_silent in Hs1.
  assert (Hi1 : sys_inv Idle s1) by by eapply sys_inv_moves.
  unfold start_thread in Hs. run_inv. case_match; run_inv.
  split; [apply trace_inv_thread, Hi1| |done]. by split.
Qed.

Lemma doCancel_all_keeps n i : within keeps (e_for n i doCancelPendingBuffers : T unit).
Proof. within_tac. Qed.

(** Connecting makes a device object, or leaves none. *)
Definition sinks_part s := (m_sinkInfo s, m_sinkState s, m_nextToken s, m_dataThread s).
Lemma doConnect_inv s r s' :
  doConnect s = Some (r, s') ->
  sinks_part s' = sinks_part s /\ m_usb s' = match r with Val _ => true | Fail _ => false end.
Proof.
  unfold doConnect. intros Hs. apply E_bind_cases in Hs as [(u & s1 & [= _ <-] & Hs)|(c & [=] & _)].
  unfold destroy_on_fail in Hs.
  assert (Hk : within keeps (on_dev dev_connect;; usbSetup : T unit)) by (unfold usbSetup; within_tac).
  destruct ((on_dev _;; _) _) as [[[a|c] s1]|] eqn:He; [| |done]; apply Hk in He;
    injection He as Hu Hi Hst Hn Ht; injection Hs as <- <-; simpl; unfold sinks_part; simpl; by rewrite Hi, Hst, Hn, Ht.
Qed.

(** Without a device there are no sinks, hence no thread. *)
Lemma no_thread s : m_usb s = false -> trace_inv s -> thread_ok s -> m_sinkState s = [] /\ m_dataThread s = None.
Proof.
  intros Hu Hi Ht. assert (Hs := inv_conn _ Hi Hu). split; [done|]. revert Ht. unfold thread_ok. rewrite Hs.
  destruct (m_dataThread s) as [th|]; [|done]. intros [Hk _]. simpl in Hk. lia.
Qed.

Lemma new_sinks_tokens {A} (l : list A) : all_tokens (map (fun _ => new_state) l) = [].
Proof. induction l; done. Qed.

Lemma Connect_inv s r s' : sys_inv Idle s -> Connect s = Some (r, s') -> sys_inv Idle s'.
Proof.
  intros Hi Hs. unfold Connect in Hs.
  apply E_bind_cases in Hs as [(c & s1 & [= <- <-] & Hs)|(c & [=] & _)].
  destruct (isConnected s) eqn:Hc; [by run_inv|]. destruct Hi as [Hi Hth _].
  destruct (no_thread s Hc Hi Hth) as [Hss Hno]. assert (Hn := inv_next _ Hi).
  apply E_bind_cases in Hs as [(u & s1 & Hd & Hs)|(c & Hd & ->)]; apply doConnect_inv in Hd as [Hp Hu];
    injection Hp as Hinfo Hst Hnt Ht.
  - injection Hs as _ <-. split; [|by unfold thread_ok; simpl; rewrite Ht, Hno|done].
    assert (Htok := new_sinks_tokens (map need_event discoverSinks)).
    split; simpl; rewrite ?Htok, ?length_map; try done; [by rewrite Hu| |apply NoDup_nil_2|lia].
    intros i info st Hinf Hl.
    change (((fun _ : SinkDetails => new_state) <$> map need_event discoverSinks) !! i = Some st) in Hl.
    rewrite list_lookup_fmap in Hl.
    apply fmap_Some in Hl as (i0 & Hi0 & ->). simpl.
    assert (Hall : Forall (fun i => 0 <= dataBufferCount i) (map need_event discoverSinks)) by (repeat constructor; done).
    rewrite list.Forall_lookup in Hall. apply (Hall i). done.
  - destruct Hi. split; [|by unfold thread_ok; rewrite Ht, Hno|done].
    split; rewrite ?Hinfo, ?Hst, ?Hnt; done.
Qed.

(** [Disconnect] signals the thread, and drops the sinks when it has ended. *)
Lemma Disconnect_end_inv c s r s' :
  m_dataThread s = None -> sys_inv c s -> Disconnect_end s = Some (r, s') -> sys_inv (after r) s'.
Proof.
  intros Hno [Hi _ _] Hs. unfold Disconnect_end, doDisconnect in Hs. run_inv.
  assert (Hn := inv_next _ Hi).
  destruct (m_usb s); (split; [|unfold thread_ok; simpl; by rewrite Hno|done]);
    (split; simpl; try done; apply NoDup_nil_2).
Qed.
Lemma Disconnect_inv s r s' : sys_inv Idle s -> Disconnect s = Some (r, s') -> sys_inv (after r) s'.
Proof.
  intros [Hi Hth _] Hs. unfold Disconnect in Hs.
  apply E_bind_cases in Hs as [(u & s1 & [= _ <-] & Hs)|(c & [=] & _)].
  set (s1 := set_sinks _ _ s) in Hs. assert (Hi1 : sys_inv Idle s1).
  { split; [by apply trace_inv_sinks| |done].
    by apply thread_ok_sinks. }
  apply E_bind_cases in Hs as [(n & s2 & [= <- <-] & Hs)|(c & [=] & _)].
  apply E_bind_cases in Hs as [(u2 & s2 & Hc & Hs)|(c & Hc & ->)]; apply doCancel_all_keeps in Hc;
    assert (Hi2 := sys_inv_keeps Idle Idle _ _ Hc Logic.I Hi1); [|done].
  apply E_bind_cases in Hs as [(th & s3 & [= <- <-] & Hs)|(c & [=] & _)].
  destruct (m_dataThread s2) eqn:Ht; [|by eapply Disconnect_end_inv].
  injection Hs as <- <-. by destruct Hi2.
Qed.

(** While there is no thread a sink may lose its buffers. *)
Lemma put_sink_inv c c' k acts st st' s :
  m_dataThread s = None -> m_sinkState s !! Z.to_nat k = Some st ->
  pushed acts = [] -> qacts acts (abs st) = Some (abs st') -> grows (buffer_count s k) st st' ->
  client_ok c' (put_sink k st' s) -> sys_inv c s -> sys_inv c' (put_sink k st' s).
Proof.
  intros Hno Hst Hp Hq Hg Hc [Hi Hth _]. split; [|by unfold thread_ok; simpl; rewrite Hno|done].
  eapply trace_inv_changes; [exact Hi|by eapply put_sink_changes].
Qed.

Lemma signal_detach_silent k : within (silent k) (signal_detach k : T unit).
Proof. unfold signal_detach. within_tac. Qed.
Lemma joined_inv c s r s' :
  sys_inv c s -> joined s = Some (r, s') ->
  exists b : bool, r = Val b /\ sys_inv Idle s' /\ (b = true -> m_dataThread s' = None).
Proof.
  intros [Hi Hth _] Hs. assert (Hi0 : sys_inv Idle s) by by split. unfold joined in Hs.
  apply E_bind_cases in Hs as [(th & s1 & [= <- <-] & Hs)|(c' & [=] & _)].
  destruct (m_dataThread s) as [[i []]|] eqn:Ht;
    [injection Hs as <- <-; by exists false..| |injection Hs as <- <-; by exists false].
  injection Hs as <- <-. exists true. split; [done|]. split; [|done].
  by split; [apply trace_inv_thread| |].
Qed.

Lemma Detach_inv k s r s' : sys_inv Idle s -> Detach k s = Some (r, s') -> sys_inv (after r) s'.
Proof.
  intros Hi Hs. unfold Detach in Hs.
  apply E_bind_cases in Hs as [(u & s1 & Hd & Hs)|(c & Hd & ->)]; apply signal_detach_silent in Hd;
    assert (Hi1 := sys_inv_moves _ Idle Idle _ _ _ Hd Logic.I Hi); [|exact Hi1].
  apply E_bind_cases in Hs as [(th & s2 & [= <- <-] & Hs)|(c & [=] & _)].
  destruct (m_dataThread s1) eqn:Ht; [run_inv; by destruct Hi1|].
  apply E_bind_cases in Hs as [(u2 & s2 & Hc & Hs)|(c & Hc & ->)]; apply doCancel_keeps in Hc.
  - injection Hs as <- <-. assert (m_dataThread s2 = None) by (injection Hc as _ _ _ _ ->; done).
    by eapply sys_inv_keeps.
  - by eapply sys_inv_keeps.
Qed.

Lemma take_event_inv c k none s r s' :
  (forall r s', none s = Some (r, s') -> sys_inv (after r) s') ->
  sys_inv c s -> take_event k none s = Some (r, s') -> sys_inv (after r) s'.
Proof.
  intros Hnone Hi Hs. unfold take_event in Hs.
  apply E_bind_cases in Hs as [(st & s1 & Hst & Hs)|(x & Hst & ->)]; [|by run_inv].
  apply sink_state_inv in Hst as (st0 & Hk & Hst & [= <-] & ->).
  destruct (completedEventTokens st) as [|t rest] eqn:Hc; [by apply Hnone|].
  apply E_bind_cases in Hs as [(u & s1 & Hu & [= <- <-])|(x & Hu & ->)];
    apply upd_sink_inv in Hu as (st0 & _ & Hst0 & [=] & ->).
  rewrite Hst in Hst0. injection Hst0 as <-.
  eapply (sys_inv_moves (fun _ => True)); [|done|exact Hi].
  eapply (put_sink_moves _ _ _ _ _ [Take t]); [done|by repeat constructor|done| |unfold grows; simpl; lia|done].
  unfold abs. simpl. rewrite Hc. by rewrite decide_True.
Qed.
Lemma WaitForEvent_inv k s r s' : sys_inv Idle s -> WaitForEvent k s = Some (r, s') -> sys_inv (after r) s'.
Proof.
  intros Hi Hs. unfold WaitForEvent in Hs.
  apply E_bind_cases in Hs as [(u & s1 & Hd & Hs)|(c & Hd & ->)]; apply check_sink_keeps in Hd;
    assert (Hi1 := sys_inv_keeps Idle Idle _ _ Hd Logic.I Hi); [|exact Hi1].
  eapply take_event_inv; [|exact Hi1|exact Hs]. intros r0 s0 [= <- <-]. by destruct Hi1.
Qed.

Lemma leave_wait_inv c k s r s' :
  m_dataThread s = None -> sys_inv c s -> leave_wait k s = Some (r, s') -> sys_inv (after r) s'.
Proof.
  intros Hno Hi Hs. unfold leave_wait in Hs.
  apply E_bind_cases in Hs as [(u & s1 & Hd & Hs)|(x & Hd & ->)]; apply detach_stream_keeps in Hd.
  - injection Hs as <- <-. eapply sys_inv_keeps; [exact Hd| |exact Hi]. simpl. by injection Hd as _ _ _ _ ->.
  - by eapply sys_inv_keeps.
Qed.
Lemma end_detach_inv c k s r s' :
  m_dataThread s = None -> sys_inv c s -> end_detach k s = Some (r, s') -> sys_inv (after r) s'.
Proof.
  intros Hno Hi Hs. unfold end_detach in Hs. run_inv.
  eapply (put_sink_inv _ _ _ [Clear]); [done..| |done|exact Hi].
  unfold grows. simpl. lia.
Qed.

(** A turn of the wait of [Detach] for a pending buffer. *)
Lemma InDetach_inv k buf c d' s r s' :
  sys_inv (InDetach k buf) s ->
  (e_modify (set_dev d');;
   w ← waitForBuffer k buf c;
   match w with
   | Again => mret (Wait (WaitDetach k))
   | NoBuffer => leave_wait k
   | GotBuffer =>
       upd_sink k (fun st => set_pendings (tail (pendingBuffers st)) st);;
       mret (Wait (WaitDetach k))
   end) s = Some (r, s') ->
  sys_inv (after r) s'.
Proof.
  intros Hi Hs. destruct (si_client _ _ Hi) as [Hno Ho].
  apply E_bind_cases in Hs as [(u & s1 & [= _ <-] & Hs)|(x & [=] & _)].
  apply E_bind_cases in Hs as [(w & s1 & Hw & Hs)|(x & Hw & ->)]; apply waitForBuffer_posts in Hw;
    (assert (Hm : posting k s _) by (etrans; [apply keeps_moves|exact Hw]; reflexivity)).
  2: { by eapply sys_inv_moves. }
  assert (Hno1 : m_dataThread s1 = None) by (rewrite (proj1 (proj1 Hm)); done).
  assert (Hi1 : sys_inv Idle s1) by by eapply sys_inv_moves.
  destruct w.
  - injection Hs as <- <-. by destruct Hi1.
  - run_inv. eapply (put_sink_inv _ _ _ [Lose]); [done..| | |done|exact Hi1].
    + destruct (steady_oldest _ _ _ _ (proj1 Hm) Ho) as (st & rest & Hst & Hp).
      simplify_eq. unfold abs. simpl. by rewrite Hp.
    + unfold grows. simpl. destruct (pendingBuffers _); simpl; lia.
  - by eapply leave_wait_inv.
Qed.

Lemma resume_inv c b s r s' : sys_inv c s -> resume c b s = Some (r, s') -> sys_inv (after r) s'.
Proof.
  intros Hi Hs. destruct c as [|k|k|k buf|k| |k]; simpl in Hs.
  - injection Hs as <- <-. done.
  - apply E_bind_cases in Hs as [(j & s1 & Hj & Hs)|(x & Hj & ->)];
      apply (joined_inv _ _ _ _ Hi) in Hj as (b' & Hb & Hi1 & Hno); [injection Hb as ->|done].
    destruct b'; [|injection Hs as <- <-; by destruct Hi1]. specialize (Hno eq_refl).
    apply E_bind_cases in Hs as [(u & s2 & Hc & Hs)|(x & Hc & ->)]; apply doCancel_keeps in Hc.
    + injection Hs as <- <-. eapply sys_inv_keeps; [exact Hc| |exact Hi1]. simpl. by injection Hc as _ _ _ _ ->.
    + by eapply sys_inv_keeps.
  - assert (Hno := si_client _ _ Hi). simpl in Hno.
    apply E_bind_cases in Hs as [(st & s1 & Hst & Hs)|(x & Hst & ->)]; [|by run_inv].
    apply sink_state_inv in Hst as (st0 & Hk & Hst & [= <-] & ->).
    apply E_bind_cases in Hs as [(d & s1 & [= <- <-] & Hs)|(x & [=] & _)].
    destruct (pendingBuffers st) as [|buf rest] eqn:Hp; [by eapply leave_wait_inv|].
    assert (Hin : sys_inv (InDetach k buf) s).
    { destruct Hi as [Hi Hth _]. split; [done|done|]. split; [done|]. by exists st, rest. }
    case_match; [by eapply leave_wait_inv|by injection Hs as <- <-..|done].
  - apply E_bind_cases in Hs as [(d & s1 & [= <- <-] & Hs)|(x & [=] & _)].
    case_match; [by injection Hs as <- <-|by eapply InDetach_inv|by injection Hs as <- <-|done].
  - assert (Hno := si_client _ _ Hi). simpl in Hno.
    apply E_bind_cases in Hs as [(d & s1 & [= <- <-] & Hs)|(x & [=] & _)].
    case_match; [|by eapply end_detach_inv].
    case_match; [by eapply end_detach_inv| |by injection Hs as <- <-|done].
    apply E_bind_cases in Hs as [(u & s1 & [= _ <-] & Hs)|(x & [=] & _)].
    apply E_bind_cases in Hs as [(u2 & s2 & Hw & Hs)|(x & Hw & ->)]; apply write_dest_keeps in Hw;
      assert (Hk : keeps s (set_dev d s)) by done.
    + injection Hs as <- <-. eapply sys_inv_keeps; [exact Hw| |by eapply (sys_inv_keeps _ Idle)].
      simpl. injection Hw as _ _ _ _ ->. done.
    + eapply sys_inv_keeps; [exact Hw|done|]. by eapply (sys_inv_keeps _ Idle).
  - apply E_bind_cases in Hs as [(j & s1 & Hj & Hs)|(x & Hj & ->)];
      apply (joined_inv _ _ _ _ Hi) in Hj as (b' & Hb & Hi1 & Hno); [injection Hb as ->|done].
    destruct b'; [|injection Hs as <- <-; by destruct Hi1].
    eapply Disconnect_end_inv; [by apply Hno|exact Hi1|done].
  - apply E_bind_cases in Hs as [(st & s1 & Hst & Hs)|(x & Hst & ->)]; [|by run_inv].
    apply sink_state_inv in Hst as (st0 & Hk & Hst & [= <-] & ->).
    assert (Hidle : sys_inv Idle s) by (by destruct Hi).
    destruct b; [eapply take_event_inv; [|exact Hi|exact Hs]; intros r0 s0 [= <- <-]; exact Hidle|].
    case_decide; [injection Hs as <- <-; exact Hidle|].
    eapply take_event_inv; [|exact Hi|exact Hs]. intros r0 s0 [= <- <-]. exact Hi.
Qed.

(** ** Every turn *)

Lemma start_call_inv c s r s' : sys_inv Idle s -> start_call c s = Some (r, s') -> sys_inv (after r) s'.
Proof.
  intros Hi Hs. destruct c as [| |[]|k|k|k|k|k|k ty p|k|k ty]; simpl in Hs.
  - apply returns_inv in Hs as (-> & r' & Hs). by eapply Connect_inv.
  - by eapply Disconnect_inv.
  - eapply (returns_moves (fun _ => False) 0); [|exact Hi|exact Hs]. unfold SetTraceDataCallback. within_tac.
  - eapply (returns_moves (fun _ => False) 0); [|exact Hi|exact Hs]. unfold ClearTraceDataCallback. within_tac.
  - apply returns_inv in Hs as (-> & r' & Hs). by eapply Attach_inv.
  - by eapply Detach_inv.
  - eapply returns_moves; [apply Start_silent|exact Hi|exact Hs].
  - eapply returns_moves; [apply Stop_posts|exact Hi|exact Hs].
  - eapply returns_moves; [apply Flush_silent|exact Hi|exact Hs].
  - apply returns_inv in Hs as (-> & r' & Hs).
    apply SubmitEventBuffer_changes in Hs as (Hst & Hc & _). by eapply sys_inv_steady.
  - by eapply WaitForEvent_inv.
  - eapply returns_moves; [apply SendStateEvent_posts|exact Hi|exact Hs].
Qed.

Lemma pc_ok_thread k p v s : pc_ok k p s -> pc_ok k p (set_thread v s).
Proof. by destruct p. Qed.

Lemma thread_step_inv c s u s' : sys_inv c s -> thread_step s = Some (u, s') -> sys_inv c s'.
Proof.
  intros Hi Hs. assert (Hi' := Hi). destruct Hi' as [Ht Hth Hcl]. unfold thread_step in Hs.
  unfold thread_ok in Hth. destruct (m_dataThread s) as [[k p]|] eqn:He; [|by injection Hs as _ <-].
  destruct Hth as [Hk Hp]. simpl in *.
  assert (Hc : forall s1, client_ok c s1).
  { intros s1. destruct c; simpl in *; try done; [congruence|destruct Hcl; congruence|congruence]. }
  destruct (thread_at k p s) as [[r s1]|] eqn:Ha; [|done].
  destruct (thread_at_changes k p s r s1 Hp Ha) as (acts & [_ _ Hch _ _ _ Hpc]).
  assert (Ht1 := trace_inv_changes _ _ _ _ Ht Hch). rewrite <- (ch_len _ _ _ _ Hch) in Hk.
  destruct r as [[p'|]|x]; injection Hs as _ <-.
  - split; [by apply trace_inv_thread| |done]. split; [done|]. simpl. apply pc_ok_thread. by apply Hpc.
  - apply thread_at_blocked in Ha. by eapply sys_inv_keeps.
  - split; [by apply trace_inv_thread| |done]. by split.
Qed.

Definition Sys_inv (S : Sys D) : Prop := sys_inv (s_client S) (s_trace S).

Lemma client_turn_inv m s o S' :
  (forall r s', m s = Some (r, s') -> sys_inv (after r) s') ->
  client_turn m s = Some (o, S') -> Sys_inv S'.
Proof.
  intros Hm Hs. unfold client_turn in Hs.
  destruct (m s) as [[[[c|v]|x] s1]|] eqn:He; [| | |done]; injection Hs as _ <-; apply (Hm _ _ eq_refl).
Qed.
Lemma step_inv t S o S' : Sys_inv S -> step t S = Some (o, S') -> Sys_inv S'.
Proof.
  unfold Sys_inv. intros Hi Hs. destruct t as [c|b|]; simpl in Hs.
  - destruct (s_client S) eqn:Hc; try (injection Hs as _ <-; by rewrite Hc).
    eapply client_turn_inv; [|exact Hs]. intros r s'. by apply start_call_inv.
  - eapply client_turn_inv; [|exact Hs]. intros r s'. by apply resume_inv.
  - destruct (thread_step (s_trace S)) as [[u s']|] eqn:He; [|done]. injection Hs as _ <-.
    by eapply thread_step_inv.
Qed.
Lemma run_inv_step ts S os S' : Sys_inv S -> run ts S = Some (os, S') -> Sys_inv S'.
Proof.
  revert S os. induction ts as [|t ts IH]; intros S os Hi; simpl; [by intros [= <- <-]|].
  destruct (step t S) as [[o S1]|] eqn:Hs; [|done]. simpl.
  destruct (run ts S1) as [[os1 S2]|] eqn:Hr; [|done]. simpl. intros [= _ <-].
  eapply IH; [by eapply step_inv|done].
Qed.

(** A new object satisfies the invariant. *)
Lemma created_inv type id serial d bufs s :
  CreateStreamingTrace type id serial d bufs = Val s -> Sys_inv (mkSys s Idle).
Proof.
  unfold CreateStreamingTrace. case_decide; [|done]. intros [= <-].
  split; [|done..]. split; simpl; try done. apply NoDup_nil_2.
Qed.

Definition reachable (S : Sys D) : Prop :=
  exists type id serial d bufs s ts os,
    CreateStreamingTrace type id serial d bufs = Val s /\ run ts (mkSys s Idle) = Some (os, S).
Lemma reachable_inv S : reachable S -> Sys_inv S.
Proof.
  intros (type & id & serial & d & bufs & s & ts & os & Hc & Hr).
  eapply run_inv_step; [by eapply created_inv|exact Hr].
Qed.

(** C27: Whatever a client calls, on whatever device, and however the data
    thread is scheduled: the tokens of all buffers of all sinks are different
    and below the next one, no sink has more buffers with the device than it
    declares, the data thread and a client in [Detach] wait for the oldest
    pending buffer, and without a device there is no sink and no thread. *)
Theorem trace_invariant type id serial d bufs s ts os S :
  CreateStreamingTrace type id serial d bufs = Val s ->
  run ts (mkSys s Idle) = Some (os, S) ->
  sys_inv (s_client S) (s_trace S).
Proof. intros Hc Hr. eapply reachable_inv. by exists type, id, serial, d, bufs, s, ts, os. Qed.
End invariant.

Definition is_idle (c : client) : bool := match c with Idle => true | _ => false end.

Definition inv_turns : list turn :=
  [TCall CConnect; TCall (CAttach 0); TCall (CStart 0); TCall (CSubmitEventBuffer 0 3 0);
   TThread; TCall (CDetach 0)].
Lemma inv_turns_run : (fun p => is_idle (s_client p.2)) <$> script_run 3 [] inv_turns = Some false.
Proof. vm_compute. reflexivity. Qed.

Lemma trace_invariant_witness :
  exists os S,
    script_run 3 [] inv_turns = Some (os, S) /\
    is_idle (s_client S) = false /\ sys_inv (s_client S) (s_trace S).
Proof.
  destruct (fmap_Some_1 _ _ _ inv_turns_run) as ([os S] & He & Hf).
  exists os, S. split; [exact He|]. split; [symmetry; exact Hf|].
  destruct (script_run_inv _ _ _ _ He) as (s & Hs & Hr).
  eapply trace_invariant; [exact Hs|exact Hr].
Defined.
