(* ===== verification/TraceOrder.v ===== *)
(** The order of the buffers of a trace session: between [Attach] and [Detach],
    the data buffers of a sink are returned in the order in which they were
    submitted, the event buffers in theirs, and none is returned twice; none is
    lost while the data thread is in its loop, one data buffer at most when it
    leaves. *)
From S2P Require Import Prelude UsbIf Trace TraceRun TraceScript TraceQueue TraceInv.

#[local] Set Warnings "-clear-no-such-hyp".

(** ** The specification keeps the order *)

Definition data_pushed (l : list action) : list Z :=
  omap (fun a => match a with Push t => Some t | _ => None end) l.
Definition event_pushed (l : list action) : list Z :=
  omap (fun a => match a with PushEvent t => Some t | _ => None end) l.
Definition takes (l : list action) : list Z :=
  omap (fun a => match a with Take t => Some t | _ => None end) l.

(** [ds] and [es] are the data and event buffers submitted so far, [rs] the
    tokens that the client got, [ls] the data buffers that were lost. *)
Record fifo (ls ds es rs : list Z) (q : Queue) : Prop := {
  fifo_data : filter (.∈ ds) (rs ++ q_done q) ++ q_data q = filter (.∉ ls) ds;
  fifo_events : filter (.∈ es) (rs ++ q_done q) ++ q_events q = es;
  fifo_nodup : NoDup (ds ++ es);
  fifo_known : forall t, t ∈ rs ++ q_done q -> t ∈ ds ++ es;
  fifo_lost : forall t, t ∈ ls -> t ∈ ds;
}.

Lemma filter_ext (ds ds' l : list Z) :
  (forall x, x ∈ l -> x ∈ ds <-> x ∈ ds') -> filter (.∈ ds) l = filter (.∈ ds') l.
Proof.
  induction l as [|x l IH]; intros Hx; [done|]. rewrite !filter_cons, IH by set_solver.
  destruct (Hx x) as [H1 H2]; [set_solver|]. repeat case_decide; tauto.
Qed.
Lemma filter_in (ds : list Z) t : t ∈ ds -> filter (.∈ ds) [t] = [t].
Proof. intros. by rewrite filter_cons, decide_True. Qed.
Lemma filter_notin (ds : list Z) t : t ∉ ds -> filter (.∈ ds) [t] = [].
Proof. intros. by rewrite filter_cons, decide_False. Qed.

(** Losing the oldest of the buffers that are left. *)
Lemma filter_lose (ls ds l : list Z) t d :
  NoDup ds -> filter (.∉ ls) ds = l ++ t :: d -> filter (.∉ ls ++ [t]) ds = l ++ d.
Proof.
  intros Hn Hf. assert (Hn' : NoDup (l ++ t :: d)) by (rewrite <- Hf; by apply list.NoDup_filter).
  assert (Heq : filter (.∉ ls ++ [t]) ds = filter (.≠ t) (filter (.∉ ls) ds)).
  { rewrite list_filter_filter. apply list_filter_iff. set_solver. }
  rewrite Heq, Hf, list.filter_app. apply list.NoDup_app in Hn' as (_ & Hd & Hn2).
  apply list.NoDup_cons in Hn2 as [Ht _]. rewrite filter_cons_False by tauto.
  assert (Hid : forall l' : list Z, t ∉ l' -> filter (.≠ t) l' = l').
  { intros l' Hl. induction l' as [|x l' IH]; [done|]. rewrite filter_cons_True by set_solver.
    f_equal. apply IH. set_solver. }
  rewrite !Hid; [done|done|]. intros Hl. by eapply Hd; [exact Hl|left].
Qed.

Lemma fifo_act ls ds es rs q a q' :
  fifo ls ds es rs q -> qact a q = Some q' -> a <> Clear ->
  (forall t, t ∈ pushed [a] -> t ∉ ds ++ es) ->
  exists lost, length lost = loses [a] /\
    fifo (ls ++ lost) (ds ++ data_pushed [a]) (es ++ event_pushed [a]) (rs ++ takes [a]) q'.
Proof.
  intros [Hd He Hn Hk Hls] Ha Hc Hf. destruct q as [d e c].
  assert (Hd0 := proj1 (proj1 (list.NoDup_app _ _) Hn)).
  destruct a as [t|t| | | |t|]; try done; simpl in *.
  - exists []. split; [done|]. injection Ha as <-.
    assert (Ht : t ∉ ds ++ es) by (apply Hf; set_solver). rewrite !app_nil_r.
    assert (Hext : filter (.∈ ds ++ [t]) (rs ++ c) = filter (.∈ ds) (rs ++ c)).
    { apply filter_ext. intros x Hx%Hk. set_solver. }
    split; simpl; rewrite ?Hext; [|done| |set_solver..].
    + rewrite app_assoc, Hd, list.filter_app, (filter_cons_True (.∉ ls)); [done|set_solver].
    + rewrite <- app_assoc, (Permutation_app_comm [t]), app_assoc. apply list.NoDup_app.
      split; [done|]. split; [set_solver|apply NoDup_singleton].
  - exists []. split; [done|]. injection Ha as <-.
    assert (Ht : t ∉ ds ++ es) by (apply Hf; set_solver). rewrite !app_nil_r.
    assert (Hext : filter (.∈ es ++ [t]) (rs ++ c) = filter (.∈ es) (rs ++ c)).
    { apply filter_ext. intros x Hx%Hk. set_solver. }
    split; simpl; rewrite ?Hext; [done|by rewrite app_assoc, He| |set_solver..].
    rewrite app_assoc. apply list.NoDup_app. split; [done|]. split; [set_solver|apply NoDup_singleton].
  - destruct d as [|t d]; [done|]. injection Ha as <-. exists []. split; [done|]. rewrite !app_nil_r.
    assert (Ht : t ∈ ds).
    { assert (Hin : t ∈ filter (.∉ ls) ds) by (rewrite <- Hd; set_solver). by apply list_elem_of_filter in Hin as [_ ?]. }
    assert (Hte : t ∉ es) by (apply list.NoDup_app in Hn; set_solver).
    split; simpl; rewrite ?(app_assoc rs c), ?(list.filter_app _ (rs ++ c)); [| |done| |done].
    + by rewrite filter_in, <- app_assoc.
    + by rewrite filter_notin, app_nil_r.
    + intros x. rewrite elem_of_app, list_elem_of_singleton. intros [Hx| ->]; [by apply Hk|set_solver].
  - destruct d as [|t d]; [done|]. injection Ha as <-. exists [t]. split; [done|]. rewrite !app_nil_r.
    split; simpl; [|done..|].
    + symmetry. by apply filter_lose.
    + intros x. rewrite elem_of_app, list_elem_of_singleton. intros [Hx| ->]; [by apply Hls|].
      assert (Hin : t ∈ filter (.∉ ls) ds) by (rewrite <- Hd; set_solver). by apply list_elem_of_filter in Hin as [_ ?].
  - destruct e as [|t e]; [done|]. injection Ha as <-. exists []. split; [done|]. rewrite !app_nil_r.
    assert (Ht : t ∈ es) by (rewrite <- He; set_solver).
    assert (Htd : t ∉ ds) by (apply list.NoDup_app in Hn; set_solver).
    split; simpl; rewrite ?(app_assoc rs c), ?(list.filter_app _ (rs ++ c)); [| |done| |done].
    + by rewrite filter_notin, app_nil_r.
    + by rewrite filter_in, <- app_assoc.
    + intros x. rewrite elem_of_app, list_elem_of_singleton. intros [Hx| ->]; [by apply Hk|set_solver].
  - destruct c as [|x c]; [done|]. case_decide; [|done]. injection Ha as <-. subst x.
    exists []. split; [done|]. rewrite !app_nil_r.
    assert (Hr : (rs ++ [t]) ++ c = rs ++ t :: c) by by rewrite <- app_assoc.
    split; simpl; rewrite ?Hr; done.
Qed.

Lemma pushed_elem l t : t ∈ data_pushed l \/ t ∈ event_pushed l -> t ∈ pushed l.
Proof.
  unfold data_pushed, event_pushed, pushed. rewrite !list_elem_of_omap.
  intros [(a & Ha & Ht)|(a & Ha & Ht)]; exists a; (split; [done|]); by destruct a.
Qed.

(** The specification as a whole: but for what is lost, first in is first out. *)
Lemma fifo_acts l ls ds es rs q q' :
  fifo ls ds es rs q -> qacts l q = Some q' -> Clear ∉ l ->
  NoDup (pushed l) -> (forall t, t ∈ pushed l -> t ∉ ds ++ es) ->
  exists lost, length lost = loses l /\
    fifo (ls ++ lost) (ds ++ data_pushed l) (es ++ event_pushed l) (rs ++ takes l) q'.
Proof.
  revert ls ds es rs q. induction l as [|a l IH]; intros ls ds es rs q Hq Hl H2 Hn Hf; simpl in Hl.
  { injection Hl as <-. exists []. simpl. by rewrite !app_nil_r. }
  destruct (qact a q) as [q1|] eqn:Ha; [|done]. simpl in Hl.
  rewrite pushed_cons in Hn, Hf. apply list.NoDup_app in Hn as (Hn1 & Hn2 & Hn3).
  destruct (fifo_act _ _ _ _ _ _ _ Hq Ha ltac:(set_solver) ltac:(set_solver)) as (l1 & Hl1 & Hq1).
  assert (Hp : forall t, t ∈ pushed l -> t ∉ (ds ++ data_pushed [a]) ++ (es ++ event_pushed [a])).
  { intros t Ht. assert (t ∉ pushed [a]) by (intros ?; by eapply Hn2). specialize (Hf t ltac:(set_solver)).
    destruct a; simpl in *; set_solver. }
  destruct (IH _ _ _ _ _ Hq1 Hl ltac:(set_solver) Hn3 Hp) as (l2 & Hl2 & Hq2).
  rewrite <- !app_assoc in Hq2. exists (l1 ++ l2). split.
  - rewrite length_app, Hl1, Hl2, (loses_app [a] l : loses (a :: l) = _). done.
  - replace (data_pushed (a :: l)) with (data_pushed [a] ++ data_pushed l) by (by destruct a).
    replace (event_pushed (a :: l)) with (event_pushed [a] ++ event_pushed l) by (by destruct a).
    by replace (takes (a :: l)) with (takes [a] ++ takes l) by (by destruct a).
Qed.

(** ** What a client submits and gets back *)

Section order.
Context {D : Type} `{USBDevice D dest}.
Implicit Types (s : Trace D) (S : Sys D).
Abbreviation T := (E (Trace D)).

(** The tokens of the buffers of type [ty] that a turn puts in the queues of
    sink [i], and those that it returns from them. *)
Definition submitted_by (ty : Z) (i : nat) (t : turn) S S' : list Z :=
  match t with
  | TCall (CSubmitEventBuffer k ty' _) =>
      if decide (Z.to_nat k = i /\ ty' = ty /\ m_nextToken (s_trace S') <> m_nextToken (s_trace S))
      then [m_nextToken (s_trace S)] else []
  | _ => []
  end.
Definition returned_by (i : nat) (t : turn) S (o : obs) : list Z :=
  match o, t, s_client S with
  | Some (Val v), TCall (CWaitForEvent k), _ | Some (Val v), TResume _, InWait k =>
      if decide (Z.to_nat k = i) then [v] else []
  | _, _, _ => []
  end.

Fixpoint submitted (ty : Z) (i : nat) (ts : list turn) S : list Z :=
  match ts with
  | [] => []
  | t :: ts' =>
      match step t S with
      | Some (_, S') => submitted_by ty i t S S' ++ submitted ty i ts' S'
      | None => []
      end
  end.
Fixpoint returned (i : nat) (ts : list turn) S : list Z :=
  match ts with
  | [] => []
  | t :: ts' =>
      match step t S with
      | Some (o, S') => returned_by i t S o ++ returned i ts' S'
      | None => []
      end
  end.

(** A session: nothing is connected, disconnected or detached. *)
Definition session_turn (t : turn) : Prop :=
  match t with
  | TCall CConnect | TCall CDisconnect | TCall (CDetach _) => False
  | _ => True
  end.
Definition session_client (c : client) : Prop :=
  match c with Idle | InWait _ => True | _ => False end.

(** Whether the data thread is in its loop, or out of it. *)
Definition in_loop s : Prop :=
  match m_dataThread s with
  | Some th => match th_pc th with AtLoop | Calling _ | Waiting _ => True | _ => False end
  | None => False
  end.
Definition stopped s : Prop :=
  match m_dataThread s with
  | Some th => match th_pc th with Exiting | Ended => True | _ => False end
  | None => False
  end.

(** ** Every turn of a session is a list of actions *)

Record on_sink (i : nat) (acts : list action) s s' : Prop := {
  on_queue st : m_sinkState s !! i = Some st ->
    exists st', m_sinkState s' !! i = Some st' /\ qacts acts (abs st) = Some (abs st');
  on_nodup : NoDup (pushed acts);
  on_fresh : Forall (fun t => m_nextToken s <= t < m_nextToken s') (pushed acts);
  on_next : m_nextToken s <= m_nextToken s';
}.

Lemma changes_on_sink i k acts s s' :
  changes k acts s s' -> on_sink i (if decide (Z.to_nat k = i) then acts else []) s s'.
Proof.
  intros [_ _ _ Hn Hd Hf Ho Hs]. case_decide as Hi.
  - subst i. split; try done. intros st Hst. destruct (Hs st Hst) as (st' & Hst' & Hq & _). eauto.
  - split; [|apply NoDup_nil_2|done..]. intros st Hst. exists st. by rewrite Ho.
Qed.

Record turn_spec (i : nat) (t : turn) S (o : obs) S' (acts : list action) : Prop := {
  ts_on : on_sink i acts (s_trace S) (s_trace S');
  ts_data : data_pushed acts = submitted_by CSTRACE_EVENT_TYPE_DATA i t S S';
  ts_events : event_pushed acts = submitted_by CSTRACE_EVENT_TYPE_EVENT i t S S';
  ts_takes : takes acts = returned_by i t S o;
  ts_clear : Clear ∉ acts;
  ts_lose : Lose ∈ acts -> stopped (s_trace S') /\ ~ stopped (s_trace S);
  ts_once : (loses acts <= 1)%nat;
  ts_client : session_client (s_client S');
  ts_stopped : stopped (s_trace S) -> stopped (s_trace S');
}.

(** Actions of the thread submit and take nothing. *)
Lemma thread_acts acts :
  Forall by_thread acts ->
  data_pushed acts = [] /\ event_pushed acts = [] /\ takes acts = [] /\ Clear ∉ acts.
Proof.
  induction 1 as [|a acts Ha _ (H1 & H2 & H3 & H4)]; [repeat split; by intros ?%not_elem_of_nil|].
  unfold by_thread in Ha. destruct a; try (by naive_solver); repeat split; try done; set_solver.
Qed.
Lemma posting_acts acts : Forall (eq Post) acts -> Forall by_thread acts /\ Lose ∉ acts.
Proof.
  intros Ha. split; [eapply list.Forall_impl; [exact Ha|]; intros a <-; by left|].
  rewrite list.Forall_forall in Ha. intros Hl. by specialize (Ha _ Hl).
Qed.
Lemma if_acts {A} (P : A -> Prop) (b : Prop) `{Decision b} acts :
  Forall P acts -> Forall P (if decide b then acts else []).
Proof. by case_decide. Qed.

(** A turn that only returns event buffers. *)
Lemma posting_spec i k t S o S' :
  posting k (s_trace S) (s_trace S') ->
  session_client (s_client S') ->
  (forall ty, submitted_by ty i t S S' = []) -> returned_by i t S o = [] ->
  exists acts, turn_spec i t S o S' acts.
Proof.
  intros ([Ht _] & _ & acts & Ha & Hc) Hcl Hsub Hret. eexists.
  assert (Hp := if_acts _ (Z.to_nat k = i) _ Ha). apply posting_acts in Hp as [Hp Hl].
  destruct (thread_acts _ Hp) as (H1 & H2 & H3 & H4).
  split; rewrite ?Hsub, ?Hret; try done; [by apply changes_on_sink|rewrite loses_none by done; lia|].
  unfold stopped. by rewrite Ht.
Qed.
Lemma keeps_spec i t S o S' :
  keeps (s_trace S) (s_trace S') -> session_client (s_client S') ->
  (forall ty, submitted_by ty i t S S' = []) -> returned_by i t S o = [] ->
  exists acts, turn_spec i t S o S' acts.
Proof. intros Hk. by apply (posting_spec i 0), keeps_moves. Qed.

(** [client_turn] reports the outcome of its method. *)
Definition observed (r : result outcome) : obs :=
  match r with Val (Wait _) => None | Val (Return v) => Some (Val v) | Fail c => Some (Fail c) end.
Lemma client_turn_eq m s o S' :
  client_turn m s = Some (o, S') ->
  exists r s', m s = Some (r, s') /\ o = observed r /\ S' = mkSys s' (after r).
Proof.
  unfold client_turn. intros Hs.
  destruct (m s) as [[[[c|v]|x] s1]|]; [| | |done]; injection Hs as <- <-; eauto.
Qed.

Lemma not_submitted ty i t S S' :
  m_nextToken (s_trace S') = m_nextToken (s_trace S) -> submitted_by ty i t S S' = [].
Proof. intros Hn. unfold submitted_by. repeat case_match; try done. by destruct_and!. Qed.

(** A turn that gets an event, or goes on waiting. *)
Lemma take_event_spec i k none t S r s' :
  (forall r s', none (s_trace S) = Some (r, s') ->
     s' = s_trace S /\ session_client (after r) /\ forall v, observed r <> Some (Val v)) ->
  take_event k none (s_trace S) = Some (r, s') ->
  (forall v, returned_by i t S (Some (Val v)) = if decide (Z.to_nat k = i) then [v] else []) ->
  exists acts, turn_spec i t S (observed r) (mkSys s' (after r)) acts.
Proof.
  intros Hnone Hs Hret. unfold take_event in Hs.
  apply E_bind_cases in Hs as [(st & s1 & Hst & Hs)|(x & Hst & ->)]; [|by run_inv].
  apply sink_state_inv in Hst as (st0 & Hk & Hst & [= <-] & ->).
  destruct (completedEventTokens st) as [|v rest] eqn:Hc.
  - apply Hnone in Hs as (-> & Hcl & Hv). apply keeps_spec; try done.
    + intros ty. by apply not_submitted.
    + unfold returned_by. destruct (observed r) as [[v|]|] eqn:Ho; try done. by specialize (Hv v).
  - apply E_bind_cases in Hs as [(u & s1 & Hu & [= <- <-])|(x & Hu & ->)];
      apply upd_sink_inv in Hu as (st0 & _ & Hst0 & [=] & ->).
    rewrite Hst in Hst0. injection Hst0 as <-.
    assert (Hch : changes k [Take v] (s_trace S) (put_sink k (set_completed rest st) (s_trace S))).
    { eapply put_sink_changes; [done|done| |unfold grows; simpl; lia].
      unfold abs. simpl. rewrite Hc. by rewrite decide_True. }
    eexists. split; [by apply changes_on_sink|..].
    + case_decide; by rewrite not_submitted.
    + case_decide; by rewrite not_submitted.
    + change (observed _) with (Some (Val v)). rewrite Hret. by case_decide.
    + case_decide; set_solver.
    + case_decide; set_solver.
    + case_decide; simpl; lia.
    + done.
    + done.
Qed.

Lemma check_sink_same k s r s' : check_sink k s = Some (r, s') -> s' = s.
Proof. unfold check_sink, throw_if. intros Hs. run_inv; [case_match; by run_inv]. Qed.

Lemma Attach_spec i k s r s' :
  returns (Attach k) (fun _ => 0) s = Some (r, s') ->
  exists acts, turn_spec i (TCall (CAttach k)) (mkSys s Idle) (observed r) (mkSys s' (after r)) acts.
Proof.
  intros Hs. apply returns_inv in Hs as (-> & r' & Hs). unfold Attach in Hs.
  assert (Hret : forall o, returned_by i (TCall (CAttach k)) (mkSys s Idle) o = []) by by intros [[]|].
  apply E_bind_cases in Hs as [(u & s1 & Hs1 & Hs)|(c & Hs1 & ->)]; apply attach_sink_silent in Hs1.
  2: { apply (posting_spec i k); try done. by eapply moves_mono; [|exact Hs1]. }
  unfold start_thread in Hs. run_inv. case_match; run_inv. assert (Ht := proj1 (proj1 Hs1)).
  destruct Hs1 as (_ & _ & acts & Ha & Hc). exists []. apply (changes_on_sink i) in Hc.
  assert (acts = []) as -> by (by destruct Ha).
  assert (Hon : on_sink i [] s x0) by (revert Hc; by case_decide).
  split; rewrite ?Hret; try done; [|by intros ?%not_elem_of_nil|by intros ?%not_elem_of_nil|simpl; lia|].
  { destruct Hon as [Hq Hn Hf Hl]. by split. }
  unfold stopped. simpl. by rewrite <- Ht, H0.
Qed.

Lemma submit_acts_shape (P : Prop) `{Decision P} ty s s' :
  let acts := (if decide P then submit_acts ty s s' else []) in
  let sub ty' := (if decide (P /\ ty = ty' /\ m_nextToken s' <> m_nextToken s)
                  then [m_nextToken s] else []) in
  data_pushed acts = sub CSTRACE_EVENT_TYPE_DATA /\
  event_pushed acts = sub CSTRACE_EVENT_TYPE_EVENT /\
  takes acts = [] /\ (Clear ∉ acts) /\ (Lose ∉ acts).
Proof.
  unfold submit_acts. destruct (Z.eqb_spec (m_nextToken s') (m_nextToken s)) as [Hn|Hn].
  - repeat case_decide; try tauto; repeat split; by intros ?%not_elem_of_nil.
  - destruct (Z.eqb_spec ty CSTRACE_EVENT_TYPE_DATA) as [->|Hd];
      [|destruct (Z.eqb_spec ty CSTRACE_EVENT_TYPE_EVENT) as [->|He]].
    all: repeat case_decide; try tauto; destruct_and?; try done; repeat split; try set_solver.
Qed.

Lemma Submit_spec i k ty p s r s' :
  returns (SubmitEventBuffer k ty p) id s = Some (r, s') ->
  exists acts, turn_spec i (TCall (CSubmitEventBuffer k ty p)) (mkSys s Idle) (observed r) (mkSys s' (after r)) acts.
Proof.
  intros Hs. apply returns_inv in Hs as (-> & r' & Hs).
  apply SubmitEventBuffer_changes in Hs as (Hst & Hc & _).
  exists (if decide (Z.to_nat k = i) then submit_acts ty s s' else []).
  assert (Hret : forall o, returned_by i (TCall (CSubmitEventBuffer k ty p)) (mkSys s Idle) o = []) by by intros [[]|].
  destruct (submit_acts_shape (Z.to_nat k = i) ty s s') as (H1 & H2 & H3 & H4 & H5).
  split; rewrite ?Hret; try done; [by apply changes_on_sink|rewrite loses_none by done; lia|].
  unfold stopped. simpl. by rewrite (proj1 Hst).
Qed.

Lemma WaitForEvent_spec i k s r s' :
  WaitForEvent k s = Some (r, s') ->
  exists acts, turn_spec i (TCall (CWaitForEvent k)) (mkSys s Idle) (observed r) (mkSys s' (after r)) acts.
Proof.
  intros Hs. unfold WaitForEvent in Hs.
  apply E_bind_cases in Hs as [(u & s1 & Hc & Hs)|(x & Hc & ->)]; apply check_sink_same in Hc as ->.
  - eapply (take_event_spec i k _ _ (mkSys s Idle)); [|exact Hs|done]. by intros r0 s0 [= <- <-].
  - apply keeps_spec; try done.
Qed.

Lemma call_spec i c s r s' :
  session_turn (TCall c) -> thread_ok s -> start_call c s = Some (r, s') ->
  exists acts, turn_spec i (TCall c) (mkSys s Idle) (observed r) (mkSys s' (after r)) acts.
Proof.
  intros Hses Hth Hs.
  assert (Hcall : forall {A} (m : T A) f k,
    within (posting k) m -> start_call c = returns m f -> (forall p ty, c <> CSubmitEventBuffer k p ty) ->
    (forall k, c <> CWaitForEvent k) ->
    exists acts, turn_spec i (TCall c) (mkSys s Idle) (observed r) (mkSys s' (after r)) acts).
  { intros A m f k Hm He H1 H2. rewrite He in Hs. apply returns_inv in Hs as (-> & r' & Hs).
    apply Hm in Hs. apply (posting_spec i k); [done|done| |].
    - intros ty. apply not_submitted. by apply Hs.
    - unfold returned_by. destruct (observed r) as [[]|]; try done. destruct c; try done. by specialize (H2 sink). }
  destruct c as [| |[]|k|k|k|k|k|k ty p|k|k ty]; try done.
  - eapply (Hcall _ SetTraceDataCallback _ 0); [unfold SetTraceDataCallback; within_tac|done..].
  - eapply (Hcall _ ClearTraceDataCallback _ 0); [unfold ClearTraceDataCallback; within_tac|done..].
  - by apply Attach_spec.
  - eapply (Hcall _ (Start k) _ k); [apply silent_posting, Start_silent|done..].
  - eapply (Hcall _ (Stop k) _ k); [apply Stop_posts|done..].
  - eapply (Hcall _ (Flush k) _ k); [apply silent_posting, Flush_silent|done..].
  - by apply Submit_spec.
  - by apply WaitForEvent_spec.
  - eapply (Hcall _ (SendStateEvent k ty) _ k); [apply SendStateEvent_posts|done..].
Qed.

Lemma resume_spec i c b s r s' :
  session_client c -> resume c b s = Some (r, s') ->
  exists acts, turn_spec i (TResume b) (mkSys s c) (observed r) (mkSys s' (after r)) acts.
Proof.
  intros Hc Hs. destruct c as [|k|k|k buf|k| |k]; try done; simpl in Hs.
  - injection Hs as <- <-. by apply keeps_spec.
  - apply E_bind_cases in Hs as [(st & s1 & Hst & Hs)|(x & Hst & ->)]; [|by run_inv].
    apply sink_state_inv in Hst as (st0 & _ & _ & _ & ->).
    destruct b; [eapply (take_event_spec i k _ _ (mkSys s (InWait k))); [|exact Hs|done]; by intros r0 s0 [= <- <-]|].
    case_decide; [injection Hs as <- <-; by apply keeps_spec|].
    eapply (take_event_spec i k _ _ (mkSys s (InWait k))); [|exact Hs|done]. by intros r0 s0 [= <- <-].
Qed.

Lemma thread_spec i c s u s' :
  session_client c -> thread_ok s -> thread_step s = Some (u, s') ->
  exists acts, turn_spec i TThread (mkSys s c) None (mkSys s' c) acts.
Proof.
  intros Hc Hth Hs. unfold thread_step in Hs. unfold thread_ok in Hth.
  destruct (m_dataThread s) as [[k p]|] eqn:He; [|injection Hs as _ <-; by apply keeps_spec].
  destruct Hth as [_ Hp]. simpl in *. destruct (thread_at k p s) as [[r s1]|] eqn:Ha; [|done].
  destruct (thread_at_changes k p s r s1 Hp Ha) as (acts & [Ht _ Hch Hby Hlose Honce _]).
  assert (Hby' := if_acts _ (Z.to_nat k = i) _ Hby). destruct (thread_acts _ Hby') as (H1 & H2 & H3 & H4).
  exists (if decide (Z.to_nat k = i) then acts else []).
  assert (Hon := changes_on_sink i _ _ _ _ Hch).
  assert (Hstop : forall v, v = mkThread k Exiting \/ v = mkThread k Ended -> stopped (set_thread (Some v) s1))
    by by intros v [-> | ->].
  assert (Hpc : stopped s -> p = Exiting \/ p = Ended).
  { unfold stopped. rewrite He. simpl. destruct p; tauto. }
  assert (Hl : Lose ∈ (if decide (Z.to_nat k = i) then acts else []) -> (exists c, r = Fail c) /\ ~ stopped s).
  { case_decide; [|by intros ?%not_elem_of_nil]. intros Hin. destruct (Hlose Hin) as (x & ->).
    split; [by exists x|]. intros [-> | ->]%Hpc; [|by injection Ha]. simpl in Ha.
    apply E_bind_cases in Ha as [(u' & s2 & _ & [=])|(y & Hu & _)].
    by apply upd_sink_inv in Hu as (st0 & _ & _ & [=] & _). }
  assert (Hone : (loses (if decide (Z.to_nat k = i) then acts else []) <= 1)%nat) by (case_decide; simpl; lia).
  destruct r as [[p'|]|x]; injection Hs as _ <-.
  - split; try done; [by destruct Hon; split|by intros [(c0 & [=]) _]%Hl|]. simpl. intros Hst. apply Hstop.
    destruct (Hpc Hst) as [-> | ->]; [|by injection Ha]. right. f_equal. simpl in Ha.
    by apply E_bind_cases in Ha as [(u' & s2 & _ & [= <- _])|(x & _ & [=])].
  - split; try done; [by intros [(c0 & [=]) _]%Hl|]. simpl. unfold stopped. by rewrite Ht, He.
  - assert (Hst : stopped (set_thread (Some (mkThread k Exiting)) s1)) by (apply Hstop; by left).
    split; try done; [by destruct Hon; split|]. by intros [_ Hn]%Hl.
Qed.

Lemma step_spec i t S o S' :
  session_turn t -> session_client (s_client S) -> thread_ok (s_trace S) -> step t S = Some (o, S') ->
  exists acts, turn_spec i t S o S' acts.
Proof.
  intros Hses Hcl Hth Hs. destruct S as [s c]. destruct t as [cl|b|]; simpl in Hs, Hcl.
  - destruct c; try done.
    + apply client_turn_eq in Hs as (r & s' & Hs & -> & ->). by apply call_spec.
    + injection Hs as <- <-. apply keeps_spec; try done. intros ty. by apply not_submitted.
  - apply client_turn_eq in Hs as (r & s' & Hs & -> & ->). by apply resume_spec.
  - destruct (thread_step s) as [[u s']|] eqn:Ht; [|done]. injection Hs as <- <-. by eapply thread_spec.
Qed.

(** ** A whole session *)

Lemma run_step t ts S os S' :
  run (t :: ts) S = Some (os, S') ->
  exists o S1 os1, step t S = Some (o, S1) /\ run ts S1 = Some (os1, S') /\ os = o :: os1.
Proof.
  simpl. destruct (step t S) as [[o S1]|]; [|done]. simpl.
  destruct (run ts S1) as [[os1 S2]|] eqn:Hr; [|done]. simpl. intros [= <- <-]. eauto 6.
Qed.

Lemma stopped_run ts S os S' :
  Forall session_turn ts -> session_client (s_client S) -> Sys_inv S ->
  run ts S = Some (os, S') -> stopped (s_trace S) -> stopped (s_trace S').
Proof.
  revert S os. induction ts as [|t ts IH]; intros S os Hses Hcl Hi Hr; [by injection Hr as _ <-|].
  apply run_step in Hr as (o & S1 & os1 & Hs & Hr & ->). inversion Hses; subst. intros Hst.
  destruct (step_spec 0 t S o S1) as (acts & Hsp); try done; [apply Hi|].
  eapply IH; [done|apply Hsp|by eapply step_inv|exact Hr|by apply (ts_stopped _ _ _ _ _ _ Hsp)].
Qed.

Lemma in_loop_stopped s : in_loop s -> stopped s -> False.
Proof. unfold in_loop, stopped. destruct (m_dataThread s) as [[k []]|]; tauto. Qed.

Definition is_sink (i : nat) S (st : SinkState) : Prop := m_sinkState (s_trace S) !! i = Some st.

(** At most one buffer is lost, when the data thread leaves its loop. *)
Definition lost_by (lost : list Z) s s' : Prop :=
  (length lost <= 1)%nat /\ (lost = [] \/ stopped s' /\ ~ stopped s).

Lemma session_fifo i ts S os S' st ls ds es rs :
  Forall session_turn ts -> session_client (s_client S) -> Sys_inv S ->
  run ts S = Some (os, S') ->
  is_sink i S st -> fifo ls ds es rs (abs st) ->
  (forall t, t ∈ ds ++ es -> t < m_nextToken (s_trace S)) ->
  exists st' lost, is_sink i S' st' /\ lost_by lost (s_trace S) (s_trace S') /\
    fifo (ls ++ lost) (ds ++ submitted CSTRACE_EVENT_TYPE_DATA i ts S)
      (es ++ submitted CSTRACE_EVENT_TYPE_EVENT i ts S) (rs ++ returned i ts S) (abs st').
Proof.
  revert S os st ls ds es rs. induction ts as [|t ts IH]; intros S os st ls ds es rs Hses Hcl Hi Hr Hst Hf Hlt.
  { injection Hr as _ <-. exists st, []. simpl. rewrite !app_nil_r. split; [done|]. split; [|done].
    split; [simpl; lia|by left]. }
  apply run_step in Hr as (o & S1 & os1 & Hs & Hr & ->). inversion Hses; subst.
  destruct (step_spec i t S o S1) as (acts & [[Hq Hn Hfr Hnx] Hd He Ht Hc Hlo Hone Hcl1 Hsto]); try done; [apply Hi|].
  assert (Hi1 : Sys_inv S1) by by eapply step_inv.
  destruct (Hq st Hst) as (st1 & Hst1 & Hact). rewrite list.Forall_forall in Hfr.
  destruct (fifo_acts acts ls ds es rs (abs st) (abs st1)) as (l1 & Hl1 & Hf1); try done.
  { intros x Hx Hx2. specialize (Hfr x Hx). specialize (Hlt x Hx2). lia. }
  rewrite Hd, He, Ht in Hf1. simpl. rewrite Hs, !app_assoc.
  destruct (IH S1 os1 st1 _ _ _ _ ltac:(done) Hcl1 Hi1 Hr Hst1 Hf1) as (st2 & l2 & Hst2 & [Hn2 Hl2] & Hf2).
  { intros x Hx.
    assert (Hx' : x ∈ ds ++ es \/ x ∈ pushed acts).
    { rewrite <- Hd, <- He in Hx. rewrite !elem_of_app in Hx.
      assert (Hp := pushed_elem acts x). set_solver. }
    destruct Hx' as [Hx'|Hx']; [specialize (Hlt x Hx'); lia|specialize (Hfr x Hx'); lia]. }
  exists st2, (l1 ++ l2). split; [done|]. rewrite (app_assoc ls). split; [|exact Hf2].
  destruct (decide (l1 = [])) as [->|Hl].
  - split; [done|]. destruct Hl2 as [->|[? Hns]]; [by left|right]. split; [done|]. by intros ?%Hsto.
  - assert (Hin : Lose ∈ acts).
    { destruct (decide (loses acts = 0%nat)) as [Hz|Hnz].
      - rewrite Hz in Hl1. by destruct l1.
      - clear -Hnz. induction acts as [|a acts IH]; [done|]. destruct a; simpl in Hnz; set_solver. }
    destruct (Hlo Hin) as [Hst' Hns]. destruct Hl2 as [->|[_ Hno]]; [|done]. rewrite app_nil_r.
    split; [lia|]. right. split; [|done]. by eapply (stopped_run ts S1).
Qed.

Lemma split_known (ds es l : list Z) :
  NoDup (ds ++ es) -> (forall t, t ∈ l -> t ∈ ds ++ es) ->
  l ≡ₚ filter (.∈ ds) l ++ filter (.∈ es) l.
Proof.
  intros Hn. induction l as [|x l IH]; intros Hk; [done|]. rewrite !filter_cons.
  assert (Hx : x ∈ ds ++ es) by set_solver. apply list.NoDup_app in Hn as (_ & Hd & _).
  apply elem_of_app in Hx as [Hx|Hx].
  - rewrite decide_True, (decide_False (P := x ∈ es)) by (done || by apply Hd).
    simpl. apply Permutation_cons; [done|]. apply IH. set_solver.
  - rewrite decide_False, (decide_True (P := x ∈ es)) by (done || by intros ?%Hd).
    rewrite <- Permutation_middle. apply Permutation_cons; [done|]. apply IH. set_solver.
Qed.
Lemma fifo_all ls ds es rs q :
  fifo ls ds es rs q -> NoDup ls -> rs ++ q_done q ++ q_data q ++ q_events q ++ ls ≡ₚ ds ++ es.
Proof.
  intros [Hd He Hn Hk Hls] Hnl. rewrite app_assoc, (split_known ds es _ Hn Hk).
  assert (Hds : filter (.∉ ls) ds ++ ls ≡ₚ ds).
  { apply list.NoDup_app in Hn as [Hn _]. apply NoDup_Permutation; [|done|].
    - apply list.NoDup_app. split; [by apply list.NoDup_filter|]. split; [|done].
      intros x [Hx _]%list_elem_of_filter. done.
    - intros x. rewrite elem_of_app, list_elem_of_filter. split.
      + intros [[_ ?]|?]; auto.
      + intros Hx. destruct (decide (x ∈ ls)); auto. }
  transitivity ((filter (.∈ ds) (rs ++ q_done q) ++ q_data q) ++ ls ++
                (filter (.∈ es) (rs ++ q_done q) ++ q_events q));
    [solve_Permutation|by rewrite Hd, He, app_assoc, Hds].
Qed.

Definition tokens_of (l : list Buffer) : list Z := map buf_token l.

(** C28: in a session, in every interleaving of the client's calls with the data
    thread, the data buffers of a sink come back in the order in which they were
    submitted, and so do the event buffers; no token is made up or returned
    twice, and every buffer submitted is in one place: the client has its token,
    or can get it, or the buffer is queued.  The one exception is [lost]: when
    the data thread leaves its loop, one data buffer at most is in no place any
    more (its successor could not be submitted, see [complete_event]); as long
    as the thread is in its loop none is. *)
Theorem buffers_in_order i ts S os S' st :
  reachable S -> s_client S = Idle -> Forall session_turn ts ->
  run ts S = Some (os, S') ->
  is_sink i S st -> abs st = mkQueue [] [] [] ->
  let ds := submitted CSTRACE_EVENT_TYPE_DATA i ts S in
  let es := submitted CSTRACE_EVENT_TYPE_EVENT i ts S in
  exists st' lost, is_sink i S' st' /\
    let back := returned i ts S ++ completedEventTokens st' in
    let queued := tokens_of (pendingBuffers st' ++ queuedBuffers st') in
    let events := tokens_of (eventBuffers st') in
    filter (.∈ ds) back ++ queued = filter (.∉ lost) ds /\
    filter (.∈ es) back ++ events = es /\
    back ++ queued ++ events ++ lost ≡ₚ ds ++ es /\
    (length lost <= 1)%nat /\ (in_loop (s_trace S') -> lost = []).
Proof.
  intros Hr Hc Hses Hrun Hst Ha ds es. apply reachable_inv in Hr.
  destruct (session_fifo i ts S os S' st [] [] [] []) as (st' & lost & Hst' & [Hlen Hl] & Hf); try done.
  - by rewrite Hc.
  - rewrite Ha. split; simpl; try done; by apply NoDup_nil_2.
  - by intros t ?%not_elem_of_nil.
  - exists st', lost. split; [done|].
    assert (Hn : NoDup lost).
    { destruct lost as [|x [|y lost]]; [apply NoDup_nil_2|apply NoDup_singleton|simpl in Hlen; lia]. }
    assert (Hall := fifo_all _ _ _ _ _ Hf Hn). destruct Hf as [Hd He _ _ _].
    split; [exact Hd|]. split; [exact He|]. split; [rewrite <- app_assoc; exact Hall|]. split; [done|].
    intros Hin. destruct Hl as [?|[Hs _]]; [done|]. exfalso. by eapply in_loop_stopped.
Qed.
End order.

Definition order_start : list turn := [TCall CConnect; TCall (CAttach 0)].
Definition order_turns : list turn :=
  [TCall (CStart 0); TCall (CSubmitEventBuffer 0 3 0); TCall (CSubmitEventBuffer 0 3 1);
   TCall (CSubmitEventBuffer 0 1 2); TThread; TThread; TThread; TCall (CWaitForEvent 0)].

Lemma script_reachable n script ts os S : script_run n script ts = Some (os, S) -> reachable S.
Proof.
  intros (s & Hs & Hr)%script_run_inv.
  by exists (bytes_of "usb"), (mkUSBID 0 0 1 0), [], (mkScript 0 [] script), (script_bufs n), s, ts, os.
Qed.

Definition order_script : list (Z * Transfer_Status * list Z) := [(1, Transfer_SUCCESS, [7; 8])].
Definition order_facts (r0 : list obs * Sys script_dev) :
    option (bool * Queue * pc * list Z * list Z) :=
  p1 ← run order_turns r0.2;
  st0 ← m_sinkState (s_trace r0.2) !! 0%nat;
  th ← m_dataThread (s_trace p1.2);
  Some (is_idle (s_client r0.2), abs st0, th_pc th, returned 0 order_turns r0.2,
        submitted CSTRACE_EVENT_TYPE_DATA 0 order_turns r0.2).
Lemma order_run :
  order_facts <$> script_run 3 order_script order_start =
  Some (Some (true, mkQueue [] [] [], AtLoop, [0], [0; 1])).
Proof. vm_compute. reflexivity. Qed.

Lemma buffers_in_order_witness :
  exists os0 S os S' st,
    script_run 3 order_script order_start = Some (os0, S) /\
    run order_turns S = Some (os, S') /\ is_sink 0 S' st /\
    returned 0 order_turns S = [0] /\
    filter (.∈ [0; 1]) ([0] ++ completedEventTokens st) ++
      tokens_of (pendingBuffers st ++ queuedBuffers st) = [0; 1].
Proof.
  destruct (fmap_Some_1 _ _ _ order_run) as ([os0 S] & He & Hall).
  assert (Hreach := script_reachable _ _ _ _ _ He). unfold order_facts in Hall. cbn [snd] in Hall.
  destruct (run order_turns S) as [[os S']|] eqn:Hr; [|discriminate Hall].
  destruct (m_sinkState (s_trace S) !! 0%nat) as [st0|] eqn:Hst0; [|discriminate Hall].
  destruct (m_dataThread (s_trace S')) as [th|] eqn:Hth; [|cbn [snd mbind option_bind] in Hall; rewrite Hth in Hall; discriminate Hall].
  cbn [snd mbind option_bind] in Hall. rewrite Hth in Hall.
  apply (inj Some), pair_eq in Hall as [Hall H7]. apply pair_eq in Hall as [Hall H6].
  apply pair_eq in Hall as [Hall H5]. apply pair_eq in Hall as [H0 H1].
  assert (Hloop : in_loop (s_trace S')) by (unfold in_loop; rewrite Hth, <- H5; exact Logic.I).
  destruct (buffers_in_order 0 order_turns S os S' st0 Hreach) as (st & lost & Hst & Hd & _ & _ & _ & Hlost);
    [by destruct (s_client S)|by repeat constructor|exact Hr|exact Hst0|by symmetry|].
  rewrite <- H6, <- H7, (Hlost Hloop) in Hd. exists os0, S, os, S', st.
  split; [exact He|]. split; [exact Hr|]. split; [exact Hst|]. split; [by symmetry|exact Hd].
Defined.
