(* ===== verification/TraceData.v ===== *)
(** The data of a trace session: with a device that keeps its promise
    ([USBDeviceLaws]), what the data thread hands over for a buffer is what the
    device delivered for the transfer of that buffer. *)
From S2P Require Import Prelude UsbIf Trace TraceRun TraceScript TraceQueue TraceInv TraceOrder.

#[local] Set Warnings "-clear-no-such-hyp".

Section data.
Context {D : Type} `{USBDeviceLaws D dest}.
Implicit Types (s : Trace D) (S : Sys D).
Abbreviation T := (E (Trace D)).

(** The transfer of a pending buffer is outstanding, under its own token. *)
Definition transfer_of (d : D) (t : Z) (b : Buffer) : Prop :=
  mkX t (ToBuffer (buf_ptr b)) ∈ outstanding d.

Definition dev_ok (d : D) : Prop :=
  NoDup (map x_token (outstanding d)) /\ 0 <= next_token d /\
  forall x, x ∈ outstanding d -> 0 <= x_token x < next_token d.

Record aligned (k : Z) s : Prop := {
  al_dev : dev_ok (m_dev s);
  al_pending : exists st, m_sinkState s !! Z.to_nat k = Some st /\
    Forall2 (transfer_of (m_dev s)) (m_dataTransferTokens s) (pendingBuffers st);
  al_control : m_controlToken s < next_token (m_dev s) /\ m_controlToken s ∉ m_dataTransferTokens s;
  al_nodup : NoDup (m_dataTransferTokens s);
  al_thread th : m_dataThread s = Some th -> th_sink th = k;
}.

(** ** The device *)

Lemma dev_ok_perm d d' :
  outstanding d' ≡ₚ outstanding d -> next_token d <= next_token d' -> dev_ok d -> dev_ok d'.
Proof.
  intros Hp Hn (Hd & H0' & Hl). split; [by rewrite Hp|]. split; [lia|].
  intros x. rewrite Hp. intros Hx%Hl. lia.
Qed.
Lemma dev_ok_submit d d' t p :
  outstanding d' ≡ₚ mkX t p :: outstanding d -> next_token d <= t < next_token d' -> dev_ok d -> dev_ok d'.
Proof.
  intros Hp Ht (Hd & H0' & Hl). split; [|split; [lia|]].
  - rewrite Hp. simpl. constructor; [|done]. intros (x & He & Hx)%list_elem_of_fmap_1.
    specialize (Hl x Hx). lia.
  - intros x. rewrite Hp. intros [-> | Hx]%elem_of_cons; simpl; [lia|]. specialize (Hl x Hx). lia.
Qed.
Lemma transfer_of_sub d d' t b :
  (forall x, x ∈ outstanding d -> x ∈ outstanding d') -> transfer_of d t b -> transfer_of d' t b.
Proof. unfold transfer_of. auto. Qed.

(** A new transfer takes nothing away from the others. *)
Lemma submitted_ok d d' (r : result Z) p :
  next_token d <= next_token d' ->
  match r with
  | Val t => next_token d <= t < next_token d' /\ outstanding d' ≡ₚ mkX t p :: outstanding d
  | Fail _ => outstanding d' ≡ₚ outstanding d
  end ->
  dev_ok d -> dev_ok d' /\ (forall x, x ∈ outstanding d -> x ∈ outstanding d').
Proof.
  intros Hn Hr Hd. destruct r as [t|c].
  - destruct Hr as [Ht Hp]. split; [by eapply dev_ok_submit|]. intros x Hx. rewrite Hp. set_solver.
  - split; [by eapply dev_ok_perm|]. intros x. by rewrite Hr.
Qed.

(** ** Methods preserve the alignment *)

Definition pres (k : Z) s s' : Prop := aligned k s -> aligned k s'.
#[export] Instance pres_preorder k : PreOrder (pres k).
Proof. unfold pres. split; [by intros s|]. intros s1 s2 s3. tauto. Qed.

Lemma pres_dev k s s' :
  m_sinkState s' = m_sinkState s -> m_dataThread s' = m_dataThread s ->
  m_dataTransferTokens s' = m_dataTransferTokens s -> m_controlToken s' = m_controlToken s ->
  next_token (m_dev s) <= next_token (m_dev s') ->
  (dev_ok (m_dev s) -> dev_ok (m_dev s') /\ forall x, x ∈ outstanding (m_dev s) -> x ∈ outstanding (m_dev s')) ->
  pres k s s'.
Proof.
  intros Hs Ht Htok Hctl Hn Hd [Hok (st & Hst & Hp) [Hc Hc'] Hnd Hth]. destruct (Hd Hok) as [Hok' Hsub].
  split; [done| |rewrite Hctl, Htok; split; [lia|done]|by rewrite Htok|by rewrite Ht]. exists st. rewrite Hs, Htok. split; [done|].
  eapply list.Forall2_impl; [exact Hp|]. intros t b. by apply transfer_of_sub.
Qed.
Lemma pres_same k s s' :
  m_sinkState s' = m_sinkState s -> m_dataThread s' = m_dataThread s ->
  m_dataTransferTokens s' = m_dataTransferTokens s -> m_controlToken s' = m_controlToken s ->
  m_dev s' = m_dev s -> pres k s s'.
Proof. intros Hs Ht Htok Hc Hd. apply pres_dev; try done; by rewrite Hd. Qed.
Lemma pres_sink k j st' st s :
  m_sinkState s !! Z.to_nat j = Some st -> pendingBuffers st' = pendingBuffers st ->
  pres k s (put_sink j st' s).
Proof.
  intros Hst Hp [Hd (st0 & Hst0 & Hf) Hc Hnd Hth]. split; [done| |done..].
  destruct (decide (Z.to_nat j = Z.to_nat k)) as [He|Hne].
  - exists st'. simpl. rewrite He in *. rewrite Hst in Hst0. injection Hst0 as <-. rewrite Hp.
    split; [|done]. apply list_lookup_insert_eq. by eapply lookup_lt_Some.
  - exists st0. simpl. by rewrite list_lookup_insert_ne.
Qed.
Lemma upd_sink_pres k j f :
  (forall st, pendingBuffers (f st) = pendingBuffers st) -> within (pres k) (upd_sink j f : T unit).
Proof.
  intros Hf s r s' Hs. apply upd_sink_inv in Hs as (st & _ & Hst & _ & ->). by eapply pres_sink.
Qed.
Lemma modify_pres k f :
  (forall s, m_sinkState (f s) = m_sinkState s /\ m_dataThread (f s) = m_dataThread s /\
     m_dataTransferTokens (f s) = m_dataTransferTokens s /\
     m_controlToken (f s) = m_controlToken s /\ m_dev (f s) = m_dev s) ->
  within (pres k) (e_modify f : T unit).
Proof. intros Hf. apply within_modify. intros s. destruct (Hf s) as (? & ? & ? & ? & ?). by apply pres_same. Qed.
End data.

#[export] Hint Extern 1 (within (pres _) (e_modify _)) => apply modify_pres; intros ?; repeat split : trace.
#[export] Hint Extern 1 (within (pres _) (upd_sink _ _)) => apply upd_sink_pres; intros ?; reflexivity : trace.

Section methods.
Context {D : Type} `{USBDeviceLaws D dest}.
Implicit Types (s : Trace D) (S : Sys D).
Abbreviation T := (E (Trace D)).

Lemma endpointSetParam_pres k a r v : within (pres k) (endpointSetParam a r v : T Z).
Proof.
  intros s x s' Hs. unfold endpointSetParam in Hs. destruct (dev_controlTransfer _ _ _ _ _) as [y d] eqn:Hc.
  injection Hs as _ <-. apply control_law in Hc as [Hp Hn]. apply pres_dev; simpl; try done; [lia|].
  intros Hd. split; [eapply dev_ok_perm; [done|lia|done]|]. intros z. by rewrite Hp.
Qed.
Hint Resolve endpointSetParam_pres : trace.
Lemma set_param_pres k a r v : within (pres k) (set_param a r v : T unit).
Proof. unfold set_param. within_tac. Qed.
Hint Resolve set_param_pres : trace.
(** The tokens of the pending buffers are the device's, so a new token is not
    among them. *)
Lemma aligned_tokens k s t :
  aligned k s -> t ∈ m_dataTransferTokens s -> 0 <= t < next_token (m_dev s).
Proof.
  intros [(_ & _ & Hl) (st & _ & Hp) _ _ _] Ht. apply list_elem_of_lookup in Ht as (i & Hi).
  destruct (Forall2_lookup_l _ _ _ _ _ Hp Hi) as (b & _ & Hx). by specialize (Hl _ Hx).
Qed.
Lemma submitControl_pres k : within (pres k) (submitControlChannelRequest : T unit).
Proof.
  unfold submitControlChannelRequest. apply within_bind; [within_tac|]. intros [ep|]; [|within_tac].
  intros s r s' Hs Ha. apply E_bind_cases in Hs as [(t & s1 & Ht & Hs)|(c & Ht & ->)];
    unfold on_dev, zoom in Ht; destruct (dev_submitReadTransfer _ _ _ _) as [[r0 d]|] eqn:He; try done;
    injection Ht as -> <-; apply submit_read_law in He as [Hn Hr].
  - injection Hs as _ <-. assert (Htok := fun u => aligned_tokens k s u Ha). revert Ha.
    intros [Hok (st & Hst & Hp) [Hc Hc'] Hnd Hth]. destruct (submitted_ok _ _ (Val t) _ Hn Hr Hok) as [Hok' Hsub].
    split; simpl; [done| | |done|done].
    + exists st. split; [done|]. eapply list.Forall2_impl; [exact Hp|]. intros u b. by apply transfer_of_sub.
    + split; [lia|]. intros Hin%Htok. lia.
  - revert Ha. apply pres_dev; try done. by apply (submitted_ok _ _ (Fail c) ToControl).
Qed.
Hint Resolve submitControl_pres : trace.
Lemma get_buf_pres k p : within (pres k) (get_buf p : T CSTraceEventBuffer).
Proof. unfold get_buf. within_tac. Qed.
Hint Resolve get_buf_pres : trace.
Lemma upd_buf_pres k p f : within (pres k) (upd_buf p f : T unit).
Proof. unfold upd_buf. within_tac. Qed.
Lemma set_attached_pres k i a j : within (pres k) (set_attached i a j : T unit).
Proof. unfold set_attached. within_tac. Qed.
Lemma sink_state_pres k j : within (pres k) (sink_state j : T SinkState).
Proof. unfold sink_state. within_tac. Qed.
Lemma sink_details_pres k j : within (pres k) (sink_details j : T SinkDetails).
Proof. unfold sink_details. within_tac. Qed.
Hint Resolve upd_buf_pres set_attached_pres sink_state_pres sink_details_pres : trace.
Lemma check_pres k j : within (pres k) (check_sink j : T unit).
Proof. unfold check_sink. within_tac. Qed.
Lemma connected_pres k : within (pres k) (CheckConnected : T unit).
Proof. unfold CheckConnected. within_tac. Qed.
Lemma startDevice_pres k j : within (pres k) (startDevice j : T unit).
Proof. unfold startDevice. within_tac. Qed.
Lemma doFlush_pres k j : within (pres k) (doFlush j : T unit).
Proof. unfold doFlush. within_tac. Qed.
Lemma attachDevice_pres k j : within (pres k) (attachDevice j : T unit).
Proof. unfold attachDevice. within_tac. Qed.
Lemma GetState_pres k j : within (pres k) (GetState j : T Status).
Proof. unfold GetState. within_tac. Qed.
Lemma write_dest_pres k c : within (pres k) (write_dest c : T unit).
Proof. unfold write_dest. within_tac. Qed.
Lemma doCancel_pres k j : within (pres k) (doCancelPendingBuffers j : T unit).
Proof.
  unfold doCancelPendingBuffers. apply within_bind; [within_tac|]. intros []; [|within_tac].
  apply within_modify. intros s. destruct (cancel_law (m_dev s)) as [Hp Hn]. apply pres_dev; simpl; try done; [lia|].
  intros Hd. split; [eapply dev_ok_perm; [done|lia|done]|]. intros z. by rewrite Hp.
Qed.
Hint Resolve check_pres connected_pres startDevice_pres doFlush_pres attachDevice_pres GetState_pres
  write_dest_pres doCancel_pres : trace.
Lemma attach_sink_pres k j : within (pres k) (attach_sink j : T unit).
Proof. unfold attach_sink. within_tac. Qed.
Lemma Flush_pres k j : within (pres k) (Flush j : T unit).
Proof. unfold Flush. within_tac. Qed.
Lemma doSendStateEvent_pres k j ty : within (pres k) (doSendStateEvent j ty : T unit).
Proof. unfold doSendStateEvent. within_tac. Qed.
Hint Resolve doSendStateEvent_pres : trace.
Lemma SendStateEvent_pres k j ty : within (pres k) (SendStateEvent j ty : T unit).
Proof. unfold SendStateEvent. within_tac. Qed.
Lemma return_events_pres k n j : within (pres k) (return_events n j : T unit).
Proof. induction n as [|n IH]; cbn [return_events]; within_tac. Qed.
Hint Resolve return_events_pres : trace.
Lemma Stop_pres k j : within (pres k) (Stop j : T unit).
Proof. unfold Stop, stopDevice. within_tac. Qed.
Lemma completeUsbTransfer_pres k j t st n : within (pres k) (completeUsbTransfer j t st n : T bool).
Proof.
  unfold completeUsbTransfer. within_tac. apply within_modify. intros s Ha.
  assert (Htok := fun u => aligned_tokens k s u Ha). destruct Ha as [Hok Hp [Hc Hc'] Hnd Hth].
  split; simpl; try done. split; [destruct Hok as (_ & ? & _); lia|]. intros Hin%Htok. lia.
Qed.
Lemma take_event_pres k j none : within (pres k) none -> within (pres k) (take_event j none : T outcome).
Proof. intros Hn. unfold take_event. within_tac. Qed.
End methods.
#[export] Hint Resolve attach_sink_pres Flush_pres SendStateEvent_pres Stop_pres completeUsbTransfer_pres
  write_dest_pres submitControl_pres startDevice_pres check_pres connected_pres upd_buf_pres get_buf_pres
  sink_state_pres sink_details_pres : trace.

Section session.
Context {D : Type} `{USBDeviceLaws D dest}.
Implicit Types (s : Trace D) (S : Sys D).
Abbreviation T := (E (Trace D)).

(** ** Submitting buffers *)

Lemma Forall2_snoc {A B} (R : A -> B -> Prop) l l' a b :
  Forall2 R l l' -> R a b -> Forall2 R (l ++ [a]) (l' ++ [b]).
Proof. intros. apply Forall2_app; [done|]. by repeat constructor. Qed.

Lemma submitBuffer_aligned k buf s r s' st f :
  submitBuffer k buf s = Some (r, s') -> m_sinkState s !! Z.to_nat k = Some st ->
  (forall st, pendingBuffers (f st) = pendingBuffers st ++ [buf]) ->
  aligned k s ->
  match r with
  | Val _ => m_sinkState s' = m_sinkState s /\ aligned k (put_sink k (f st) s')
  | Fail _ => aligned k s'
  end.
Proof.
  intros Hs Hst Hf Ha. assert (Hk := submitBuffer_keeps _ _ _ _ _ Hs). injection Hk as _ _ Hss _ Hth.
  unfold submitBuffer in Hs. apply E_bind_cases in Hs as [(st1 & s1 & Hs1 & Hs)|(c & Hs1 & ->)]; [|by run_inv].
  apply sink_state_inv in Hs1 as (st1' & _ & _ & [= <-] & ->). apply E_bind_cases in Hs as [(b & s1 & Hb & Hs)|(c & Hb & ->)];
    apply get_buf_inv in Hb as (b' & _ & Hb & ->); [|done].
  case_match; [|done]. apply E_bind_cases in Hs as [(t & s1 & Ht & Hs)|(c & Ht & ->)];
    unfold on_dev, zoom in Ht; destruct (dev_submitQueuedReadTransfer _ _ _ _) as [[r0 d]|] eqn:He; try done;
    injection Ht as -> <-; apply submit_queued_law in He as [Hn Hr].
  - injection Hs as <- <-. split; [done|]. assert (Htok := fun u => aligned_tokens k s u Ha).
    destruct Ha as [Hok (st0 & Hst0 & Hp) [Hc Hc'] Hnd Hthr].
    rewrite Hst in Hst0. injection Hst0 as <-.
    destruct (submitted_ok _ _ (Val t) _ Hn Hr Hok) as [Hok' Hsub].
    destruct Hr as [Hrt Hrp].
    split; [done| |simpl; split; [lia|rewrite elem_of_app, list_elem_of_singleton; intros [?|?]; [done|lia]]| |done].
    2: { simpl. apply list.NoDup_app. split; [done|]. split; [|apply NoDup_singleton].
         intros u Hu%Htok. rewrite list_elem_of_singleton. lia. }
    exists (f st). simpl.
    split; [apply list_lookup_insert_eq; by eapply lookup_lt_Some|]. rewrite Hf. apply Forall2_snoc.
    + eapply list.Forall2_impl; [exact Hp|]. intros t0 b0. by apply transfer_of_sub.
    + unfold transfer_of. rewrite Hrp. simpl. set_solver.
  - revert Ha. apply pres_dev; try done. by apply (submitted_ok _ _ (Fail c) (ToBuffer (buf_ptr buf))).
Qed.

Lemma submit_loop_pres n k : within (pres k) (submit_loop n k : T unit).
Proof.
  induction n as [|n IH]; [apply within_ret|]. intros s r s' Hs Ha. cbn [submit_loop] in Hs.
  run_inv. destruct (queuedBuffers _) as [|buf rest] eqn:Hq; [by run_inv|].
  case_match; [|by run_inv].
  match goal with Hst : m_sinkState s !! _ = Some ?st |- _ => rename st into st0; rename Hst into Hst0 end.
  apply E_bind_cases in Hs as [(u & s1 & Hb & Hs)|(c & Hb & ->)].
  2: { by apply (submitBuffer_aligned k buf s _ _ st0 (fun st => set_pendings (pendingBuffers st ++ [buf]) st)) in Hb. }
  apply (submitBuffer_aligned k buf s _ _ st0 (fun st => set_pendings (pendingBuffers st ++ [buf]) (set_queued rest st)))
    in Hb as [Hss Ha1]; try done.
  apply E_bind_cases in Hs as [(u' & s2 & Hu & Hs)|(c & Hu & ->)]; apply upd_sink_inv in Hu as (st1 & _ & Hst1 & [=] & ->).
  rewrite Hss, Hst0 in Hst1. injection Hst1 as <-. exact (IH _ _ _ Hs Ha1).
Qed.
Lemma submitBuffers_pres k : within (pres k) (submitBuffers k : T unit).
Proof. unfold submitBuffers. apply within_bind; [within_tac|]. intros st. apply submit_loop_pres. Qed.
Hint Resolve submitBuffers_pres : trace.
Lemma Start_pres k : within (pres k) (Start k : T unit).
Proof. unfold Start. within_tac. Qed.
Lemma SubmitEventBuffer_pres k ty p : within (pres k) (SubmitEventBuffer k ty p : T Z).
Proof. unfold SubmitEventBuffer, submit_checks, alloc_token, enqueue. within_tac. Qed.

(** ** The data thread *)

(** Whether the thread was stopped by the turn, or the alignment kept. *)
Definition keeps_aligned (k : Z) s s' : Prop := stopped s' \/ aligned k s'.

(** The transfer at the head of [m_dataTransferTokens] completes. *)
Lemma complete_aligned k s c d' :
  aligned k s -> dev_completeTransfer (m_dev s) = Completes c d' ->
  dev_ok d' /\
  (forall t b, t <> c_token c -> transfer_of (m_dev s) t b -> transfer_of d' t b) /\
  (forall p, mkX (c_token c) p ∈ outstanding (m_dev s) -> p = c_dest c).
Proof.
  intros [(Hnd & H0' & Hl) _ _ _ _] Hc. apply complete_law in Hc as [Hp Hn].
  assert (Hnd' := Hnd). rewrite Hp in Hnd'. simpl in Hnd'. apply list.NoDup_cons in Hnd' as [Hni Hnd'].
  split; [split; [done|split; [lia|]]|split].
  - intros x Hx. rewrite Hn. apply Hl. rewrite Hp. set_solver.
  - unfold transfer_of. intros t b Hne. rewrite Hp. intros [[= He _]|Hx]%elem_of_cons; [congruence|done].
  - intros p. rewrite Hp. intros [[= ->]|Hx]%elem_of_cons; [done|]. exfalso. apply Hni.
    by apply (list_elem_of_fmap_2 x_token) in Hx.
Qed.

(** [s] is aligned once the oldest pending buffer of [k] is removed. *)
Definition popped (k : Z) s : Prop :=
  exists st, m_sinkState s !! Z.to_nat k = Some st /\
    aligned k (put_sink k (set_pendings (tail (pendingBuffers st)) st) s).

Lemma popped_pres k s s' :
  m_sinkState s' = m_sinkState s -> m_dataThread s' = m_dataThread s ->
  m_dataTransferTokens s' = m_dataTransferTokens s -> m_controlToken s' = m_controlToken s ->
  m_dev s' = m_dev s -> popped k s -> popped k s'.
Proof.
  intros Hs Ht Htok Hc Hd (st & Hst & Ha). exists st. rewrite Hs. split; [done|].
  revert Ha. apply pres_same; simpl; try done. by rewrite Hs.
Qed.

Lemma complete_event_aligned k buf s u s' :
  popped k s -> complete_event k buf s = Some (Val u, s') -> aligned k s'.
Proof.
  intros Hp Hs. unfold complete_event in Hs.
  apply E_bind_cases in Hs as [(b & s1 & Hb & Hs)|(c & _ & [=])].
  apply get_buf_inv in Hb as (b' & _ & [= <-] & ->).
  apply E_bind_cases in Hs as [(u1 & s1 & [= _ <-] & Hs)|(c & _ & [=])].
  apply E_bind_cases in Hs as [(u2 & s2 & Hu & Hs)|(c & _ & [=])].
  apply upd_sink_inv in Hu as (st & _ & Hst & _ & ->).
  match type of Hst with m_sinkState ?s1 !! _ = _ => assert (Hp1 : popped k s1) by
    (revert Hp; case_match; [by apply popped_pres|done]) end.
  destruct Hp1 as (st0 & Hst0 & Ha). rewrite Hst in Hst0. injection Hst0 as <-.
  assert (Hw : within (pres k) (st ← sink_state k;
    (if decide (status st = ACTIVE) then submitBuffers k else mret tt);;
    upd_sink k (fun st => set_completed (completedEventTokens st ++ [buf_token buf]) st) : T unit)) by within_tac.
  by eapply Hw.
Qed.

(** What [waitForBuffer] makes of the buffer whose transfer completed. *)
Definition filled (c : completion dest) (b b' : CSTraceEventBuffer) : Prop :=
  len (c_data c) <= eb_size b /\
  b' = fill_status (c_status c) (len (c_data c))
         (mkEvBuf (eb_type b) (splice (eb_buf b) 0 (c_data c)) (eb_used b)).

Lemma upd_buf_inv p f s r s' :
  upd_buf p f s = Some (r, s') ->
  exists b, client_bufs s !! p = Some b /\ r = Val tt /\ s' = set_bufs (<[p := f b]> (client_bufs s)) s.
Proof.
  unfold upd_buf. intros Hs. apply E_bind_cases in Hs as [(b & s1 & Hb & Hs)|(c & Hb & ->)];
    apply get_buf_inv in Hb as (b' & Hb & Hv & ->); [|done]. injection Hv as <-. injection Hs as <- <-. eauto.
Qed.
(** The device writes a buffer of a client or the control message. *)
Lemma write_dest_inv c s u s' :
  write_dest c s = Some (Val u, s') ->
  (exists l, s' = set_message l s /\ c_dest c = ToControl) \/
  exists p b, c_dest c = ToBuffer p /\ client_bufs s !! p = Some b /\ len (c_data c) <= eb_size b /\
    s' = set_bufs (<[p := mkEvBuf (eb_type b) (splice (eb_buf b) 0 (c_data c)) (eb_used b)]> (client_bufs s)) s.
Proof.
  unfold write_dest. intros Hs. destruct (c_dest c) as [p|] eqn:Hd.
  - apply E_bind_cases in Hs as [(b & s1 & Hb & Hs)|(x & _ & [=])].
    apply get_buf_inv in Hb as (b' & Hb & [= <-] & ->). case_match eqn:Hl; [|done]. apply Z.leb_le in Hl.
    apply upd_buf_inv in Hs as (b2 & Hb2 & _ & ->). rewrite Hb in Hb2. injection Hb2 as <-.
    right. by exists p, b.
  - case_match; [|done]. injection Hs as _ <-. left. eauto.
Qed.

Lemma got_buffer k buf c d' s s' :
  aligned k s -> oldest k buf s -> dev_completeTransfer (m_dev s) = Completes c d' ->
  waitForBuffer k buf c (set_dev d' s) = Some (Val GotBuffer, s') ->
  popped k s' /\ dumped s' = dumped s /\ m_dataCallback s' = m_dataCallback s /\
  c_dest c = ToBuffer (buf_ptr buf) /\
  exists b b', client_bufs s !! buf_ptr buf = Some b /\ filled c b b' /\
    client_bufs s' !! buf_ptr buf = Some b'.
Proof.
  intros Ha (st & rest & Hst & Hp) Hc Hs. destruct (complete_aligned _ _ _ _ Ha Hc) as (Hok & Hkeep & Hdest).
  assert (Htok := fun u => aligned_tokens k s u Ha). destruct Ha as [_ (st0 & Hst0 & Hf) [Hc1 Hc2] Hnd Hth].
  rewrite Hst in Hst0. injection Hst0 as <-. unfold waitForBuffer in Hs.
  apply E_bind_cases in Hs as [(u & s1 & Hw & Hs)|(x & _ & [=])].
  apply E_bind_cases in Hs as [(ctrl & s2 & [= <- <-] & Hs)|(x & _ & [=])].
  apply E_bind_cases in Hs as [(toks & s2 & [= <- <-] & Hs)|(x & _ & [=])].
  case_match; [done|]. case_match.
  { apply E_bind_cases in Hs as [(ok & s2 & _ & Hs)|(x & _ & [=])]. by destruct ok. }
  case_match eqn:Hexp; [|done]. apply Z.eqb_eq in Hexp.
  rewrite Hp in Hf. apply Forall2_cons_inv_r in Hf as (t & ts & Ht & Hf & Htoks).
  assert (Hs1 : m_dataTransferTokens s1 = t :: ts).
  { rewrite <- Htoks. apply write_dest_inv in Hw as [(l & -> & _)|(p & b & _ & _ & _ & ->)]; done. }
  rewrite Hs1 in Hexp, Hs. simpl in Hexp, Hs. subst t. apply Hdest in Ht as Hd.
  apply write_dest_inv in Hw as [(l & -> & Hd')|(p & b & Hd' & Hb & Hlen & ->)]; [congruence|].
  rewrite Hd' in Hd. injection Hd as <-.
  apply E_bind_cases in Hs as [(u1 & s1 & [= _ <-] & Hs)|(x & _ & [=])].
  apply E_bind_cases in Hs as [(u2 & s1 & Hu & [= <-])|(x & _ & [=])].
  apply upd_buf_inv in Hu as (b2 & Hb2 & _ & ->). simpl in Hb2. rewrite lookup_insert_eq in Hb2. injection Hb2 as <-.
  split; [|split; [done|split; [done|split; [done|]]]].
  - exists st. split; [done|]. rewrite Hp.
    rewrite Htoks in Hnd, Hc2. apply list.NoDup_cons in Hnd as [Hnt Hnd].
    apply not_elem_of_cons in Hc2 as [_ Hc2].
    apply complete_law in Hc as [_ Hn]. split; simpl; [done| |by rewrite Hn|done|done].
    eexists. split; [apply list_lookup_insert_eq; by eapply lookup_lt_Some|]. simpl.
    apply Forall2_same_length_lookup. split; [by eapply Forall2_length|].
    intros i t b1 Ht1 Hb1. apply Hkeep; [|by eapply Forall2_lookup_lr].
    intros ->. apply Hnt. by eapply list_elem_of_lookup_2.
  - exists b. eexists. split; [done|]. split; [by split|]. simpl. by rewrite lookup_insert_eq.
Qed.

Lemma set_dev_aligned k s c d' :
  aligned k s -> dev_completeTransfer (m_dev s) = Completes c d' ->
  c_token c ∉ m_dataTransferTokens s -> aligned k (set_dev d' s).
Proof.
  intros Ha Hc Hni. destruct (complete_aligned _ _ _ _ Ha Hc) as (Hok & Hkeep & _).
  destruct Ha as [_ (st & Hst & Hf) [Hc1 Hc2] Hnd Hth]. apply complete_law in Hc as [_ Hn].
  split; simpl; [done| |by rewrite Hn|done|done]. exists st. split; [done|].
  apply Forall2_same_length_lookup. split; [by eapply Forall2_length|].
  intros i t b Ht Hb. apply Hkeep; [|by eapply Forall2_lookup_lr].
  intros ->. apply Hni. by eapply list_elem_of_lookup_2.
Qed.
Lemma again_aligned k buf s c d' s' :
  aligned k s -> dev_completeTransfer (m_dev s) = Completes c d' ->
  waitForBuffer k buf c (set_dev d' s) = Some (Val Again, s') -> aligned k s'.
Proof.
  intros Ha Hc Hs. unfold waitForBuffer in Hs.
  apply E_bind_cases in Hs as [(u & s1 & Hw & Hs)|(x & _ & [=])].
  assert (Hctl : m_controlToken s1 = m_controlToken s).
  { by apply write_dest_inv in Hw as [(l & -> & _)|(p & b & _ & _ & _ & ->)]. }
  apply (write_dest_pres k) in Hw as Hp.
  apply E_bind_cases in Hs as [(ctrl & s2 & [= <- <-] & Hs)|(x & _ & [=])].
  apply E_bind_cases in Hs as [(toks & s2 & [= <- <-] & Hs)|(x & _ & [=])].
  case_match; [done|]. case_match eqn:He; [|case_match; [|done]].
  - apply Z.eqb_eq in He. apply E_bind_cases in Hs as [(ok & s2 & Hu & Hs)|(x & _ & [=])].
    destruct ok; [|done]. injection Hs as <-. apply (completeUsbTransfer_pres k) in Hu as Hp2.
    apply Hp2, Hp. eapply set_dev_aligned; [done|done|]. rewrite He, Hctl. apply (al_control _ _ Ha).
  - apply E_bind_cases in Hs as [(u1 & s2 & _ & Hs)|(x & _ & [=])].
    by apply E_bind_cases in Hs as [(u2 & s3 & _ & [=])|(x & _ & [=])].
Qed.

Lemma set_thread_aligned k p s : aligned k s -> aligned k (set_thread (Some (mkThread k p)) s).
Proof. intros [Hd Hp Hc Hn Ht]. split; try done. by intros th [= <-]. Qed.

Definition is_waiting (p : pc) : bool := match p with Waiting _ => true | _ => false end.
Lemma quiet_at_pres k p : is_waiting p = false -> within (pres k) (thread_at k p : T (option pc)).
Proof. intros Hp. destruct p; try done; unfold thread_at; within_tac. Qed.

Lemma waiting_aligned k buf s v s' :
  aligned k s -> oldest k buf s -> thread_at k (Waiting buf) s = Some (Val v, s') ->
  v = Some Exiting \/ aligned k s'.
Proof.
  intros Ha Ho Hs. simpl in Hs.
  apply E_bind_cases in Hs as [(d & s1 & [= <- <-] & Hs)|(x & [=] & _)].
  destruct (dev_completeTransfer (m_dev s)) as [|c d'| |] eqn:Hc;
    [injection Hs as <- <-; by right| |injection Hs as <- <-; by right|done].
  apply E_bind_cases in Hs as [(u & s1 & [= _ <-] & Hs)|(x & _ & [=])].
  apply E_bind_cases in Hs as [([] & s1 & Hw & Hs)|(x & _ & [=])].
  - injection Hs as <- <-. right. by eapply again_aligned.
  - apply E_bind_cases in Hs as [(u1 & s2 & He & [= <- <-])|(x & _ & [=])]. right.
    eapply complete_event_aligned; [|exact He]. by eapply got_buffer in Hw as [Hp _].
  - injection Hs as <- <-. by left.
Qed.

Lemma thread_step_aligned k s u s' :
  aligned k s -> thread_ok s -> thread_step s = Some (u, s') -> stopped s' \/ aligned k s'.
Proof.
  intros Ha Hth Hs. unfold thread_step in Hs. unfold thread_ok in Hth.
  assert (Hsink := al_thread _ _ Ha).
  destruct (m_dataThread s) as [[j p]|] eqn:He; [|injection Hs as _ <-; by right].
  assert (j = k) as -> by by apply (Hsink (mkThread j p)). destruct Hth as [_ Hp]. simpl in *.
  destruct (thread_at k p s) as [[r s1]|] eqn:Hat; [|done].
  assert (Hr : (exists x, r = Fail x) \/ r = Val (Some Exiting) \/ aligned k s1).
  { destruct (is_waiting p) eqn:Hw.
    - destruct p; try done. destruct r as [v|x]; [|by left; exists x].
      right. destruct (waiting_aligned _ _ _ _ _ Ha Hp Hat) as [->|]; auto.
    - right. right. by apply (quiet_at_pres k p Hw _ _ _ Hat). }
  destruct r as [[p'|]|x]; injection Hs as _ <-.
  - destruct Hr as [(x & [=])|[[= ->]|Ha1]]; [by left|right; by apply set_thread_aligned].
  - destruct Hr as [(x & [=])|[[=]|Ha1]]. by right.
  - by left.
Qed.

(** ** What is handed over *)

Definition same_dump s s' : Prop := dumped s' = dumped s.
#[export] Instance same_dump_preorder : PreOrder same_dump.
Proof. unfold same_dump. split; [by intros s|intros s1 s2 s3; congruence]. Qed.
Lemma on_dev_dump {A} (m : E D A) : within same_dump (on_dev m).
Proof.
  intros s r s'. unfold on_dev, zoom. destruct (m (m_dev s)) as [[a d]|]; [|done]. by intros [= <- <-].
Qed.
Hint Resolve on_dev_dump : trace.
Lemma submitBuffers_dump k : within same_dump (submitBuffers k : T unit).
Proof.
  unfold submitBuffers, sink_state. apply within_bind; [within_tac|]. intros st.
  generalize (length (queuedBuffers st)). intros n. induction n as [|n IH]; cbn [submit_loop];
    unfold submitBuffer, sink_details, sink_state, upd_sink, get_buf; within_tac.
Qed.
Hint Resolve submitBuffers_dump : trace.
Lemma waitForBuffer_dump k buf c : within same_dump (waitForBuffer k buf c : T wait_res).
Proof.
  unfold waitForBuffer, write_dest, completeUsbTransfer, doSendStateEvent, submitControlChannelRequest,
    GetState, upd_sink, sink_state, upd_buf, get_buf. within_tac.
Qed.
Lemma quiet_at_dump k p : is_waiting p = false -> within same_dump (thread_at k p : T (option pc)).
Proof.
  intros Hp. destruct p; try done; unfold thread_at, check_sink, upd_sink, sink_state; within_tac.
Qed.

(** The block of data of a buffer that is handed to the callback. *)
Definition block (b : CSTraceEventBuffer) : list Z := take (Z.to_nat (u32 (eb_used b))) (eb_buf b).
Lemma complete_event_dump k buf s r s' b :
  client_bufs s !! buf_ptr buf = Some b -> complete_event k buf s = Some (r, s') ->
  dumped s' = dumped s \/
  (eb_type b = CSTRACE_EVENT_TYPE_DATA /\ 0 < u32 (eb_used b) /\ m_dataCallback s = true /\
   dumped s' = dumped s ++ [block b]).
Proof.
  intros Hb Hs. unfold complete_event in Hs.
  apply E_bind_cases in Hs as [(b0 & s1 & Hb0 & Hs)|(c & Hb0 & ->)];
    apply get_buf_inv in Hb0 as (b1 & Hb1 & Hv & ->); [|done].
  injection Hv as ->. rewrite Hb in Hb1. injection Hb1 as <-.
  apply E_bind_cases in Hs as [(u1 & s1 & [= _ <-] & Hs)|(c & [=] & _)].
  match type of Hs with ?m ?s1 = _ =>
    assert (Hw : within same_dump m) by (unfold upd_sink, sink_state; within_tac);
    assert (Hd := Hw _ _ _ Hs) end.
  unfold same_dump in Hd. revert Hd. case_match eqn:Hcond; [|auto]. apply andb_prop in Hcond as [Hcond Hcb].
  apply andb_prop in Hcond as [Ht Hu]. apply Z.eqb_eq in Ht. apply Z.ltb_lt in Hu. right. done.
Qed.

Lemma block_filled c b b' :
  filled c b b' -> eb_type b' = CSTRACE_EVENT_TYPE_DATA -> 0 < u32 (eb_used b') ->
  (c_status c = Transfer_SUCCESS \/ c_status c = Transfer_IN_PROGRESS) /\
  block b' = take (Z.to_nat (u32 (len (c_data c)))) (c_data c).
Proof.
  intros [Hl ->] Ht Hu. unfold block. destruct (c_status c); simpl in *; try done; (split; [auto|]).
  all: unfold splice; simpl; rewrite take_app_le; [done|].
  all: unfold u32; pose proof (Z.mod_le (len (c_data c)) (2 ^ 32)); lia.
Qed.

(** What a turn of the thread hands over: nothing, or the data of the transfer
    of the oldest pending buffer. *)
Definition hands_over (k : Z) s s' : Prop :=
  exists buf c d', oldest k buf s /\ dev_completeTransfer (m_dev s) = Completes c d' /\
    c_dest c = ToBuffer (buf_ptr buf) /\
    (c_status c = Transfer_SUCCESS \/ c_status c = Transfer_IN_PROGRESS) /\
    m_dataCallback s = true /\
    dumped s' = dumped s ++ [take (Z.to_nat (u32 (len (c_data c)))) (c_data c)].

Lemma waiting_dump k buf s r s' :
  aligned k s -> oldest k buf s -> thread_at k (Waiting buf) s = Some (r, s') ->
  dumped s' = dumped s \/ hands_over k s s'.
Proof.
  intros Ha Ho Hs. simpl in Hs.
  apply E_bind_cases in Hs as [(d & s1 & [= <- <-] & Hs)|(x & [=] & _)].
  destruct (dev_completeTransfer (m_dev s)) as [|c d'| |] eqn:Hc;
    [injection Hs as <- <-; by left| |injection Hs as <- <-; by left|done].
  apply E_bind_cases in Hs as [(u & s1 & [= _ <-] & Hs)|(x & [=] & _)].
  apply E_bind_cases in Hs as [(w & s1 & Hw & Hs)|(x & Hw & ->)]; apply waitForBuffer_dump in Hw as Hd.
  2: by left.
  unfold same_dump in Hd. simpl in Hd. destruct w; [injection Hs as _ <-; by left| |injection Hs as _ <-; by left].
  eapply got_buffer in Hw as (_ & _ & Hcb & Hdest & b & b' & _ & Hfill & Hb'); [|done..].
  assert (He : exists r', complete_event k buf s1 = Some (r', s')).
  { apply E_bind_cases in Hs as [(u1 & s2 & He & [= _ <-])|(x & He & ->)]; eauto. }
  destruct He as [r' He]. eapply complete_event_dump in He as [Hd'|(Hty & Hu & Hcb' & Hd')]; [left; congruence| |exact Hb'].
  right. destruct (block_filled _ _ _ Hfill Hty Hu) as [Hst Hbl].
  exists buf, c, d'. repeat (split; [done || congruence|]). by rewrite Hd', Hbl, Hd.
Qed.

Lemma thread_step_dump k s u s' :
  aligned k s -> thread_ok s -> thread_step s = Some (u, s') ->
  dumped s' = dumped s \/ hands_over k s s'.
Proof.
  intros Ha Hth Hs. unfold thread_step in Hs. unfold thread_ok in Hth.
  assert (Hsink := al_thread _ _ Ha).
  destruct (m_dataThread s) as [[j p]|] eqn:He; [|injection Hs as _ <-; by left].
  assert (j = k) as -> by by apply (Hsink (mkThread j p)). destruct Hth as [_ Hp]. simpl in *.
  destruct (thread_at k p s) as [[r s1]|] eqn:Hat; [|done].
  assert (Hr : dumped s1 = dumped s \/ hands_over k s s1).
  { destruct (is_waiting p) eqn:Hw; [destruct p; try done; by eapply waiting_dump|].
    left. by apply (quiet_at_dump k p Hw _ _ _ Hat). }
  by destruct r as [[p'|]|x]; injection Hs as _ <-.
Qed.

(** ** Sessions of one sink *)

Definition uses_sink (k : Z) (t : turn) : Prop :=
  match t with
  | TCall CConnect | TCall CDisconnect | TCall (CDetach _) => False
  | TCall (CAttach j | CStart j | CStop j | CFlush j | CWaitForEvent j
          | CSubmitEventBuffer j _ _ | CSendStateEvent j _) => j = k
  | _ => True
  end.
Lemma uses_sink_session k t : uses_sink k t -> session_turn t.
Proof. by destruct t as [[]| |]. Qed.

Lemma Attach_aligned k s r s' : aligned k s -> Attach k s = Some (r, s') -> aligned k s'.
Proof.
  intros Ha Hs. unfold Attach in Hs.
  apply E_bind_cases in Hs as [(u & s1 & Hs1 & Hs)|(x & Hs1 & ->)]; apply (attach_sink_pres k) in Hs1 as Hp;
    specialize (Hp Ha); [|done].
  unfold start_thread in Hs. apply E_bind_cases in Hs as [(th & s2 & [= <- <-] & Hs)|(x & [=] & _)].
  case_match; [done|]. injection Hs as _ <-. by apply set_thread_aligned.
Qed.

Lemma returns_pres {A} k (m : T A) f : within (pres k) m -> within (pres k) (returns m f).
Proof. intros Hm. unfold returns. within_tac. Qed.
Lemma start_call_aligned k c s r s' :
  uses_sink k (TCall c) -> aligned k s -> start_call c s = Some (r, s') -> aligned k s'.
Proof.
  intros Hu Ha Hs.
  assert (Hr : forall {A} (m : T A) f, within (pres k) m -> start_call c = returns m f -> aligned k s').
  { intros A m f Hm He. rewrite He in Hs. by eapply (returns_pres k m f Hm). }
  destruct c as [| |[]|j|j|j|j|j|j ty p|j|j ty]; simpl in Hu; subst; try done.
  - eapply (Hr _ SetTraceDataCallback); [unfold SetTraceDataCallback; within_tac|done].
  - eapply (Hr _ ClearTraceDataCallback); [unfold ClearTraceDataCallback; within_tac|done].
  - simpl in Hs. apply returns_inv in Hs as (_ & r' & Hs). by eapply Attach_aligned.
  - eapply (Hr _ (Start k)); [apply Start_pres|done].
  - eapply (Hr _ (Stop k)); [apply Stop_pres|done].
  - eapply (Hr _ (Flush k)); [apply Flush_pres|done].
  - eapply (Hr _ (SubmitEventBuffer k ty p)); [apply SubmitEventBuffer_pres|done].
  - revert Ha. simpl in Hs. unfold WaitForEvent in Hs.
    assert (Hw : within (pres k) (check_sink k;; take_event k (mret (Wait (InWait k))) : T outcome)).
    { apply within_bind; [within_tac|]. intros _. apply take_event_pres. within_tac. }
    by eapply Hw.
  - eapply (Hr _ (SendStateEvent k ty)); [apply SendStateEvent_pres|done].
Qed.

Lemma resume_aligned k c b s r s' :
  session_client c -> aligned k s -> resume c b s = Some (r, s') -> aligned k s'.
Proof.
  intros Hc Ha Hs. destruct c as [|j|j|j buf|j| |j]; try done; simpl in Hs; [by injection Hs as _ <-|].
  assert (Hw : within (pres k) (resume (InWait j) b : T outcome)); [|by apply (Hw _ _ _ Hs)].
  unfold resume. apply within_bind; [within_tac|]. intros st. destruct b; [apply take_event_pres; within_tac|].
  case_decide; [within_tac|]. apply take_event_pres. within_tac.
Qed.

(** The alignment lasts as long as the thread stays in its loop. *)
Lemma step_aligned k t S o S' :
  uses_sink k t -> session_client (s_client S) -> Sys_inv S -> step t S = Some (o, S') ->
  stopped (s_trace S) \/ aligned k (s_trace S) -> stopped (s_trace S') \/ aligned k (s_trace S').
Proof.
  intros Hu Hcl Hi Hs Ha.
  destruct (step_spec 0 t S o S') as (acts & Hsp); try done; [by eapply uses_sink_session|apply Hi|].
  destruct Ha as [Hst|Ha]; [left; by apply (ts_stopped _ _ _ _ _ _ Hsp)|].
  destruct S as [s c]. destruct t as [cl|b|]; simpl in Hs.
  - destruct c; try done; [|by injection Hs as _ <-; right].
    apply client_turn_eq in Hs as (r & s' & Hs & _ & ->). right. by eapply start_call_aligned.
  - apply client_turn_eq in Hs as (r & s' & Hs & _ & ->). right. by eapply resume_aligned.
  - destruct (thread_step s) as [[u s']|] eqn:Ht; [|done]. injection Hs as _ <-.
    eapply thread_step_aligned; [exact Ha|apply Hi|exact Ht].
Qed.
Lemma run_aligned k ts S os S' :
  Forall (uses_sink k) ts -> session_client (s_client S) -> Sys_inv S -> run ts S = Some (os, S') ->
  stopped (s_trace S) \/ aligned k (s_trace S) ->
  Sys_inv S' /\ (stopped (s_trace S') \/ aligned k (s_trace S')).
Proof.
  revert S os. induction ts as [|t ts IH]; intros S os Hu Hcl Hi Hr Ha; [by injection Hr as _ <-|].
  apply run_step in Hr as (o & S1 & os1 & Hs & Hr & ->). inversion Hu; subst.
  destruct (step_spec 0 t S o S1) as (acts & Hsp); try done; [by eapply uses_sink_session|apply Hi|].
  eapply IH; [done|apply Hsp|by eapply step_inv|exact Hr|by eapply step_aligned].
Qed.

(** ** Connecting *)

(** A connected object has no transfer, no buffer and no thread. *)
Record connected (k : Z) s : Prop := {
  cn_out : outstanding (m_dev s) = [] /\ 0 <= next_token (m_dev s);
  cn_sink : m_sinkState s !! Z.to_nat k = Some new_state;
  cn_tokens : m_dataTransferTokens s = [] /\ m_controlToken s = -1;
  cn_thread : m_dataThread s = None;
}.
Lemma Connect_connected k type id serial d bufs s u s' :
  CreateStreamingTrace type id serial d bufs = Val s -> 0 <= k < Z.of_nat MAX_NUM_ETRS ->
  Connect s = Some (Val u, s') -> connected k s'.
Proof.
  unfold CreateStreamingTrace. case_decide; [|done]. intros [= <-] Hk Hs. unfold Connect in Hs.
  apply E_bind_cases in Hs as [(c & s1 & [= <- <-] & Hs)|(x & [=] & _)]. simpl in Hs.
  apply E_bind_cases in Hs as [(u1 & s1 & Hd & [= _ <-])|(x & _ & [=])].
  unfold doConnect in Hd. apply E_bind_cases in Hd as [(u2 & s2 & [= _ <-] & Hd)|(x & [=] & _)].
  unfold destroy_on_fail in Hd. destruct ((on_dev _;; _) _) as [[[a|x] s3]|] eqn:He; [|done..].
  injection Hd as _ <-.
  apply E_bind_cases in He as [(u3 & s4 & Hc & He)|(x & _ & [=])]. injection He as _ <-.
  unfold on_dev, zoom in Hc. simpl in Hc. destruct (dev_connect _) as [[r d']|] eqn:Hcon; [|done].
  injection Hc as -> <-. apply connect_law in Hcon as [Hp Hn].
  destruct (create_law id serial d) as [Hout Hnext]. rewrite Hout in Hp. apply Permutation_nil_r in Hp.
  split; simpl; try done; [by split; [|lia]|].
  change (((fun _ : SinkDetails => new_state) <$> map need_event discoverSinks) !! Z.to_nat k = Some new_state).
  rewrite list_lookup_fmap. destruct (map need_event discoverSinks !! Z.to_nat k) eqn:Hl; [done|].
  apply lookup_ge_None in Hl. rewrite length_map in Hl. unfold MAX_NUM_ETRS in Hk.
  change (length discoverSinks) with 32%nat in Hl. lia.
Qed.
Lemma connected_aligned k s : connected k s -> aligned k s.
Proof.
  intros [[Ho Hn] Hs [Ht Hc] Hth]. split; rewrite ?Ht, ?Hc, ?Hth; try done.
  - split; [rewrite Ho; apply NoDup_nil_2|]. split; [done|]. intros y. rewrite Ho. by intros ?%not_elem_of_nil.
  - exists new_state. split; [done|constructor].
  - split; [lia|by intros ?%not_elem_of_nil].
  - apply NoDup_nil_2.
Qed.

(** C29: In a session of a connected object that uses sink [k], a turn of the
    data thread hands nothing to the trace data callback, or exactly the bytes
    that the device delivered, successfully, into the buffer that has been
    pending for longest (as many as an [unsigned int] can count): no data is
    taken for another buffer's, none is handed over twice. *)
Theorem dump_faithful type id serial d bufs s k ts os S S' :
  CreateStreamingTrace type id serial d bufs = Val s -> 0 <= k < Z.of_nat MAX_NUM_ETRS ->
  Forall (uses_sink k) ts ->
  run (TCall CConnect :: ts) (mkSys s Idle) = Some (Some (Val 0) :: os, S) ->
  step TThread S = Some (None, S') -> in_loop (s_trace S) ->
  dumped (s_trace S') = dumped (s_trace S) \/ hands_over k (s_trace S) (s_trace S').
Proof.
  intros Hc Hk Hu Hr Hs Hl. apply created_inv in Hc as Hi.
  apply run_step in Hr as (o & S1 & os1 & Hs1 & Hr & [= <- <-]).
  assert (Hi1 : Sys_inv S1) by (eapply step_inv; [exact Hi|exact Hs1]).
  simpl in Hs1. apply client_turn_eq in Hs1 as (r & s1 & Hcon & Ho & ->).
  unfold returns in Hcon. apply E_bind_cases in Hcon as [(u & s2 & Hcon & [= <- <-])|(x & _ & ->)]; [|done].
  destruct (run_aligned k ts (mkSys s2 Idle) os S Hu Logic.I Hi1 Hr) as [Hi2 Ha]; [right; by eapply connected_aligned, Connect_connected|].
  destruct Ha as [Hst|Ha]; [exfalso; by eapply in_loop_stopped|].
  simpl in Hs. destruct (thread_step (s_trace S)) as [[v s3]|] eqn:Ht; [|done]. injection Hs as <-.
  eapply thread_step_dump; [exact Ha|apply Hi2|exact Ht].
Qed.
End session.

Definition dump_script : list (Z * Transfer_Status * list Z) :=
  [(1, Transfer_SUCCESS, [7; 8]); (2, Transfer_SUCCESS, [9])].
Definition dump_turns : list turn :=
  [TCall (CSetTraceDataCallback true); TCall (CAttach 0); TCall (CStart 0);
   TCall (CSubmitEventBuffer 0 3 0); TCall (CSubmitEventBuffer 0 3 1)] ++ threads 5.
Definition dump_facts (p : list obs * Sys script_dev) : option (obs * bool * list (list Z) * list (list Z)) :=
  q ← step TThread p.2;
  th ← m_dataThread (s_trace p.2);
  Some (default None (head p.1), is_waiting (th_pc th) && bool_decide (q.1 = None),
        dumped (s_trace p.2), dumped (s_trace q.2)).
Lemma dump_run :
  dump_facts <$> script_run 2 dump_script (TCall CConnect :: dump_turns) =
  Some (Some (Some (Val 0), true, [[7; 8]], [[7; 8]; [9]])).
Proof. vm_compute. reflexivity. Qed.

Lemma dump_faithful_witness :
  exists os S S',
    script_run 2 dump_script (TCall CConnect :: dump_turns) = Some (os, S) /\
    step TThread S = Some (None, S') /\
    dumped (s_trace S) = [[7; 8]] /\ dumped (s_trace S') = [[7; 8]; [9]] /\
    hands_over 0 (s_trace S) (s_trace S').
Proof.
  destruct (fmap_Some_1 _ _ _ dump_run) as ([os S] & He & Hall). unfold dump_facts in Hall. cbn [snd fst] in Hall.
  destruct (step TThread S) as [[o S']|] eqn:Hs; [|discriminate Hall].
  destruct (m_dataThread (s_trace S)) as [th|] eqn:Hth; [|discriminate Hall].
  cbn [snd fst mbind option_bind] in Hall.
  apply (inj Some), pair_eq in Hall as [Hall H4]. apply pair_eq in Hall as [Hall H3].
  apply pair_eq in Hall as [H1 H2]. symmetry in H2. apply andb_prop in H2 as [Hw Ho].
  apply bool_decide_eq_true_1 in Ho. subst o.
  assert (Hl : in_loop (s_trace S)) by (unfold in_loop; rewrite Hth; by destruct (th_pc th)).
  destruct os as [|o os]; [discriminate H1|]. cbn [head default] in H1. simpl in H1. subst o.
  destruct (script_run_inv _ _ _ _ He) as (s & Hc & Hr).
  destruct (dump_faithful _ _ _ _ _ s 0 dump_turns os S S' Hc) as [Hd|Hd];
    [by split|by repeat constructor|exact Hr|exact Hs|exact Hl| |].
  - rewrite <- H3, <- H4 in Hd. discriminate Hd.
  - exists (Some (Val 0) :: os), S, S'. split; [exact He|]. split; [exact Hs|].
    split; [symmetry; exact H3|]. split; [symmetry; exact H4|exact Hd].
Defined.
