(* ===== verification/TraceStream.v ===== *)
(** What a client receives of a trace: the bytes of the buffers that
    [WaitForEvent] returns are, in order and without a gap, the bytes that the
    device delivered, as long as the client submits no buffer that is in use and
    the data thread is in its loop (when it leaves, one delivery can be lost).
    A table [g] of the buffers' addresses by token, which is no part of the
    program, connects the tokens that the client gets with the memory. *)
From S2P Require Import Prelude UsbIf Trace TraceRun TraceScript TraceQueue TraceInv TraceOrder TraceData.

#[local] Set Warnings "-clear-no-such-hyp".

(** ** What the buffers hold *)

Lemma submseteq_NoDup {A} (l l' : list A) : NoDup l' -> l ⊆+ l' -> NoDup l.
Proof. intros Hn (m & Hm)%submseteq_Permutation. rewrite Hm in Hn. by apply list.NoDup_app in Hn as [? _]. Qed.
Lemma NoDup_map_sub {A B} (f : A -> B) (l l' : list A) : NoDup (map f l') -> l ⊆+ l' -> NoDup (map f l).
Proof. intros Hn Hs. eapply submseteq_NoDup; [exact Hn|]. by apply (fmap_submseteq f). Qed.

(** The bytes that a returned buffer has for its client. *)
Definition contents (b : CSTraceEventBuffer) : list Z :=
  if eb_type b =? CSTRACE_EVENT_TYPE_DATA then take (Z.to_nat (eb_used b)) (eb_buf b) else [].

Definition st_buffers (st : SinkState) : list Buffer :=
  pendingBuffers st ++ queuedBuffers st ++ eventBuffers st.
(** [h]: the tokens that the data thread holds. *)
Definition st_ready (h : list Z) (st : SinkState) : list Z := completedEventTokens st ++ h.
Definition st_tokens (h : list Z) (st : SinkState) : list Z :=
  map buf_token (st_buffers st) ++ st_ready h st.

Lemma st_ready_eq h st st' :
  completedEventTokens st' = completedEventTokens st -> st_ready h st' = st_ready h st.
Proof. unfold st_ready. by intros ->. Qed.

Record sink_ok (g : gmap Z Z) (h : list Z) (st : SinkState) : Prop := {
  sk_owner : Forall (fun b => g !! buf_token b = Some (buf_ptr b)) (st_buffers st);
  sk_known : Forall (fun t => is_Some (g !! t)) (st_ready h st);
  sk_distinct : NoDup (map (fun t => g !! t) (st_tokens h st));
}.

Section stream.
Context {D : Type} `{USBDeviceLaws D dest}.
Implicit Types (s : Trace D) (S : Sys D) (g : gmap Z Z) (h : list Z).
Abbreviation T := (E (Trace D)).

(** The buffers in use have different addresses, and a transfer into a buffer
    is one of the data transfers. *)
Record stream_ok (k : Z) g h s : Prop := {
  so_sink : exists st, m_sinkState s !! Z.to_nat k = Some st /\ sink_ok g h st;
  so_out t p : mkX t (ToBuffer p) ∈ outstanding (m_dev s) -> t ∈ m_dataTransferTokens s;
}.

Definition content_of g (m : gmap Z CSTraceEventBuffer) (t : Z) : list Z :=
  match g !! t with
  | Some p => from_option contents [] (m !! p)
  | None => []
  end.
(** What the client will get without another transfer. *)
Definition waiting_data (k : Z) g h s : list Z :=
  match m_sinkState s !! Z.to_nat k with
  | Some st => concat (map (content_of g (client_bufs s)) (st_ready h st))
  | None => []
  end.

(** ** Methods that leave the data alone *)

Definition stable (k : Z) g h s s' : Prop :=
  stream_ok k g h s -> stream_ok k g h s' /\ waiting_data k g h s' = waiting_data k g h s.
#[export] Instance stable_preorder k g h : PreOrder (stable k g h).
Proof.
  unfold stable. split; [by intros s|]. intros s1 s2 s3 H1 H2 Hs.
  destruct (H1 Hs) as [Hs2 He2]. destruct (H2 Hs2) as [Hs3 He3]. split; [done|congruence].
Qed.

Lemma stable_dev k g h s s' :
  m_sinkState s' = m_sinkState s -> client_bufs s' = client_bufs s ->
  (forall t, t ∈ m_dataTransferTokens s -> t ∈ m_dataTransferTokens s') ->
  (forall t p, mkX t (ToBuffer p) ∈ outstanding (m_dev s') ->
     mkX t (ToBuffer p) ∈ outstanding (m_dev s) \/ t ∈ m_dataTransferTokens s') ->
  stable k g h s s'.
Proof.
  intros Hs Hb Ht Hd [Hk Ho]. split; [split|].
  - by rewrite Hs.
  - intros t p [Hin|Hin]%Hd; [by eapply Ht, Ho|done].
  - unfold waiting_data, content_of. by rewrite Hs, Hb.
Qed.
Lemma stable_same k g h s s' :
  m_sinkState s' = m_sinkState s -> client_bufs s' = client_bufs s ->
  m_dataTransferTokens s' = m_dataTransferTokens s -> m_dev s' = m_dev s -> stable k g h s s'.
Proof. intros Hs Hb Ht Hd. apply stable_dev; rewrite ?Ht, ?Hd; auto. Qed.
Lemma stable_perm k g h s s' :
  m_sinkState s' = m_sinkState s -> client_bufs s' = client_bufs s ->
  m_dataTransferTokens s' = m_dataTransferTokens s ->
  outstanding (m_dev s') ≡ₚ outstanding (m_dev s) -> stable k g h s s'.
Proof. intros Hs Hb Ht Hd. apply stable_dev; rewrite ?Ht; auto. intros t p. rewrite Hd. auto. Qed.

(** The buffers of a sink may move or go. *)
Lemma sink_ok_sub g h st st' :
  st_buffers st' ⊆+ st_buffers st -> completedEventTokens st' = completedEventTokens st ->
  sink_ok g h st -> sink_ok g h st'.
Proof.
  intros Hb Hc [Ho Hk Hd].
  assert (Hr := st_ready_eq h _ _ Hc). split; rewrite ?Hr; try done.
  - apply list.Forall_forall. intros b Hin. rewrite list.Forall_forall in Ho. apply Ho.
    eapply elem_of_submseteq; eassumption.
  - eapply NoDup_map_sub; [exact Hd|]. unfold st_tokens. rewrite Hr.
    apply submseteq_app; [|done]. by apply (fmap_submseteq buf_token).
Qed.
Lemma stable_put k j g h s st st' :
  m_sinkState s !! Z.to_nat j = Some st ->
  st_buffers st' ⊆+ st_buffers st -> completedEventTokens st' = completedEventTokens st ->
  stable k g h s (put_sink j st' s).
Proof.
  intros Hj Hb Hc [(st0 & Hst0 & Hok) Ho]. unfold waiting_data. simpl.
  destruct (decide (Z.to_nat j = Z.to_nat k)) as [He|Hne].
  - rewrite <- He in *. rewrite Hj in Hst0. injection Hst0 as <-.
    rewrite list_lookup_insert_eq by (by eapply lookup_lt_Some). rewrite Hj, (st_ready_eq h _ _ Hc).
    split; [|done].
    split; [|done]. exists st'. rewrite <- He. simpl.
    rewrite list_lookup_insert_eq by (by eapply lookup_lt_Some). split; [done|by eapply sink_ok_sub].
  - rewrite list_lookup_insert_ne by done. split; [|done]. split; [|done]. exists st0. simpl.
    by rewrite list_lookup_insert_ne.
Qed.
Lemma upd_sink_stable k j g h f :
  (forall st, st_buffers (f st) = st_buffers st /\ completedEventTokens (f st) = completedEventTokens st) ->
  within (stable k g h) (upd_sink j f : T unit).
Proof.
  intros Hf s r s' Hs. apply upd_sink_inv in Hs as (st & _ & Hst & _ & ->).
  destruct (Hf st) as [Hb Hc]. eapply stable_put; [done|by rewrite Hb|done].
Qed.
Lemma modify_stable k g h f :
  (forall s, m_sinkState (f s) = m_sinkState s /\ client_bufs (f s) = client_bufs s /\
     m_dataTransferTokens (f s) = m_dataTransferTokens s /\ m_dev (f s) = m_dev s) ->
  within (stable k g h) (e_modify f : T unit).
Proof. intros Hf. apply within_modify. intros s. destruct (Hf s) as (? & ? & ? & ?). by apply stable_same. Qed.
End stream.

#[export] Hint Extern 1 (within (stable _ _ _) (e_modify _)) => apply modify_stable; intros ?; repeat split : trace.
#[export] Hint Extern 1 (within (stable _ _ _) (upd_sink _ _)) => apply upd_sink_stable; intros ?; split; reflexivity : trace.

Section methods.
Context {D : Type} `{USBDeviceLaws D dest}.
Implicit Types (s : Trace D) (S : Sys D) (g : gmap Z Z) (h : list Z).
Abbreviation T := (E (Trace D)).

(** A write elsewhere does not change what a token stands for. *)
Lemma contents_other g m p v l :
  Forall (fun t => g !! t <> Some p) l -> map (content_of g (<[p := v]> m)) l = map (content_of g m) l.
Proof.
  intros Hl. apply map_ext_in. intros t Ht%list_elem_of_In. rewrite list.Forall_forall in Hl. specialize (Hl t Ht).
  unfold content_of. destruct (g !! t) as [q|]; [|done]. rewrite lookup_insert_ne; [done|congruence].
Qed.
(** A buffer in use is none of those that the client can get. *)
Lemma busy_other g h st b :
  sink_ok g h st -> b ∈ st_buffers st -> Forall (fun t => g !! t <> Some (buf_ptr b)) (st_ready h st).
Proof.
  intros [Ho _ Hd] Hb. rewrite list.Forall_forall in Ho. apply list.Forall_forall. intros t Ht Hg.
  unfold st_tokens in Hd. rewrite map_app in Hd. apply list.NoDup_app in Hd as (_ & Hd & _).
  apply (Hd (Some (buf_ptr b))).
  - rewrite <- (Ho b Hb). by apply (list_elem_of_fmap_2 (fun t => g !! t)), (list_elem_of_fmap_2 buf_token).
  - rewrite <- Hg. by apply (list_elem_of_fmap_2 (fun t => g !! t)).
Qed.

(** The oldest event buffer is returned, without data. *)
Lemma post_stable k g h s st buf rest v :
  m_sinkState s !! Z.to_nat k = Some st -> eventBuffers st = buf :: rest -> contents v = [] ->
  stable k g h s (put_sink k (set_completed (completedEventTokens st ++ [buf_token buf]) (set_events rest st))
                  (set_bufs (<[buf_ptr buf := v]> (client_bufs s)) s)).
Proof.
  intros Hst He Hv [(st0 & Hst0 & Hok) Ho]. rewrite Hst in Hst0. injection Hst0 as <-.
  assert (Hbuf : buf ∈ st_buffers st) by (unfold st_buffers; rewrite He; set_solver).
  assert (Hg : g !! buf_token buf = Some (buf_ptr buf)).
  { destruct Hok as [Hown _ _]. rewrite list.Forall_forall in Hown. by apply Hown. }
  unfold waiting_data. simpl. rewrite list_lookup_insert_eq by (by eapply lookup_lt_Some). simpl.
  split; [split; [|done]|].
  - eexists. split; [apply list_lookup_insert_eq; by eapply lookup_lt_Some|].
    destruct Hok as [Hown Hk Hd]. split; simpl.
    + unfold st_buffers in *. simpl. rewrite He in Hown. rewrite !Forall_app, list.Forall_cons in Hown.
      rewrite !Forall_app. tauto.
    + unfold st_ready in *. simpl. rewrite !Forall_app in *. destruct Hk as [Hk1 Hk2].
      repeat split; [done| |done]. repeat constructor. by exists (buf_ptr buf).
    + eapply NoDup_map_sub; [exact Hd|]. apply Permutation_submseteq. unfold st_tokens, st_ready, st_buffers. simpl.
      rewrite He, !map_app. simpl. solve_Permutation.
  - assert (Ho1 := busy_other _ _ _ _ Hok Hbuf). unfold st_ready in *. apply Forall_app in Ho1 as [Ho1 Ho2].
    rewrite Hst. simpl. rewrite !map_app, !concat_app, (contents_other _ _ _ _ h Ho2), (contents_other _ _ _ _ _ Ho1).
    cbn [map concat]. unfold content_of at 2. rewrite Hg. simpl. rewrite lookup_insert_eq. simpl.
    by rewrite Hv, !app_nil_r.
Qed.

Lemma endpointSetParam_stable k g h a r v : within (stable k g h) (endpointSetParam a r v : T Z).
Proof.
  intros s x s' Hs. unfold endpointSetParam in Hs. destruct (dev_controlTransfer _ _ _ _ _) as [y d] eqn:Hc.
  injection Hs as _ <-. apply control_law in Hc as [Hp Hn]. by apply stable_perm.
Qed.
Hint Resolve endpointSetParam_stable : trace.
Lemma set_param_stable k g h a r v : within (stable k g h) (set_param a r v : T unit).
Proof. unfold set_param. within_tac. Qed.
Hint Resolve set_param_stable : trace.
Lemma submitControl_stable k g h : within (stable k g h) (submitControlChannelRequest : T unit).
Proof.
  unfold submitControlChannelRequest. apply within_bind; [within_tac|]. intros [ep|]; [|within_tac].
  apply within_bind; [|within_tac]. intros s r s' Hs.
  unfold on_dev, zoom in Hs. destruct (dev_submitReadTransfer _ _ _ _) as [[r0 d]|] eqn:He; try done.
  injection Hs as -> <-. apply submit_read_law in He as [Hn Hr]. apply stable_dev; simpl; try done.
  intros t p. destruct r as [u|c]; [|rewrite Hr; auto]. destruct Hr as [_ ->].
  intros [[=]|Hin]%elem_of_cons. auto.
Qed.
Lemma get_buf_stable k g h p : within (stable k g h) (get_buf p : T CSTraceEventBuffer).
Proof. unfold get_buf. within_tac. Qed.
Lemma set_attached_stable k g h i a j : within (stable k g h) (set_attached i a j : T unit).
Proof. unfold set_attached. within_tac. Qed.
Lemma sink_state_stable k g h j : within (stable k g h) (sink_state j : T SinkState).
Proof. unfold sink_state. within_tac. Qed.
Lemma sink_details_stable k g h j : within (stable k g h) (sink_details j : T SinkDetails).
Proof. unfold sink_details. within_tac. Qed.
Hint Resolve submitControl_stable get_buf_stable set_attached_stable sink_state_stable sink_details_stable : trace.
Lemma check_stable k g h j : within (stable k g h) (check_sink j : T unit).
Proof. unfold check_sink. within_tac. Qed.
Lemma connected_stable k g h : within (stable k g h) (CheckConnected : T unit).
Proof. unfold CheckConnected. within_tac. Qed.
Lemma startDevice_stable k g h j : within (stable k g h) (startDevice j : T unit).
Proof. unfold startDevice. within_tac. Qed.
Lemma doFlush_stable k g h j : within (stable k g h) (doFlush j : T unit).
Proof. unfold doFlush. within_tac. Qed.
Lemma attachDevice_stable k g h j : within (stable k g h) (attachDevice j : T unit).
Proof. unfold attachDevice. within_tac. Qed.
Lemma GetState_stable k g h j : within (stable k g h) (GetState j : T Status).
Proof. unfold GetState. within_tac. Qed.
Lemma doCancel_stable k g h j : within (stable k g h) (doCancelPendingBuffers j : T unit).
Proof.
  unfold doCancelPendingBuffers. apply within_bind; [within_tac|]. intros []; [|within_tac].
  apply within_modify. intros s. destruct (cancel_law (m_dev s)) as [Hp Hn]. by apply stable_perm.
Qed.
Hint Resolve check_stable connected_stable startDevice_stable doFlush_stable attachDevice_stable
  GetState_stable doCancel_stable : trace.
Lemma attach_sink_stable k g h j : within (stable k g h) (attach_sink j : T unit).
Proof. unfold attach_sink. within_tac. Qed.
Lemma Flush_stable k g h j : within (stable k g h) (Flush j : T unit).
Proof. unfold Flush. within_tac. Qed.

Lemma posted k g h f (m : T unit) s st r s' buf rest :
  m_sinkState s !! Z.to_nat k = Some st -> eventBuffers st = buf :: rest ->
  (forall b, contents (f b) = []) -> within (stable k g h) m ->
  (upd_buf (buf_ptr buf) f;;
   upd_sink k (fun st => set_completed (completedEventTokens st ++ [buf_token buf]) (set_events rest st));; m) s
  = Some (r, s') -> stable k g h s s'.
Proof.
  intros Hst He Hf Hm Hs.
  apply E_bind_cases in Hs as [(u & s1 & Hu & Hs)|(c & Hu & ->)]; apply upd_buf_inv in Hu as (b & Hb & [=] & ->).
  apply E_bind_cases in Hs as [(u1 & s1 & Hu & Hs)|(c & Hu & ->)]; apply upd_sink_inv in Hu as (st1 & _ & Hst1 & [=] & ->).
  simpl in Hst1. rewrite Hst in Hst1. injection Hst1 as <-.
  etrans; [|by eapply Hm]. by eapply post_stable.
Qed.
Lemma doSendStateEvent_stable k g h ty :
  ty <> CSTRACE_EVENT_TYPE_DATA -> within (stable k g h) (doSendStateEvent k ty : T unit).
Proof.
  intros Hty s r s' Hs. unfold doSendStateEvent in Hs.
  apply E_bind_cases in Hs as [(st & s1 & Hst & Hs)|(c & Hst & ->)];
    apply sink_state_inv in Hst as (st0 & _ & Hst0 & Hv & ->); [|done]. injection Hv as ->.
  destruct (eventBuffers st0) as [|buf rest] eqn:He; [by injection Hs as _ <-|].
  assert (Hs' : (upd_buf (buf_ptr buf) (fun b => mkEvBuf ty (eb_buf b) (eb_used b));;
    upd_sink k (fun st => set_completed (completedEventTokens st ++ [buf_token buf]) (set_events rest st));;
    mret tt : T unit) s = Some (r, s')).
  { rewrite <- Hs. unfold mbind, E_bind. destruct (upd_buf _ _ s) as [[[u|x] s1]|]; [|done..].
    by destruct (upd_sink _ _ s1) as [[[[]|x] s2]|]. }
  eapply posted in Hs'; [exact Hs'|done|done| |within_tac].
  intros b. unfold contents. simpl. case_match eqn:Ht; [|done]. by apply Z.eqb_eq in Ht.
Qed.
Lemma return_events_stable n k g h : within (stable k g h) (return_events n k : T unit).
Proof.
  induction n as [|n IH]; cbn [return_events]; [within_tac|]. intros s r s' Hs.
  apply E_bind_cases in Hs as [(st & s1 & Hst & Hs)|(c & Hst & ->)];
    apply sink_state_inv in Hst as (st0 & _ & Hst0 & Hv & ->); [|done]. injection Hv as ->.
  destruct (eventBuffers st0) as [|buf rest] eqn:He; [by injection Hs as _ <-|].
  eapply posted in Hs; [exact Hs|done..].
Qed.
Hint Resolve return_events_stable : trace.
Lemma Stop_stable k g h : within (stable k g h) (Stop k : T unit).
Proof. unfold Stop, stopDevice. within_tac. Qed.
Lemma SendStateEvent_stable k g h ty :
  ty <> CSTRACE_EVENT_TYPE_DATA -> within (stable k g h) (SendStateEvent k ty : T unit).
Proof. intros Hty. unfold SendStateEvent. apply within_bind; [within_tac|]. intros _. by apply doSendStateEvent_stable. Qed.
Lemma completeUsbTransfer_stable k g h t st n : within (stable k g h) (completeUsbTransfer k t st n : T bool).
Proof.
  assert (Hev := doSendStateEvent_stable k g h CSTRACE_EVENT_TYPE_END_OF_DATA ltac:(done)).
  unfold completeUsbTransfer. within_tac.
Qed.
End methods.
#[export] Hint Resolve attach_sink_stable Flush_stable Stop_stable SendStateEvent_stable completeUsbTransfer_stable
  submitControl_stable startDevice_stable check_stable connected_stable get_buf_stable
  sink_state_stable sink_details_stable doCancel_stable GetState_stable : trace.

(** ** Submitting a buffer *)

Section submit.
Context {D : Type} `{USBDeviceLaws D dest}.
Implicit Types (s : Trace D) (S : Sys D) (g : gmap Z Z) (h : list Z).
Abbreviation T := (E (Trace D)).

Lemma submitBuffer_stable k g h j buf : within (stable k g h) (submitBuffer j buf : T unit).
Proof.
  unfold submitBuffer. apply within_bind; [within_tac|]. intros st. apply within_bind; [within_tac|]. intros b.
  case_match; [|within_tac]. intros s r s' Hs.
  apply E_bind_cases in Hs as [(t & s1 & Ht & Hs)|(c & Ht & ->)];
    unfold on_dev, zoom in Ht; destruct (dev_submitQueuedReadTransfer _ _ _ _) as [[r0 d]|] eqn:He; try done;
    injection Ht as -> <-; apply submit_queued_law in He as [_ Hr].
  - injection Hs as _ <-. apply stable_dev; simpl; try done; [set_solver|].
    intros u p. destruct Hr as [_ ->]. intros [[= -> _]|Hin]%elem_of_cons; [right; set_solver|by left].
  - by apply stable_perm.
Qed.
Lemma submit_loop_stable n k g h : within (stable k g h) (submit_loop n k : T unit).
Proof.
  induction n as [|n IH]; [apply within_ret|]. intros s r s' Hs. cbn [submit_loop] in Hs.
  run_inv. destruct (queuedBuffers _) as [|buf rest] eqn:Hq; [by run_inv|]. case_match; [|by run_inv].
  match goal with Hst : m_sinkState s !! _ = Some ?st |- _ => rename st into st0; rename Hst into Hst0 end.
  apply E_bind_cases in Hs as [(u & s1 & Hb & Hs)|(c & Hb & ->)]; [|by apply (submitBuffer_stable k g h) in Hb].
  assert (Hk := submitBuffer_keeps _ _ _ _ _ Hb). injection Hk as _ _ Hss _ _.
  apply (submitBuffer_stable k g h) in Hb.
  apply E_bind_cases in Hs as [(u' & s2 & Hu & Hs)|(c & Hu & ->)]; apply upd_sink_inv in Hu as (st1 & _ & Hst1 & [=] & ->).
  etrans; [exact Hb|]. etrans; [|by eapply IH]. eapply stable_put; [exact Hst1| |done].
  rewrite Hss, Hst0 in Hst1. injection Hst1 as <-. unfold st_buffers. simpl. rewrite Hq.
  apply Permutation_submseteq. solve_Permutation.
Qed.
(** Submitting leaves the memory of the client alone. *)
Lemma submitBuffer_bufs j buf s r s' : submitBuffer j buf s = Some (r, s') -> client_bufs s' = client_bufs s.
Proof.
  unfold submitBuffer. intros Hs.
  apply E_bind_cases in Hs as [(st & s1 & Hst & Hs)|(c & Hst & ->)];
    apply sink_state_inv in Hst as (st0 & _ & _ & _ & ->); [|done].
  apply E_bind_cases in Hs as [(b & s1 & Hb & Hs)|(c & Hb & ->)];
    apply get_buf_inv in Hb as (b0 & _ & _ & ->); [|done].
  destruct (transportID st); [|done].
  apply E_bind_cases in Hs as [(t & s1 & Ht & Hs)|(c & Ht & ->)];
    unfold on_dev, zoom in Ht; destruct (dev_submitQueuedReadTransfer _ _ _ _) as [[r0 d]|]; try done;
    injection Ht as -> <-; [|done]. by injection Hs as _ <-.
Qed.
Lemma submit_loop_bufs n k s r s' : submit_loop n k s = Some (r, s') -> client_bufs s' = client_bufs s.
Proof.
  revert s. induction n as [|n IH]; intros s Hs; [by injection Hs as _ <-|]. cbn [submit_loop] in Hs.
  run_inv. destruct (queuedBuffers _) as [|buf rest]; [by run_inv|]. case_match; [|by run_inv].
  apply E_bind_cases in Hs as [(u & s1 & Hb & Hs)|(c & Hb & ->)]; apply submitBuffer_bufs in Hb as He; [|done].
  rewrite <- He. apply E_bind_cases in Hs as [(u' & s2 & Hu & Hs)|(ex & Hu & _)];
    apply upd_sink_inv in Hu as (st1 & _ & _ & [=] & ->). by apply IH in Hs.
Qed.
Lemma submitBuffers_bufs k s r s' : submitBuffers k s = Some (r, s') -> client_bufs s' = client_bufs s.
Proof. unfold submitBuffers. intros Hs. run_inv. by eapply submit_loop_bufs. Qed.
Lemma submitBuffers_stable k g h : within (stable k g h) (submitBuffers k : T unit).
Proof. unfold submitBuffers. apply within_bind; [within_tac|]. intros st. apply submit_loop_stable. Qed.
Hint Resolve submitBuffers_stable : trace.
Lemma Start_stable k g h : within (stable k g h) (Start k : T unit).
Proof. unfold Start. within_tac. Qed.

(** No buffer in use has the address [p]. *)
Definition unused (g : gmap Z Z) (h : list Z) (p : Z) (st : SinkState) : Prop := Some p ∉ map (fun t => g !! t) (st_tokens h st).

Lemma map_fresh g n p l : Forall (fun t => t < n) l -> map (fun t => <[n := p]> g !! t) l = map (fun t => g !! t) l.
Proof.
  intros Hl. apply map_ext_in. intros t Ht%list_elem_of_In. rewrite list.Forall_forall in Hl. specialize (Hl t Ht).
  simpl in Hl. by rewrite lookup_insert_ne by lia.
Qed.
Lemma sink_ok_fresh g h n p st : Forall (fun t => t < n) (st_tokens h st) -> sink_ok g h st -> sink_ok (<[n := p]> g) h st.
Proof.
  intros Hl [Ho Hk Hd]. split; [| |by rewrite map_fresh].
  all: unfold st_tokens in Hl; apply Forall_app in Hl as [Hl1 Hl2].
  - apply Forall_fmap in Hl1. eapply list.Forall_impl; [apply list.Forall_and; split; [exact Ho|exact Hl1]|].
    intros b [Hb Hlt]. simpl in Hlt. by rewrite lookup_insert_ne by lia.
  - eapply list.Forall_impl; [apply list.Forall_and; split; [exact Hk|exact Hl2]|].
    intros t [Ht Hlt]. by rewrite lookup_insert_ne by lia.
Qed.
Lemma contents_fresh g m n p l : Forall (fun t => t < n) l -> map (content_of (<[n := p]> g) m) l = map (content_of g m) l.
Proof.
  intros Hl. apply map_ext_in. intros t Ht%list_elem_of_In. rewrite list.Forall_forall in Hl. specialize (Hl t Ht).
  simpl in Hl. unfold content_of. by rewrite lookup_insert_ne by lia.
Qed.

(** The buffer's memory may be written while it is not in use. *)
Lemma upd_buf_stable k g h p f s r s' st :
  m_sinkState s !! Z.to_nat k = Some st -> unused g h p st -> upd_buf p f s = Some (r, s') -> stable k g h s s'.
Proof.
  intros Hst Hun Hs [(st0 & Hst0 & Hok) Ho]. apply upd_buf_inv in Hs as (b & _ & _ & ->).
  rewrite Hst in Hst0. injection Hst0 as <-. split; [by split; [exists st|]|].
  unfold waiting_data. simpl. rewrite Hst, contents_other; [done|].
  apply list.Forall_forall. intros t Ht Hg. apply Hun. rewrite <- Hg.
  apply (list_elem_of_fmap_2 (fun t => g !! t)). unfold st_tokens. set_solver.
Qed.

(** A new buffer in a queue. *)
Lemma enqueue_stream k g h s st st' buf :
  m_sinkState s !! Z.to_nat k = Some st -> g !! buf_token buf = Some (buf_ptr buf) -> unused g h (buf_ptr buf) st ->
  st_buffers st' ≡ₚ buf :: st_buffers st -> completedEventTokens st' = completedEventTokens st ->
  stable k g h s (put_sink k st' s).
Proof.
  intros Hst Hg Hun Hb Hc [(st0 & Hst0 & [Hown Hk Hd]) Ho]. rewrite Hst in Hst0. injection Hst0 as <-.
  assert (Hi : m_sinkState (put_sink k st' s) !! Z.to_nat k = Some st')
    by (apply list_lookup_insert_eq; by eapply lookup_lt_Some).
  assert (Hr := st_ready_eq h _ _ Hc).
  split; [split; [|done]|unfold waiting_data; by rewrite Hi, Hst, Hr].
  exists st'. split; [exact Hi|]. split; [by rewrite Hb; constructor|by rewrite Hr|].
  unfold st_tokens. rewrite Hr, Hb. simpl. rewrite Hg. by constructor.
Qed.
Definition reset_buf (b : CSTraceEventBuffer) : CSTraceEventBuffer := mkEvBuf CSTRACE_EVENT_TYPE_NONE (eb_buf b) 0.
Lemma submit_checks_inv j p s r s' :
  submit_checks j p s = Some (r, s') ->
  (s' = s /\ exists c, r = Fail c) \/ exists u, upd_buf p reset_buf s = Some (u, s').
Proof.
  intros Hs. unfold submit_checks in Hs.
  assert (Hc : forall r0 s0, (CheckConnected : T unit) s = Some (r0, s0) -> s0 = s).
  { intros r0 s0 Hc. apply E_bind_cases in Hc as [(c & s1 & [= <- <-] & Hc)|(c & [=] & _)].
    revert Hc. unfold throw_if. case_match; by intros [= _ <-]. }
  apply E_bind_cases in Hs as [(u & s1 & H1 & Hs)|(c & H1 & ->)]; apply Hc in H1 as ->; [|left; eauto].
  apply E_bind_cases in Hs as [(u1 & s1 & H1 & Hs)|(c & H1 & ->)]; apply check_sink_same in H1 as ->; [|left; eauto].
  apply E_bind_cases in Hs as [(st & s1 & H1 & Hs)|(c & H1 & ->)];
    apply sink_state_inv in H1 as (st0 & _ & _ & Hv & ->); [|done].
  apply E_bind_cases in Hs as [(u2 & s1 & H1 & Hs)|(c & H1 & ->)].
  2: { unfold throw_if in H1. revert H1. case_match; intros [= _ <-]. left. eauto. }
  assert (s1 = s) as -> by (unfold throw_if in H1; case_match; by injection H1).
  apply E_bind_cases in Hs as [(u3 & s2 & H2 & [= <- <-])|(c & H2 & ->)]; right; eauto.
Qed.
Lemma enqueue_stable k g h ty status buf s st :
  m_sinkState s !! Z.to_nat k = Some st -> g !! buf_token buf = Some (buf_ptr buf) -> unused g h (buf_ptr buf) st ->
  forall r s', enqueue k ty status buf s = Some (r, s') -> stable k g h s s'.
Proof.
  intros Hst Hg Hun r s' Hs. unfold enqueue in Hs. case_match; [|case_match; [|by injection Hs as _ <-]].
  - apply E_bind_cases in Hs as [(u & s1 & Hu & Hs)|(c & Hu & ->)]; apply upd_sink_inv in Hu as (st0 & _ & Hst0 & [=] & ->).
    rewrite Hst in Hst0. injection Hst0 as <-.
    etrans; [|by case_decide; [exact (submitBuffers_stable k g h _ _ _ Hs)|injection Hs as _ <-]].
    eapply enqueue_stream; [done..| |done]. unfold st_buffers. simpl. solve_Permutation.
  - apply upd_sink_inv in Hs as (st0 & _ & Hst0 & _ & ->). rewrite Hst in Hst0. injection Hst0 as <-.
    eapply enqueue_stream; [done..| |done]. unfold st_buffers. simpl. solve_Permutation.
Qed.

Lemma SubmitEventBuffer_stream k g h ty p s r s' st :
  m_sinkState s !! Z.to_nat k = Some st -> Forall (fun t => t < m_nextToken s) (st_tokens h st) -> unused g h p st ->
  stream_ok k g h s -> SubmitEventBuffer k ty p s = Some (r, s') ->
  stream_ok k (<[m_nextToken s := p]> g) h s' /\
  waiting_data k (<[m_nextToken s := p]> g) h s' = waiting_data k g h s.
Proof.
  intros Hst Hfr Hun [(st0 & Hst0 & Hok) Ho] Hs. rewrite Hst in Hst0. injection Hst0 as <-.
  set (g' := <[m_nextToken s := p]> g).
  assert (Hg : stream_ok k g' h s) by (split; [exists st; split; [done|by apply sink_ok_fresh]|done]).
  assert (He : waiting_data k g h s = waiting_data k g' h s).
  { unfold waiting_data. rewrite Hst. unfold g'. rewrite contents_fresh; [done|].
    unfold st_tokens in Hfr. by apply Forall_app in Hfr as [_ ?]. }
  assert (Hun' : unused g' h p st) by (unfold unused, g'; by rewrite map_fresh).
  assert (Hgl : g' !! m_nextToken s = Some p) by apply lookup_insert_eq.
  rewrite He. cut (stable k g' h s s'); [intros Hst'; by apply Hst'|].
  clearbody g'. unfold SubmitEventBuffer in Hs.
  assert (Hchecks : forall r1 s1, submit_checks k p s = Some (r1, s1) ->
    stable k g' h s s1 /\ m_sinkState s1 = m_sinkState s /\ m_nextToken s1 = m_nextToken s).
  { intros r1 s1 [[-> _]|(u & Hu)]%submit_checks_inv; [done|]. split; [by eapply upd_buf_stable|].
    by apply upd_buf_inv in Hu as (b & _ & _ & ->). }
  apply E_bind_cases in Hs as [(stt & s1 & Hck & Hs)|(c & Hck & ->)]; destruct (Hchecks _ _ Hck) as (Hst1 & Hs1 & Hn1); [|done].
  etrans; [exact Hst1|]. unfold alloc_token in Hs.
  apply E_bind_cases in Hs as [(t & s2 & Ha & Hs)|(c & Ha & ->)];
    apply E_bind_cases in Ha as [(t0 & s0 & [= <- <-] & Ha)|(c0 & [=] & _)]; (case_match; [done|]); [|done].
  injection Ha as <- <-. etrans; [by apply (modify_stable k g' h (set_token (m_nextToken s1 + 1)) ltac:(done) s1 (Val tt))|].
  assert (Hen : exists r0, enqueue k ty stt (mkBuffer (m_nextToken s1) p) (set_token (m_nextToken s1 + 1) s1) = Some (r0, s')).
  { apply E_bind_cases in Hs as [(u & s3 & He' & [= _ <-])|(c & He' & _)]; eauto. }
  destruct Hen as [r0 Hen]. eapply enqueue_stable in Hen; [exact Hen| | |]; simpl.
  - by rewrite Hs1.
  - by rewrite Hn1.
  - done.
Qed.
End submit.
#[export] Hint Resolve submitBuffers_stable Start_stable : trace.

(** ** The data thread *)

Section thread.
Context {D : Type} `{USBDeviceLaws D dest}.
Implicit Types (s : Trace D) (S : Sys D) (g : gmap Z Z) (h : list Z).
Abbreviation T := (E (Trace D)).

(** The bytes of a completed transfer. *)
Definition data_of (c : completion dest) : list Z :=
  match c_status c with Transfer_SUCCESS | Transfer_IN_PROGRESS => c_data c | _ => [] end.

(** What the device delivers in the next turn of the data thread: the bytes of
    the oldest data transfer, if that is what completes. *)
Definition delivers s : list Z :=
  match m_dataThread s with
  | Some (mkThread _ (Waiting _)) =>
      match dev_completeTransfer (m_dev s) with
      | Completes c _ => if decide (head (m_dataTransferTokens s) = Some (c_token c)) then data_of c else []
      | _ => []
      end
  | _ => []
  end.

Lemma filled_contents c b b' : filled c b b' -> contents b' = data_of c.
Proof.
  intros [_ ->]. unfold contents, data_of. destruct (c_status c); simpl; try done.
  all: unfold splice; simpl; rewrite take_app_le by lia; apply take_ge; lia.
Qed.

Lemma write_dest_val c s x s' : write_dest c s <> Some (Fail x, s').
Proof.
  unfold write_dest. intros Hs. destruct (c_dest c); [|by case_match].
  apply E_bind_cases in Hs as [(b & s1 & Hb & Hs)|(y & Hb & _)].
  - case_match; [|done]. by apply upd_buf_inv in Hs as (b1 & _ & [=] & _).
  - by apply get_buf_inv in Hb as (b1 & _ & [=] & _).
Qed.

(** A completed transfer writes the memory of a pending buffer. *)
Lemma completes_pending k g h s c d' p st :
  aligned k s -> stream_ok k g h s -> dev_completeTransfer (m_dev s) = Completes c d' -> c_dest c = ToBuffer p ->
  m_sinkState s !! Z.to_nat k = Some st -> exists b, b ∈ st_buffers st /\ p = buf_ptr b.
Proof.
  intros Ha [_ Ho] Hc Hd Hst. destruct (complete_aligned _ _ _ _ Ha Hc) as (_ & _ & Hdest).
  assert (Hin : mkX (c_token c) (ToBuffer p) ∈ outstanding (m_dev s)).
  { apply complete_law in Hc as [-> _]. rewrite Hd. set_solver. }
  apply Ho, list_elem_of_lookup in Hin as (i & Hi). destruct Ha as [_ (st0 & Hst0 & Hf) _ _ _].
  rewrite Hst in Hst0. injection Hst0 as <-.
  destruct (Forall2_lookup_l _ _ _ _ _ Hf Hi) as (b & Hb & Ht). exists b. split.
  - apply list_elem_of_lookup_2 in Hb. unfold st_buffers. set_solver.
  - apply Hdest in Ht. rewrite Hd in Ht. by injection Ht.
Qed.
Lemma write_dest_stable k g h s c d' r s' :
  aligned k s -> dev_completeTransfer (m_dev s) = Completes c d' ->
  write_dest c (set_dev d' s) = Some (r, s') -> stable k g h s s'.
Proof.
  intros Ha Hc Hs Hok. destruct r as [u|x]; [|by apply write_dest_val in Hs].
  assert (Hout : forall t p, mkX t (ToBuffer p) ∈ outstanding d' -> t ∈ m_dataTransferTokens s).
  { intros t p Hin. apply (so_out _ _ _ _ Hok t p). apply complete_law in Hc as [-> _]. set_solver. }
  apply write_dest_inv in Hs as [(l & -> & _)|(p & b & Hd & Hb & _ & ->)].
  - split; [|done]. by destruct Hok; split.
  - assert (Hok' := Hok). destruct Hok' as [(st & Hst & Hsk) _].
    split; [split; [by exists st|exact Hout]|]. unfold waiting_data. simpl. rewrite Hst.
    destruct (completes_pending _ _ _ _ _ _ _ _ Ha Hok Hc Hd Hst) as (b1 & Hb1 & ->).
    by rewrite contents_other by by eapply busy_other.
Qed.

(** Another transfer than the oldest completes. *)
Lemma unexpected_stable k g h s buf c d' r s' :
  aligned k s -> dev_completeTransfer (m_dev s) = Completes c d' ->
  head (m_dataTransferTokens s) <> Some (c_token c) ->
  waitForBuffer k buf c (set_dev d' s) = Some (r, s') -> stable k g h s s' /\ r <> Val GotBuffer.
Proof.
  intros Ha Hc Hne Hs. unfold waitForBuffer in Hs.
  apply E_bind_cases in Hs as [(u & s1 & Hw & Hs)|(x & Hw & ->)]; [|by apply write_dest_val in Hw].
  assert (Htok : m_dataTransferTokens s1 = m_dataTransferTokens s).
  { by apply write_dest_inv in Hw as [(l & -> & _)|(p & b & _ & _ & _ & ->)]. }
  eapply write_dest_stable in Hw; [|exact Ha|exact Hc].
  apply E_bind_cases in Hs as [(ctrl & s2 & [= <- <-] & Hs)|(x & [=] & _)].
  apply E_bind_cases in Hs as [(toks & s2 & [= <- <-] & Hs)|(x & [=] & _)].
  case_match eqn:H1; [injection Hs as <- <-; done|]. case_match eqn:H2.
  - apply E_bind_cases in Hs as [(ok & s2 & Hcu & Hs)|(x & Hcu & ->)];
      apply (completeUsbTransfer_stable k g h) in Hcu.
    + destruct ok; injection Hs as <- <-; (split; [by etrans|done]).
    + split; [by etrans|done].
  - case_match eqn:H3; [|injection Hs as <- <-; done]. exfalso. apply Z.eqb_eq in H3. apply Z.eqb_neq in H1.
    rewrite Htok in H3. destruct (m_dataTransferTokens s) as [|t l]; simpl in *; congruence.
Qed.

(** The oldest transfer completes. *)
Lemma expected_got k s buf c d' r s' :
  aligned k s -> oldest k buf s -> dev_completeTransfer (m_dev s) = Completes c d' ->
  head (m_dataTransferTokens s) = Some (c_token c) ->
  waitForBuffer k buf c (set_dev d' s) = Some (r, s') ->
  r = Val GotBuffer /\ exists b b', filled c b b' /\
    s' = set_bufs (<[buf_ptr buf := b']> (client_bufs s)) (set_transfers (tail (m_dataTransferTokens s)) (set_dev d' s)).
Proof.
  intros Ha (st & rest & Hst & Hp) Hc Hh Hs. assert (Htok := fun u => aligned_tokens k s u Ha).
  destruct (complete_aligned _ _ _ _ Ha Hc) as (_ & _ & Hdest).
  destruct Ha as [_ (st0 & Hst0 & Hf) [_ Hctl] _ _]. rewrite Hst in Hst0. injection Hst0 as <-.
  rewrite Hp in Hf. apply Forall2_cons_inv_r in Hf as (t & ts & Ht & _ & Htoks).
  rewrite Htoks in Hh, Htok, Hctl |- *. injection Hh as ->. apply Hdest in Ht.
  assert (H0' := Htok (c_token c) ltac:(set_solver)).
  assert (Hne : c_token c <> m_controlToken s) by (intros He; rewrite He in Hctl; set_solver).
  unfold waitForBuffer in Hs.
  apply E_bind_cases in Hs as [(u & s1 & Hw & Hs)|(x & Hw & ->)]; [|by apply write_dest_val in Hw].
  apply write_dest_inv in Hw as [(l & _ & Hd)|(p & b & Hd & Hb & Hlen & ->)]; [congruence|].
  rewrite <- Ht in Hd. injection Hd as <-.
  apply E_bind_cases in Hs as [(ctrl & s2 & [= <- <-] & Hs)|(x & [=] & _)].
  apply E_bind_cases in Hs as [(toks & s2 & [= <- <-] & Hs)|(x & [=] & _)]. simpl in Hs.
  rewrite Htoks in Hs. simpl in Hs.
  rewrite (proj2 (Z.eqb_neq (c_token c) (-1))), (proj2 (Z.eqb_neq _ _) Hne), Z.eqb_refl in Hs by lia.
  apply E_bind_cases in Hs as [(u1 & s1 & [= _ <-] & Hs)|(x & [=] & _)].
  apply E_bind_cases in Hs as [(u2 & s1 & Hu & Hs)|(x & Hu & ->)]; apply upd_buf_inv in Hu as (b2 & Hb2 & Hv & ->);
    [|done]. simpl in Hb2. rewrite lookup_insert_eq in Hb2. injection Hb2 as <-. injection Hs as <- <-.
  split; [done|]. exists b. eexists. split; [by split|].
  unfold set_bufs, set_transfers, set_dev. simpl. by rewrite insert_insert_eq.
Qed.

(** The buffer that was filled leaves the queue: the thread holds its token. *)
Lemma pop_stream k g s s1 d' st buf rest b' :
  stream_ok k g [] s -> m_sinkState s !! Z.to_nat k = Some st -> pendingBuffers st = buf :: rest ->
  NoDup (map x_token (outstanding (m_dev s))) ->
  (exists c, dev_completeTransfer (m_dev s) = Completes c d' /\ head (m_dataTransferTokens s) = Some (c_token c)) ->
  m_sinkState s1 = m_sinkState s -> client_bufs s1 = <[buf_ptr buf := b']> (client_bufs s) ->
  m_dataTransferTokens s1 = tail (m_dataTransferTokens s) -> m_dev s1 = d' ->
  let s2 := put_sink k (set_pendings (tail (pendingBuffers st)) st) s1 in
  stream_ok k g [buf_token buf] s2 /\
  waiting_data k g [buf_token buf] s2 = waiting_data k g [] s ++ contents b'.
Proof.
  intros [(st0 & Hst0 & Hok) Ho] Hst Hp Hnd (c & Hc & Hh) Hs Hb Ht Hd s2. rewrite Hst in Hst0. injection Hst0 as <-.
  assert (Hbuf : buf ∈ st_buffers st) by (unfold st_buffers; rewrite Hp; set_solver).
  assert (Hi : m_sinkState s2 !! Z.to_nat k = Some (set_pendings (tail (pendingBuffers st)) st)).
  { simpl. rewrite Hs. apply list_lookup_insert_eq. by eapply lookup_lt_Some. }
  assert (Hg : g !! buf_token buf = Some (buf_ptr buf)).
  { assert (Hown := sk_owner _ _ _ Hok). rewrite list.Forall_forall in Hown. by apply Hown. }
  split; [split|].
  - eexists. split; [exact Hi|]. assert (Hok' := Hok). destruct Hok' as [Hown Hk Hdis].
    unfold st_tokens, st_ready, st_buffers in *. rewrite Hp in Hown, Hdis. simpl in Hown, Hdis.
    split; unfold st_tokens, st_ready, st_buffers; simpl; rewrite ?Hp; simpl.
    + by inversion Hown.
    + rewrite app_nil_r in Hk. apply Forall_app. split; [done|]. repeat constructor. by exists (buf_ptr buf).
    + eapply (NoDup_map_sub (fun t => g !! t) _ (buf_token buf :: _)); [exact Hdis|].
      apply Permutation_submseteq. solve_Permutation.
  - intros t p. simpl. rewrite Hd, Ht. intros Hin.
    assert (Hperm := proj1 (complete_law _ _ _ Hc)). rewrite Hperm in Hnd. simpl in Hnd.
    apply list.NoDup_cons in Hnd as [Hni _].
    assert (Hin' : t ∈ m_dataTransferTokens s) by (apply (Ho t p); rewrite Hperm; set_solver).
    destruct (m_dataTransferTokens s) as [|x l]; [done|]. injection Hh as ->. simpl.
    apply elem_of_cons in Hin' as [->|?]; [|done]. exfalso. apply Hni. by apply (list_elem_of_fmap_2 x_token) in Hin.
  - unfold waiting_data. rewrite Hi, Hst. unfold st_ready. simpl. rewrite Hb.
    assert (Hoth := busy_other _ _ _ _ Hok Hbuf). unfold st_ready in Hoth. rewrite app_nil_r in *.
    rewrite map_app, concat_app, contents_other by done. f_equal. simpl.
    unfold content_of. rewrite Hg. simpl. rewrite lookup_insert_eq. simpl. by rewrite app_nil_r.
Qed.

(** The token is given to the client, or lost. *)
Lemma finish_stream k g s st t :
  m_sinkState s !! Z.to_nat k = Some st -> stream_ok k g [t] s ->
  let s' := put_sink k (set_completed (completedEventTokens st ++ [t]) st) s in
  stream_ok k g [] s' /\ waiting_data k g [] s' = waiting_data k g [t] s.
Proof.
  intros Hst [(st0 & Hst0 & [Hown Hk Hd]) Ho] s'. rewrite Hst in Hst0. injection Hst0 as <-.
  assert (Hi : m_sinkState s' !! Z.to_nat k = Some (set_completed (completedEventTokens st ++ [t]) st)).
  { apply list_lookup_insert_eq. by eapply lookup_lt_Some. }
  unfold waiting_data. rewrite Hi, Hst. unfold st_tokens, st_ready in *. simpl. rewrite app_nil_r.
  split; [|done]. split; [|done]. eexists. split; [exact Hi|].
  split; unfold st_tokens, st_ready; simpl; rewrite ?app_nil_r; done.
Qed.
Lemma lose_stream k g s t :
  stream_ok k g [t] s ->
  stream_ok k g [] s /\ waiting_data k g [t] s = waiting_data k g [] s ++ content_of g (client_bufs s) t.
Proof.
  intros [(st & Hst & [Hown Hk Hd]) Ho]. unfold waiting_data. rewrite Hst. unfold st_ready.
  rewrite app_nil_r, map_app, concat_app. simpl. rewrite app_nil_r. split; [|done].
  split; [|done]. exists st. split; [done|]. unfold st_tokens, st_ready in *.
  split; unfold st_tokens, st_ready; rewrite ?app_nil_r; [done|by apply Forall_app in Hk as [? _]|].
  eapply NoDup_map_sub; [exact Hd|]. by apply submseteq_app, submseteq_inserts_r.
Qed.

(** Nothing is lost, or it is what was delivered and the thread stops. *)
Definition delivered_to (k : Z) g s s' (d : list Z) (ok : Prop) : Prop :=
  stream_ok k g [] s' /\
  exists lost, waiting_data k g [] s ++ d = waiting_data k g [] s' ++ lost /\
    (lost = [] \/ ok /\ lost = d).

Lemma complete_event_stream k g s s1 d' st buf rest b' r s' :
  stream_ok k g [] s -> m_sinkState s !! Z.to_nat k = Some st -> pendingBuffers st = buf :: rest ->
  NoDup (map x_token (outstanding (m_dev s))) ->
  (exists c, dev_completeTransfer (m_dev s) = Completes c d' /\ head (m_dataTransferTokens s) = Some (c_token c)) ->
  s1 = set_bufs (<[buf_ptr buf := b']> (client_bufs s)) (set_transfers (tail (m_dataTransferTokens s)) (set_dev d' s)) ->
  complete_event k buf s1 = Some (r, s') ->
  delivered_to k g s s' (contents b') (exists x, r = Fail x).
Proof.
  intros Hok Hst Hp Hnd Hc -> Hs. unfold complete_event in Hs.
  apply E_bind_cases in Hs as [(b & s2 & Hb & Hs)|(x & Hb & ->)];
    apply get_buf_inv in Hb as (b1 & _ & Hv & ->); [|done].
  apply E_bind_cases in Hs as [(u & s2 & Hdump & Hs)|(x & [=] & _)].
  assert (Hs2 : m_sinkState s2 = m_sinkState s /\ client_bufs s2 = <[buf_ptr buf := b']> (client_bufs s) /\
    m_dataTransferTokens s2 = tail (m_dataTransferTokens s) /\ m_dev s2 = d').
  { injection Hdump as _ <-. by case_match. }
  destruct Hs2 as (Hss & Hcb & Htt & Hdd).
  destruct (pop_stream k g s s2 d' st buf rest b' Hok Hst Hp Hnd Hc Hss Hcb Htt Hdd) as [Hok3 Hw3].
  apply E_bind_cases in Hs as [(u1 & s3 & Hu & Hs)|(x & Hu & ->)]; apply upd_sink_inv in Hu as (st0 & _ & Hst0 & Hv2 & ->);
    [|done]. rewrite Hss, Hst in Hst0. injection Hst0 as <-.
  set (s3 := put_sink _ _ _) in *.
  apply E_bind_cases in Hs as [(st1 & s4 & Hst1 & Hs)|(x & Hst1 & ->)];
    apply sink_state_inv in Hst1 as (st2 & _ & _ & Hv3 & ->); [|done].
  assert (Hbufs : forall rr s5, (if decide (status st1 = ACTIVE) then submitBuffers k else mret tt : T unit) s3 = Some (rr, s5) ->
    client_bufs s5 = client_bufs s3).
  { intros rr s5. case_decide; [by apply submitBuffers_bufs|by intros [= _ ->]]. }
  assert (Hsub : within (stable k g [buf_token buf]) (if decide (status st1 = ACTIVE) then submitBuffers k else mret tt : T unit)).
  { case_decide; [apply submitBuffers_stable|within_tac]. }
  apply E_bind_cases in Hs as [(u2 & s4 & Hu' & Hs)|(x & Hu' & ->)]; apply Hsub in Hu' as Hu; destruct (Hu Hok3) as [Hok4 Hw4].
  - apply upd_sink_inv in Hs as (st4 & _ & Hst4 & -> & ->).
    destruct (finish_stream k g s4 st4 (buf_token buf) Hst4 Hok4) as [Hok5 Hw5].
    split; [exact Hok5|]. exists []. split; [|by left]. by rewrite app_nil_r, Hw5, Hw4, Hw3.
  - destruct (lose_stream _ _ _ _ Hok4) as [Hok5 Hw5]. split; [exact Hok5|].
    eexists. rewrite <- Hw3, <- Hw4, Hw5. split; [done|]. right. split; [by eauto|].
    unfold content_of. rewrite (Hbufs _ _ Hu').
    assert (Hg : g !! buf_token buf = Some (buf_ptr buf)).
    { destruct Hok as [(st5 & Hst5 & [Hown _ _]) _]. rewrite Hst in Hst5. injection Hst5 as <-.
      rewrite list.Forall_forall in Hown. apply Hown. unfold st_buffers. rewrite Hp. set_solver. }
    rewrite Hg. simpl. rewrite Hcb, lookup_insert_eq. done.
Qed.

Lemma quiet_at_stable k g j p : is_waiting p = false -> within (stable k g []) (thread_at j p : T (option pc)).
Proof. intros Hp. destruct p; try done; unfold thread_at; within_tac. Qed.
Lemma set_thread_stable k g v s : stable k g [] s (set_thread v s).
Proof. by apply stable_same. Qed.

Lemma delivered_stable k g s s' (ok : Prop) : stream_ok k g [] s -> stable k g [] s s' -> delivered_to k g s s' [] ok.
Proof. intros Hok Hst. destruct (Hst Hok) as [Hok' Hw]. split; [done|]. exists []. rewrite Hw. auto. Qed.
Lemma delivered_mono k g s s1 s2 d (ok ok' : Prop) :
  delivered_to k g s s1 d ok -> stable k g [] s1 s2 -> (ok -> ok') -> delivered_to k g s s2 d ok'.
Proof.
  intros (Hok & lost & He & Hl) Hst Himp. destruct (Hst Hok) as [Hok2 Hw]. split; [done|].
  exists lost. rewrite Hw. tauto.
Qed.

Lemma waiting_stream k g buf s r s' :
  aligned k s -> oldest k buf s -> stream_ok k g [] s -> m_dataThread s = Some (mkThread k (Waiting buf)) ->
  thread_at k (Waiting buf) s = Some (r, s') -> delivered_to k g s s' (delivers s) (exists x, r = Fail x).
Proof.
  intros Ha Ho Hok Hth Hs. unfold delivers. rewrite Hth. simpl in Hs.
  apply E_bind_cases in Hs as [(d & s1 & [= <- <-] & Hs)|(x & [=] & _)].
  destruct (dev_completeTransfer (m_dev s)) as [|c d'| |] eqn:Hc;
    [injection Hs as _ <-; by apply delivered_stable| |injection Hs as _ <-; by apply delivered_stable|done].
  apply E_bind_cases in Hs as [(u & s1 & [= _ <-] & Hs)|(x & [=] & _)].
  case_decide as Hh.
  - assert (Hnd := proj1 (al_dev _ _ Ha)). assert (Ho' := Ho). destruct Ho' as (st & rest & Hst & Hp).
    apply E_bind_cases in Hs as [(w & s1 & Hw & Hs)|(x & Hw & ->)];
      (eapply expected_got in Hw as (Hr & b & b' & Hf & Hs1); [|done..]); [|done]. injection Hr as ->.
    rewrite <- (filled_contents _ _ _ Hf).
    apply E_bind_cases in Hs as [(u1 & s2 & He & [= <- <-])|(x & He & ->)].
    + eapply complete_event_stream in He; [|eassumption..|exists c; done|done].
      eapply delivered_mono; [exact He|done|]. by intros (y & [=]).
    + eapply complete_event_stream in He; [|eassumption..|exists c; done|done].
      eapply delivered_mono; [exact He|done|]. eauto.
  - apply E_bind_cases in Hs as [(w & s1 & Hw & Hs)|(x & Hw & ->)];
      (eapply (unexpected_stable k g []) in Hw as [Hst Hne]; [|done..]).
    + destruct w; [|done|]; injection Hs as _ <-; by apply delivered_stable.
    + by apply delivered_stable.
Qed.

Lemma thread_step_stream k g s u s' :
  stopped s \/ aligned k s -> thread_ok s -> stream_ok k g [] s -> thread_step s = Some (u, s') -> delivered_to k g s s' (delivers s) (stopped s').
Proof.
  intros Ha Hth Hok Hs. unfold thread_step in Hs. unfold thread_ok in Hth.
  assert (Hd : forall j p, m_dataThread s = Some (mkThread j p) -> is_waiting p = false -> delivers s = []).
  { intros j p He Hw. unfold delivers. rewrite He. by destruct p. }
  destruct (m_dataThread s) as [[j p]|] eqn:He.
  2: { injection Hs as _ <-. replace (delivers s) with (@nil Z) by (unfold delivers; by rewrite He).
       by apply delivered_stable. }
  destruct Hth as [_ Hp]. simpl in *. destruct (thread_at j p s) as [[r s1]|] eqn:Hat; [|done].
  assert (Hr : delivered_to k g s s1 (delivers s) (exists x, r = Fail x)).
  { destruct (is_waiting p) eqn:Hw.
    - destruct p; try done. destruct Ha as [Hst|Ha]; [unfold stopped in Hst; by rewrite He in Hst|].
      assert (j = k) as -> by (by apply (al_thread _ _ Ha (mkThread j (Waiting buf)))). by eapply waiting_stream.
    - rewrite (Hd j p) by done. apply delivered_stable; [done|]. by eapply quiet_at_stable. }
  destruct r as [[p'|]|x]; injection Hs as _ <-.
  - eapply delivered_mono; [exact Hr|by apply set_thread_stable|]. by intros (x & [=]).
  - eapply delivered_mono; [exact Hr|done|]. by intros (x & [=]).
  - eapply delivered_mono; [exact Hr|by apply set_thread_stable|]. by intros _.
Qed.
End thread.

(** ** Turns and runs *)

Section runs.
Context {D : Type} `{USBDeviceLaws D dest}.
Implicit Types (s : Trace D) (S : Sys D) (g : gmap Z Z) (h : list Z).
Abbreviation T := (E (Trace D)).

Definition delivered_by (t : turn) S : list Z :=
  match t with TThread => delivers (s_trace S) | _ => [] end.
Fixpoint delivered (ts : list turn) S : list Z :=
  match ts with
  | [] => []
  | t :: ts' => match step t S with Some (_, S') => delivered_by t S ++ delivered ts' S' | None => [] end
  end.

(** The same, delivery by delivery. *)
Fixpoint deliveries (ts : list turn) S : list (list Z) :=
  match ts with
  | [] => []
  | t :: ts' => match step t S with Some (_, S') => delivered_by t S :: deliveries ts' S' | None => [] end
  end.
Lemma deliveries_delivered ts S : concat (deliveries ts S) = delivered ts S.
Proof.
  revert S. induction ts as [|t ts IH]; intros S; simpl; [done|]. destruct (step t S) as [[o S1]|]; [|done].
  simpl. by rewrite IH.
Qed.

(** The address of a buffer is noted under the token that it will get. *)
Definition owners (t : turn) S g : gmap Z Z :=
  match t, s_client S with
  | TCall (CSubmitEventBuffer _ _ p), Idle => <[m_nextToken (s_trace S) := p]> g
  | _, _ => g
  end.

(** The bytes of the buffer whose token a turn returns. *)
Definition received_by (k : Z) g (t : turn) S (o : obs) : list Z :=
  concat (map (content_of g (client_bufs (s_trace S))) (returned_by (Z.to_nat k) t S o)).
Fixpoint received (k : Z) g (ts : list turn) S : list Z :=
  match ts with
  | [] => []
  | t :: ts' =>
      match step t S with
      | Some (o, S') => received_by k g t S o ++ received k (owners t S g) ts' S'
      | None => []
      end
  end.
Fixpoint owners_of (ts : list turn) S g : gmap Z Z :=
  match ts with
  | [] => g
  | t :: ts' => match step t S with Some (_, S') => owners_of ts' S' (owners t S g) | None => g end
  end.

(** What the client has to see to: a buffer is not submitted while in use. *)
Definition free_turn (k : Z) g (t : turn) S : Prop :=
  match t, s_client S with
  | TCall (CSubmitEventBuffer _ _ p), Idle =>
      match m_sinkState (s_trace S) !! Z.to_nat k with Some st => unused g [] p st | None => True end
  | _, _ => True
  end.
#[export] Instance free_turn_dec k g t S : Decision (free_turn k g t S).
Proof. unfold free_turn, unused. repeat case_match; apply _. Defined.
Fixpoint well_used (k : Z) g (ts : list turn) S : Prop :=
  match ts with
  | [] => True
  | t :: ts' =>
      free_turn k g t S /\
      match step t S with Some (_, S') => well_used k (owners t S g) ts' S' | None => True end
  end.
#[export] Instance well_used_dec k g ts S : Decision (well_used k g ts S).
Proof.
  revert g S. induction ts as [|t ts IH]; intros g S; simpl; [apply _|].
  apply and_dec; [apply _|]. destruct (step t S) as [[o S']|]; [apply IH|apply _].
Defined.
(** The turns of a session of sink [k] in which the client sends no data
    events itself. *)
Definition stream_turn (k : Z) (t : turn) : Prop :=
  uses_sink k t /\ match t with TCall (CSendStateEvent _ ty) => ty <> CSTRACE_EVENT_TYPE_DATA | _ => True end.
Definition client_uses (k : Z) (c : client) : Prop :=
  match c with Idle => True | InWait j => j = k | _ => False end.

Record streaming (k : Z) g S : Prop := {
  sm_inv : Sys_inv S;
  sm_client : client_uses k (s_client S);
  sm_aligned : stopped (s_trace S) \/ aligned k (s_trace S);
  sm_stream : stream_ok k g [] (s_trace S);
}.

Lemma take_event_inv2 k none s r s' :
  take_event k none s = Some (r, s') ->
  none s = Some (r, s') \/
  exists st t rest, m_sinkState s !! Z.to_nat k = Some st /\ completedEventTokens st = t :: rest /\
    r = Val (Return t) /\ s' = put_sink k (set_completed rest st) s.
Proof.
  intros Hs. unfold take_event in Hs.
  apply E_bind_cases in Hs as [(st & s1 & Hst & Hs)|(x & Hst & ->)];
    apply sink_state_inv in Hst as (st0 & _ & Hst & Hv & ->); [|done]. injection Hv as ->.
  destruct (completedEventTokens st0) as [|t rest] eqn:Hc; [by left|]. right.
  apply E_bind_cases in Hs as [(u & s1 & Hu & Hs)|(x & Hu & ->)];
    apply upd_sink_inv in Hu as (st1 & _ & Hst1 & Hv & ->); [|done].
  rewrite Hst in Hst1. injection Hst1 as <-. injection Hs as <- <-. eauto 8.
Qed.
Lemma take_stream k g s st t rest :
  m_sinkState s !! Z.to_nat k = Some st -> completedEventTokens st = t :: rest -> stream_ok k g [] s ->
  let s' := put_sink k (set_completed rest st) s in
  stream_ok k g [] s' /\ waiting_data k g [] s = content_of g (client_bufs s) t ++ waiting_data k g [] s'.
Proof.
  intros Hst Hc [(st0 & Hst0 & [Hown Hk Hd]) Ho] s'. rewrite Hst in Hst0. injection Hst0 as <-.
  assert (Hi : m_sinkState s' !! Z.to_nat k = Some (set_completed rest st)).
  { apply list_lookup_insert_eq. by eapply lookup_lt_Some. }
  unfold waiting_data. rewrite Hi, Hst. unfold st_tokens, st_ready in *. simpl. rewrite Hc in *. simpl in *.
  split; [|done]. split; [|done]. eexists. split; [exact Hi|].
  split; unfold st_tokens, st_ready; simpl; [done|by inversion Hk|].
  eapply NoDup_map_sub; [exact Hd|]. apply submseteq_app; [done|]. by apply submseteq_cons.
Qed.

(** A turn of a client that takes nothing. *)
Definition moved (k : Z) g g' S S' (rcv dlv : list Z) : Prop :=
  stream_ok k g' [] (s_trace S') /\
  exists lost, waiting_data k g [] (s_trace S) ++ dlv = rcv ++ waiting_data k g' [] (s_trace S') ++ lost /\
    (lost = [] \/ stopped (s_trace S') /\ lost = dlv).
Lemma stable_moved k g S S' :
  stream_ok k g [] (s_trace S) -> stable k g [] (s_trace S) (s_trace S') -> moved k g g S S' [] [].
Proof.
  intros Hok Hst. destruct (Hst Hok) as [Hok' Hw]. split; [done|]. exists []. rewrite Hw. simpl. auto.
Qed.

Lemma take_event_moved k g none s r s' c :
  (forall r s', none s = Some (r, s') -> s' = s /\ (forall v, observed r <> Some (Val v))) ->
  take_event k none s = Some (r, s') -> stream_ok k g [] s ->
  moved k g g (mkSys s c) (mkSys s' (after r))
    (match observed r with Some (Val v) => content_of g (client_bufs s) v | _ => [] end) [].
Proof.
  intros Hnone Hs Hok. apply take_event_inv2 in Hs as [Hs|(st & t & rest & Hst & Hc & -> & ->)].
  - apply Hnone in Hs as [-> Ho]. destruct (observed r) as [[v|]|] eqn:He; [by destruct (Ho v)|..];
      by apply stable_moved.
  - destruct (take_stream _ _ _ _ _ _ Hst Hc Hok) as [Hok' Hw]. split; [done|]. exists []. simpl.
    rewrite Hw, !app_nil_r. auto.
Qed.

Lemma tokens_fresh k s st :
  trace_inv s -> m_sinkState s !! Z.to_nat k = Some st -> Forall (fun t => t < m_nextToken s) (st_tokens [] st).
Proof.
  intros [_ _ _ _ Hf _] Hst. rewrite list.Forall_forall in Hf. apply list.Forall_forall. intros t Ht.
  apply Hf. unfold all_tokens. apply list_elem_of_In, in_concat. exists (q_tokens (abs st)). split.
  - apply in_map_iff. exists st. split; [done|]. by eapply list_elem_of_In, list_elem_of_lookup_2.
  - apply list_elem_of_In. revert Ht. unfold st_tokens, st_ready, st_buffers, q_tokens, abs. simpl.
    rewrite !map_app. set_solver.
Qed.

Lemma Attach_stable k g : within (stable k g []) (Attach k : T unit).
Proof.
  unfold Attach. apply within_bind; [within_tac|]. intros _. unfold start_thread.
  apply within_bind; [within_tac|]. intros [th|]; [within_tac|]. apply within_modify. intros s. apply set_thread_stable.
Qed.

Lemma received_none k g c S o : (forall j, c <> CWaitForEvent j) -> received_by k g (TCall c) S o = [].
Proof. intros Hc. unfold received_by, returned_by. destruct o as [[v|]|]; try done. destruct c; try done. by destruct (Hc sink). Qed.

Lemma call_moved k g c s r s' :
  stream_turn k (TCall c) -> trace_inv s -> stream_ok k g [] s -> free_turn k g (TCall c) (mkSys s Idle) ->
  start_call c s = Some (r, s') ->
  moved k g (owners (TCall c) (mkSys s Idle) g) (mkSys s Idle) (mkSys s' (after r))
    (received_by k g (TCall c) (mkSys s Idle) (observed r)) [].
Proof.
  intros [Hu Hty] Hi Hok Hfree Hs.
  assert (Hcall : forall {A} (m : T A) f, within (stable k g []) m -> start_call c = returns m f ->
    owners (TCall c) (mkSys s Idle) g = g -> (forall j, c <> CWaitForEvent j) ->
    moved k g (owners (TCall c) (mkSys s Idle) g) (mkSys s Idle) (mkSys s' (after r))
      (received_by k g (TCall c) (mkSys s Idle) (observed r)) []).
  { intros A m f Hm He -> Hc. rewrite received_none by done. rewrite He in Hs.
    apply returns_inv in Hs as (_ & r' & Hs). apply stable_moved; [done|]. by eapply Hm. }
  destruct c as [| |[]|j|j|j|j|j|j ty p|j|j ty]; simpl in Hu; subst; try done.
  - eapply (Hcall _ SetTraceDataCallback); [unfold SetTraceDataCallback; within_tac|done..].
  - eapply (Hcall _ ClearTraceDataCallback); [unfold ClearTraceDataCallback; within_tac|done..].
  - eapply (Hcall _ (Attach k)); [apply Attach_stable|done..].
  - eapply (Hcall _ (Start k)); [apply Start_stable|done..].
  - eapply (Hcall _ (Stop k)); [apply Stop_stable|done..].
  - eapply (Hcall _ (Flush k)); [apply Flush_stable|done..].
  - simpl in Hs. apply returns_inv in Hs as (_ & r' & Hs). rewrite received_none by done.
    assert (Hok' := Hok). destruct Hok' as [(st & Hst & _) _]. simpl in Hfree. simpl.
    eapply SubmitEventBuffer_stream in Hs as [Hok2 Hw];
      [|exact Hst|by eapply tokens_fresh|by rewrite Hst in Hfree|exact Hok].
    split; [exact Hok2|]. exists []. simpl. rewrite Hw. auto.
  - simpl in Hs. unfold WaitForEvent in Hs.
    assert (Hrcv : received_by k g (TCall (CWaitForEvent k)) (mkSys s Idle) (observed r) =
      match observed r with Some (Val v) => content_of g (client_bufs s) v | _ => [] end).
    { unfold received_by, returned_by. simpl. destruct (observed r) as [[v|]|]; try done.
      rewrite decide_True by done. simpl. by rewrite app_nil_r. }
    rewrite Hrcv. apply E_bind_cases in Hs as [(u & s1 & Hc & Hs)|(x & Hc & ->)]; apply check_sink_same in Hc as ->.
    + eapply take_event_moved; [|exact Hs|exact Hok]. by intros r0 s0 [= <- <-].
    + by apply stable_moved.
  - eapply (Hcall _ (SendStateEvent k ty)); [by apply SendStateEvent_stable|done..].
Qed.

Lemma resume_moved k g c b s r s' :
  client_uses k c -> stream_ok k g [] s -> resume c b s = Some (r, s') ->
  moved k g g (mkSys s c) (mkSys s' (after r)) (received_by k g (TResume b) (mkSys s c) (observed r)) [].
Proof.
  intros Hc Hok Hs. destruct c as [|j|j|j buf|j| |j]; try done; simpl in Hs.
  { injection Hs as <- <-. by apply stable_moved. }
  simpl in Hc. subst j.
  assert (Hrcv : received_by k g (TResume b) (mkSys s (InWait k)) (observed r) =
    match observed r with Some (Val v) => content_of g (client_bufs s) v | _ => [] end).
  { unfold received_by, returned_by. simpl. destruct (observed r) as [[v|]|]; try done.
    rewrite decide_True by done. simpl. by rewrite app_nil_r. }
  rewrite Hrcv.
  apply E_bind_cases in Hs as [(st & s1 & Hst & Hs)|(x & Hst & ->)];
    apply sink_state_inv in Hst as (st0 & _ & _ & Hv & ->); [|done].
  destruct b; [eapply take_event_moved; [|exact Hs|exact Hok]; by intros r0 s0 [= <- <-]|].
  case_decide; [injection Hs as <- <-; by apply stable_moved|].
  eapply take_event_moved; [|exact Hs|exact Hok]. by intros r0 s0 [= <- <-].
Qed.

Lemma client_uses_session k c : client_uses k c -> session_client c.
Proof. by destruct c. Qed.

Lemma take_after k none s r s' c :
  (forall r s', none s = Some (r, s') -> client_uses c (after r)) -> take_event k none s = Some (r, s') ->
  client_uses c (after r).
Proof.
  intros Hn Hs. apply take_event_inv2 in Hs as [Hs|(st & t & rest & _ & _ & -> & _)]; [by eapply Hn|done].
Qed.
Lemma step_client k t S o S' :
  uses_sink k t -> client_uses k (s_client S) -> step t S = Some (o, S') -> client_uses k (s_client S').
Proof.
  intros Hu Hc Hs. destruct S as [s c]. destruct t as [cl|b|]; simpl in Hs, Hc.
  - destruct c; try done; [|by injection Hs as _ <-].
    apply client_turn_eq in Hs as (r & s' & Hs & _ & ->). simpl.
    destruct cl as [| |[]|j|j|j|j|j|j ty p|j|j ty]; simpl in Hu; subst; try done; simpl in Hs.
    8: { unfold WaitForEvent in Hs. apply E_bind_cases in Hs as [(u & s1 & _ & Hs)|(x & _ & ->)]; [|done].
         eapply take_after; [|exact Hs]. by intros r0 s0 [= <- _]. }
    all: by apply returns_inv in Hs as (-> & _).
  - apply client_turn_eq in Hs as (r & s' & Hs & _ & ->). simpl.
    destruct c as [|j|j|j buf|j| |j]; try done; simpl in Hs, Hc; [by injection Hs as <- _|]. subst j.
    apply E_bind_cases in Hs as [(st & s1 & _ & Hs)|(x & _ & ->)]; [|done].
    destruct b; [eapply take_after; [|exact Hs]; by intros r0 s0 [= <- _]|].
    case_decide; [by injection Hs as <- _|]. eapply take_after; [|exact Hs]. by intros r0 s0 [= <- _].
  - destruct (thread_step s) as [[u s']|]; [|done]. by injection Hs as _ <-.
Qed.

(** One turn: what was waiting and what the device delivers is what the client
    gets and what is waiting then, and perhaps what is lost. *)
Lemma step_moved k g t S o S' :
  stream_turn k t -> streaming k g S -> free_turn k g t S -> step t S = Some (o, S') ->
  streaming k (owners t S g) S' /\
  exists lost, waiting_data k g [] (s_trace S) ++ delivered_by t S =
    received_by k g t S o ++ waiting_data k (owners t S g) [] (s_trace S') ++ lost /\
    (lost = [] \/ stopped (s_trace S') /\ lost = delivered_by t S).
Proof.
  intros Ht [Hi Hc Ha Hok] Hf Hs.
  assert (Hm : moved k g (owners t S g) S S' (received_by k g t S o) (delivered_by t S)).
  { destruct S as [s c]. destruct t as [cl|b|]; simpl in Hs, Hc.
    - destruct c; try done.
      + apply client_turn_eq in Hs as (r & s' & Hs & -> & ->). apply call_moved; try done. apply Hi.
      + injection Hs as <- <-. replace (owners (TCall cl) _ g) with g by (by destruct cl).
        by apply stable_moved.
    - apply client_turn_eq in Hs as (r & s' & Hs & -> & ->). by apply resume_moved.
    - destruct (thread_step s) as [[u s']|] eqn:Hts; [|done]. injection Hs as <- <-.
      eapply thread_step_stream in Hts; [|exact Ha|apply Hi|exact Hok]. exact Hts. }
  destruct Hm as (Hok' & Hl). split; [|exact Hl]. destruct Ht as [Hu _]. split.
  - by eapply step_inv.
  - by eapply step_client.
  - eapply step_aligned; [exact Hu|by eapply client_uses_session|exact Hi|exact Hs|exact Ha].
  - exact Hok'.
Qed.

Lemma connected_streaming k s : sys_inv Idle s -> connected k s -> streaming k ∅ (mkSys s Idle).
Proof.
  intros Hi Hc. split; [done..|right; by apply connected_aligned|]. destruct Hc as [[Ho _] Hs _ _].
  split; [|intros t p; simpl; rewrite Ho; by intros ?%not_elem_of_nil]. exists new_state. split; [done|].
  split; [constructor..|]. apply NoDup_nil_2.
Qed.
Lemma connected_waiting k g s : connected k s -> waiting_data k g [] s = [].
Proof. intros [_ Hs _ _]. unfold waiting_data. by rewrite Hs. Qed.

Lemma stopped_delivers S : stopped (s_trace S) -> forall t, delivered_by t S = [].
Proof.
  intros Hs t. unfold stopped, delivered_by, delivers in *. destruct t; try done.
  destruct (m_dataThread (s_trace S)) as [[j []]|]; done.
Qed.
Lemma step_stopped k g t S o S' :
  stream_turn k t -> streaming k g S -> step t S = Some (o, S') -> stopped (s_trace S) -> stopped (s_trace S').
Proof.
  intros [Hu _] [Hi Hc _ _] Hs.
  destruct (step_spec 0 t S o S') as (acts & Hsp); try done;
    [by eapply uses_sink_session|by eapply client_uses_session|apply Hi|]. apply Hsp.
Qed.

Lemma deliveries_none ts S d : delivered ts S = [] -> d ∈ deliveries ts S -> d = [].
Proof.
  rewrite <- deliveries_delivered. induction (deliveries ts S) as [|x l IH]; simpl; [by intros _ ?%not_elem_of_nil|].
  intros [-> Hl]%app_nil [->|Hd]%elem_of_cons; auto.
Qed.

Lemma run_moved k g ts S os S' :
  Forall (stream_turn k) ts -> streaming k g S -> well_used k g ts S -> run ts S = Some (os, S') ->
  (stopped (s_trace S) -> delivered ts S = [] /\ stopped (s_trace S')) /\
  streaming k (owners_of ts S g) S' /\
  exists lost, waiting_data k g [] (s_trace S) ++ delivered ts S =
    received k g ts S ++ waiting_data k (owners_of ts S g) [] (s_trace S') ++ lost /\
    (lost = [] \/ stopped (s_trace S') /\ lost ∈ deliveries ts S).
Proof.
  revert g S os. induction ts as [|t ts IH]; intros g S os Ht Hst Hw Hr.
  { injection Hr as _ <-. split; [done|]. split; [done|]. exists []. simpl. rewrite !app_nil_r. auto. }
  apply run_step in Hr as (o & S1 & os1 & Hs & Hr & ->). inversion Ht as [|? ? Ht1 Ht2]; subst.
  simpl in Hw. rewrite Hs in Hw. destruct Hw as [Hf Hw].
  destruct (step_moved k g t S o S1 Ht1 Hst Hf Hs) as (Hst1 & l1 & He1 & Hl1).
  destruct (IH _ _ _ Ht2 Hst1 Hw Hr) as (Hd2 & Hst2 & l2 & He2 & Hl2).
  cbn [delivered deliveries received owners_of]. rewrite Hs. split; [|split; [exact Hst2|]].
  - intros Hsto. rewrite (stopped_delivers S Hsto t). apply Hd2. exact (step_stopped k g t S o S1 Ht1 Hst Hs Hsto).
  - exists (l2 ++ l1). rewrite app_assoc, He1, <- !app_assoc.
    destruct Hl1 as [->|[Hsto ->]].
    + cbn [app]. rewrite app_nil_r. split; [by rewrite He2|]. destruct Hl2 as [->|[? ?]]; [by left|].
      right. split; [done|by right].
    + destruct (Hd2 Hsto) as [Hd Hsto'].
      assert (l2 = []) as ->.
      { destruct Hl2 as [->|[_ Hin]]; [done|]. by apply (deliveries_none ts S1 _ Hd). }
      rewrite Hd in He2. rewrite !app_nil_r in He2. cbn [app]. rewrite Hd, app_nil_r, app_assoc, He2, <- !app_assoc.
      split; [done|]. right. split; [done|by left].
Qed.

Lemma connect_step s o S' :
  step (TCall CConnect) (mkSys s Idle) = Some (o, S') -> o = Some (Val 0) ->
  exists s', Connect s = Some (Val tt, s') /\ S' = mkSys s' Idle.
Proof.
  simpl. intros Hs ->. apply client_turn_eq in Hs as (r & s1 & Hs & Ho & ->).
  unfold returns in Hs. apply E_bind_cases in Hs as [([] & s2 & Hs & [= <- <-])|(x & _ & ->)]; [eauto|done].
Qed.

End runs.

Definition stream_script : list (Z * Transfer_Status * list Z) :=
  [(1, Transfer_SUCCESS, [7; 8]); (2, Transfer_SUCCESS, [9]); (3, Transfer_SUCCESS, [5])].
(** Buffer 0 is received and submitted again. *)
Definition stream_turns : list turn :=
  [TCall (CAttach 0); TCall (CStart 0); TCall (CSubmitEventBuffer 0 3 0); TCall (CSubmitEventBuffer 0 3 1);
   TCall (CSubmitEventBuffer 0 1 2)] ++ threads 3 ++ [TCall (CWaitForEvent 0); TCall (CSubmitEventBuffer 0 3 0)] ++
  threads 6.
Definition stream_facts (s : Trace script_dev) : option (obs * bool * bool * list Z * list Z) :=
  let all := TCall CConnect :: stream_turns in
  p ← run all (mkSys s Idle);
  Some (default None (head p.1), bool_decide (well_used 0 ∅ all (mkSys s Idle)),
        match m_dataThread (s_trace p.2) with Some th => bool_decide (th_pc th = AtLoop) | None => false end,
        received 0 ∅ all (mkSys s Idle), delivered all (mkSys s Idle)).
Lemma stream_turns_run :
  match script_new 3 stream_script with Val s => stream_facts s | Fail _ => None end =
  Some (Some (Val 0), true, true, [7; 8], [7; 8; 9; 5]).
Proof. vm_compute. reflexivity. Qed.

