(* ===== verification/PlatIf.v ===== *)
(** The platform transport of the client ([cswp_client_plat_if.cpp]): the class
    [CSWPBase] with its USB and TCP transports, the thread that sorts what
    arrives over USB into responses and asynchronous messages, and the
    functions through which the client library calls it.

    [PlatIO] is what lies outside the file: the socket calls, the USB device
    class, and the read transfers that the USB device completes. *)
From S2P Require Import Prelude Wire CswpTypes CswpBuffer Memory ClientCommands ClientState ClientComplete ClientTransact UsbIf.

(** ** Exceptions

    [Terminate]: [std::terminate], which ends the process. *)

Inductive outcome (A : Type) :=
  | Ret (a : A)
  | CDebugEx (code : Z) (what : list Z)
  | USBException (what : list Z)
  | StdException (what : list Z)
  | Terminate.
Arguments Ret {A}.
Arguments CDebugEx {A}.
Arguments USBException {A}.
Arguments StdException {A}.
Arguments Terminate {A}.

(** ** The transport functions of a client *)

(** The public transport methods of [CSWPBase]. *)
Class BaseOps (T : Type) := {
  base_connect : T -> outcome Z * T;
  base_disconnect : T -> outcome unit * T;
  base_send : list Z -> T -> outcome Z * T;
  base_receive : Z -> T -> outcome Z * option (list Z) * T;
  base_receive_async : Z -> T -> outcome Z * option (list Z) * T;
}.

(** The [catch] clauses of the functions below: [e.what()] is passed on, with
    the code of a [CDebugEx] and [CSWP_COMMS] for any other exception. *)
Definition catch_ex {A} (f : A -> Z) (r : outcome A) : tres :=
  match r with
  | Ret a => TRet (f a)
  | CDebugEx c what => TThrow (int32 c) what
  | USBException what => TThrow CSWP_COMMS what
  | StdException what => TThrow CSWP_COMMS what
  | Terminate => TTerminate
  end.

Section wrappers.
Context {T : Type} `{BaseOps T}.

Definition cswp_transport_connect (t : T) : tres * T :=
  let (r, t') := base_connect t in (catch_ex id r, t').
Definition cswp_transport_disconnect (t : T) : tres * T :=
  let (r, t') := base_disconnect t in (catch_ex (fun _ => CSWP_SUCCESS) r, t').
Definition cswp_transport_send (data : list Z) (t : T) : tres * T :=
  let (r, t') := base_send data t in (catch_ex id r, t').
Definition cswp_transport_receive (size : Z) (t : T) : tres * option (list Z) * T :=
  let '(r, d, t') := base_receive size t in (catch_ex id r, d, t').
Definition cswp_transport_receive_async (size : Z) (t : T) : tres * option (list Z) * T :=
  let '(r, d, t') := base_receive_async size t in (catch_ex id r, d, t').
End wrappers.

(** The function pointers that [init_client_info] stores in the client. *)
#[export] Instance init_client_info {T} `{BaseOps T} : Transport T := {
  t_connect := Some cswp_transport_connect;
  t_disconnect := Some cswp_transport_disconnect;
  t_send := cswp_transport_send;
  t_receive := cswp_transport_receive;
  t_receive_async := cswp_transport_receive_async;
}.

(** ** State *)

Record transport_cfg_t := mkCfg {
  cfg_type : list Z;
  cfg_vid : Z;
  cfg_pid : Z;
  cfg_iid : Z;
  cfg_sid : Z;
  cfg_serial : list Z;
  cfg_ipaddr : list Z;
  cfg_portid : Z;
}.

(** A read transfer of the reading thread: it completes with a status and
    data, or the USB device throws. *)
Inductive read_event :=
  | ReadDone (status : Transfer_Status) (data : list Z)
  | ReadThrow.

Class PlatIO (U : Type) := {
  io_getaddrinfo : list Z -> Z -> U -> bool * U;
  io_inet_pton : list Z -> bool;
  io_socket : U -> Z * U;
  io_connect : Z -> U -> Z * U;
  io_send : Z -> list Z -> U -> Z * U;
  io_recv : Z -> Z -> U -> Z * list Z * U;
  io_close : Z -> U -> U;
  (** [USBDevice::create], [connect] and [getEndPoints] *)
  usb_open : transport_cfg_t -> U -> outcome (list USBEPInfo) * U;
  usb_disconnect : U -> outcome unit * U;
  (** [submitWriteTransfer] and its completion *)
  usb_write : Z -> list Z -> U -> outcome (Transfer_Status * Z) * U;
  (** [cancelTransfers], with the transfers of the reading thread that still
      complete before it has ended. *)
  usb_cancelTransfers : U -> list read_event * U;
  thread_create : U -> bool * U;
  (** The read transfers that complete before the deadline of a wait. *)
  usb_reads : U -> list read_event * U;
}.

(** [readThread]: whether a thread was started and not joined, that is whether
    [joinable()] holds. *)
Record CSWPBase (U : Type) := mkBase {
  m_cfg : transport_cfg_t;
  m_socket_fd : Z;
  m_epCmd : Z;
  m_epRsp : Z;
  m_usb : bool;
  readThread : bool;
  readThread_running : bool;
  respQ : list (list Z);
  asyncQ : list (list Z);
  io : U;
}.
Arguments mkBase {U}.
Arguments m_cfg {U}.
Arguments m_socket_fd {U}.
Arguments m_epCmd {U}.
Arguments m_epRsp {U}.
Arguments m_usb {U}.
Arguments readThread {U}.
Arguments readThread_running {U}.
Arguments respQ {U}.
Arguments asyncQ {U}.
Arguments io {U}.

Section base.
Context {U : Type} `{PlatIO U}.
Implicit Types s : CSWPBase U.

Definition is_usb s : bool := bool_decide (cfg_type (m_cfg s) = bytes_of "usb").

Definition set_io u s : CSWPBase U :=
  mkBase (m_cfg s) (m_socket_fd s) (m_epCmd s) (m_epRsp s) (m_usb s) (readThread s)
    (readThread_running s) (respQ s) (asyncQ s) u.
Definition set_fd fd s : CSWPBase U :=
  mkBase (m_cfg s) fd (m_epCmd s) (m_epRsp s) (m_usb s) (readThread s)
    (readThread_running s) (respQ s) (asyncQ s) (io s).
Definition set_eps c r s : CSWPBase U :=
  mkBase (m_cfg s) (m_socket_fd s) c r (m_usb s) (readThread s)
    (readThread_running s) (respQ s) (asyncQ s) (io s).
Definition set_usb b s : CSWPBase U :=
  mkBase (m_cfg s) (m_socket_fd s) (m_epCmd s) (m_epRsp s) b (readThread s)
    (readThread_running s) (respQ s) (asyncQ s) (io s).
Definition set_thread t r s : CSWPBase U :=
  mkBase (m_cfg s) (m_socket_fd s) (m_epCmd s) (m_epRsp s) (m_usb s) t
    r (respQ s) (asyncQ s) (io s).
Definition set_respQ q s : CSWPBase U :=
  mkBase (m_cfg s) (m_socket_fd s) (m_epCmd s) (m_epRsp s) (m_usb s) (readThread s)
    (readThread_running s) q (asyncQ s) (io s).
Definition set_asyncQ q s : CSWPBase U :=
  mkBase (m_cfg s) (m_socket_fd s) (m_epCmd s) (m_epRsp s) (m_usb s) (readThread s)
    (readThread_running s) (respQ s) q (io s).

(** ** Construction and destruction *)

(** The exceptions of [init_transport_info]. *)
Definition init_transport_info (cfg : transport_cfg_t) (u : U) : outcome unit * U :=
  if decide (cfg_type cfg = bytes_of "usb") then (Ret tt, u)
  else if decide (cfg_type cfg = bytes_of "tcp") then
    if negb (io_inet_pton (cfg_ipaddr cfg)) then
      (CDebugEx CSWP_COMMS (bytes_of "Invalid IPv4 address for TCPDevice"), u)
    else if (cfg_portid cfg <=? 0) || (65535 <? cfg_portid cfg) then
      (CDebugEx CSWP_COMMS (bytes_of "Invalid network port for TCPDevice"), u)
    else
      let (ok, u) := io_getaddrinfo (cfg_ipaddr cfg) (cfg_portid cfg) u in
      (if ok then Ret tt else CDebugEx CSWP_COMMS (bytes_of "getaddrinfo error"), u)
  else (CDebugEx CSWP_COMMS (bytes_of "Unsupported transport type."), u).

Definition CreateCSWP (cfg : transport_cfg_t) (u : U) : outcome (CSWPBase U) * U :=
  match init_transport_info cfg u with
  | (Ret _, u) => (Ret (mkBase cfg (-1) (-1) (-1) false false false [] [] u), u)
  | (CDebugEx c w, u) => (CDebugEx c w, u)
  | (USBException w, u) => (USBException w, u)
  | (StdException w, u) => (StdException w, u)
  | (Terminate, u) => (Terminate, u)
  end.

(** The destructor of the class destroys [readThread]: for a joinable thread
    that is [std::terminate], [None]. *)
Definition destroy s : option U := if readThread s then None else Some (io s).

(** ** The reading thread *)

Definition is_async_msg (data : list Z) : bool :=
  (7 <=? len data) && bool_decide (data !! 5%nat = Some 0x80) &&
  bool_decide (data !! 6%nat = Some 0x20).

(** What the thread does when its read transfer completes. *)
Definition listen (e : read_event) s : CSWPBase U :=
  if readThread_running s then
    match e with
    | ReadThrow => set_thread (readThread s) false s
    | ReadDone status data =>
        match status with
        | Transfer_CANCELLED | Transfer_NODATA => s
        | Transfer_SUCCESS =>
            if is_async_msg data then set_asyncQ (asyncQ s ++ [data]) s
            else set_respQ (respQ s ++ [data]) s
        | _ => set_thread (readThread s) false s
        end
    end
  else s.

(** ** Connecting *)

(** The last bulk endpoint of each direction. *)
Definition find_eps (eps : list USBEPInfo) (c r : Z) : Z * Z :=
  fold_left (fun '(c, r) ep =>
    if bool_decide (Z.land (ep_addr ep) 0x80 = 0) && bool_decide (ep_kind ep = EP_TYPE_BULK)
    then (ep_addr ep, r)
    else if bool_decide (Z.land (ep_addr ep) 0x80 = 0x80) && bool_decide (ep_kind ep = EP_TYPE_BULK)
    then (c, ep_addr ep) else (c, r)) eps (c, r).

(** Assigning to [readThread] while it is joinable is [std::terminate]. *)
Definition connect s : outcome Z * CSWPBase U :=
  if is_usb s then
    let (r, u) := usb_open (m_cfg s) (io s) in
    let s := set_usb true (set_io u s) in
    match r with
    | CDebugEx c w => (CDebugEx c w, s)
    | USBException w => (USBException w, s)
    | StdException w => (StdException w, s)
    | Terminate => (Terminate, s)
    | Ret eps =>
        let (c, r) := find_eps eps (m_epCmd s) (m_epRsp s) in
        let s := set_eps c r s in
        if c =? -1 then (USBException (bytes_of "Failed to find command endpoint"), s)
        else if r =? -1 then (USBException (bytes_of "Failed to find response endpoint"), s)
        else
          let (ok, u) := thread_create (io s) in
          if (ok : bool) then
            if readThread s then (Terminate, s)
            else (Ret CSWP_SUCCESS, set_thread true true (set_io u s))
          else (Ret CSWP_COMMS, set_thread (readThread s) false (set_io u s))
    end
  else
    let (fd, u) := io_socket (io s) in
    let s := set_fd fd (set_io u s) in
    if fd <? 0 then (CDebugEx CSWP_COMMS (bytes_of "Error creating socket"), s)
    else
      let (res, u) := io_connect fd (io s) in
      let s := set_io u s in
      if res <? 0 then (CDebugEx CSWP_COMMS (bytes_of "Error connecting to server"), s)
      else (Ret CSWP_SUCCESS, s).

(** What the thread reads until it has ended is still put into the queues, which
    nothing empties. *)
Definition disconnect s : outcome unit * CSWPBase U :=
  if is_usb s then
    let s := if readThread_running s then
               let (evs, u) := usb_cancelTransfers (io s) in
               set_thread false false (fold_left (fun s e => listen e s) evs (set_io u s))
             else s in
    if m_usb s then
      let (r, u) := usb_disconnect (io s) in (r, set_io u s)
    else (Ret tt, s)
  else if 0 <=? m_socket_fd s then
    (Ret tt, set_fd (-1) (set_io (io_close (m_socket_fd s) (io s)) s))
  else (Ret tt, s).

(** Connecting again while the reading thread of an earlier [connect] exists
    never succeeds: the thread object is overwritten while joinable. *)
Lemma connect_twice_fails s s' :
  is_usb s = true -> readThread s = true -> connect s <> (Ret CSWP_SUCCESS, s').
Proof.
  intros Hu Hr. unfold connect. rewrite Hu. destruct (usb_open _ _) as [[eps| | | |] u]; try done.
  destruct (find_eps _ _ _) as [c r]. destruct (c =? -1), (r =? -1); try done.
  destruct (thread_create _) as [[] u2]; [|done].
  change (readThread (set_eps c r (set_usb true (set_io u s)))) with (readThread s). by rewrite Hr.
Qed.
End base.

(** ** Sending and receiving *)

Section transfer.
Context {U : Type} `{PlatIO U}.
Implicit Types s : CSWPBase U.

Definition send (data : list Z) s : outcome Z * CSWPBase U :=
  if is_usb s then
    if m_epCmd s <? 0 then (Ret CSWP_NOT_INITIALIZED, s)
    else
      let (r, u) := usb_write (m_epCmd s) data (io s) in
      let s := set_io u s in
      match r with
      | Ret (status, used) =>
          if negb (bool_decide (status = Transfer_SUCCESS)) || (used <? len data) then
            (CDebugEx CSWP_TXFAILED (bytes_of "Failed to send command"), s)
          else (Ret CSWP_SUCCESS, s)
      | CDebugEx c w => (CDebugEx c w, s)
      | USBException w => (USBException w, s)
      | StdException w => (StdException w, s)
      | Terminate => (Terminate, s)
      end
  else if m_socket_fd s <? 0 then (Ret CSWP_NOT_INITIALIZED, s)
  else
    let (bytes_sent, u) := io_send (m_socket_fd s) data (io s) in
    let s := set_io u s in
    if negb (u64 bytes_sent =? len data) then
      (CDebugEx CSWP_COMMS (bytes_of "Sent bytes are not same as requested"), s)
    else (Ret CSWP_SUCCESS, s).

(** The loop that waits for a response while the reading thread handles the
    transfers [evs] that complete before the deadline; [false] is a timeout.
    The transfers that the wait did not need are left. *)
Fixpoint wait_resp (evs : list read_event) s : bool * list read_event * CSWPBase U :=
  if bool_decide (respQ s = []) && readThread_running s then
    match evs with
    | [] => (false, [], s)
    | e :: evs' => wait_resp evs' (listen e s)
    end
  else (true, evs, s).

(** What follows the loop. *)
Definition take_resp s : outcome Z * option (list Z) * CSWPBase U :=
  if negb (readThread_running s) then
    (USBException (bytes_of "receive thread exited."), None, s)
  else
    match respQ s with
    | resp :: q => (Ret CSWP_SUCCESS, Some resp, set_respQ q s)
    | [] => (Ret CSWP_SUCCESS, None, s)
    end.

(** The transfers left by the wait are handled before the next call. *)
Definition receive (size : Z) s : outcome Z * option (list Z) * CSWPBase U :=
  if is_usb s then
    let (evs, u) := usb_reads (io s) in
    let '(arrived, evs, s) := wait_resp evs (set_io u s) in
    let '(r, d, s) := if (arrived : bool) then take_resp s else (Ret CSWP_TIMEOUT, None, s) in
    (r, d, fold_left (fun s e => listen e s) evs s)
  else
    let '(bytes_received, data, u) := io_recv (m_socket_fd s) size (io s) in
    let s := set_io u s in
    if size <? u64 bytes_received then
      (CDebugEx CSWP_COMMS (bytes_of "Received bytes are not same as requested."), None, s)
    else (Ret CSWP_SUCCESS, Some data, s).

Definition receive_async (size : Z) s : outcome Z * option (list Z) * CSWPBase U :=
  if is_usb s then
    match asyncQ s with
    | [] => (Ret CSWP_ASYNC_MSG_END, None, s)
    | resp :: q => (Ret CSWP_ASYNC_MSG_LOG, Some resp, set_asyncQ q s)
    end
  else (Ret CSWP_ASYNC_MSG_END, None, s).
End transfer.

#[export] Instance base_ops {U} `{PlatIO U} : BaseOps (CSWPBase U) := {
  base_connect := connect;
  base_disconnect := disconnect;
  base_send := send;
  base_receive := receive;
  base_receive_async := receive_async;
}.

(** ** The two threads

    [plat_step] is one atomic step of the reading thread or of the thread that
    calls [receive] and [receive_async]; its label says which, with what was
    read or returned. *)

Inductive label :=
  | LRead (e : read_event)
  | LRecv (r : outcome Z) (d : option (list Z))
  | LRecvAsync (r : outcome Z) (d : option (list Z)).

Section threads.
Context {U : Type} `{PlatIO U}.
Implicit Types s : CSWPBase U.

Inductive plat_step : CSWPBase U -> label -> CSWPBase U -> Prop :=
  | step_read e s : plat_step s (LRead e) (listen e s)
  | step_recv s r d s' :
      respQ s <> [] \/ readThread_running s = false -> take_resp s = (r, d, s') ->
      plat_step s (LRecv r d) s'
  | step_timeout s :
      respQ s = [] -> readThread_running s = true ->
      plat_step s (LRecv (Ret CSWP_TIMEOUT) None) s
  | step_recv_async size s r d s' :
      is_usb s = true -> receive_async size s = (r, d, s') ->
      plat_step s (LRecvAsync r d) s'.

Inductive plat_steps : CSWPBase U -> list label -> CSWPBase U -> Prop :=
  | steps_nil s : plat_steps s [] s
  | steps_cons s l s1 ls s' :
      plat_step s l s1 -> plat_steps s1 ls s' -> plat_steps s (l :: ls) s'.

(** What the labels say: the transfers read, and the messages returned. *)
Definition reads : list label -> list read_event :=
  omap (fun l => match l with LRead e => Some e | _ => None end).
Definition delivered : list label -> list (list Z) :=
  omap (fun l => match l with LRecv _ d => d | _ => None end).
Definition delivered_async : list label -> list (list Z) :=
  omap (fun l => match l with LRecvAsync _ d => d | _ => None end).

(** The messages that arrive: those of the transfers that succeed before the
    first one that fails, while the thread runs. *)
Fixpoint arrivals (running : bool) (evs : list read_event) : list (list Z) :=
  match evs with
  | [] => []
  | e :: evs' =>
      if running then
        match e with
        | ReadDone Transfer_SUCCESS d => d :: arrivals true evs'
        | ReadDone Transfer_CANCELLED _ | ReadDone Transfer_NODATA _ => arrivals true evs'
        | _ => arrivals false evs'
        end
      else arrivals false evs'
  end.

Fixpoint alive (running : bool) (evs : list read_event) : bool :=
  match evs with
  | [] => running
  | e :: evs' =>
      alive (running &&
        match e with
        | ReadDone Transfer_SUCCESS _ | ReadDone Transfer_CANCELLED _
        | ReadDone Transfer_NODATA _ => true
        | _ => false
        end) evs'
  end.

Definition responses_of : list (list Z) -> list (list Z) :=
  filter (fun d => is_async_msg d = false).
Definition asyncs_of : list (list Z) -> list (list Z) :=
  filter (fun d => is_async_msg d = true).

Lemma arrivals_stopped evs : arrivals false evs = [].
Proof. by induction evs. Qed.
Lemma alive_stopped evs : alive false evs = false.
Proof. by induction evs. Qed.

(** The effect of the reading thread. *)
Lemma listen_queues e s evs :
  respQ s ++ responses_of (arrivals (readThread_running s) (e :: evs)) =
    respQ (listen e s) ++ responses_of (arrivals (readThread_running (listen e s)) evs) /\
  asyncQ s ++ asyncs_of (arrivals (readThread_running s) (e :: evs)) =
    asyncQ (listen e s) ++ asyncs_of (arrivals (readThread_running (listen e s)) evs) /\
  alive (readThread_running s) (e :: evs) = alive (readThread_running (listen e s)) evs.
Proof.
  unfold listen. destruct (readThread_running s) eqn:Hr; [|by rewrite Hr].
  destruct e as [[] d|]; simpl; rewrite ?Hr; try done.
  unfold responses_of, asyncs_of. destruct (is_async_msg d) eqn:Ha; simpl; rewrite Hr.
  - rewrite filter_cons_False, filter_cons_True by (by rewrite Ha). by rewrite <- app_assoc.
  - rewrite filter_cons_True, filter_cons_False by (by rewrite Ha). by rewrite <- app_assoc.
Qed.

Lemma take_resp_queues s r d s' :
  respQ s <> [] \/ readThread_running s = false -> take_resp s = (r, d, s') ->
  respQ s = option_list d ++ respQ s' /\ asyncQ s' = asyncQ s /\
  readThread_running s' = readThread_running s.
Proof.
  unfold take_resp. intros Hq Ht.
  destruct (readThread_running s) eqn:Hr; simpl in Ht; [|by simplify_eq].
  destruct (respQ s) as [|x q] eqn:Hs; [by destruct Hq|]. by simplify_eq.
Qed.

Lemma recv_async_queues size s r d s' :
  is_usb s = true -> receive_async size s = (r, d, s') ->
  asyncQ s = option_list d ++ asyncQ s' /\ respQ s' = respQ s /\
  readThread_running s' = readThread_running s.
Proof.
  unfold receive_async. intros -> Ht. destruct (asyncQ s) as [|x q] eqn:Hs; by simplify_eq.
Qed.

Lemma delivered_cons l ls : delivered (l :: ls) = delivered [l] ++ delivered ls.
Proof. destruct l as [|? []|? []]; done. Qed.
Lemma delivered_async_cons l ls : delivered_async (l :: ls) = delivered_async [l] ++ delivered_async ls.
Proof. destruct l as [|? []|? []]; done. Qed.

Lemma steps_queues s ls s' :
  plat_steps s ls s' ->
  respQ s ++ responses_of (arrivals (readThread_running s) (reads ls)) = delivered ls ++ respQ s' /\
  asyncQ s ++ asyncs_of (arrivals (readThread_running s) (reads ls)) = delivered_async ls ++ asyncQ s' /\
  readThread_running s' = alive (readThread_running s) (reads ls).
Proof.
  induction 1 as [s|s l s1 ls s2 Hl Hs (IH1 & IH2 & IH3)]; [by rewrite !app_nil_r|].
  rewrite delivered_cons, delivered_async_cons.
  destruct Hl as [e s|s r d s1 Hq Ht|s Hq Hr|size s r d s1 Hu Ht].
  - change (reads (LRead e :: ls)) with (e :: reads ls).
    destruct (listen_queues e s (reads ls)) as (-> & -> & ->). done.
  - change (reads (LRecv r d :: ls)) with (reads ls).
    destruct (take_resp_queues _ _ _ _ Hq Ht) as (-> & Ha & Hr). rewrite <- Ha, <- Hr.
    split_and!; [..|exact IH3]; destruct d; simpl; by rewrite ?IH1, ?IH2.
  - done.
  - change (reads (LRecvAsync r d :: ls)) with (reads ls).
    destruct (recv_async_queues _ _ _ _ _ Hu Ht) as (-> & Ha & Hr). rewrite <- Ha, <- Hr.
    split_and!; [..|exact IH3]; destruct d; simpl; by rewrite ?IH1, ?IH2.
Qed.
End threads.

Section refinement.
Context {U : Type} `{PlatIO U}.
Implicit Types s : CSWPBase U.

Lemma plat_steps_app s ls1 s1 ls2 s2 :
  plat_steps s ls1 s1 -> plat_steps s1 ls2 s2 -> plat_steps s (ls1 ++ ls2) s2.
Proof. induction 1; simpl; [done|]. intros. econstructor; eauto. Qed.

Lemma fold_listen_steps evs s :
  plat_steps s (LRead <$> evs) (fold_left (fun s e => listen e s) evs s).
Proof.
  revert s. induction evs as [|e evs IH]; intros s; simpl; [constructor|].
  econstructor; [constructor|apply IH].
Qed.

Lemma wait_resp_steps evs s b rest s1 :
  wait_resp evs s = (b, rest, s1) ->
  exists l, evs = l ++ rest /\ plat_steps s (LRead <$> l) s1 /\ is_usb s1 = is_usb s /\
    if b then respQ s1 <> [] \/ readThread_running s1 = false
    else rest = [] /\ respQ s1 = [] /\ readThread_running s1 = true.
Proof.
  revert s. induction evs as [|e evs IH]; intros s; simpl;
    destruct (bool_decide_reflect (respQ s = [])) as [Hq|Hq], (readThread_running s) eqn:Hr;
    simpl; intros Hw; simplify_eq.
  all: try (by exists []; split_and!; auto using steps_nil).
  destruct (IH _ Hw) as (l & -> & Hs & Hu & Hb). exists (e :: l). split_and!; [done| | |done].
  - econstructor; [constructor|done].
  - rewrite Hu. unfold listen. rewrite Hr. unfold is_usb.
    destruct e as [[] d|]; try done. by destruct (is_async_msg d).
Qed.

(** Every call of [receive] over USB is a sequence of steps of the two threads
    that returns once, and in which the reading thread handles every transfer
    that completes. *)
Lemma receive_steps size s r d s' evs u :
  is_usb s = true -> usb_reads (io s) = (evs, u) -> receive size s = (r, d, s') ->
  exists l1 l2, evs = l1 ++ l2 /\
    plat_steps (set_io u s) ((LRead <$> l1) ++ LRecv r d :: (LRead <$> l2)) s'.
Proof.
  unfold receive. intros -> Hu Hr. rewrite Hu in Hr.
  destruct (wait_resp evs (set_io u s)) as [[b rest] s1] eqn:Hw.
  destruct (wait_resp_steps _ _ _ _ _ Hw) as (l & -> & Hs & _ & Hb).
  destruct b.
  - destruct (take_resp s1) as [[r1 d1] s2] eqn:Ht. simplify_eq.
    exists l, rest. split; [done|]. eapply plat_steps_app; [exact Hs|].
    econstructor; [by constructor|apply fold_listen_steps].
  - destruct Hb as (-> & Hq & Hrun). simplify_eq/=.
    exists l, []. split; [done|]. eapply plat_steps_app; [exact Hs|].
    econstructor; [by constructor|constructor].
Qed.

(** The state after the reading thread has handled [evs], by what arrived. *)
Definition after_reads evs s : CSWPBase U :=
  let arrived := arrivals (readThread_running s) evs in
  set_thread (readThread s) (alive (readThread_running s) evs)
    (set_asyncQ (asyncQ s ++ asyncs_of arrived) (set_respQ (respQ s ++ responses_of arrived) s)).

Lemma after_reads_cons e evs s : after_reads (e :: evs) s = after_reads evs (listen e s).
Proof.
  destruct (listen_queues e s evs) as (H1 & H2 & H3). unfold after_reads. rewrite H1, H2, H3.
  unfold listen. destruct (readThread_running s); [|done].
  destruct e as [[] d|]; try done. by destruct (is_async_msg d).
Qed.
Lemma fold_listen_eq evs s : fold_left (fun s e => listen e s) evs s = after_reads evs s.
Proof.
  revert s. induction evs as [|e evs IH]; intros s; [|by rewrite after_reads_cons, <- IH].
  unfold after_reads. simpl. unfold responses_of, asyncs_of. simpl. rewrite !app_nil_r. by destruct s.
Qed.

(** Taking a response, or not, commutes with what the thread reads later. *)
Lemma after_reads_pop evs s m q :
  respQ s = m :: q -> after_reads evs (set_respQ q s) = set_respQ (tail (respQ (after_reads evs s))) (after_reads evs s).
Proof. intros Hq. unfold after_reads. simpl. by rewrite Hq. Qed.

(** What a call of [receive] returns, by what was waiting and what arrives. *)
Definition receive_result evs s : outcome Z * option (list Z) :=
  let run := readThread_running s in
  let waiting := respQ s ++ responses_of (arrivals run evs) in
  match run, waiting with
  | true, m :: _ => (Ret CSWP_SUCCESS, Some m)
  | true, [] => (if alive run evs then Ret CSWP_TIMEOUT
                 else USBException (bytes_of "receive thread exited."), None)
  | false, _ => (USBException (bytes_of "receive thread exited."), None)
  end.

Lemma receive_result_listen e evs s :
  readThread_running s = true -> respQ s = [] ->
  receive_result (e :: evs) s = receive_result evs (listen e s).
Proof.
  intros Hr Hq. destruct (listen_queues e s evs) as (H1 & _ & H3). unfold receive_result.
  rewrite H1, H3. destruct (readThread_running (listen e s)) eqn:Hl; rewrite Hr.
  - done.
  - rewrite arrivals_stopped, alive_stopped, app_nil_r.
    assert (Hn : respQ (listen e s) = []); [|by rewrite Hn].
    unfold listen in *. rewrite Hr in Hl |- *. destruct e as [[] d|]; try done; try congruence.
    by destruct (is_async_msg d); simpl in Hl; congruence.
Qed.

Lemma wait_resp_result evs s :
  (let '(arrived, rest, s1) := wait_resp evs s in
   let '(r, d, s2) := if (arrived : bool) then take_resp s1 else (Ret CSWP_TIMEOUT, None, s1) in
   (r, d, fold_left (fun s e => listen e s) rest s2)) =
  (receive_result evs s,
   let s' := after_reads evs s in
   match (receive_result evs s).2 with Some _ => set_respQ (tail (respQ s')) s' | None => s' end).
Proof.
  revert s. induction evs as [|e evs IH]; intros s; simpl wait_resp;
    destruct (bool_decide_reflect (respQ s = [])) as [Hq|Hq], (readThread_running s) eqn:Hr; simpl andb; cbv iota.
  - unfold receive_result. rewrite Hq, Hr. rewrite <- fold_listen_eq. done.
  - unfold take_resp, receive_result. rewrite Hr. by rewrite <- fold_listen_eq.
  - unfold take_resp, receive_result. rewrite Hr. destruct (respQ s) as [|m q] eqn:Hs; [done|].
    cbn [negb fold_left app snd]. rewrite <- fold_listen_eq. cbn [fold_left]. by rewrite Hs.
  - unfold take_resp, receive_result. rewrite Hr. by rewrite <- fold_listen_eq.
  - rewrite IH, (receive_result_listen e evs s Hr Hq), after_reads_cons. done.
  - unfold take_resp, receive_result. rewrite Hr. by rewrite <- fold_listen_eq.
  - unfold take_resp, receive_result. rewrite Hr. destruct (respQ s) as [|m q] eqn:Hs; [done|].
    cbn [negb app snd]. rewrite fold_listen_eq. cbn [fst snd]. by rewrite (after_reads_pop _ s m q Hs).
  - unfold take_resp, receive_result. rewrite Hr. by rewrite <- fold_listen_eq.
Qed.
End refinement.

(** The first bytes of a response message. *)
Lemma rframe_head n body :
  0 <= n < 128 -> exists b0 b1 b2 b3, rframe n body = b0 :: b1 :: b2 :: b3 :: n :: body.
Proof.
  intros Hn. unfold rframe. rewrite varint_enc_small by done.
  simpl. do 4 eexists. reflexivity.
Qed.

Lemma async_head b0 b1 b2 b3 n body :
  is_async_msg (b0 :: b1 :: b2 :: b3 :: n :: body) =
  (2 <=? len body) && bool_decide (body !! 0%nat = Some 128) && bool_decide (body !! 1%nat = Some 32).
Proof.
  unfold is_async_msg. f_equal. f_equal. apply eq_true_iff_eq. rewrite !Z.leb_le.
  simpl length. lia.
Qed.

Lemma type_head (t : cswp_commands_t) :
  exists b l, varint_enc (cmd_id t) = b :: l /\
    if decide (t = CSWP_ASYNC_MESSAGE) then b = 128 /\ l = [32]
    else b <> 128 \/ exists c l', l = c :: l' /\ c <> 32.
Proof.
  destruct t; (do 2 eexists; split; [vm_compute; reflexivity|]);
    (destruct (decide _) as [He|He]; try discriminate He);
    first [by split | by destruct He | left; discriminate
          | right; do 2 eexists; split; [reflexivity|discriminate]].
Qed.

Lemma type_is_async (t : cswp_commands_t) tail :
  (2 <=? len (varint_enc (cmd_id t) ++ tail)) &&
  bool_decide ((varint_enc (cmd_id t) ++ tail) !! 0%nat = Some 128) &&
  bool_decide ((varint_enc (cmd_id t) ++ tail) !! 1%nat = Some 32) =
  bool_decide (t = CSWP_ASYNC_MESSAGE).
Proof.
  destruct (type_head t) as (b & l & -> & Hb). simpl app.
  destruct (decide (t = CSWP_ASYNC_MESSAGE)) as [->|Hne].
  - destruct Hb as [-> ->]. rewrite bool_decide_true by done.
    destruct (Z.leb_spec 2 (len (128 :: [32] ++ tail))); [reflexivity|simpl in *; lia].
  - rewrite (bool_decide_false (t = CSWP_ASYNC_MESSAGE)) by done. simpl.
    destruct Hb as [Hb|(c & l' & -> & Hc)].
    + rewrite (bool_decide_false (Some b = Some 128)) by congruence.
      by rewrite ?andb_false_r.
    + simpl. rewrite (bool_decide_false (Some c = Some 32)) by congruence.
      by rewrite ?andb_false_r.
Qed.

(** ** Properties *)

(** C25: whatever the interleaving of the thread that reads from USB with the
    calls that take messages, nothing is lost, duplicated or reordered: the
    responses that [receive] returned followed by those in [respQ] are the
    responses that arrived, in order, and the same holds of the asynchronous
    messages, [receive_async] and [asyncQ].  The reading thread lives until the
    first transfer that fails. *)
Theorem queues_fifo {U} `{PlatIO U} (s s' : CSWPBase U) ls :
  plat_steps s ls s' ->
  let arrived := arrivals (readThread_running s) (reads ls) in
  respQ s ++ responses_of arrived = delivered ls ++ respQ s' /\
  asyncQ s ++ asyncs_of arrived = delivered_async ls ++ asyncQ s' /\
  readThread_running s' = alive (readThread_running s) (reads ls).
Proof. apply steps_queues. Qed.

(** Input and output for examples: each wait completes the next transfers of a
    script. *)
#[export] Instance script_io : PlatIO (list (list read_event)) := {
  io_getaddrinfo _ _ u := (true, u);
  io_inet_pton _ := true;
  io_socket u := (3, u);
  io_connect _ u := (0, u);
  io_send _ d u := (len d, u);
  io_recv _ _ u := (0, [], u);
  io_close _ u := u;
  usb_open _ u := (Ret [mkEP EP_TYPE_BULK 1; mkEP EP_TYPE_BULK 0x81], u);
  usb_disconnect u := (Ret tt, u);
  usb_write _ d u := (Ret (Transfer_SUCCESS, len d), u);
  usb_cancelTransfers u := ([], u);
  thread_create u := (true, u);
  usb_reads u := match u with evs :: u' => (evs, u') | [] => ([], []) end;
}.

Definition ex_usb : transport_cfg_t := mkCfg (bytes_of "usb") 0 0 0 0 [] [] 8080.
Definition ex_base (u : list (list read_event)) : CSWPBase (list (list read_event)) :=
  (connect (mkBase ex_usb (-1) (-1) (-1) false false false [] [] u)).2.
Definition ex_rsp : list Z := rframe 1 (varint_enc (cmd_id CSWP_TERM) ++ varint_enc 0).
Definition ex_async : list Z := rframe 1 (varint_enc (cmd_id CSWP_ASYNC_MESSAGE) ++ varint_enc 0x12).

Lemma queues_fifo_witness :
  [] ++ responses_of [ex_rsp; ex_async] = delivered [LRead (ReadDone Transfer_SUCCESS ex_rsp);
    LRead (ReadDone Transfer_SUCCESS ex_async); LRecv (Ret 0) (Some ex_rsp)] ++ [] /\
  [] ++ asyncs_of [ex_rsp; ex_async] = delivered_async [LRead (ReadDone Transfer_SUCCESS ex_rsp);
    LRead (ReadDone Transfer_SUCCESS ex_async); LRecv (Ret 0) (Some ex_rsp)] ++ [ex_async] /\
  true = true.
Proof.
  refine (queues_fifo (ex_base []) (set_asyncQ [ex_async] (ex_base []))
    [LRead (ReadDone Transfer_SUCCESS ex_rsp); LRead (ReadDone Transfer_SUCCESS ex_async);
     LRecv (Ret 0) (Some ex_rsp)] _).
  eapply steps_cons; [apply step_read|]. eapply steps_cons; [apply step_read|].
  eapply steps_cons; [apply step_recv; [left; discriminate|reflexivity]|]. apply steps_nil.
Defined.



(** The test on two fixed bytes with which the reading thread recognises
    asynchronous messages is right on every message whose number of responses
    takes one byte: it holds exactly when the first response is an asynchronous
    message, whether it reports success or an error. *)
Lemma response_classified n t r rest :
  0 <= n < 128 ->
  is_async_msg (rframe n ((varint_enc (cmd_id t) ++ r) ++ rest)) =
    bool_decide (t = CSWP_ASYNC_MESSAGE).
Proof.
  intros Hn. destruct (rframe_head n ((varint_enc (cmd_id t) ++ r) ++ rest) Hn)
    as (b0 & b1 & b2 & b3 & ->).
  rewrite async_head, <- app_assoc. apply type_is_async.
Qed.

Lemma response_classified_witness :
  is_async_msg (rframe 2 ((varint_enc (cmd_id CSWP_DEVICE_OPEN) ++ [0; 0]) ++ [129; 2; 0; 0])) = false.
Proof. apply (response_classified 2 CSWP_DEVICE_OPEN). lia. Defined.

(** Once a read transfer has failed, [disconnect] does not join the reading
    thread, because it looks at [readThread_running] only, so destroying the
    object ends the process. *)
Lemma reader_failure_terminates {U} `{PlatIO U} (s : CSWPBase U) status data :
  is_usb s = true -> readThread s = true -> readThread_running s = true ->
  destroy (disconnect s).2 = Some (io (disconnect s).2) /\
  (status = Transfer_ERROR \/ status = Transfer_IN_PROGRESS ->
   destroy (disconnect (listen (ReadDone status data) s)).2 = None).
Proof.
  intros Hu Ht Hr. split.
  - unfold destroy, disconnect. rewrite Hu, Hr. cbv zeta. simpl.
    destruct (usb_cancelTransfers (io s)) as [evs u]. set (s' := set_thread _ _ _).
    destruct (m_usb s'); [|done]. by destruct (usb_disconnect (io s')).
  - intros Hs. unfold listen. rewrite Hr.
    assert (He : match status with
        | Transfer_CANCELLED | Transfer_NODATA => s
        | Transfer_SUCCESS => if is_async_msg data then set_asyncQ (asyncQ s ++ [data]) s
                              else set_respQ (respQ s ++ [data]) s
        | _ => set_thread (readThread s) false s
        end = set_thread (readThread s) false s) by (by destruct Hs as [->| ->]).
    rewrite He. unfold destroy, disconnect.
    change (is_usb (set_thread (readThread s) false s)) with (is_usb s). rewrite Hu, Ht. simpl.
    by destruct (m_usb s), (usb_disconnect (io s)).
Qed.

Lemma reader_failure_terminates_witness :
  destroy (disconnect (ex_base [])).2 = Some (io (disconnect (ex_base [])).2) /\
  (Transfer_ERROR = Transfer_ERROR \/ Transfer_ERROR = Transfer_IN_PROGRESS ->
   destroy (disconnect (listen (ReadDone Transfer_ERROR []) (ex_base []))).2 = None).
Proof. apply (reader_failure_terminates (ex_base [])); reflexivity. Defined.

(** A response that arrives after the wait for it timed out is returned to the
    next request. *)
Lemma late_response_answers_next {U} `{PlatIO U} (s : CSWPBase U) size resp u1 u2 u3 :
  is_usb s = true -> readThread_running s = true -> respQ s = [] ->
  is_async_msg resp = false ->
  usb_reads (io s) = ([], u1) -> usb_reads u1 = ([ReadDone Transfer_SUCCESS resp], u2) ->
  usb_reads u2 = ([], u3) ->
  let '(r1, d1, s1) := receive size s in
  let '(r2, d2, _) := receive size s1 in
  r1 = Ret CSWP_TIMEOUT /\ d1 = None /\ r2 = Ret CSWP_SUCCESS /\ d2 = Some resp.
Proof.
  destruct s as [cfg fd c r us th run rq aq u]. unfold is_usb. simpl.
  intros Hu -> -> Ha H1 H2 H3. unfold receive at 1, is_usb. simpl. rewrite Hu, H1. simpl.
  unfold receive, is_usb. simpl. rewrite Hu, H2. simpl.
  unfold listen. simpl. rewrite Ha. done.
Qed.
