(* ===== verification/MemTarget.v ===== *)
(** A target with memory: what a CSWP server promises about memory reads and
    writes ([MemTarget]), and a server that keeps the promise ([ideal]).  The
    commands of the client utility are proved against the promise. *)
From S2P Require Import Prelude Wire CswpTypes CswpBuffer Memory ClientCommands ClientState ClientComplete ClientTransact ClientReading ClientReceive PlatIf.

(** The byte at an address of a device. *)
Definition tmem : Type := Z -> Z -> Z.

Definition read_bytes (t : tmem) (dev a n : Z) : list Z :=
  (fun i => t dev (u64 (a + i))) <$> seqZ 0 n.

Definition write_bytes (dev a : Z) (data : list Z) (t : tmem) : tmem := fun d x =>
  let k := u64 (x - a) in
  if (d =? dev) && (k <? len data) then default 0 (data !! Z.to_nat k) else t d x.

(** The width of an access size on the wire; other encodings are refused. *)
Definition access_width (sz : Z) : option Z :=
  match sz with 0 | 1 => Some 1 | 2 => Some 2 | 3 => Some 4 | 4 => Some 8 | _ => None end.

Definition aligned_access (a n sz : Z) : bool :=
  match access_width sz with Some w => (a mod w =? 0) && (n mod w =? 0) | None => false end.

(** The body of the response to a memory access, and its effect; accesses that
    are not aligned to their access size are not served. *)
Definition serve (r : request) (t : tmem) : option (list Z * tmem) :=
  match r with
  | ReqMemRead n a s sz _ =>
      if aligned_access a s sz then Some (varint_enc s ++ read_bytes t n a s, t) else None
  | ReqMemWrite n a sz _ d =>
      if aligned_access a (len d) sz then Some ([], write_bytes n a d t) else None
  | _ => None
  end.

(** The responses to the requests of a message, in order. *)
Fixpoint serve_all (rs : list request) (t : tmem) : option (list Z * tmem) :=
  match rs with
  | [] => Some ([], t)
  | r :: rs' =>
      '(body, t1) ← serve r t;
      '(resp, t2) ← serve_all rs' t1;
      Some (response_bytes (request_type r) (ROk body) ++ resp, t2)
  end.

Class MemTarget (T : Type) `{Transport T} := {
  target : T -> tmem;
  ready : T -> Prop;
  target_exchange t mode rs resp m' :
    ready t -> Forall request_ok rs -> serve_all rs (target t) = Some (resp, m') ->
    let msg := frame (len rs) mode (concat (request_bytes <$> rs)) in
    len msg <= CSWP_REQ_RSP_BUFFER_SIZE ->
    len (rframe (len rs) resp) <= CSWP_REQ_RSP_BUFFER_SIZE ->
    exists t1 t2, t_send msg t = (TRet CSWP_SUCCESS, t1) /\
      t_receive CSWP_REQ_RSP_BUFFER_SIZE t1 =
        (TRet CSWP_SUCCESS, Some (rframe (len rs) resp), t2) /\
      ready t2 /\ target t2 = m';
}.

(** ** A server that decodes the requests and serves them *)

Definition decode_request : BufM request :=
  type ← cswp_buffer_get_varint;
  if type =? cmd_id CSWP_MEM_READ then
    n ← cswp_buffer_get_varint; a ← cswp_buffer_get_uint64; s ← cswp_buffer_get_varint;
    sz ← cswp_buffer_get_varint; f ← cswp_buffer_get_varint;
    mret (ReqMemRead n a s sz f)
  else if type =? cmd_id CSWP_MEM_WRITE then
    n ← cswp_buffer_get_varint; a ← cswp_buffer_get_uint64; s ← cswp_buffer_get_varint;
    sz ← cswp_buffer_get_varint; f ← cswp_buffer_get_varint;
    d ← cswp_buffer_get_data s;
    mret (ReqMemWrite n a sz f d)
  else e_fail CSWP_UNSUPPORTED.

Fixpoint decode_requests (n : nat) : BufM (list request) :=
  match n with
  | O => mret []
  | S n' => r ← decode_request; l ← decode_requests n'; mret (r :: l)
  end.

Definition decode_message : BufM (list request) :=
  cswp_buffer_get_uint32;;
  n ← cswp_buffer_get_varint;
  cswp_buffer_get_uint8;;
  decode_requests (Z.to_nat n).

Record ideal := mkIdeal { ideal_mem : tmem; ideal_inbox : list (list Z) }.

(** A message that cannot be served is answered with nothing. *)
Definition ideal_step (msg : list Z) (t : ideal) : ideal :=
  match decode_message (mkBuf (len msg) (len msg) 0 msg) with
  | Some (Val rs, _) =>
      match serve_all rs (ideal_mem t) with
      | Some (resp, m) => mkIdeal m (ideal_inbox t ++ [rframe (len rs) resp])
      | None => t
      end
  | _ => t
  end.

#[export] Instance ideal_base : BaseOps ideal := {
  base_connect t := (Ret CSWP_SUCCESS, t);
  base_disconnect t := (Ret tt, t);
  base_send d t := (Ret CSWP_SUCCESS, ideal_step d t);
  base_receive k t :=
    match ideal_inbox t with
    | m :: ms => (Ret CSWP_SUCCESS, Some m, mkIdeal (ideal_mem t) ms)
    | [] => (Ret CSWP_TIMEOUT, None, t)
    end;
  base_receive_async _ t := (Ret CSWP_ASYNC_MSG_END, None, t);
}.

Lemma served_mem r t x : serve r t = Some x ->
  (exists n a s sz f, r = ReqMemRead n a s sz f) \/ (exists n a sz f d, r = ReqMemWrite n a sz f d).
Proof. destruct r; simpl; try done; intros _; naive_solver. Qed.

Lemma reads_request r t x : request_ok r -> serve r t = Some x -> Reads decode_request (request_bytes r) r.
Proof.
  intros [Hf Hx] Hs.
  destruct (served_mem r t x Hs) as [(n & a & s & sz & f & ->)|(n & a & sz & f & d & ->)];
    cbn [request_fields] in Hf; field_hyps; unfold request_bytes, decode_request;
    rewrite !fields_bytes_cons; cbn [field_bytes request_type request_fields];
    (eapply reads_bind; [apply reads_get_varint; vm_compute; intuition congruence|]);
    change (cmd_id CSWP_MEM_READ =? cmd_id CSWP_MEM_READ) with true;
    change (cmd_id CSWP_MEM_WRITE =? cmd_id CSWP_MEM_READ) with false;
    change (cmd_id CSWP_MEM_WRITE =? cmd_id CSWP_MEM_WRITE) with true; cbv iota;
    rewrite !fields_bytes_cons; cbn [field_bytes];
    repeat (eapply reads_bind;
      [first [apply reads_get_varint; done | apply reads_get_uint64; done | apply reads_get_data]|]);
    apply reads_ret.
Qed.

Lemma serve_all_inv r rs t x :
  serve_all (r :: rs) t = Some x ->
  exists y z, serve r t = Some y /\ serve_all rs y.2 = Some z /\
    x = (response_bytes (request_type r) (ROk y.1) ++ z.1, z.2).
Proof.
  simpl. destruct (serve r t) as [[body t1]|]; [|done]. simpl.
  destruct (serve_all rs t1) as [[resp t2]|] eqn:E; [|done]. simpl. intros. simplify_eq.
  by exists (body, t1), (resp, t2).
Qed.

Lemma reads_requests rs t x :
  Forall request_ok rs -> serve_all rs t = Some x ->
  Reads (decode_requests (length rs)) (concat (request_bytes <$> rs)) rs.
Proof.
  intros Hok. revert t x. induction Hok as [|r rs Hr Hok IH]; intros t x Hs.
  - apply reads_ret.
  - apply serve_all_inv in Hs as (y & z & Hy & Hz & _). cbn [decode_requests length].
    rewrite fmap_cons. cbn [concat]. eapply reads_bind; [by eapply reads_request|].
    apply reads_map. by eapply IH.
Qed.

Lemma ideal_step_eq mode rs t resp m :
  let msg := frame (len rs) mode (concat (request_bytes <$> rs)) in
  Forall request_ok rs -> serve_all rs (ideal_mem t) = Some (resp, m) -> len msg < 2 ^ 32 ->
  ideal_step msg t = mkIdeal m (ideal_inbox t ++ [rframe (len rs) resp]).
Proof.
  intros msg Hok Hs Hl. unfold ideal_step.
  set (b := mkBuf (len msg) (len msg) 0 msg).
  assert (Hb : buf_ok b) by (constructor; cbn [b pos used size buf]; lia).
  assert (Hu : unread b = msg ++ []).
  { unfold unread, content. cbn [b pos used buf]. by rewrite Nat2Z.id, drop_0, firstn_all, app_nil_r. }
  assert (Hrs : len rs < 2 ^ 32).
  { unfold msg, frame in Hl. rewrite !length_app in Hl.
    assert (len rs <= len (concat (request_bytes <$> rs))); [|lia]. clear.
    induction rs as [|r rs IH]; [done|]. rewrite fmap_cons. cbn [concat]. rewrite length_app, length_cons.
    unfold request_bytes at 1. rewrite fields_bytes_cons, length_app. cbn [field_bytes].
    pose proof (varint_enc_length (cmd_id (request_type r))). lia. }
  assert (Hd : Reads decode_message msg rs).
  { unfold msg, frame, decode_message. eapply reads_bind.
    { apply reads_get_uint32. unfold msg, frame in Hl. rewrite length_app, length_le_bytes in Hl.
      unfold is_u32. lia. }
    eapply reads_bind; [apply reads_get_varint; unfold is_u64; lia|].
    eapply reads_bind; [apply reads_get_uint8|].
    rewrite Nat2Z.id. by eapply reads_requests. }
  rewrite (Hd b [] Hb Hu), Hs. done.
Qed.

#[export] Program Instance ideal_target : MemTarget ideal := {
  target := ideal_mem;
  ready t := ideal_inbox t = [];
}.
Next Obligation.
  intros t mode rs resp m' Hin Hok Hs msg Hl Hrl.
  change CSWP_REQ_RSP_BUFFER_SIZE with 16384 in *.
  pose proof (ideal_step_eq mode rs t resp m' Hok Hs) as He. fold msg in He.
  rewrite Hin in He. exists (mkIdeal m' [rframe (len rs) resp]), (mkIdeal m' []).
  split; [|done]. simpl. unfold cswp_transport_send. simpl. by rewrite He by lia.
Qed.

(** ** Requests that do not overlap compose *)

Lemma read_bytes_length t d a n : 0 <= n -> len (read_bytes t d a n) = n.
Proof. intros. unfold read_bytes. rewrite length_fmap, length_seqZ. lia. Qed.

(** Reading two adjacent ranges is reading their union. *)
Lemma read_bytes_app t d a n k :
  0 <= n -> 0 <= k -> read_bytes t d a (n + k) = read_bytes t d a n ++ read_bytes t d (u64 (a + n)) k.
Proof.
  intros Hn Hk. unfold read_bytes. rewrite seqZ_app, fmap_app by lia. f_equal.
  rewrite (Z.add_comm 0 n), <- (fmap_add_seqZ n 0), <- list_fmap_compose. apply list_fmap_ext.
  intros i x _. simpl. f_equal. unfold u64. rewrite Z.add_mod_idemp_l by done. f_equal. lia.
Qed.

(** ** Memories up to pointwise equality *)

Definition tmem_eq : relation tmem := pointwise_relation Z (pointwise_relation Z eq).

#[export] Instance tmem_eq_equivalence : Equivalence tmem_eq.
Proof. unfold tmem_eq. apply _. Qed.

#[export] Instance write_bytes_proper dev a data :
  Proper (tmem_eq ==> tmem_eq) (write_bytes dev a data).
Proof. intros t t' Ht d x. unfold write_bytes. case_match; [done|apply Ht]. Qed.

#[export] Instance read_bytes_proper : Proper (tmem_eq ==> eq ==> eq ==> eq ==> eq) read_bytes.
Proof.
  intros t t' Ht d _ <- a _ <- n _ <-. unfold read_bytes. apply list_fmap_ext. intros. apply Ht.
Qed.

Lemma write_bytes_nil t d a : tmem_eq (write_bytes d a [] t) t.
Proof.
  intros x y. unfold write_bytes. pose proof (u64_range (y - a)). unfold is_u64 in *.
  destruct (Z.ltb_spec (u64 (y - a)) (len (@nil Z))); [simpl in *; lia|by rewrite andb_false_r].
Qed.

(** Writing two adjacent ranges is writing their union. *)
Lemma write_bytes_app t d a l1 l2 :
  len l1 + len l2 <= 2 ^ 64 ->
  tmem_eq (write_bytes d (u64 (a + len l1)) l2 (write_bytes d a l1 t))
          (write_bytes d a (l1 ++ l2) t).
Proof.
  intros Hl x y. unfold write_bytes. destruct (x =? d); [|done]. cbn [andb].
  rewrite length_app, Nat2Z.inj_add. set (k := u64 (y - a)).
  assert (Hk : 0 <= k < 2 ^ 64) by apply u64_range.
  assert (Hk2 : u64 (y - u64 (a + len l1)) = u64 (k - len l1)).
  { unfold k, u64. rewrite Zminus_mod_idemp_r, Zminus_mod_idemp_l. f_equal. lia. }
  rewrite Hk2. destruct (Z.ltb_spec k (len l1)) as [H1|H1].
  - assert (u64 (k - len l1) = k - len l1 + 2 ^ 64) as ->.
    { unfold u64. symmetry. apply Z.mod_unique with (-1); lia. }
    rewrite (proj2 (Z.ltb_ge _ _)), (proj2 (Z.ltb_lt _ _)) by lia.
    by rewrite lookup_app_l by lia.
  - rewrite u64_small by lia.
    destruct (Z.ltb_spec (k - len l1) (len l2)).
    + rewrite (proj2 (Z.ltb_lt _ _)) by lia. rewrite lookup_app_r by lia. do 2 f_equal. lia.
    + by rewrite (proj2 (Z.ltb_ge _ _)) by lia.
Qed.

(** What was written is read back. *)
Lemma read_write_bytes t d a l : len l <= 2 ^ 64 -> read_bytes (write_bytes d a l t) d a (len l) = l.
Proof.
  intros Hl. apply list_eq_same_length with (n := length l); [done| |].
  - pose proof (read_bytes_length (write_bytes d a l t) d a (len l)). lia.
  - intros i x y Hi Hx Hy. unfold read_bytes in Hx. rewrite list_lookup_fmap in Hx.
    rewrite lookup_seqZ_lt in Hx by lia. simplify_eq/=. unfold write_bytes.
    rewrite Z.eqb_refl. replace (u64 (u64 (a + (0 + Z.of_nat i)) - a)) with (Z.of_nat i).
    + rewrite (proj2 (Z.ltb_lt _ _)) by lia. cbn [andb]. by rewrite Nat2Z.id, Hy.
    + unfold u64. rewrite Zminus_mod_idemp_l. replace (a + (0 + Z.of_nat i) - a) with (Z.of_nat i) by lia.
      rewrite Z.mod_small; lia.
Qed.
