(* ===== verification/CcuCswp.v ===== *)
(** The commands of the client utility ([ccu_cswp.cpp]): the transport
    configuration file, setting up and cleaning up the client, the register and
    memory commands with the division of memory accesses into requests, and the
    dispatch of [main.cpp].

    A command runs in the monad [E (world T)]: an early return with an error
    code is a failure, an escaping exception or the end of the process is
    undefined ([None]).  A call of a function of [ccu_out.cpp] is [print] with a
    value of type [output], which [CcuOut.v] turns into text; the lines that
    only name the function that failed are left out. *)
From S2P Require Import Prelude Wire CswpTypes CswpBuffer Memory ClientCommands ClientState ClientComplete ClientTransact ClientApi CcuIn PlatIf.

Definition CCU_CFG_FILE_ERR : Z := 0x0800.
Definition CCU_CMD_NOT_SUPPORTED : Z := 0x0801.
Definition CCU_USB_RUNTIME_EXCEPTION : Z := 0x0802.
Definition CCU_UNKNOWN_EXCEPTION : Z := 0x0803.
Definition CCU_BAD_CMD_ARG : Z := 0x0804.
Definition CCU_FILEIO_ERR : Z := 0x0805.
Definition CCU_MALLOC_ERR : Z := 0x0806.
Definition CCU_SIG_HANDLE_ERR : Z := 0x0807.
Definition CCU_TBUF_NOT_FOUND_ERR : Z := 0x0808.
Definition CCU_BATCH_OPS_ERR : Z := 0x0809.
Definition CCU_ETR_END_OF_DATA : Z := 0x080a.

Definition MAX_NUM_DEVICES : Z := 3.
Definition MAX_DEV_NAME_LEN : Z := 50.
Definition MAX_DEV_TYPE_LEN : Z := 30.
Definition MAX_SERVER_NAME_LEN : Z := 50.
Definition CLIENT_PROTOCOL_V : Z := 0x100.
Definition CLIENT_ID_STR : list Z := bytes_of "CSWP_CLIENT_UTIL".
Definition MAX_SYS_DESC_LEN : Z := 5242880.
Definition MAX_ASYNC_MSG_LEN : Z := 1024.
Definition DEV0_REG_COUNT : Z := 4.
Definition MAX_REG_INFO_ARR_SZ : Z := 7200.
Definition MEM_MAX_RW_SZ : Z := 16352.
Definition MAX_NUM_SUBREQ : nat := 4.

(** ** The transport configuration file *)

(** The lines that [getline] yields. *)
Fixpoint file_lines (cur : list Z) (l : list Z) : list (list Z) :=
  match l with
  | [] => if decide (cur = []) then [] else [cur]
  | 10 :: l' => cur :: file_lines [] l'
  | c :: l' => file_lines (cur ++ [c]) l'
  end.

Fixpoint split_eq (key : list Z) (l : list Z) : option (list Z * list Z) :=
  match l with
  | [] => None
  | 61 :: v => Some (key, v)
  | c :: l' => split_eq (key ++ [c]) l'
  end.

Definition cfg_line (m : gmap (list Z) (list Z)) (line : list Z) : gmap (list Z) (list Z) :=
  match line with
  | [] => m
  | 35 :: _ => m
  | _ => match split_eq [] line with Some (k, v) => <[k := v]> m | None => m end
  end.

Inductive cfg_result (A : Type) :=
  | CfgVal (a : A)
  | CfgErr
  | CfgThrow.
Arguments CfgVal {A}.
Arguments CfgErr {A}.
Arguments CfgThrow {A}.

(** [stoi(s, nullptr, base)] throws when there is no number or it is not an
    [int]. *)
Definition stoi (base : Z) (s : list Z) : cfg_result Z :=
  let (neg, s) := take_sign (skip_space s) in
  let ds := match s with
            | 48 :: x :: s' =>
                if (base =? 16) && ((x =? 120) || (x =? 88)) then
                  match digit_run hex_digit s' with [] => [0] | ds => ds end
                else digit_run (if base =? 16 then hex_digit else dec_digit) s
            | _ => digit_run (if base =? 16 then hex_digit else dec_digit) s
            end in
  if decide (ds = []) then CfgThrow
  else
    let v := if neg then - digits_val base ds else digits_val base ds in
    if (- 2 ^ 31 <=? v) && (v <? 2 ^ 31) then CfgVal v else CfgThrow.

Definition stoi_or (base dflt : Z) (s : option (list Z)) : cfg_result Z :=
  match s with Some s => stoi base s | None => CfgVal dflt end.

#[export] Instance cfg_bind : MBind cfg_result := fun A B f r =>
  match r with CfgVal a => f a | CfgErr => CfgErr | CfgThrow => CfgThrow end.
#[export] Instance cfg_ret : MRet cfg_result := fun A a => CfgVal a.

(** The value that must be present. *)
Definition cfg_find (m : gmap (list Z) (list Z)) (key : string) : cfg_result (list Z) :=
  match m !! bytes_of key with Some v => CfgVal v | None => CfgErr end.

(** [file] is the file in the current directory or, when that is missing, the
    one next to the program. *)
Definition parse_transport_cfg_file (file : option (list Z)) : cfg_result transport_cfg_t :=
  match file with
  | None => CfgErr
  | Some bytes =>
      let m := fold_left cfg_line (file_lines [] bytes) ∅ in
      type ← cfg_find m "type";
      if bool_decide (type = bytes_of "tcp") then
        ipaddr ← cfg_find m "ipaddr";
        portid ← stoi_or 10 8080 (m !! bytes_of "port");
        mret (mkCfg type 0 0 0 0 [] ipaddr portid)
      else if bool_decide (type = bytes_of "usb") then
        vid ← cfg_find m "vid"; vid ← stoi 16 vid;
        pid ← cfg_find m "pid"; pid ← stoi 16 pid;
        iid ← stoi_or 16 0 (m !! bytes_of "iid");
        sid ← stoi_or 16 0 (m !! bytes_of "sid");
        mret (mkCfg type vid pid iid sid (default [] (m !! bytes_of "serial")) [] 8080)
      else CfgErr
  end.

Example cfg_tcp :
  parse_transport_cfg_file (Some (bytes_of "# test
type=tcp
ipaddr=127.0.0.1
port=9000
")) = CfgVal (mkCfg (bytes_of "tcp") 0 0 0 0 [] (bytes_of "127.0.0.1") 9000).
Proof. vm_compute. reflexivity. Qed.

Example cfg_bad_port :
  parse_transport_cfg_file (Some (bytes_of "type=tcp
ipaddr=127.0.0.1
port=http")) = CfgThrow.
Proof. vm_compute. reflexivity. Qed.

(** ** Division of a memory access into requests *)

(** The access size of [create_mem_subreqs] and the size of the request. *)
Definition subreq_shape (devID num_bytes : Z) : Z * cswp_access_size_t :=
  if 8 <=? num_bytes then
    if devID =? 0 then (num_bytes / 4 * 4, CSWP_ACCESS_SIZE_32)
    else (num_bytes / 8 * 8, CSWP_ACCESS_SIZE_64)
  else if 4 <=? num_bytes then (num_bytes / 4 * 4, CSWP_ACCESS_SIZE_32)
  else if 2 <=? num_bytes then (num_bytes / 2 * 2, CSWP_ACCESS_SIZE_16)
  else (1, CSWP_ACCESS_SIZE_8).

(** The loop: entry [i] is written while bytes are left; past the end of the
    array that is undefined, so the length of the array bounds the loop. *)
Fixpoint subreqs_loop (fuel : nat) (devID addr idx num_bytes : Z) (i : nat)
    (arr : list subreq_info) : option (Z * list subreq_info) :=
  if 0 <? num_bytes then
    match fuel with
    | O => None
    | S f =>
        if decide (i < length arr)%nat then
          let (sz, acc) := subreq_shape devID num_bytes in
          subreqs_loop f devID (u64 (addr + sz)) (u64 (idx + sz)) (u64 (num_bytes - sz))
            (S i) (<[i := mkSubreq addr acc sz idx]> arr)
        else None
    end
  else Some (Z.of_nat i, arr).

Definition create_mem_subreqs (devID addr rw_values_idx total : Z) (arr : list subreq_info)
    : option (Z * list subreq_info) :=
  subreqs_loop (S (length arr)) devID addr rw_values_idx total 0 arr.

(** ** Outputs of the commands ([ccu_out.cpp]) *)

Inductive output :=
  | OutInit (serverProtocolVersion : Z) (serverID : list Z) (serverVersion : Z)
  | OutTerm
  | OutOpen (devices : list (list Z))
  | OutClose
  | OutDevices (l : list (list Z * list Z))
  | OutCapabilities (capabilities capabilityData : Z)
  | OutSysInfo (format : Z) (data : list Z)
  | OutRegisters (l : list (list Z * Z * Z * list Z * list Z))
  | OutGetReg (values : list Z)
  | OutSetReg
  | OutGetMem (addr : Z) (bytes : list Z)
  | OutDumpMem (bytes : list Z)
  | OutSetMem
  | OutAsync (deviceNo msg_level : Z) (msg : list Z)
  | OutHelp
  | OutErr (errcode : Z).

(** ** The environment of a command *)

Class CcuEnv (T : Type) := {
  env_ops :: BaseOps T;
  (** [CreateCSWP]: the object is part of the transport state. *)
  env_create : transport_cfg_t -> T -> outcome unit * T;
  env_cfg : option (list Z);
  env_file : list Z -> option (list Z);
  (** What [malloc] returns for the buffers of the client. *)
  env_malloc : option (list Z) * option (list Z) * option (list Z);
  (** The value of an uninitialised array element. *)
  env_junk : Z;
  (** The environment variables, and the files of system descriptions. *)
  env_sdf : option (list Z);
  env_wrksp : option (list Z);
  env_fopen : list Z -> option sdf_file;
  (** How many asynchronous messages wait. *)
  env_asyncs : T -> nat;
  (** Standard output. *)
  env_print : output -> T -> T;
  (** Whether [signal] succeeds, for the handler of the command and for the
      default one; how often [rd_async_msg] finds [exitFlag] unset; and what
      the threads do in the meantime. *)
  env_signal : bool;
  env_signal_dfl : bool;
  env_rounds : nat;
  env_turn : T -> T;
}.

(** The objects of [PlatIf]. *)
#[export] Instance plat_env {U} `{PlatIO U} (cfg : option (list Z))
    (file : list Z -> option (list Z)) (malloc : option (list Z) * option (list Z) * option (list Z))
    (sdf wrksp : option (list Z)) (fopen : list Z -> option sdf_file)
    (junk : Z) (prt : output -> U -> U) (sig sig_dfl : bool) (rounds : nat) : CcuEnv (CSWPBase U) | 10 := {
  env_create c t :=
    match CreateCSWP c (io t) with
    | (Ret s, _) => (Ret tt, s)
    | (CDebugEx code w, u) => (CDebugEx code w, set_io u t)
    | (USBException w, u) => (USBException w, set_io u t)
    | (StdException w, u) => (StdException w, set_io u t)
    | (Terminate, u) => (Terminate, set_io u t)
    end;
  env_cfg := cfg;
  env_file := file;
  env_malloc := malloc;
  env_junk := junk;
  env_sdf := sdf;
  env_wrksp := wrksp;
  env_fopen := fopen;
  env_asyncs t := length (asyncQ t);
  env_print o t := set_io (prt o (io t)) t;
  env_signal := sig;
  env_signal_dfl := sig_dfl;
  env_rounds := rounds;
  env_turn t := let (evs, u) := usb_reads (io t) in fold_left (fun t e => listen e t) evs (set_io u t);
}.

(** The least location above all objects. *)
Definition new_loc (m : mem) : loc := map_fold (fun l _ acc => (S l `max` acc)%nat) O m.

Section ccu.
Context {T : Type} `{CcuEnv T}.
Local Abbreviation CM := (ClientM T).
Local Abbreviation CE A := (E (world T) A).

Definition lift {A} (m : CM A) : CE A := fun w =>
  match m w with Some (a, w') => Some (Val a, w') | None => None end.

(** [RETURN_EARLY_ON_ERR(res != 0, msg, res)] *)
Definition check (res : Z) : CE unit := if res =? 0 then mret tt else e_fail res.

Definition fail_if (b : bool) (code : Z) : CE unit := if b then e_fail code else mret tt.

(** A local array of [n] integers, uninitialised. *)
Definition local_array (n : Z) : CE ptr := fun w =>
  let b := new_loc (memory w) in
  Some (Val (Some (b, 0)),
        set_memory (<[b := Ints (replicate (Z.to_nat n) env_junk)]> (memory w)) w).

Definition local_var (v : Z) : CE ptr := fun w =>
  let b := new_loc (memory w) in
  Some (Val (Some (b, 0)), set_memory (<[b := Ints [v]]> (memory w)) w).

(** [TRAP_EX_CCU(res = block)]: the status of a caught exception. *)
Definition trap_ex {A} (r : outcome A) : CE (Z * option A) :=
  match r with
  | Ret a => mret (0, Some a)
  | CDebugEx c _ => mret (int32 c, None)
  | USBException _ => mret (CCU_USB_RUNTIME_EXCEPTION, None)
  | StdException _ => mret (CCU_UNKNOWN_EXCEPTION, None)
  | Terminate => e_ub
  end.

(** The [int] that a function returns, early or not. *)
Definition status (m : CE Z) : CE Z := fun w =>
  match m w with
  | Some (Val c, w') | Some (Fail c, w') => Some (Val c, w')
  | None => None
  end.

(** A method of the object, called outside the client library. *)
Definition on_base {A} (f : T -> outcome A * T) : CE (outcome A) := fun w =>
  let (r, t) := f (transport w) in Some (Val r, set_transport t w).

(** ** Set-up and clean-up *)

Definition setup_cdebug (set_con : bool) : CE Z :=
  match parse_transport_cfg_file env_cfg with
  | CfgErr => e_fail CCU_CFG_FILE_ERR
  | CfgThrow => e_ub
  | CfgVal cfg =>
      r ← on_base (env_create cfg);
      '(ex_stat, _) ← trap_ex r;
      check ex_stat;;
      let '(h, c, s) := env_malloc in
      res ← lift (cswp_client_init h c s);
      check res;;
      if set_con then
        r ← on_base base_connect;
        '(ex_stat, c) ← trap_ex r;
        check ex_stat;;
        mret (default 0 c)
      else mret 0
  end.

Definition disconnect_transport : CM Z :=
  r ← (fun w => let (r, t) := base_disconnect (transport w) in Some (r, set_transport t w));
  match r with
  | Ret _ => mret 0
  | CDebugEx c _ => mret (int32 c)
  | USBException _ => mret CCU_USB_RUNTIME_EXCEPTION
  | StdException _ => mret CCU_UNKNOWN_EXCEPTION
  | Terminate => ub
  end.

Definition put_out (o : output) : CM unit :=
  modify (fun w => set_transport (env_print o (transport w)) w).
Definition print (o : output) : CE unit := lift (put_out o).

(** [process_async_message_out(deviceNo, msg_level, msg)] *)
Definition show_async (deviceNo msg_level msg : ptr) : CM unit :=
  d ← on_memory (load1 deviceNo);
  l ← on_memory (load1 msg_level);
  s ← on_memory (load_cstr msg);
  put_out (OutAsync d l s).

(** The loop ends at the end of the queue or at an error; [fuel] bounds the
    number of messages. *)
Fixpoint flush_loop (fuel : nat) (deviceNo msg_level msg : ptr) : CM Z :=
  match fuel with
  | O => ub
  | S f =>
      res ← cswp_async_message deviceNo msg_level msg MAX_ASYNC_MSG_LEN;
      if res =? CSWP_ASYNC_MSG_LOG then show_async deviceNo msg_level msg;; flush_loop f deviceNo msg_level msg
      else if res =? CSWP_ASYNC_MSG_END then mret 0
      else mret res
  end.

Definition flush_async_data_queue : CM Z :=
  n ← gets (fun w => env_asyncs (transport w));
  r ← (deviceNo ← local_array 1; msg_level ← local_array 1;
       msg ← local_array MAX_ASYNC_MSG_LEN;
       lift (flush_loop (S n) deviceNo msg_level msg));
  match r with Val res => mret res | Fail c => mret c end.

Definition cleanup_cdebug (async_flush_and_discon_transport : bool) : CM Z :=
  if async_flush_and_discon_transport then
    res1 ← flush_async_data_queue;
    res2 ← disconnect_transport;
    mret (if negb (res2 =? 0) then res2 else if negb (res1 =? 0) then res1 else 0)
  else mret 0.

(** [TERM_EARLY_ON_ERR(cdbgp, res != 0, msg, res)] *)
Definition term_check (res : Z) : CE unit :=
  if res =? 0 then mret tt else lift (cleanup_cdebug true);; e_fail res.
Definition term_if (b : bool) (code : Z) : CE unit := if b then term_check code else mret tt.

(** The end of a command. *)
Definition finish (flush : bool) : CE Z := lift (cleanup_cdebug flush).

Definition check_args (argv : list cstr) : CE unit :=
  fail_if (negb (len argv =? 2)) CCU_BAD_CMD_ARG.

(** Extraction of the parameters; a failed one is a bad argument. *)
Definition extract {A} (m : MemM A) : CE A := fun w =>
  match m (memory w) with
  | Some (Val a, x) => Some (Val a, set_memory x w)
  | Some (Fail _, x) => Some (Fail CCU_BAD_CMD_ARG, set_memory x w)
  | None => None
  end.

(** ** Registers *)

Definition get_dev_reg (argv : list cstr) : CE Z :=
  r ← extract (extract_get_dev_reg_param argv);
  res ← setup_cdebug true; check res;;
  values ← local_array 2;
  res ← lift (cswp_device_reg_read (rc_devID r) (rc_regSZ r) [rc_regID r; u64 (rc_regID r + 4)]
                values (rc_regSZ r));
  term_check res;;
  vs ← lift (on_memory (load values (rc_regSZ r)));
  print (OutGetReg vs);;
  finish true.

Definition set_dev_reg (argv : list cstr) : CE Z :=
  r ← extract (extract_set_dev_reg_param argv);
  res ← setup_cdebug true; check res;;
  res ← lift (cswp_device_reg_write (rc_devID r) (rc_regSZ r)
                [rc_regID r; u64 (rc_regID r + 4)]
                [Z.land (rc_value r) 0xFFFFFFFF; Z.land (Z.shiftr (rc_value r) 32) 0xFFFFFFFF]);
  term_check res;;
  print OutSetReg;;
  finish true.

(** ** Memory *)

(** The requests of the entries from [i] on. *)
Fixpoint subreq_loop (request : subreq_info -> CM Z) (l : list subreq_info) (n i : nat)
    : CE unit :=
  match n with
  | O => mret tt
  | S n' =>
      match l !! i with
      | None => e_ub
      | Some s => res ← lift (request s); check res;; subreq_loop request l n' (S i)
      end
  end.

(** [execute_get_dev_mem_out] and [execute_set_dev_mem_out] share their shape:
    the requests are sent in a batch when there are several. *)
Definition execute_mem (m : mem_cmd_t) (request : subreq_info -> CM Z) : CE Z :=
  (if 1 <? num_subreqs m then res ← lift (cswp_batch_begin true); check res
   else mret tt);;
  subreq_loop request (subreqs m) (Z.to_nat (num_subreqs m)) 0;;
  (if 1 <? num_subreqs m then
     ops_completed ← local_var 0;
     res ← lift (cswp_batch_end ops_completed);
     check res;;
     n ← lift (on_memory (load1 ops_completed));
     fail_if (negb (n =? num_subreqs m)) CCU_BATCH_OPS_ERR
   else mret tt);;
  mret 0.

Definition execute_get_dev_mem_out (m : mem_cmd_t) : CE Z :=
  bytesRead ← local_array 1;
  execute_mem m (fun s =>
    cswp_device_mem_read (mc_devID m) (saddr s) (sr_size s) (acc_sz s) (u32 (mc_flags m))
      (ptr_add (rw_values m) (buf_idx s)) bytesRead).

(** The bytes to write are those of [rw_values] when the request is made. *)
Definition execute_set_dev_mem_out (m : mem_cmd_t) : CE Z :=
  execute_mem m (fun s =>
    data ← on_memory (load (ptr_add (rw_values m) (buf_idx s)) (sr_size s));
    cswp_device_mem_write (mc_devID m) (saddr s) (sr_size s) (acc_sz s) (u32 (mc_flags m)) data).

Definition set_subreqs (n : Z) (l : list subreq_info) (m : mem_cmd_t) : mem_cmd_t :=
  mkMemCmd (mc_devID m) (start_addr m) (total_bytes m) (rw_values m) n l (mc_flags m).

(** [m->num_subreqs = create_mem_subreqs(..., num_bytes, m->subreqs)] *)
Definition divide (m : mem_cmd_t) (idx num_bytes : Z) : CE mem_cmd_t :=
  match create_mem_subreqs (mc_devID m) (start_addr m) idx num_bytes (subreqs m) with
  | Some (n, l) => mret (set_subreqs n l m)
  | None => e_ub
  end.

(** The structure of a command, on the stack. *)
Definition local_cmd : CE mem_cmd_t :=
  arr ← local_array MEM_MAX_BIN_SZ;
  mret (mkMemCmd env_junk env_junk env_junk arr env_junk
          (replicate MAX_NUM_SUBREQ (mkSubreq env_junk CSWP_ACCESS_SIZE_DEF env_junk env_junk))
          env_junk).

Definition get_dev_mem (argv : list cstr) : CE Z :=
  m ← local_cmd;
  m ← extract (extract_get_dev_mem_param argv m);
  res ← setup_cdebug true; check res;;
  m ← divide m 0 (total_bytes m);
  r ← status (execute_get_dev_mem_out m);
  term_check r;;
  bytes ← lift (on_memory (load (rw_values m) (total_bytes m)));
  print (OutGetMem (start_addr m) bytes);;
  finish true.

Definition set_dev_mem (argv : list cstr) : CE Z :=
  m ← local_cmd;
  m ← extract (extract_set_dev_mem_param argv m);
  res ← setup_cdebug true; check res;;
  m ← divide m 0 (total_bytes m);
  r ← status (execute_set_dev_mem_out m);
  term_check r;;
  print OutSetMem;;
  finish true.

(** The loop of [dump_dev_mem] and [fill_dev_mem] over chunks of at most
    [MEM_MAX_RW_SZ] bytes; the result is the index after the last byte.  Each
    chunk takes at least one byte, so the bytes left bound the loop. *)
Fixpoint chunk_loop (fuel : nat) (execute : mem_cmd_t -> CE Z) (m : mem_cmd_t) (idx : Z)
    : CE Z :=
  if 0 <? total_bytes m then
    match fuel with
    | O => e_ub
    | S f =>
        let num_bytes := if MEM_MAX_RW_SZ <=? total_bytes m then MEM_MAX_RW_SZ
                         else total_bytes m in
        m ← divide m idx num_bytes;
        r ← status (execute m);
        term_check r;;
        chunk_loop f execute
          (mkMemCmd (mc_devID m) (u64 (start_addr m + num_bytes)) (total_bytes m - num_bytes)
             (rw_values m) (num_subreqs m) (subreqs m) (mc_flags m))
          (u64 (idx + num_bytes))
    end
  else mret idx.

Definition chunks (execute : mem_cmd_t -> CE Z) (m : mem_cmd_t) : CE Z :=
  chunk_loop (Z.to_nat (total_bytes m)) execute m 0.

Definition dump_dev_mem (argv : list cstr) : CE Z :=
  m ← local_cmd;
  m ← extract (extract_dump_dev_mem_param argv m);
  res ← setup_cdebug true; check res;;
  n ← chunks execute_get_dev_mem_out m;
  bytes ← lift (on_memory (load (rw_values m) n));
  print (OutDumpMem bytes);;
  finish true.

Definition fill_dev_mem (argv : list cstr) : CE Z :=
  m ← local_cmd;
  m ← extract (extract_fill_dev_mem_param env_file argv m);
  res ← setup_cdebug true; check res;;
  chunks execute_set_dev_mem_out m;;
  print OutSetMem;;
  finish true.
End ccu.

Section session.
Context {T : Type} `{CcuEnv T}.
Local Abbreviation CE A := (E (world T) A).

(** ** Sessions, devices and descriptions *)

(** [n] local strings of [size] characters. *)
Fixpoint local_strings (n : nat) (size : Z) : CE (list ptr) :=
  match n with
  | O => mret []
  | S n' => p ← local_array size; l ← local_strings n' size; mret (p :: l)
  end.

Fixpoint load_strings (l : list ptr) : MemM (list (list Z)) :=
  match l with
  | [] => mret []
  | p :: l' => s ← load_cstr p; r ← load_strings l'; mret (s :: r)
  end.

(** [for (i = 0; i < MAX_NUM_DEVICES; i++) f(i)] with [TERM_EARLY_ON_ERR]. *)
Fixpoint each_device (n : nat) (i : Z) (f : Z -> ClientM T Z) : CE unit :=
  match n with
  | O => mret tt
  | S n' => res ← lift (f i); term_check res;; each_device n' (i + 1) f
  end.

(** A batch of one command per device. *)
Definition device_batch (f : Z -> ClientM T Z) : CE unit :=
  ops_completed ← local_var 0;
  res ← lift (cswp_batch_begin true); term_check res;;
  each_device (Z.to_nat MAX_NUM_DEVICES) 0 f;;
  res ← lift (cswp_batch_end ops_completed); term_check res;;
  n ← lift (on_memory (load1 ops_completed));
  term_if (negb (n =? MAX_NUM_DEVICES)) CCU_BATCH_OPS_ERR.

Definition init_cswp (argv : list cstr) : CE Z :=
  check_args argv;;
  res ← setup_cdebug false; check res;;
  serverProtocolVersion ← local_var 0;
  serverID ← local_array MAX_SERVER_NAME_LEN;
  serverVersion ← local_var 0;
  res ← lift (cswp_init CLIENT_ID_STR CLIENT_PROTOCOL_V serverProtocolVersion
                serverID MAX_SERVER_NAME_LEN serverVersion);
  term_check res;;
  v ← lift (on_memory (load1 serverProtocolVersion));
  s ← lift (on_memory (load_cstr serverID));
  sv ← lift (on_memory (load1 serverVersion));
  print (OutInit v s sv);;
  deviceInfoList ← local_strings (Z.to_nat MAX_NUM_DEVICES) MAX_DEV_NAME_LEN;
  device_batch (fun i =>
    cswp_device_open i (default None (deviceInfoList !! Z.to_nat i)) MAX_DEV_NAME_LEN);;
  l ← lift (on_memory (load_strings deviceInfoList));
  print (OutOpen l);;
  finish true.

Definition term_cswp (argv : list cstr) : CE Z :=
  check_args argv;;
  res ← setup_cdebug true; check res;;
  device_batch cswp_device_close;;
  print OutClose;;
  res ← lift cswp_term; term_check res;;
  print OutTerm;;
  finish false.

Definition get_dev_info (argv : list cstr) : CE Z :=
  check_args argv;;
  res ← setup_cdebug true; check res;;
  deviceCount ← local_array 1;
  deviceList ← local_strings (Z.to_nat MAX_NUM_DEVICES) MAX_DEV_NAME_LEN;
  deviceTypes ← local_strings (Z.to_nat MAX_NUM_DEVICES) MAX_DEV_TYPE_LEN;
  res ← lift (cswp_get_devices deviceCount deviceList MAX_NUM_DEVICES MAX_DEV_NAME_LEN
                deviceTypes MAX_NUM_DEVICES MAX_DEV_TYPE_LEN);
  term_check res;;
  n ← lift (on_memory (load1 deviceCount));
  (if MAX_NUM_DEVICES <? n then e_ub else mret tt);;
  names ← lift (on_memory (load_strings (take (Z.to_nat n) deviceList)));
  types ← lift (on_memory (load_strings (take (Z.to_nat n) deviceTypes)));
  print (OutDevices (zip types names));;
  finish true.

Definition get_dev_cap (argv : list cstr) : CE Z :=
  d ← extract (extract_get_dev_cap_param argv);
  res ← setup_cdebug true; check res;;
  capabilities ← local_array 1;
  capabilityData ← local_array 1;
  res ← lift (cswp_get_device_capabilities (dc_devID d) capabilities capabilityData);
  term_check res;;
  c ← lift (on_memory (load1 capabilities));
  n ← lift (on_memory (load1 capabilityData));
  print (OutCapabilities c n);;
  finish true.

Definition get_sys_info (argv : list cstr) : CE Z :=
  check_args argv;;
  res ← setup_cdebug true; check res;;
  descriptionFormat ← local_var 0;
  descriptionSize ← local_var 0;
  buffer ← local_array MAX_SYS_DESC_LEN;
  res ← lift (cswp_get_system_description env_sdf env_wrksp env_fopen
                descriptionFormat descriptionSize buffer MAX_SYS_DESC_LEN);
  term_check res;;
  f ← lift (on_memory (load1 descriptionFormat));
  n ← lift (on_memory (load1 descriptionSize));
  d ← lift (on_memory (load buffer n));
  print (OutSysInfo f d);;
  finish true.

(** The array of [DEV0_REG_COUNT] register descriptions. *)
Definition local_regs : CE ptr := fun w =>
  let b := new_loc (memory w) in
  let r := mkRegInfo env_junk None env_junk None None in
  Some (Val (Some (b, 0)),
        set_memory (<[b := Regs (replicate (Z.to_nat DEV0_REG_COUNT) r)]> (memory w)) w).

Definition load_reg (p : ptr) (i : nat) : MemM cswp_register_info_t := fun m =>
  match p with
  | Some (b, o) =>
      match m !! b with
      | Some (Regs l) =>
          match l !! (Z.to_nat o + i)%nat with Some r => Some (Val r, m) | None => None end
      | _ => None
      end
  | None => None
  end.

(** The fields that [process_get_reg_list_out] prints. *)
Fixpoint load_registers (p : ptr) (n i : nat)
    : MemM (list (list Z * Z * Z * list Z * list Z)) :=
  match n with
  | O => mret []
  | S n' =>
      r ← load_reg p i;
      name ← load_cstr (ri_name r);
      display ← load_cstr (ri_displayName r);
      description ← load_cstr (ri_description r);
      l ← load_registers p n' (S i);
      mret ((name, ri_id r, ri_size r, display, description) :: l)
  end.

(** The capacity passed for the array is [MAX_REG_INFO_ARR_SZ]. *)
Definition get_reg_list (argv : list cstr) : CE Z :=
  check_args argv;;
  res ← setup_cdebug true; check res;;
  registerCount ← local_array 1;
  registerInfo ← local_regs;
  strBuf ← local_array MAX_REG_INFO_ARR_SZ;
  res ← lift (cswp_device_reg_list 0 registerCount registerInfo MAX_REG_INFO_ARR_SZ
                strBuf MAX_REG_INFO_ARR_SZ);
  term_check res;;
  n ← lift (on_memory (load1 registerCount));
  l ← lift (on_memory (load_registers registerInfo (Z.to_nat n) 0));
  print (OutRegisters l);;
  finish true.

(** ** Asynchronous messages *)

Definition setup_user_sigint_handler : bool := env_signal.
Definition restore_sigint_handler : bool := env_signal_dfl.
Definition cleanup_cdebug_wo_async_flush : ClientM T Z := disconnect_transport.

(** [TERM_EARLY_ON_ERR_WO_ASYNC_FLUSH] *)
Definition term_wo_flush (b : bool) (code : Z) : CE unit :=
  if b then lift cleanup_cdebug_wo_async_flush;; e_fail code else mret tt.

(** The body of the loop, which reads one message; when there is none it
    sleeps. *)
Definition poll_async (deviceNo msg_level msg : ptr) : CE unit :=
  res ← lift (cswp_async_message deviceNo msg_level msg MAX_ASYNC_MSG_LEN);
  if res =? CSWP_ASYNC_MSG_LOG then lift (show_async deviceNo msg_level msg)
  else term_wo_flush (negb (res =? CSWP_ASYNC_MSG_END)) res.

(** The loop while [exitFlag] is not set, which it is after [n] turns; the
    threads go on while it runs. *)
Fixpoint async_loop (n : nat) (deviceNo msg_level msg : ptr) : CE unit :=
  match n with
  | O => mret tt
  | S n' =>
      poll_async deviceNo msg_level msg;;
      lift (modify (fun w => set_transport (env_turn (transport w)) w));;
      async_loop n' deviceNo msg_level msg
  end.

Definition rd_async_msg (argv : list cstr) : CE Z :=
  check_args argv;;
  res ← setup_cdebug true; check res;;
  deviceNo ← local_array 1;
  msg_level ← local_array 1;
  msg ← local_array MAX_ASYNC_MSG_LEN;
  term_wo_flush (negb setup_user_sigint_handler) CCU_SIG_HANDLE_ERR;;
  async_loop env_rounds deviceNo msg_level msg;;
  term_wo_flush (negb restore_sigint_handler) CCU_SIG_HANDLE_ERR;;
  lift cleanup_cdebug_wo_async_flush.

(** ** [main.cpp] *)

(** [perf_cstrace] does not use the client: [other] stands for it. *)
Section main.
Context (other : list cstr -> CE Z).

Definition funcMap (name : list Z) : option (list cstr -> CE Z) :=
  let named s := bool_decide (name = bytes_of s) in
  if named "init_cswp"%string then Some init_cswp
  else if named "term_cswp"%string then Some term_cswp
  else if named "get_dev_info"%string then Some get_dev_info
  else if named "get_dev0_cap"%string || named "get_dev1_cap"%string || named "get_dev2_cap"%string
  then Some get_dev_cap
  else if named "get_sys_info"%string then Some get_sys_info
  else if named "get_dev0_reg_list"%string then Some get_reg_list
  else if named "get_dev0_reg"%string || named "get_dev2_reg"%string then Some get_dev_reg
  else if named "set_dev0_reg"%string || named "set_dev2_reg"%string then Some set_dev_reg
  else if named "get_dev0_mem"%string || named "get_dev1_mem"%string then Some get_dev_mem
  else if named "set_dev0_mem"%string || named "set_dev1_mem"%string then Some set_dev_mem
  else if named "dump_dev0_mem"%string || named "dump_dev1_mem"%string then Some dump_dev_mem
  else if named "fill_dev0_mem"%string || named "fill_dev1_mem"%string then Some fill_dev_mem
  else if named "rd_async_msg"%string then Some rd_async_msg
  else if named "cstrace"%string then Some other
  else None.

Definition print_err (errcode : Z) : ClientM T unit := put_out (OutErr errcode).

(** What [main] returns. *)
Definition main (argv : list cstr) : ClientM T Z :=
  match argv with
  | _ :: name :: rest =>
      if bool_decide (name = bytes_of "help") || bool_decide (name = bytes_of "-help") ||
         bool_decide (name = bytes_of "--help") then
        if decide (rest = []) then put_out OutHelp;; mret 0
        else print_err CCU_BAD_CMD_ARG;; mret (-1)
      else
        match funcMap name with
        | None => print_err CCU_CMD_NOT_SUPPORTED;; mret (-1)
        | Some f =>
            res ← (fun w => match f argv w with
                            | Some (Val res, w') | Some (Fail res, w') => Some (res, w')
                            | None => None
                            end);
            if res =? CSWP_SUCCESS then mret 0 else print_err res;; mret (-1)
        end
  | _ => print_err CCU_BAD_CMD_ARG;; mret (-1)
  end.
End main.
End session.
