(* ===== verification/CcuMem.v ===== *)
(** The memory commands of the client utility against a target with memory:
    the division of an access into requests covers it exactly, and reading or
    writing through the client library moves exactly the bytes asked for. *)
From S2P Require Import Prelude Wire CswpTypes CswpBuffer Memory ClientCommands ClientState ClientComplete ClientTransact ClientApi ClientBatch ClientReading ClientReceive CcuIn PlatIf MemTarget CcuCswp.

(** ** The requests of an access *)

Definition width (a : cswp_access_size_t) : Z :=
  match a with
  | CSWP_ACCESS_SIZE_DEF | CSWP_ACCESS_SIZE_8 => 1
  | CSWP_ACCESS_SIZE_16 => 2
  | CSWP_ACCESS_SIZE_32 => 4
  | CSWP_ACCESS_SIZE_64 => 8
  end.

(** [covers addr idx n l]: the requests [l] access the [n] bytes at [addr] in
    order without gap or overlap, each a positive multiple of its access size
    at a multiple of its access size; byte [k] of the access has index
    [idx + k] in the array. *)
Inductive covers : Z -> Z -> Z -> list subreq_info -> Prop :=
  | covers_nil addr idx : covers addr idx 0 []
  | covers_cons addr idx n acc sz l :
      0 < sz <= n -> (width acc | sz) -> (width acc | addr) ->
      covers (u64 (addr + sz)) (idx + sz) (n - sz) l ->
      covers addr idx n (mkSubreq addr acc sz idx :: l).

(** The alignment that makes the requests aligned. *)
Definition aligned_for (devID addr n : Z) : Prop :=
  if devID =? 0 then (4 | addr) /\ (4 | n)
  else (8 <= n -> (8 | addr)) /\ (4 <= n -> (4 | addr)) /\ (2 <= n -> (2 | addr)).

(** How many requests an access of [n] bytes takes at most. *)
Definition rank (n : Z) : nat :=
  if 8 <=? n then 4 else if 4 <=? n then 3 else if 2 <=? n then 2 else if 1 <=? n then 1 else 0.

Lemma rank_4 n : (rank n <= 4)%nat.
Proof. unfold rank. repeat case_match; lia. Qed.

Lemma round_down n k : 0 < k -> n / k * k = n - n mod k /\ 0 <= n mod k < k.
Proof.
  intros Hk. pose proof (Z.mod_pos_bound n k Hk). pose proof (Z.div_mod n k). lia.
Qed.

Lemma divide_u64 k a b :
  (k | 2 ^ 64) -> 0 < k -> (k | a) -> (k | b) -> (k | u64 (a + b)).
Proof.
  intros Hk H0 Ha Hb. unfold u64.
  rewrite Z.mod_eq by done. apply Z.divide_sub_r; [by apply Z.divide_add_r|].
  by apply Z.divide_mul_l.
Qed.

Lemma divide_trans_2_4 a : (4 | a) -> (2 | a).
Proof. intros. etrans; [|done]. by exists 2. Qed.
Lemma divide_trans_4_8 a : (8 | a) -> (4 | a).
Proof. intros. etrans; [|done]. by exists 2. Qed.

(** One step of the division. *)
Lemma shape_ok devID addr n :
  0 < n -> aligned_for devID addr n ->
  let (sz, acc) := subreq_shape devID n in
  0 < sz <= n /\ (width acc | sz) /\ (width acc | addr) /\
  (rank (n - sz) < rank n)%nat /\ aligned_for devID (u64 (addr + sz)) (n - sz).
Proof.
  intros Hn Ha. unfold subreq_shape, aligned_for in *.
  assert (H2 : (2 | 2 ^ 64)) by (exists (2 ^ 63); reflexivity).
  assert (H4 : (4 | 2 ^ 64)) by (exists (2 ^ 62); reflexivity).
  assert (H8 : (8 | 2 ^ 64)) by (exists (2 ^ 61); reflexivity).
  destruct (round_down n 8) as [E8 R8], (round_down n 4) as [E4 R4], (round_down n 2) as [E2 R2]; try lia.
  assert (D8 : (8 | n / 8 * 8)) by (by exists (n / 8)).
  assert (D4 : (4 | n / 4 * 4)) by (by exists (n / 4)).
  assert (D2 : (2 | n / 2 * 2)) by (by exists (n / 2)).
  destruct (Z.eqb_spec devID 0).
  - destruct Ha as [Ha Hd]. assert (n mod 4 = 0) by (by apply Z.mod_divide).
    assert (4 <= n) by (destruct Hd as [q ->]; lia).
    replace (if 8 <=? n then _ else _) with (n / 4 * 4, CSWP_ACCESS_SIZE_32)
      by (destruct (Z.leb_spec 8 n), (Z.leb_spec 4 n); done || lia).
    cbn [width]. replace (n - n / 4 * 4) with 0 by lia. split_and!; try done || lia.
    + unfold rank. repeat case_match; lia.
    + by apply divide_u64.
    + by exists 0.
  - destruct (Z.leb_spec 8 n) as [L8|L8]; [|destruct (Z.leb_spec 4 n) as [L4|L4];
      [|destruct (Z.leb_spec 2 n) as [L2|L2]]]; cbn [width].
    + destruct Ha as (Ha8 & Ha4 & Ha2). specialize (Ha8 L8).
      assert (D : (8 | u64 (addr + n / 8 * 8))) by (by apply divide_u64).
      split_and!; try (done || lia); [|intros; by apply divide_trans_4_8
        |intros; by apply divide_trans_2_4, divide_trans_4_8].
      unfold rank. rewrite (proj2 (Z.leb_le 8 n)) by lia. repeat case_match; lia.
    + assert (n / 4 = 1) by nia.
      destruct Ha as (Ha8 & Ha4 & Ha2). specialize (Ha4 L4).
      assert (D : (4 | u64 (addr + n / 4 * 4))) by (by apply divide_u64).
      split_and!; try (done || lia); [|intros; by apply divide_trans_2_4].
      unfold rank. rewrite (proj2 (Z.leb_gt 8 n)), (proj2 (Z.leb_le 4 n)) by lia.
      repeat case_match; lia.
    + assert (n / 2 = 1) by nia.
      destruct Ha as (Ha8 & Ha4 & Ha2). specialize (Ha2 L2).
      assert (D : (2 | u64 (addr + n / 2 * 2))) by (by apply divide_u64).
      split_and!; try (done || lia).
      unfold rank. rewrite (proj2 (Z.leb_gt 8 n)), (proj2 (Z.leb_gt 4 n)), (proj2 (Z.leb_le 2 n)) by lia.
      repeat case_match; lia.
    + assert (n = 1) as -> by lia. split_and!; try (done || lia); try (by apply Z.divide_1_l).
      unfold rank. simpl. lia.
Qed.

(** The loop of [create_mem_subreqs] writes its requests from entry [i] on. *)
Lemma subreqs_loop_covers fuel : forall devID addr idx n i arr,
  0 <= n < 2 ^ 64 -> 0 <= idx -> idx + n < 2 ^ 64 -> aligned_for devID addr n ->
  (rank n <= fuel)%nat -> (i + rank n <= length arr)%nat ->
  exists l, covers addr idx n l /\ (length l <= rank n)%nat /\
    ((subreq_shape devID n).1 = n -> (length l <= 1)%nat) /\
    subreqs_loop fuel devID addr idx n i arr = Some (Z.of_nat (i + length l), splice arr i l).
Proof.
  induction fuel as [|fuel IH]; intros devID addr idx n i arr Hn Hi Hin Ha Hf Hl.
  - assert (n = 0) as ->.
    { unfold rank in Hf. destruct (Z.leb_spec 8 n), (Z.leb_spec 4 n), (Z.leb_spec 2 n), (Z.leb_spec 1 n); lia. }
    exists []. split_and!; [constructor|simpl; lia|simpl; lia|].
    simpl. by rewrite splice_nil, Nat.add_0_r.
  - cbn [subreqs_loop]. destruct (Z.ltb_spec 0 n) as [Hpos|].
    2: { assert (n = 0) as -> by lia. exists [].
         split_and!; [constructor|simpl; lia|simpl; lia|]. by rewrite splice_nil, Nat.add_0_r. }
    pose proof (shape_ok devID addr n Hpos Ha) as Hs.
    destruct (subreq_shape devID n) as [sz acc]. destruct Hs as (Hsz & Hw & Hwa & Hr & Ha').
    rewrite decide_True by lia. rewrite !u64_small with (z := idx + sz) by lia.
    rewrite !u64_small with (z := n - sz) by lia.
    destruct (IH devID (u64 (addr + sz)) (idx + sz) (n - sz) (S i)
      (<[i := mkSubreq addr acc sz idx]> arr)) as (l & Hc & Hlen & _ & ->); try lia; try done.
    { rewrite length_insert. lia. }
    exists (mkSubreq addr acc sz idx :: l). split_and!; [by constructor|simpl; lia| |].
    { simpl. intros ->. rewrite Z.sub_diag in Hc. inversion Hc; subst; simpl; lia. }
    do 2 f_equal; [simpl; lia|]. rewrite insert_splice by lia.
    replace (S i) with (i + length [mkSubreq addr acc sz idx])%nat by (simpl; lia).
    rewrite splice_splice; [done|]. simpl. lia.
Qed.

Lemma create_mem_subreqs_covers devID addr idx n arr :
  0 <= n -> 0 <= idx -> idx + n < 2 ^ 64 -> aligned_for devID addr n -> length arr = MAX_NUM_SUBREQ ->
  exists l, covers addr idx n l /\ (length l <= 4)%nat /\
    ((subreq_shape devID n).1 = n -> (length l <= 1)%nat) /\
    create_mem_subreqs devID addr idx n arr = Some (len l, splice arr 0 l).
Proof.
  intros Hn Hi Hin Ha Hl. pose proof (rank_4 n) as Hr. unfold MAX_NUM_SUBREQ in Hl.
  destruct (subreqs_loop_covers (S (length arr)) devID addr idx n 0 arr)
    as (l & Hc & Hlen & H1 & He); try lia; try done.
  exists l. split_and!; [done|lia|done|exact He].
Qed.

(** The parameters of an accepted command are aligned for the division. *)
Lemma accepted_aligned m :
  mem_cmd_ok m -> mc_devID m <= 1 -> aligned_for (mc_devID m) (start_addr m) (total_bytes m).
Proof.
  intros [Hd Ha Ht _ H0 H1] H. unfold aligned_for. destruct (Z.eqb_spec (mc_devID m) 0) as [E|E].
  - destruct (H0 E). split; by apply Z.mod_divide.
  - assert (E1 : mc_devID m = 1) by lia. destruct (H1 E1) as (A2 & A4 & A8).
    assert (D8 : 4 < total_bytes m -> (8 | start_addr m)) by (intros; apply Z.mod_divide; auto; lia).
    assert (D4 : 3 <= total_bytes m <= 4 -> (4 | start_addr m)) by (intros; apply Z.mod_divide; auto; lia).
    assert (D2 : total_bytes m = 2 -> (2 | start_addr m)) by (intros; apply Z.mod_divide; auto; lia).
    split_and!; intros Hn.
    + apply D8. lia.
    + destruct (decide (total_bytes m <= 4)); [apply D4; lia|apply divide_trans_4_8, D8; lia].
    + destruct (decide (total_bytes m <= 2)); [apply D2; lia|].
      apply divide_trans_2_4.
      destruct (decide (total_bytes m <= 4)); [apply D4; lia|apply divide_trans_4_8, D8; lia].
Qed.

(** ** One exchange with the target *)

Section exchange.
Context {T : Type} `{MemTarget T}.

(** The client has nothing under way; it may not have run a command yet. *)
Definition client_idle (w : world T) : Prop :=
  ready (transport w) /\
  exists p, priv w = Some p /\ priv_ok (prepped p) /\ batch_mode p = BATCH_NONE.

(** Sending requests that the target serves and processing its answer. *)
Lemma exchange_eq ops (w : world T) p l mode resp tm m' :
  priv w = Some p -> priv_ok p -> num_cmds p = len l -> pending_responses p = nodes l ->
  ready (transport w) -> Forall request_ok l.*1 ->
  serve_all l.*1 (target (transport w)) = Some (resp, tm) ->
  len (frame (len l) mode (total l)) <= 16384 -> len (rframe (len l) resp) <= 16384 ->
  (ops = None \/ valid (memory w) ops 1) ->
  answers ops 0 (nodes l) resp (start ops (memory w)) m' ->
  exists w' p', (call_send (frame (len l) mode (total l)) ≫= after_send ops) w =
      Some (CSWP_SUCCESS, w') /\
    priv w' = Some p' /\ priv_ok p' /\ batch_mode p' = batch_mode p /\
    memory w' = m' /\ ready (transport w') /\ target (transport w') = tm.
Proof.
  intros Hp Hok Hn Hpd Hr Hro Hs Hl Hrl Hops Ha.
  assert (Hlen : len l.*1 = len l) by (by rewrite length_fmap).
  destruct (target_exchange (transport w) mode l.*1 resp tm Hr Hro Hs) as (t1 & t2 & H1 & H2 & Hr2 & Ht2);
    rewrite ?Hlen; [exact Hl|exact Hrl|]. rewrite Hlen in H1, H2. fold (total l) in H1.
  destruct (exchange_stored ops w p l mode resp t1 t2 m') as (w' & p' & Hx & Hp' & Hok' & Hb & Hm & Ht); try done.
  exists w', p'. by rewrite Ht.
Qed.
End exchange.

(** ** The responses to the requests of a read *)

Definition read_cmd (d fl : Z) (rw br : ptr) (s : subreq_info) : request * option complete_func :=
  (ReqMemRead d (saddr s) (sr_size s) (access_size_id (acc_sz s)) fl,
   Some (Cmem_read {| mr_buf := ptr_add rw (buf_idx s); mr_maxBytes := sr_size s;
                      mr_bytesRead := br |})).

Lemma aligned_access_ok acc a n :
  (width acc | a) -> (width acc | n) -> aligned_access a n (access_size_id acc) = true.
Proof.
  intros Ha Hn. unfold aligned_access.
  assert (Hw : access_width (access_size_id acc) = Some (width acc)) by (by destruct acc).
  rewrite Hw. assert (width acc <> 0) by (by destruct acc).
  apply Z.mod_divide in Ha, Hn; try done. by rewrite Ha, Hn.
Qed.

Lemma put_mem_at m b o l vs :
  m !! b = Some (Ints l) -> 0 <= o -> o + len vs <= len l ->
  put_mem (Some (b, o)) vs m = <[b := Ints (splice l (Z.to_nat o) vs)]> m.
Proof. intros Hm Ho Hl. unfold put_mem, store. rewrite Hm. by rewrite decide_True by done. Qed.

(** What a sequence of reads changes: the array in block [b], the locals that
    [br] and [ops] point to, and nothing else. *)
Definition only_changes (b : loc) (br ops : ptr) (m m' : mem) : Prop :=
  forall x, x <> b -> block_of br <> Some x -> block_of ops <> Some x -> m' !! x = m !! x.

Lemma tick_frame ops k m x : block_of ops <> Some x -> tick ops k m !! x = m !! x.
Proof. intros. unfold tick. case_decide; [done|]. by apply put_mem_frame. Qed.

Section reads.
Context (tm : tmem) (d fl : Z) (b : loc) (br ops : ptr).
Hypothesis br_block : block_of br <> Some b.
Hypothesis ops_block : block_of ops <> Some b /\ (ops = None \/ block_of ops <> block_of br).

(** One read. *)
Lemma read_complete m arr addr sz acc idx k :
  m !! b = Some (Ints arr) -> 0 <= idx -> 0 <= sz -> idx + sz <= len arr ->
  valid m br 1 -> counts ops k m ->
  let data := read_bytes tm d addr sz in
  exists m1, complete_ok (read_cmd d fl (Some (b, 0)) br (mkSubreq addr acc sz idx)).2 m
      (varint_enc sz ++ data) m1 /\ counts ops k m1 /\
    forall k', let m2 := tick ops k' m1 in
      m2 !! b = Some (Ints (splice arr (Z.to_nat idx) data)) /\ valid m2 br 1 /\
      counts ops k' m2 /\ only_changes b br ops m m2.
Proof.
  intros Hm Hi Hs Hb Hbr Hops data.
  assert (Hd : len data = sz) by (by apply read_bytes_length).
  set (m0 := put_mem (Some (b, idx)) data m).
  assert (Hm0 : m0 = <[b := Ints (splice arr (Z.to_nat idx) data)]> m) by (apply put_mem_at; [done|lia..]).
  exists (put_mem br [sz] m0).
  assert (Hc : counts ops k (put_mem br [sz] m0)).
  { destruct Hops as [->|Hp]; [by left|right]. destruct ops_block as [Hob Hobr].
    apply put_mem_points_ne; [destruct Hobr as [->|]; [done|congruence]|].
    apply put_mem_points_ne; [by intros ?; apply Hob|done]. }
  split_and!; [|done|].
  - pose proof (ok_mem_read {| mr_buf := Some (b, idx); mr_maxBytes := sz; mr_bytesRead := br |}
      m data) as Hx. simpl in Hx. rewrite Hd in Hx. apply Hx; [lia| |done].
    exists arr. split; [done|]. lia.
  - intros k' m2. split_and!.
    + unfold m2. rewrite tick_frame by apply ops_block. rewrite put_mem_frame by done.
      rewrite Hm0. apply lookup_insert_eq.
    + unfold m2, tick. case_decide; [|apply put_mem_valid]; apply put_mem_valid, put_mem_valid, Hbr.
    + by eapply counts_tick.
    + intros x Hx H1 H2. unfold m2. rewrite tick_frame, put_mem_frame by done.
      rewrite Hm0. by apply lookup_insert_ne.
Qed.
End reads.

(** All the reads of an access: the target serves them, and processing the
    responses stores its bytes in the array. *)
Section all_reads.
Context (tm : tmem) (d fl : Z) (b : loc) (br ops : ptr).
Hypothesis br_block : block_of br <> Some b.
Hypothesis ops_block : block_of ops <> Some b /\ (ops = None \/ block_of ops <> block_of br).

Lemma read_response_len sz data :
  0 <= sz < 128 ^ 3 -> len data = sz ->
  len (response_bytes CSWP_MEM_READ (ROk (varint_enc sz ++ data))) <= sz + 6.
Proof.
  intros Hs Hd. unfold response_bytes. rewrite !length_app.
  pose proof (varint_enc_short 2 sz). change (length (varint_enc (cmd_id CSWP_MEM_READ))) with 2%nat.
  change (length (varint_enc 0)) with 1%nat. simpl in *. lia.
Qed.

Lemma read_answers addr idx n l :
  covers addr idx n l -> forall m arr k,
  m !! b = Some (Ints arr) -> 0 <= idx -> 0 <= n < 128 ^ 3 -> idx + n <= len arr ->
  valid m br 1 -> counts ops k m ->
  let cmds := read_cmd d fl (Some (b, 0)) br <$> l in
  exists resp m', serve_all cmds.*1 tm = Some (resp, tm) /\
    answers ops k (nodes cmds) resp m m' /\ len resp <= n + 6 * len l /\
    m' !! b = Some (Ints (splice arr (Z.to_nat idx) (read_bytes tm d addr n))) /\
    only_changes b br ops m m'.
Proof.
  induction 1 as [addr idx|addr idx n acc sz l Hsz Hw Ha Hc IH]; intros m arr k Hm Hi Hn Hb Hbr Hops.
  - exists [], m. split_and!; [done|constructor|simpl; lia| |done].
    unfold read_bytes. simpl. by rewrite splice_nil.
  - destruct (read_complete tm d fl b br ops br_block ops_block m arr addr sz acc idx k)
      as (m1 & Hok & Hk & Hnext); try done; try lia.
    destruct (Hnext (u32 (k + 1))) as (Hm2 & Hbr2 & Hk2 & Hch).
    set (data := read_bytes tm d addr sz) in *.
    assert (Hd : len data = sz) by (apply read_bytes_length; lia).
    destruct (IH (tick ops (u32 (k + 1)) m1) (splice arr (Z.to_nat idx) data) (u32 (k + 1)))
      as (resp & m' & Hs & Hans & Hlen & Hm' & Hch'); try done; try lia.
    { rewrite length_splice by lia. lia. }
    exists (response_bytes CSWP_MEM_READ (ROk (varint_enc sz ++ data)) ++ resp), m'. split_and!.
    + rewrite !fmap_cons. cbn [serve_all].
      assert (Hsv : serve (read_cmd d fl (Some (b, 0)) br (mkSubreq addr acc sz idx)).1 tm =
        Some (varint_enc sz ++ data, tm)).
      { simpl. by rewrite aligned_access_ok. }
      rewrite Hsv. cbn [mbind option_bind]. rewrite Hs. done.
    + by apply (answers_cons ops k {| pr_type := CSWP_MEM_READ; pr_complete := _ |} _
        (varint_enc sz ++ data) resp m m1 m').
    + rewrite length_app, length_cons. pose proof (read_response_len sz data). lia.
    + rewrite Hm'. do 2 f_equal.
      replace (Z.to_nat (idx + sz)) with (Z.to_nat idx + length data)%nat by lia.
      rewrite splice_splice.
      * f_equal. unfold data. rewrite <- read_bytes_app by lia. f_equal. lia.
      * unfold data in *. pose proof (read_bytes_length tm d (u64 (addr + sz)) (n - sz)). lia.
    + intros x H1 H2 H3. rewrite Hch' by done. by apply Hch.
Qed.
End all_reads.

(** The requests of an access have arguments in the range of their types. *)
Lemma covers_sizes addr idx n l :
  covers addr idx n l -> is_u64 addr ->
  Forall (fun s => is_u64 (saddr s) /\ 0 < sr_size s <= n /\ idx <= buf_idx s /\
    buf_idx s + sr_size s <= idx + n) l.
Proof.
  induction 1 as [|addr idx n acc sz l Hsz _ _ _ IH]; intros Ha; constructor.
  - simpl. split; [done|]. lia.
  - eapply Forall_impl; [|apply IH, u64_range]. simpl. intros. split; [tauto|]. lia.
Qed.

Lemma covers_nonempty addr idx n l : covers addr idx n l -> 0 < n -> 0 < len l.
Proof. destruct 1; simpl; lia. Qed.

Lemma access_id_u64 acc : is_u64 (access_size_id acc).
Proof. destruct acc; by vm_compute. Qed.

(** The requests of reads are well-formed and short. *)
Lemma read_requests d fl rw br addr idx n l :
  covers addr idx n l -> is_u64 addr -> n < 2 ^ 32 -> is_u64 d -> is_u64 fl ->
  Forall request_ok (read_cmd d fl rw br <$> l).*1 /\
  len (total (read_cmd d fl rw br <$> l)) <= 50 * len l.
Proof.
  intros Hc Ha Hn Hd Hf. pose proof (covers_sizes _ _ _ _ Hc Ha) as Hs.
  clear Hc. induction Hs as [|s l (Hsa & Hsz & _) _ IH]; [split; [constructor|done]|].
  destruct IH as [IH1 IH2]. split.
  - constructor; [|done]. split; [|done]. pose proof (access_id_u64 (acc_sz s)).
    unfold is_u64 in *. repeat (apply Forall_cons; [cbn [field_ok]; unfold is_u64; lia|]). apply Forall_nil.
  - unfold total. rewrite !fmap_cons. cbn [concat read_cmd fst].
    change (concat _) with (total (read_cmd d fl rw br <$> l)).
    rewrite length_app, length_cons. unfold request_bytes. rewrite !fields_bytes_cons.
    cbn [request_fields request_type field_bytes]. rewrite !fields_bytes_cons. cbn [field_bytes].
    change (fields_bytes []) with (@nil Z). rewrite !length_app, length_le_bytes.
    pose proof (varint_enc_length d). pose proof (varint_enc_length (sr_size s)).
    pose proof (varint_enc_length (access_size_id (acc_sz s))). pose proof (varint_enc_length fl).
    change (length (varint_enc (cmd_id CSWP_MEM_READ))) with 2%nat.
    change (length (@nil Z)) with 0%nat. lia.
Qed.

(** ** The responses to the requests of a write *)

(** The [n] elements of an array from index [i] on. *)
Definition slice (arr : list Z) (i n : Z) : list Z := take (Z.to_nat n) (drop (Z.to_nat i) arr).

Definition write_cmd (d fl : Z) (arr : list Z) (s : subreq_info)
    : request * option complete_func :=
  (ReqMemWrite d (saddr s) (access_size_id (acc_sz s)) fl (slice arr (buf_idx s) (sr_size s)), None).

Lemma slice_length arr i n : 0 <= i -> 0 <= n -> i + n <= len arr -> len (slice arr i n) = n.
Proof. intros. unfold slice. rewrite length_take, length_drop. lia. Qed.

Lemma slice_app arr i n k :
  0 <= i -> 0 <= n -> 0 <= k -> slice arr i n ++ slice arr (i + n) k = slice arr i (n + k).
Proof.
  intros. unfold slice. rewrite !Z2Nat.inj_add by lia. rewrite <- drop_drop.
  apply take_take_drop.
Qed.

Lemma slice_bytes arr i n k :
  bytes_ok (take (Z.to_nat k) arr) -> 0 <= i -> 0 <= n -> i + n <= k -> bytes_ok (slice arr i n).
Proof.
  intros Hk Hi Hn Hik. unfold slice. rewrite take_drop_commute. apply Forall_drop.
  replace (take (Z.to_nat i + Z.to_nat n) arr) with
    (take (Z.to_nat i + Z.to_nat n) (take (Z.to_nat k) arr)).
  - by apply Forall_take.
  - rewrite take_take. f_equal. lia.
Qed.

Lemma write_answers ops d fl arr addr idx n l :
  covers addr idx n l -> forall tm m k,
  0 <= idx -> 0 <= n -> idx + n <= len arr -> len arr <= 2 ^ 64 -> counts ops k m ->
  let cmds := write_cmd d fl arr <$> l in
  exists resp tm' m', serve_all cmds.*1 tm = Some (resp, tm') /\
    answers ops k (nodes cmds) resp m m' /\ len resp <= 3 * len l /\
    tmem_eq tm' (write_bytes d addr (slice arr idx n) tm) /\
    forall x, block_of ops <> Some x -> m' !! x = m !! x.
Proof.
  induction 1 as [addr idx|addr idx n acc sz l Hsz Hw Ha Hc IH]; intros tm m k Hi Hn Hb Harr Hops.
  - exists [], tm, m. split_and!; [done|constructor|simpl; lia| |done].
    symmetry. apply write_bytes_nil.
  - assert (Hd : len (slice arr idx sz) = sz) by (apply slice_length; lia).
    set (tm1 := write_bytes d addr (slice arr idx sz) tm).
    destruct (IH tm1 (tick ops (u32 (k + 1)) m) (u32 (k + 1)))
      as (resp & tm' & m' & Hs & Hans & Hlen & Ht & Hch); [lia..|done|by eapply counts_tick|].
    exists (response_bytes CSWP_MEM_WRITE (ROk []) ++ resp), tm', m'. split_and!.
    + rewrite !fmap_cons. cbn [serve_all]. cbn [write_cmd fst serve sr_size saddr acc_sz buf_idx].
      rewrite Hd, aligned_access_ok by done. fold tm1.
      cbn [mbind option_bind]. by rewrite Hs.
    + apply (answers_cons ops k {| pr_type := CSWP_MEM_WRITE; pr_complete := None |} _ [] resp m m m');
        [constructor|done|done].
    + rewrite length_app, length_cons.
      change (length (response_bytes CSWP_MEM_WRITE (ROk []))) with 3%nat. lia.
    + rewrite Ht. unfold tm1. rewrite <- Hd at 1. rewrite write_bytes_app, slice_app by (rewrite ?slice_length; lia).
      replace (sz + (n - sz)) with n by lia. done.
    + intros x Hx. rewrite Hch by done. by apply tick_frame.
Qed.

(** The requests of writes are well-formed; each adds at most 15 bytes to the
    data it carries. *)
Lemma write_requests d arr addr idx n l :
  covers addr idx n l -> is_u64 addr -> 0 <= idx -> 0 <= n <= MEM_MAX_RW_SZ ->
  idx + n <= len arr -> 0 <= d < 128 -> bytes_ok (take (Z.to_nat (idx + n)) arr) ->
  Forall request_ok (write_cmd d 0 arr <$> l).*1 /\
  len (total (write_cmd d 0 arr <$> l)) <= n + 15 * len l.
Proof.
  unfold MEM_MAX_RW_SZ. intros Hc. induction Hc as [|addr idx n acc sz l Hsz _ _ _ IH];
    intros Ha Hi Hn Hb Hd Harr; [split; [constructor|simpl; lia]|].
  replace (idx + n) with (idx + sz + (n - sz)) in Harr by lia.
  destruct IH as [IH1 IH2]; [apply u64_range|lia..|done|done|].
  assert (Hl : len (slice arr idx sz) = sz) by (apply slice_length; lia).
  assert (Hacc : 0 <= access_size_id acc < 128) by (destruct acc; vm_compute; intuition congruence).
  split.
  - constructor; [|done]. split; [|cbn [write_cmd fst sr_size saddr acc_sz buf_idx]; lia].
    unfold is_u64 in *. cbn [write_cmd fst request_fields sr_size saddr acc_sz buf_idx].
    repeat (apply Forall_cons; [cbn [field_ok]; unfold is_u64; first [lia | eapply slice_bytes; [exact Harr|lia..]]|]).
    apply Forall_nil.
  - unfold total. rewrite !fmap_cons. cbn [concat write_cmd fst sr_size saddr acc_sz buf_idx].
    change (concat _) with (total (write_cmd d 0 arr <$> l)).
    rewrite length_app, length_cons. unfold request_bytes. rewrite !fields_bytes_cons.
    cbn [request_fields request_type field_bytes]. rewrite !fields_bytes_cons. cbn [field_bytes].
    change (fields_bytes []) with (@nil Z). rewrite !length_app, length_le_bytes, Hl.
    pose proof (varint_enc_short 0 d). pose proof (varint_enc_short 1 sz).
    pose proof (varint_enc_short 0 (access_size_id acc)).
    change (length (varint_enc (cmd_id CSWP_MEM_WRITE))) with 2%nat.
    change (length (varint_enc 0)) with 1%nat.
    change (length (@nil Z)) with 0%nat. simpl in *. lia.
Qed.

(** ** Issuing requests in a batch *)

Lemma new_loc_above m l x : m !! l = Some x -> (l < new_loc m)%nat.
Proof.
  revert l x. unfold new_loc.
  refine (map_fold_weak_ind (fun acc m => forall l x, m !! l = Some x -> (l < acc)%nat) _ _ _ _ m).
  - intros l x Hx. by rewrite lookup_empty in Hx.
  - intros i y m' acc Hi IH l x Hl. destruct (decide (i = l)) as [->|Hne]; [lia|].
    rewrite lookup_insert_ne in Hl by done. apply IH in Hl. lia.
Qed.

Lemma new_loc_fresh m : m !! new_loc m = None.
Proof. destruct (m !! new_loc m) eqn:E; [|done]. apply new_loc_above in E. lia. Qed.

Section issue.
Context {T : Type} `{MemTarget T}.
Local Abbreviation CM := (ClientM T).

(** [issue] runs the commands [cmds]. *)
Definition issues (issue : subreq_info -> CM Z)
    (cmds : subreq_info -> request * option complete_func) (m : mem) (l : list subreq_info) : Prop :=
  Forall (fun s => forall w, memory w = m -> issue s w = run_command (cmds s).1 (cmds s).2 w) l.

Lemma batch_begin_eq abort (w : world T) p :
  priv w = Some p ->
  cswp_batch_begin abort w = Some (CSWP_SUCCESS,
    set_priv (Some (set_batch_mode (if abort then BATCH_ABORT else BATCH_CONTINUE) (prepped p))) w).
Proof.
  intros Hp. unfold cswp_batch_begin. rewrite (M_bind_eq _ _ _ _ _ (prep_eq w p Hp)). by mstep.
Qed.

Lemma batch_end_eq ops (w : world T) p :
  priv w = Some p -> priv_ok p -> 0 < num_cmds p ->
  cswp_batch_end ops w =
    (r ← (call_send (frame (num_cmds p) (batch_mode p) (requests p)) ≫= after_send ops);
     upd_priv (set_batch_mode BATCH_NONE);; mret r) (set_priv (Some (framed p)) w).
Proof.
  intros Hp Hok Hn. unfold cswp_batch_end. rewrite (M_bind_eq _ _ _ _ _ (get_priv_eq w p Hp)).
  destruct (Z.ltb_spec 0 (num_cmds p)); [|lia].
  pose proof (transact_eq ops w p Hp Hok) as Ht. unfold mbind, M_bind in *. by rewrite Ht.
Qed.

(** In a batch, the loop queues its commands. *)
Lemma subreq_loop_batching issue cmds all l : forall i (w : world T) p,
  l = take (length l) (drop i all) -> issues issue cmds (memory w) l ->
  priv w = Some p -> priv_ok p -> batch_mode p <> BATCH_NONE ->
  Forall request_ok (cmds <$> l).*1 -> len (total (cmds <$> l)) <= room (cmd p) ->
  num_cmds p + len l < 2 ^ 31 ->
  exists p', subreq_loop issue all (length l) i w = Some (Val tt, set_priv (Some p') w) /\
    priv_ok p' /\ batch_mode p' = batch_mode p /\
    requests p' = requests p ++ total (cmds <$> l) /\
    pending_responses p' = pending_responses p ++ nodes (cmds <$> l) /\
    num_cmds p' = num_cmds p + len l.
Proof.
  induction l as [|s l IH]; intros i w p Hl Hi Hp Hok Hb Hr Hroom Hn.
  - exists p. rewrite !app_nil_r. split_and!; try done; [|simpl; lia].
    unfold subreq_loop, mret, E_ret, set_priv. destruct w; simpl in *. by rewrite Hp.
  - rewrite !fmap_cons in Hr. inversion_clear Hr as [|? ? Hr1 Hr2].
    inversion_clear Hi as [|? ? Hi1 Hi2].
    unfold total in Hroom. rewrite !fmap_cons in Hroom. cbn [concat] in Hroom. rewrite length_app in Hroom.
    rewrite length_cons in Hn.
    assert (Hs : all !! i = Some s /\ l = take (length l) (drop (S i) all)).
    { cbn [length take] in Hl. destruct (drop i all) as [|s' rest] eqn:E; [done|].
      injection Hl as -> Hl. split.
      - rewrite <- (Nat.add_0_r i), <- lookup_drop, E. done.
      - rewrite Hl at 1. replace (S i) with (i + 1)%nat by lia.
        rewrite <- drop_drop, E. done. }
    destruct Hs as [Hs Htl].
    destruct (queued_ok p (cmds s).1 (cmds s).2) as (Hok' & Hreq & Hroom'); [done|lia|lia|].
    destruct (IH (S i) (set_priv (Some (queued p (cmds s).1 (cmds s).2)) w)
      (queued p (cmds s).1 (cmds s).2)) as (p' & Hrun & ? & Hbm & Hrq & Hpn & Hnc);
      [done|done|done|done|done|done|rewrite Hroom'; unfold total; lia|simpl; lia|].
    exists p'. split_and!; try done.
    + cbn [length subreq_loop]. rewrite Hs. unfold lift at 1, mbind at 1, E_bind at 1.
      rewrite Hi1, (run_command_batching w p) by (done || lia).
      unfold check at 1, mbind, E_bind. simpl. exact Hrun.
    + rewrite Hrq, Hreq, <- app_assoc. done.
    + rewrite Hpn. cbn [queued set_num_cmds set_pending pending_responses]. by rewrite <- app_assoc.
    + rewrite Hnc. cbn [queued set_num_cmds num_cmds]. rewrite length_cons. lia.
Qed.
End issue.

(** ** Executing the requests of an access *)

Section execute.
Context {T : Type} `{CcuEnv T} `{!MemTarget T}.
Local Abbreviation CM := (ClientM T).

(** The counter of completed operations: a new local variable for a batch. *)
Definition ops_var (n : Z) (m : mem) : ptr := if 1 <? n then Some (new_loc m, 0) else None.
Definition with_ops (n : Z) (m : mem) : mem :=
  if 1 <? n then <[new_loc m := Ints [0]]> m else m.

Lemma ops_valid n m : ops_var n m = None \/ valid (with_ops n m) (ops_var n m) 1.
Proof.
  unfold ops_var, with_ops. destruct (1 <? n); [right|by left].
  exists [0]. split; [apply lookup_insert_eq|simpl; lia].
Qed.

Lemma lift_eq {A} (m : CM A) w a w' : m w = Some (a, w') -> lift m w = Some (Val a, w').
Proof. unfold lift. by intros ->. Qed.

(** The result of executing the requests [l], issued as [cmds]. *)
Definition executes (mc : mem_cmd_t) (issue : subreq_info -> CM Z) (w : world T) (m' : mem)
    (tm : tmem) : Prop :=
  exists w', execute_mem mc issue w = Some (Val 0, w') /\ client_idle w' /\
    memory w' = m' /\ target (transport w') = tm.

Lemma prepped_mode p : batch_mode p = BATCH_NONE -> batch_mode (prepped p) = BATCH_NONE.
Proof. unfold prepped. by case_decide. Qed.

(** [cswp_batch_end] of a batch that the target answers. *)
Lemma batch_end_answers ops (w : world T) p l resp tm m' :
  priv w = Some p -> priv_ok p -> batch_mode p = BATCH_ABORT -> requests p = total l ->
  pending_responses p = nodes l -> num_cmds p = len l -> 1 < len l < 128 ->
  ready (transport w) -> Forall request_ok l.*1 ->
  serve_all l.*1 (target (transport w)) = Some (resp, tm) ->
  len (total l) <= 16384 - 15 -> len (rframe (len l) resp) <= 16384 ->
  (ops = None \/ valid (memory w) ops 1) ->
  answers ops 0 (nodes l) resp (start ops (memory w)) m' ->
  exists w', cswp_batch_end ops w = Some (CSWP_SUCCESS, w') /\ client_idle w' /\
    memory w' = m' /\ target (transport w') = tm.
Proof.
  intros Hp Hok Hb Hq Hpd Hn Hlen Hr Hro Hs Htot Hrl Hops Ha.
  rewrite (batch_end_eq ops w p) by (done || lia).
  destruct (exchange_eq ops (set_priv (Some (framed p)) w) (framed p) l BATCH_ABORT resp tm m')
    as (w3 & p3 & Hx & Hp3 & Hok3 & _ & Hm3 & Hr3 & Ht3); try done.
  - by apply framed_ok.
  - rewrite frame_length, varint_enc_small by lia. simpl. lia.
  - rewrite Hn, Hb, Hq, (M_bind_eq _ _ _ _ _ Hx). erewrite M_bind_eq by (by apply upd_priv_eq).
    eexists. split; [reflexivity|]. split; [|done]. split; [done|].
    eexists. split; [reflexivity|]. split; [|done]. apply prepped_ok. by destruct Hok3.
Qed.

(** The end of a batch: it is sent, and the count that comes back is right. *)
Lemma batch_tail ops (w1 w2 w3 : world T) n :
  (local_var 0 : E (world T) ptr) w1 = Some (Val ops, w2) ->
  cswp_batch_end ops w2 = Some (CSWP_SUCCESS, w3) -> points (memory w3) ops [n] ->
  ((ops_completed ← local_var 0;
    res ← lift (cswp_batch_end ops_completed);
    check res;;
    k ← lift (on_memory (load1 ops_completed));
    fail_if (negb (k =? n)) CCU_BATCH_OPS_ERR) : E (world T) unit) w1 = Some (Val tt, w3).
Proof.
  intros E2 Hend Hcount.
  assert (Hload : on_memory (load1 ops) w3 = Some (n, w3)).
  { unfold on_memory, load1. rewrite (E_bind_val _ _ _ _ _ (load_points (memory w3) ops [n] Hcount)), E_ret_eq.
    by destruct w3. }
  rewrite (E_bind_val _ _ _ _ _ E2), (E_bind_val _ _ _ _ _ (lift_eq _ _ _ _ Hend)).
  rewrite (E_bind_val _ _ w3 tt w3) by done.
  by rewrite (E_bind_val _ _ _ _ _ (lift_eq _ _ _ _ Hload)), Z.eqb_refl.
Qed.

Lemma execute_batch mc issue cmds l (w : world T) resp tm m' :
  client_idle w -> num_subreqs mc = len l -> l = take (length l) (subreqs mc) ->
  1 < len l < 128 -> issues issue cmds (memory w) l -> Forall request_ok (cmds <$> l).*1 ->
  serve_all (cmds <$> l).*1 (target (transport w)) = Some (resp, tm) ->
  len (total (cmds <$> l)) <= 16384 - 15 -> len (rframe (len l) resp) <= 16384 ->
  answers (ops_var (len l) (memory w)) 0 (nodes (cmds <$> l)) resp
    (start (ops_var (len l) (memory w)) (with_ops (len l) (memory w))) m' ->
  executes mc issue w m' tm.
Proof.
  intros (Hrdy & p & Hp & Hok & Hb) Hnum Hl Hlen Hi Hro Hs Htot Hrl Ha.
  unfold executes, execute_mem. rewrite Hnum. unfold ops_var, with_ops in Ha.
  destruct (Z.ltb_spec 1 (len l)) as [_|]; [|lia].
  destruct (prepped_none (prepped p) Hok (prepped_mode p Hb)) as (Hq0 & Hn0 & Hpd0 & _ & Hroom).
  rewrite prepped_idem in *.
  set (p1 := set_batch_mode BATCH_ABORT (prepped p)).
  assert (Hok1 : priv_ok p1) by (destruct Hok; by constructor).
  assert (E1 : ((res ← lift (cswp_batch_begin true); check res) : E (world T) unit) w =
    Some (Val tt, set_priv (Some p1) w)).
  { by rewrite (E_bind_val _ _ _ _ _ (lift_eq _ _ _ _ (batch_begin_eq true w p Hp))). }
  rewrite (E_bind_val _ _ _ _ _ E1), Nat2Z.id.
  destruct (subreq_loop_batching issue cmds (subreqs mc) l 0 (set_priv (Some p1) w) p1)
    as (p2 & Hrun & Hok2 & Hm2 & Hq2 & Hpd2 & Hn2);
    [done|done|done|done|done|done|unfold p1; simpl; lia|unfold p1; simpl; lia|].
  unfold p1 in Hq2, Hpd2, Hn2, Hm2. simpl in Hpd2, Hn2, Hm2.
  change (requests (set_batch_mode BATCH_ABORT (prepped p))) with (requests (prepped p)) in Hq2.
  rewrite Hq0 in Hq2. rewrite Hpd0 in Hpd2. rewrite Hn0 in Hn2. simpl app in *.
  rewrite (E_bind_val _ _ _ _ _ Hrun), set_priv_twice.
  set (ops := Some (new_loc (memory w), 0) : ptr) in *.
  set (w2 := set_memory (<[new_loc (memory w) := Ints [0]]> (memory w)) (set_priv (Some p2) w)).
  assert (Hlc : length (cmds <$> l) = length l) by apply length_fmap.
  assert (Hend : exists w3, cswp_batch_end ops w2 = Some (CSWP_SUCCESS, w3) /\ client_idle w3 /\
    memory w3 = m' /\ target (transport w3) = tm).
  { apply (batch_end_answers ops w2 p2 (cmds <$> l) resp); try done; try (by rewrite Hlc).
    right. exists [0]. split; [apply lookup_insert_eq|simpl; lia]. }
  destruct Hend as (w3 & Hend & Hid3 & Hm3 & Ht3).
  exists w3. split; [|done].
  assert (Hcount : points m' ops [len l]).
  { destruct (answers_count _ _ _ _ _ _ Ha) as [Hx|Hx]; [|lia| |done|].
    - apply start_counts. right. exists [0]. split; [apply lookup_insert_eq|simpl; lia].
    - unfold nodes. rewrite !length_fmap. lia.
    - unfold nodes in Hx. rewrite !length_fmap in Hx. exact Hx. }
  assert (E2 : (local_var 0 : E (world T) ptr) (set_priv (Some p2) w) = Some (Val ops, w2)) by done.
  rewrite <- Hm3 in Hcount. by rewrite (E_bind_val _ _ _ _ _ (batch_tail ops _ w2 w3 (len l) E2 Hend Hcount)).
Qed.

Lemma execute_single mc issue cmds s l (w : world T) resp tm m' :
  client_idle w -> num_subreqs mc = 1 -> s :: l = take 1 (subreqs mc) ->
  issues issue cmds (memory w) [s] -> request_ok (cmds s).1 ->
  serve_all [(cmds s).1] (target (transport w)) = Some (resp, tm) ->
  len (request_bytes (cmds s).1) <= 16384 - 15 -> len (rframe 1 resp) <= 16384 ->
  answers None 0 (nodes [cmds s]) resp (memory w) m' ->
  executes mc issue w m' tm.
Proof.
  intros (Hrdy & p & Hp & Hok & Hb) Hnum Hl Hi Hro Hs Htot Hrl Ha.
  unfold executes, execute_mem. rewrite Hnum. change (1 <? 1) with false. cbv iota.
  rewrite (E_bind_val _ _ w tt w) by done.
  assert (Hs0 : subreqs mc !! 0%nat = Some s) by (by destruct (subreqs mc); simplify_eq/=).
  inversion_clear Hi as [|? ? Hi1 _].
  destruct (command_eq (set_priv (Some (prepped p)) w) (prepped p) (cmds s).1 (cmds s).2 eq_refl Hok
    (prepped_mode p Hb) Hro Htot) as (p1 & Hok1 & Hn1 & Hb1 & Hpd1 & Heq).
  destruct (exchange_eq None (set_priv (Some p1) w) p1 [cmds s] BATCH_NONE resp tm m')
    as (w' & p' & Hx & Hp' & Hok' & Hb' & Hm' & Hr' & Ht'); try done; try by left.
  - by constructor.
  - rewrite frame_length. cbn [fmap list_fmap length]. unfold total. simpl. rewrite app_nil_r. lia.
  - assert (Htl : total [cmds s] = request_bytes (cmds s).1) by (unfold total; simpl; by rewrite app_nil_r).
    rewrite Htl in Hx. change (len [cmds s]) with 1 in Hx.
    assert (Hrun : issue s w = Some (CSWP_SUCCESS, w')) by (by rewrite Hi1, (run_command_prepped w p), Heq).
    exists w'. split.
    { simpl subreq_loop. rewrite Hs0. unfold lift, mbind, E_bind. rewrite Hrun. done. }
  split; [|done]. split; [done|]. exists p'. split; [done|]. split; [by apply prepped_ok|].
  by rewrite Hb'.
Qed.

(** Both cases. *)
Lemma execute_all mc issue cmds l (w : world T) resp tm m' :
  client_idle w -> num_subreqs mc = len l -> l = take (length l) (subreqs mc) ->
  0 < len l < 128 -> issues issue cmds (memory w) l -> Forall request_ok (cmds <$> l).*1 ->
  serve_all (cmds <$> l).*1 (target (transport w)) = Some (resp, tm) ->
  len (total (cmds <$> l)) <= 16384 - 15 -> len (rframe (len l) resp) <= 16384 ->
  answers (ops_var (len l) (memory w)) 0 (nodes (cmds <$> l)) resp
    (start (ops_var (len l) (memory w)) (with_ops (len l) (memory w))) m' ->
  executes mc issue w m' tm.
Proof.
  intros Hid Hnum Hl Hlen Hi Hro Hs Htot Hrl Ha.
  destruct (Z.ltb_spec 1 (len l)) as [H1|H1].
  - eapply execute_batch; done || lia.
  - destruct l as [|s [|s' l]]; [simpl in *; lia| |simpl in *; lia].
    rewrite fmap_cons in Hro. inversion_clear Hro as [|? ? Hr _].
    eapply (execute_single mc issue cmds s []); try done.
    unfold total in Htot. simpl in Htot. by rewrite app_nil_r in Htot.
Qed.

(** What is new in memory does not disturb what was there. *)
Lemma ops_var_other n m x : m !! x <> None -> block_of (ops_var n m) <> Some x.
Proof.
  intros Hx. unfold ops_var. destruct (1 <? n); [|done]. simpl. intros E. injection E as <-.
  by apply Hx, new_loc_fresh.
Qed.

Lemma start_other n m x : m !! x <> None -> start (ops_var n m) (with_ops n m) !! x = m !! x.
Proof.
  intros Hx. unfold start. rewrite tick_frame by (by apply ops_var_other).
  unfold with_ops. destruct (1 <? n); [|done]. apply lookup_insert_ne. intros <-.
  by apply Hx, new_loc_fresh.
Qed.

(** [execute_get_dev_mem_out] stores the bytes of the target in the array and
    changes nothing else that existed. *)
Lemma execute_get_eq mc addr idx n l (w : world T) b arr :
  client_idle w -> num_subreqs mc = len l -> l = take (length l) (subreqs mc) ->
  covers addr idx n l -> (length l <= 4)%nat -> is_u64 addr -> 0 < n <= MEM_MAX_RW_SZ -> 0 <= idx ->
  is_u64 (mc_devID mc) -> rw_values mc = Some (b, 0) ->
  memory w !! b = Some (Ints arr) -> idx + n <= len arr ->
  exists w', execute_get_dev_mem_out mc w = Some (Val 0, w') /\ client_idle w' /\
    target (transport w') = target (transport w) /\
    memory w' !! b =
      Some (Ints (splice arr (Z.to_nat idx) (read_bytes (target (transport w)) (mc_devID mc) addr n))) /\
    forall x, memory w !! x <> None -> x <> b -> memory w' !! x = memory w !! x.
Proof.
  intros Hid Hnum Hl Hc Hlen Ha Hn Hi Hd Hrw Hb Harr. unfold MEM_MAX_RW_SZ in Hn.
  unfold execute_get_dev_mem_out.
  set (c := new_loc (memory w)). set (br := Some (c, 0) : ptr).
  set (w1 := set_memory (<[c := Ints (replicate (Z.to_nat 1) env_junk)]> (memory w)) w).
  rewrite (E_bind_val _ _ _ br w1) by done.
  assert (Hcb : c <> b) by (intros E; pose proof (new_loc_fresh (memory w)) as F; fold c in F; congruence).
  set (d := mc_devID mc) in *. set (fl := u32 (mc_flags mc)).
  set (ops := ops_var (len l) (memory w1)).
  assert (Hlook : forall x, memory w1 !! x <> None ->
    start ops (with_ops (len l) (memory w1)) !! x = memory w1 !! x) by apply start_other.
  assert (Hops : forall x, memory w1 !! x <> None -> block_of ops <> Some x) by apply ops_var_other.
  assert (Hb1 : memory w1 !! b = Some (Ints arr)) by (simpl; by rewrite lookup_insert_ne).
  assert (Hc1 : memory w1 !! c = Some (Ints [env_junk])) by apply lookup_insert_eq.
  destruct (read_requests d fl (Some (b, 0)) br addr idx n l) as [Hro Htot]; try done; try lia.
  { unfold fl. pose proof (u32_range (mc_flags mc)). unfold is_u32, is_u64 in *. lia. }
  destruct (read_answers (target (transport w)) d fl b br ops) with (3 := Hc)
    (m := start ops (with_ops (len l) (memory w1))) (arr := arr) (k := 0)
    as (resp & m' & Hs & Hans & Hrl & Hm' & Hch); try lia.
  { simpl. congruence. }
  { split; [apply Hops; by rewrite Hb1|right; apply (Hops c); by rewrite Hc1]. }
  { by rewrite Hlook by (by rewrite Hb1). }
  { exists [env_junk]. rewrite Hlook by (by rewrite Hc1). split; [done|]. simpl. lia. }
  { apply start_counts, ops_valid. }
  pose proof (covers_nonempty _ _ _ _ Hc).
  destruct (execute_all mc (fun s => cswp_device_mem_read d (saddr s) (sr_size s) (acc_sz s) fl
      (ptr_add (Some (b, 0)) (buf_idx s)) br) (read_cmd d fl (Some (b, 0)) br) l w1 resp
      (target (transport w)) m') as (w' & Hx & Hid' & Hmem & Ht); try done; try lia.
  { unfold issues. apply Forall_true. by intros. }
  { rewrite rframe_length. pose proof (varint_enc_short 0 (len l)). simpl in *. lia. }
  exists w'. rewrite Hrw. split_and!; [exact Hx|done|done|by rewrite Hmem|].
  intros x Hx1 Hxb. assert (x <> c) by (intros ->; apply Hx1, new_loc_fresh).
  assert (memory w1 !! x = memory w !! x) as E by (by apply lookup_insert_ne).
  rewrite Hmem, <- E, <- (Hlook x) by (by rewrite E).
  apply Hch; [done|simpl; congruence|apply Hops; by rewrite E].
Qed.

Lemma issue_write d fl b arr s (w : world T) :
  memory w !! b = Some (Ints arr) -> 0 <= buf_idx s -> 0 <= sr_size s ->
  buf_idx s + sr_size s <= len arr ->
  (data ← on_memory (load (ptr_add (Some (b, 0)) (buf_idx s)) (sr_size s));
   cswp_device_mem_write d (saddr s) (sr_size s) (acc_sz s) fl data) w =
  run_command (write_cmd d fl arr s).1 (write_cmd d fl arr s).2 w.
Proof.
  intros Hb Hi Hs Hl.
  assert (E : on_memory (load (ptr_add (Some (b, 0)) (buf_idx s)) (sr_size s)) w =
    Some (slice arr (buf_idx s) (sr_size s), w)).
  { unfold on_memory, load, ptr_add. rewrite Hb, decide_True by lia. by destruct w. }
  rewrite (M_bind_eq _ _ _ _ _ E).
  pose proof (slice_length arr (buf_idx s) (sr_size s) Hi Hs Hl) as Hsl.
  unfold write_cmd, run_command. cbn [fst snd encode_request]. by rewrite Hsl.
Qed.

(** [execute_set_dev_mem_out] writes the bytes of the array to the target, when
    the requests fit one message. *)
Lemma execute_set_eq mc addr idx n l (w : world T) b arr :
  client_idle w -> num_subreqs mc = len l -> l = take (length l) (subreqs mc) ->
  covers addr idx n l -> (length l <= 4)%nat -> is_u64 addr -> 0 < n <= MEM_MAX_RW_SZ -> 0 <= idx ->
  0 <= mc_devID mc < 128 -> mc_flags mc = 0 -> n + 15 * len l <= 16384 - 15 ->
  rw_values mc = Some (b, 0) -> bytes_ok (take (Z.to_nat (idx + n)) arr) ->
  memory w !! b = Some (Ints arr) -> idx + n <= len arr <= 2 ^ 64 ->
  exists w', execute_set_dev_mem_out mc w = Some (Val 0, w') /\ client_idle w' /\
    tmem_eq (target (transport w'))
      (write_bytes (mc_devID mc) addr (slice arr idx n) (target (transport w))) /\
    forall x, memory w !! x <> None -> memory w' !! x = memory w !! x.
Proof.
  intros Hid Hnum Hl Hc Hlen Ha Hn Hi Hd Hfl Hfit Hrw Hby Hb Harr.
  unfold execute_set_dev_mem_out. rewrite Hfl, Hrw. change (u32 0) with 0.
  set (d := mc_devID mc) in *. set (ops := ops_var (len l) (memory w)).
  destruct (write_requests d arr addr idx n l) as [Hro Htot]; try done; try lia.
  destruct (write_answers ops d 0 arr addr idx n l Hc (target (transport w))
    (start ops (with_ops (len l) (memory w))) 0) as (resp & tm' & m' & Hs & Hans & Hrl & Ht & Hch);
    try lia; [by apply start_counts, ops_valid|].
  pose proof (covers_nonempty _ _ _ _ Hc).
  pose proof (covers_sizes _ _ _ _ Hc Ha) as Hsz.
  destruct (execute_all mc (fun s =>
      data ← on_memory (load (ptr_add (Some (b, 0)) (buf_idx s)) (sr_size s));
      cswp_device_mem_write d (saddr s) (sr_size s) (acc_sz s) 0 data)
    (write_cmd d 0 arr) l w resp tm' m') as (w' & Hx & Hid' & Hmem & Ht'); try done; try lia.
  { unfold issues. eapply Forall_impl; [|exact Hsz]. intros s (_ & ? & ? & ?) w1 Hw1.
    apply (issue_write d 0 b); [by rewrite Hw1|lia..]. }
  { rewrite rframe_length. pose proof (varint_enc_short 0 (len l)). simpl in *. lia. }
  exists w'. split_and!; [exact Hx|done|by rewrite Ht'|].
  intros x Hx1. rewrite Hmem, <- (start_other (len l) (memory w) x) by done.
  by apply Hch, ops_var_other.
Qed.
End execute.

(** ** Chunks *)

(** The parameters shared by the chunks of an access. *)
Record chunk_of (mc : mem_cmd_t) (d : Z) (rw : ptr) (fl : Z) : Prop := {
  co_dev : mc_devID mc = d;
  co_rw : rw_values mc = rw;
  co_flags : mc_flags mc = fl;
}.

(** The command [mc] carries the requests [l] of [n] bytes from byte [k] of an
    access at [a0]. *)
Record divided (mc : mem_cmd_t) (a0 k n : Z) (l : list subreq_info) : Prop := {
  dv_num : num_subreqs mc = len l;
  dv_take : l = take (length l) (subreqs mc);
  dv_covers : covers (u64 (a0 + k)) k n l;
  dv_length : (length l <= 4)%nat;
  dv_one : (subreq_shape (mc_devID mc) n).1 = n -> (length l <= 1)%nat;
}.

Section chunks.
Context {T : Type} `{CcuEnv T}.
Implicit Types (w : world T) (mc : mem_cmd_t).

Lemma divide_eq mc a0 k n w :
  0 < n -> 0 <= k -> k + n < 2 ^ 64 -> start_addr mc = u64 (a0 + k) ->
  aligned_for (mc_devID mc) (start_addr mc) n -> length (subreqs mc) = MAX_NUM_SUBREQ ->
  exists l arr, divide mc k n w = Some (Val (set_subreqs (len l) arr mc), w) /\
    length arr = MAX_NUM_SUBREQ /\ divided (set_subreqs (len l) arr mc) a0 k n l.
Proof.
  intros Hn Hk Hkn Hs Ha Hl.
  destruct (create_mem_subreqs_covers (mc_devID mc) (start_addr mc) k n (subreqs mc))
    as (l & Hc & Hlen & H1 & He); [lia..|done|done|].
  unfold MAX_NUM_SUBREQ in *.
  exists l, (splice (subreqs mc) 0 l). unfold divide. rewrite He. split_and!; [done| |].
  - rewrite length_splice; lia.
  - constructor; try done; [|by rewrite <- Hs]. cbn [subreqs set_subreqs].
    unfold splice. simpl. by rewrite take_app_length.
Qed.

Lemma status_val (m : E (world T) Z) w c w' :
  m w = Some (Val c, w') -> status m w = Some (Val c, w').
Proof. unfold status. by intros ->. Qed.

Section loop.
Context (execute : mem_cmd_t -> E (world T) Z) (I : Z -> world T -> Prop).
Context (d a0 tot fl : Z) (rw : ptr).
Hypothesis tot_range : 0 <= tot < 2 ^ 64.
Hypothesis chunk_step : forall mc k n l w,
  I k w -> 0 <= k -> (MEM_MAX_RW_SZ | k) -> 0 < n -> n = Z.min MEM_MAX_RW_SZ (tot - k) ->
  chunk_of mc d rw fl -> divided mc a0 k n l ->
  exists w', execute mc w = Some (Val 0, w') /\ I (k + n) w'.

Lemma aligned_next addr n k :
  aligned_for d addr n -> (8 | k) -> 8 <= k <= n -> aligned_for d (u64 (addr + k)) (n - k).
Proof.
  unfold aligned_for. intros Ha Hk Hn.
  assert (H8 : (8 | 2 ^ 64)) by (exists (2 ^ 61); reflexivity).
  assert (Hk4 : (4 | k)) by (by apply divide_trans_4_8).
  destruct (d =? 0).
  - destruct Ha. split; [apply divide_u64; try done; by apply divide_trans_4_8|by apply Z.divide_sub_r].
  - destruct Ha as (Ha & _ & _).
    assert (D : (8 | u64 (addr + k))) by (apply divide_u64; [done|lia|apply Ha; lia|done]).
    split_and!; intros; [done|by apply divide_trans_4_8|by apply divide_trans_2_4, divide_trans_4_8].
Qed.

Lemma aligned_le addr n k :
  aligned_for d addr n -> (8 | k) -> 0 <= k <= n -> aligned_for d addr k.
Proof.
  unfold aligned_for. intros Ha Hk Hn. destruct (d =? 0).
  - split; [apply Ha|by apply divide_trans_4_8].
  - destruct Ha as (A8 & A4 & A2). split_and!; intros; [apply A8|apply A4|apply A2]; lia.
Qed.

(** The loop goes through the whole access. *)
Lemma chunk_loop_eq fuel : forall mc k w,
  I k w -> 0 <= k <= tot -> (k < tot -> (MEM_MAX_RW_SZ | k)) -> chunk_of mc d rw fl ->
  start_addr mc = u64 (a0 + k) -> total_bytes mc = tot - k ->
  aligned_for d (start_addr mc) (tot - k) -> length (subreqs mc) = MAX_NUM_SUBREQ ->
  (Z.to_nat (tot - k) <= fuel)%nat ->
  exists w', chunk_loop fuel execute mc k w = Some (Val tot, w') /\ I tot w'.
Proof.
  induction fuel as [|fuel IH]; intros mc k w HI Hk Hdiv Hco Hs Ht Ha Hl Hf;
    cbn [chunk_loop]; rewrite Ht.
  - assert (k = tot) as -> by lia. rewrite Z.sub_diag. by exists w.
  - destruct (Z.ltb_spec 0 (tot - k)) as [Hpos|]; [|assert (k = tot) as -> by lia; by exists w].
    specialize (Hdiv ltac:(lia)).
    set (n := if MEM_MAX_RW_SZ <=? tot - k then MEM_MAX_RW_SZ else tot - k).
    assert (Hn : n = Z.min MEM_MAX_RW_SZ (tot - k)) by (unfold n; case_match; lia).
    assert (Hmax : MEM_MAX_RW_SZ = 16352) by done.
    assert (D8 : (8 | MEM_MAX_RW_SZ)) by (by exists 2044).
    pose proof Hco as [Hd Hrw Hfl].
    assert (Han : aligned_for d (start_addr mc) n).
    { unfold n. case_match; [by apply (aligned_le _ (tot - k)); [..|lia]|done]. }
    destruct (divide_eq mc a0 k n w) as (l & arr & He & Hla & Hdv); try done; try lia.
    { by rewrite Hd. }
    rewrite (E_bind_val _ _ _ _ _ He).
    destruct (chunk_step (set_subreqs (len l) arr mc) k n l w) as (w1 & Hx & HI1); try done; try lia.
    rewrite (E_bind_val _ _ _ _ _ (status_val _ _ _ _ Hx)).
    rewrite (E_bind_val _ _ w1 tt w1) by done.
    rewrite (u64_small (k + n)) by lia.
    apply IH; [done|lia| |done| |simpl; lia| |done|lia].
    + intros. replace n with MEM_MAX_RW_SZ by lia. apply Z.divide_add_r; [done|apply Z.divide_refl].
    + simpl. rewrite Hs. unfold u64. rewrite Z.add_mod_idemp_l by done. f_equal. lia.
    + cbn [start_addr]. destruct (decide (n = tot - k)) as [E|E].
      * replace (tot - (k + n)) with 0 by lia. unfold aligned_for in *. destruct (d =? 0); [|lia].
        split; [|by exists 0]. destruct Ha. rewrite E. apply divide_u64; auto; [by exists (2 ^ 62)|lia].
      * replace (tot - (k + n)) with (tot - k - n) by lia. apply aligned_next; [done| |lia].
        by replace n with MEM_MAX_RW_SZ by lia.
Qed.
End loop.
End chunks.
