(* ===== verification/CcuAccess.v ===== *)
(** The memory commands of the client utility as a whole: what [get_dev_mem],
    [dump_dev_mem], [set_dev_mem] and [fill_dev_mem] print or write, from their
    arguments to the memory of the target. *)
From S2P Require Import Prelude Wire CswpTypes CswpBuffer Memory ClientCommands ClientState ClientComplete ClientTransact ClientApi ClientBatch ClientReading ClientReceive CcuIn PlatIf MemTarget CcuCswp CcuMem.

Lemma max_bin_eq : MEM_MAX_BIN_SZ = 262144.
Proof. done. Qed.

(** The arrays are not to be computed. *)
#[local] Opaque MEM_MAX_BIN_SZ Z.to_nat.

(** ** The session of a command *)

Section session.
Context {T : Type} `{CcuEnv T, !MemTarget T}.
Implicit Types (w : world T).

(** [malloc] gives blocks of the sizes asked for. *)
Definition malloc_ok : Prop :=
  forall h c r, env_malloc = (Some h, Some c, Some r) ->
    len h = CSWP_REQ_HEADER_SIZE /\ len c = CSWP_REQ_RSP_BUFFER_SIZE /\
    len r = CSWP_REQ_RSP_BUFFER_SIZE.

Lemma lift_inv {A} (m : ClientM T A) w a w' : lift m w = Some (Val a, w') -> m w = Some (a, w').
Proof. unfold lift. intros E. destruct (m w) as [[]|]; by simplify_eq. Qed.

Lemma check_inv res w w' u : check res w = Some (Val u, w') -> res = 0 /\ w' = w.
Proof.
  unfold check. destruct (Z.eqb_spec res 0); ok_simpl; intros E; by simplify_eq.
Qed.

Lemma trap_ex_inv {A} (r : outcome A) w w' x : trap_ex r w = Some (Val x, w') -> w' = w.
Proof. unfold trap_ex. destruct r; ok_simpl; intros E; by simplify_eq. Qed.

Lemma on_base_memory {A} (f : T -> outcome A * T) w w' r :
  on_base f w = Some (Val r, w') -> memory w' = memory w /\ priv w' = priv w.
Proof. unfold on_base. destruct (f (transport w)) eqn:E. intros. by simplify_eq. Qed.

Lemma client_init_inv h c r w w' res :
  cswp_client_init h c r w = Some (res, w') ->
  memory w' = memory w /\
  exists hm cm rm, h = Some hm /\ c = Some cm /\ r = Some rm /\
    priv w' = Some (mkPriv (mkBuf CSWP_REQ_HEADER_SIZE 0 0 hm) (mkBuf CSWP_REQ_RSP_BUFFER_SIZE 0 0 cm)
      (mkBuf CSWP_REQ_RSP_BUFFER_SIZE 0 0 rm) BATCH_NONE 0 [] 0 0 0 None).
Proof.
  unfold cswp_client_init. intros E. apply M_bind_inv in E as (u1 & w1 & E1 & E).
  unfold modify in E1. destruct h as [hm|], c as [cm|], r as [rm|]; try done. simpl in E.
  apply M_bind_inv in E as (u2 & w2 & E2 & E). unfold modify in E2. unfold mret, M_ret in E.
  simplify_eq. split; [done|]. by exists hm, cm, rm.
Qed.

(** The set-up leaves the caller's memory alone and the client idle. *)
Lemma setup_inv con w w' r :
  malloc_ok -> setup_cdebug con w = Some (Val r, w') ->
  memory w' = memory w /\ (ready (transport w') -> client_idle w').
Proof.
  intros Hm. unfold setup_cdebug. destruct (parse_transport_cfg_file _) as [cfg| |]; try done.
  intros E. inv_ok E. destruct a0 as [ex_stat o]. destruct env_malloc as [[h c] s2] eqn:Hmal.
  apply on_base_memory in E0 as [Hm0 _]. apply trap_ex_inv in E1 as ->. inv_ok E.
  apply check_inv in E0 as [_ ->].
  apply lift_inv, client_init_inv in E1 as (Hm1 & hm & cm & rm & -> & -> & -> & Hp).
  apply check_inv in E2 as [_ ->]. destruct (Hm _ _ _ Hmal) as (Hh & Hc & Hr).
  assert (Hw : memory w' = memory s1 /\ priv w' = priv s1).
  { destruct con; [|ok_simpl; by simplify_eq]. inv_ok E.
    apply on_base_memory in E0 as [Hm2 Hp2]. destruct a4 as [ex2 o2]. inv_ok E.
    apply trap_ex_inv in E1 as ->. apply check_inv in E0 as [_ ->]. ok_simpl. by simplify_eq. }
  destruct Hw as [Hw1 Hw2]. split; [congruence|]. intros Hr'. split; [done|].
  eexists. split; [by rewrite Hw2|]. split; [|done].
  by constructor.
Qed.

(** ** From the arguments to the parameters *)

(** What [local_cmd] yields and the caller's memory after it. *)
Definition cmd_array w : loc := new_loc (memory w).
Definition cmd_memory w : mem :=
  <[cmd_array w := Ints (replicate (Z.to_nat MEM_MAX_BIN_SZ) env_junk)]> (memory w).

(** [params c argv w m w1]: the arguments of the command [c] are accepted as
    the parameters [m]. *)
Definition params (c : mem_extract) (argv : list cstr) w (m : mem_cmd_t) w1 : Prop :=
  (m0 ← local_cmd; extract (extract_mem_param env_file c argv m0)) w = Some (Val m, w1).

Lemma params_inv c argv w m w1 :
  params c argv w m w1 ->
  exists m0, local_cmd w = Some (Val m0, set_memory (cmd_memory w) w) /\
    rw_values m0 = Some (cmd_array w, 0) /\ length (subreqs m0) = MAX_NUM_SUBREQ /\
    extract (extract_mem_param env_file c argv m0) (set_memory (cmd_memory w) w) = Some (Val m, w1) /\
    extract_mem_param env_file c argv m0 (cmd_memory w) = Some (Val m, memory w1).
Proof.
  unfold params. intros E. apply E_bind_inv in E as (m0 & s & E0 & E). unfold local_cmd in E0.
  apply E_bind_inv in E0 as (arr & s' & Ea & E0). unfold local_array in Ea. ok_simpl. simplify_eq.
  eexists. split; [reflexivity|]. split; [done|]. split; [done|].
  split; [exact E|]. unfold extract in E. cbn [memory set_memory] in E.
  destruct (extract_mem_param _ _ _ _ _) as [[[]]|] eqn:Ex; try done. simplify_eq.
  reflexivity.
Qed.

Lemma cmd_memory_valid w : valid (cmd_memory w) (Some (cmd_array w, 0)) MEM_MAX_BIN_SZ.
Proof.
  eexists. split; [apply lookup_insert_eq|]. rewrite length_replicate.
  pose proof max_bin_eq. lia.
Qed.

(** The parameters and the array before the accesses are made. *)
Lemma params_ok c argv w m w1 :
  params c argv w m w1 ->
  mem_cmd_ok m /\ rw_values m = Some (cmd_array w, 0) /\ length (subreqs m) = MAX_NUM_SUBREQ /\
  exists arr, memory w1 !! cmd_array w = Some (Ints arr) /\ len arr = MEM_MAX_BIN_SZ /\
    match c with
    | GetMem => total_bytes m <= 400
    | DumpMem => True
    | SetMem => total_bytes m ∈ [1; 2; 4; 8] /\
        exists s v, argv !! 4%nat = Some s /\ is_valid_hex_str s tt = Some (Val v, tt) /\
          take (Z.to_nat (total_bytes m)) arr = le_bytes (Z.to_nat (total_bytes m)) v
    | FillMem => exists name data, argv !! 3%nat = Some name /\ env_file name = Some data /\
        total_bytes m = len data /\ take (Z.to_nat (total_bytes m)) arr = data
    end.
Proof.
  intros Hp. apply params_inv in Hp as (m0 & _ & Hrw & Hsub & _ & He).
  pose proof (extract_subreqs _ _ _ _ _ _ _ He) as Hs.
  pose proof (cmd_memory_valid w) as Hv. rewrite <- Hrw in Hv.
  destruct (extract_ok _ _ _ _ _ _ _ Hv He) as (Hok & Hrw' & Hc).
  split; [done|]. split; [congruence|]. split; [congruence|].
  set (arr0 := replicate (Z.to_nat MEM_MAX_BIN_SZ) env_junk).
  assert (H0 : cmd_memory w !! cmd_array w = Some (Ints arr0)) by apply lookup_insert_eq.
  assert (Hl0 : len arr0 = MEM_MAX_BIN_SZ).
  { unfold arr0. rewrite length_replicate. pose proof max_bin_eq. lia. }
  clearbody arr0. destruct Hok as [_ _ Ht _ _ _].
  assert (Hput : forall vs, len vs = total_bytes m -> memory w1 = put_mem (rw_values m0) vs (cmd_memory w) ->
    exists arr, memory w1 !! cmd_array w = Some (Ints arr) /\ len arr = MEM_MAX_BIN_SZ /\
      take (Z.to_nat (total_bytes m)) arr = vs).
  { intros vs Hl Hm. exists (splice arr0 0 vs). split_and!.
    - rewrite Hm, Hrw, (put_mem_at _ _ _ _ _ H0) by lia. apply lookup_insert_eq.
    - rewrite length_splice by lia. done.
    - unfold splice. rewrite <- Hl, Nat2Z.id. rewrite take_0, app_nil_l. apply take_app_length. }
  destruct c.
  - destruct Hc as [-> ?]. by exists arr0.
  - rewrite Hc. by exists arr0.
  - destruct Hc as (Hin & s & v & Ha & Hx & Hm).
    destruct (Hput (le_bytes (Z.to_nat (total_bytes m)) v)) as (arr & ? & ? & ?);
      [rewrite length_le_bytes; lia|done|]. exists arr. split_and!; try done. by exists s, v.
  - destruct Hc as (name & data & Ha & Hf & Hn & Hm).
    destruct (Hput data) as (arr & ? & ? & ?); [done|done|]. exists arr. split_and!; try done. by exists name, data.
Qed.
End session.

(** ** Reading and writing an access in chunks *)

Section chunked.
Context {T : Type} `{CcuEnv T, !MemTarget T}.
Implicit Types (w : world T).

Lemma chunks_get m w b arr :
  client_idle w -> mem_cmd_ok m -> mc_devID m <= 1 -> rw_values m = Some (b, 0) ->
  length (subreqs m) = MAX_NUM_SUBREQ -> memory w !! b = Some (Ints arr) ->
  len arr = MEM_MAX_BIN_SZ ->
  let data := read_bytes (target (transport w)) (mc_devID m) (start_addr m) (total_bytes m) in
  exists w', chunks execute_get_dev_mem_out m w = Some (Val (total_bytes m), w') /\
    client_idle w' /\ target (transport w') = target (transport w) /\
    memory w' !! b = Some (Ints (splice arr 0 data)).
Proof.
  intros Hid Hok Hd Hrw Hsub Hb Harr data. pose proof max_bin_eq as Hmax.
  pose proof (accepted_aligned m Hok Hd) as Hal. destruct Hok as [Hd0 Ha Ht Hfl _ _].
  set (tm := target (transport w)) in *. set (d := mc_devID m) in *. set (a0 := start_addr m) in *.
  destruct (chunk_loop_eq execute_get_dev_mem_out
    (fun k w => client_idle w /\ target (transport w) = tm /\
       memory w !! b = Some (Ints (splice arr 0 (read_bytes tm d a0 k))))
    d a0 (total_bytes m) (mc_flags m) (Some (b, 0))) with (fuel := Z.to_nat (total_bytes m))
    (mc := m) (k := 0) (w := w) as (w' & Hx & Hid' & Htm & Hm); try done; try lia.
  - intros mc k n l w1 (Hid1 & Htm1 & Hm1) Hk Hdiv Hn Hmin [Hcd Hcr Hcf] [Hnum Htk Hc Hlen H1].
    assert (Hmx : MEM_MAX_RW_SZ = 16352) by done.
    pose proof (read_bytes_length tm d a0 k Hk) as Hrl.
    destruct (execute_get_eq mc (u64 (a0 + k)) k n l w1 b (splice arr 0 (read_bytes tm d a0 k)))
      as (w2 & Hx & Hid2 & Htm2 & Hm2 & _); try done; try lia.
    + apply u64_range.
    + rewrite Hcd. unfold is_u64. lia.
    + rewrite length_splice by lia. lia.
    + exists w2. split; [exact Hx|]. split; [done|]. split; [congruence|].
      rewrite Hm2, Htm1, Hcd, read_bytes_app by lia. do 2 f_equal.
      pose proof (read_bytes_length tm d (u64 (a0 + k)) n).
      replace (Z.to_nat k) with (0 + length (read_bytes tm d a0 k))%nat by lia.
      apply splice_splice. lia.
  - intros _. apply Z.divide_0_r.
  - rewrite Z.add_0_r, u64_small by done. done.
  - by rewrite Z.sub_0_r.
  - by exists w'.
Qed.

(** A chunk of a write whose request fits the buffer of the client. *)
Definition write_fits (d tot : Z) : Prop := d = 0 \/ tot mod MEM_MAX_RW_SZ <= 16309.

Lemma chunk_fits m tot k n (l : list subreq_info) :
  mc_devID m <= 1 -> 0 <= mc_devID m -> write_fits (mc_devID m) tot ->
  (mc_devID m = 0 -> (4 | tot)) -> (MEM_MAX_RW_SZ | k) -> 0 <= k -> 0 < n ->
  n = Z.min MEM_MAX_RW_SZ (tot - k) -> (length l <= 4)%nat ->
  ((subreq_shape (mc_devID m) n).1 = n -> (length l <= 1)%nat) ->
  n + 15 * len l <= 16384 - 15.
Proof.
  assert (Hmx : MEM_MAX_RW_SZ = 16352) by done.
  intros Hd1 Hd0 Hf H4 [q Hq] Hk Hn Hmin Hl H1. unfold subreq_shape in H1.
  assert (Hcase : (length l <= 1)%nat \/ n <= 16309).
  { destruct (Z.eqb_spec (mc_devID m) 0) as [E|E].
    - left. apply H1. specialize (H4 E) as [r Hr].
      assert (n mod 4 = 0).
      { apply Z.mod_divide; [done|]. destruct (Z.min_spec MEM_MAX_RW_SZ (tot - k)) as [[_ Hm]|[_ Hm]];
          rewrite Hmin, Hm; [by exists 4088|]. exists (r - q * 4088). lia. }
      pose proof (Z.div_mod n 4). assert (4 <= n) by (destruct (decide (4 <= n)); [done|]; 
        pose proof (Z.mod_small n 4); lia).
      destruct (Z.leb_spec 8 n); [simpl; lia|]. rewrite (proj2 (Z.leb_le 4 n)) by lia. simpl. lia.
    - destruct (decide (n = MEM_MAX_RW_SZ)) as [->|Hne]; [left; by apply H1|right].
      destruct Hf as [|Hf]; [done|]. assert (n = tot - k) by lia.
      assert (Hmod : tot mod MEM_MAX_RW_SZ = n) by (symmetry; apply Z.mod_unique with q; lia). lia. }
  lia.
Qed.

Lemma chunks_set m w b arr :
  client_idle w -> mem_cmd_ok m -> mc_devID m <= 1 -> rw_values m = Some (b, 0) ->
  length (subreqs m) = MAX_NUM_SUBREQ -> memory w !! b = Some (Ints arr) ->
  len arr = MEM_MAX_BIN_SZ -> bytes_ok (take (Z.to_nat (total_bytes m)) arr) ->
  write_fits (mc_devID m) (total_bytes m) ->
  exists w', chunks execute_set_dev_mem_out m w = Some (Val (total_bytes m), w') /\
    client_idle w' /\
    tmem_eq (target (transport w'))
      (write_bytes (mc_devID m) (start_addr m) (take (Z.to_nat (total_bytes m)) arr)
         (target (transport w))).
Proof.
  intros Hid Hok Hd Hrw Hsub Hb Harr Hby Hfit. pose proof max_bin_eq as Hmax.
  pose proof (accepted_aligned m Hok Hd) as Hal. destruct Hok as [Hd0 Ha Ht Hfl H0 _].
  set (tm := target (transport w)) in *. set (a0 := start_addr m) in *.
  assert (H4 : mc_devID m = 0 -> (4 | total_bytes m)) by (intros E; by apply Z.mod_divide, H0).
  destruct (chunk_loop_eq execute_set_dev_mem_out
    (fun k w => client_idle w /\ memory w !! b = Some (Ints arr) /\
       tmem_eq (target (transport w)) (write_bytes (mc_devID m) a0 (slice arr 0 k) tm))
    (mc_devID m) a0 (total_bytes m) 0 (Some (b, 0))) with (fuel := Z.to_nat (total_bytes m))
    (mc := m) (k := 0) (w := w) as (w' & Hx & Hid' & Hm & Htm); try done; try lia.
  - intros mc k n l w1 (Hid1 & Hm1 & Htm1) Hk Hdiv Hn Hmin [Hcd Hcr Hcf] [Hnum Htk Hc Hlen H1].
    assert (Hmx : MEM_MAX_RW_SZ = 16352) by done. rewrite Hcd in H1.
    destruct (execute_set_eq mc (u64 (a0 + k)) k n l w1 b arr)
      as (w2 & Hx & Hid2 & Htm2 & Hm2); try done; try lia.
    + apply u64_range.
    + apply (chunk_fits m (total_bytes m) k n l); try done; try lia.
    + replace (take (Z.to_nat (k + n)) arr) with
        (take (Z.to_nat (k + n)) (take (Z.to_nat (total_bytes m)) arr)).
      * by apply Forall_take.
      * rewrite take_take. f_equal. lia.
    + exists w2. split; [exact Hx|]. split; [done|]. split; [by rewrite Hm2 by congruence|].
      rewrite Htm2, Hcd, Htm1. pose proof (slice_length arr 0 k) as Hsl.
      pose proof (slice_length arr k n) as Hsn.
      replace (u64 (a0 + k)) with (u64 (a0 + len (slice arr 0 k))) by (do 2 f_equal; lia).
      rewrite write_bytes_app by lia. by rewrite <- (slice_app arr 0 k n) by lia.
  - split; [done|]. split; [done|]. unfold slice. cbn. symmetry. apply write_bytes_nil.
  - intros _. apply Z.divide_0_r.
  - rewrite Z.add_0_r, u64_small by done. done.
  - by rewrite Z.sub_0_r.
  - exists w'. split; [done|]. split; [done|]. exact Htm.
Qed.
End chunked.

(** ** One access *)

Section direct.
Context {T : Type} `{CcuEnv T, !MemTarget T}.
Implicit Types (w : world T).

(** No request is made for no bytes. *)
Lemma execute_none mc request w :
  num_subreqs mc = 0 -> execute_mem mc request w = Some (Val 0, w).
Proof. intros Hn. unfold execute_mem. by rewrite Hn. Qed.

Lemma divide_none m w :
  exists m', divide m 0 0 w = Some (Val m', w) /\ num_subreqs m' = 0 /\ rw_values m' = rw_values m.
Proof. by eexists. Qed.

(** The division and the accesses of [get_dev_mem]. *)
Lemma direct_get m w b arr :
  client_idle w -> mem_cmd_ok m -> mc_devID m <= 1 -> rw_values m = Some (b, 0) ->
  length (subreqs m) = MAX_NUM_SUBREQ -> memory w !! b = Some (Ints arr) ->
  len arr = MEM_MAX_BIN_SZ -> total_bytes m <= MEM_MAX_RW_SZ ->
  let data := read_bytes (target (transport w)) (mc_devID m) (start_addr m) (total_bytes m) in
  exists m' w', divide m 0 (total_bytes m) w = Some (Val m', w) /\
    execute_get_dev_mem_out m' w = Some (Val 0, w') /\
    rw_values m' = rw_values m /\ total_bytes m' = total_bytes m /\ start_addr m' = start_addr m /\
    client_idle w' /\ target (transport w') = target (transport w) /\
    memory w' !! b = Some (Ints (splice arr 0 data)).
Proof.
  intros Hid Hok Hd Hrw Hsub Hb Harr Hle data. pose proof max_bin_eq as Hmax.
  pose proof (accepted_aligned m Hok Hd) as Hal. destruct Hok as [Hd0 Ha Ht Hfl _ _].
  destruct (decide (total_bytes m = 0)) as [E|E].
  - unfold data. rewrite E.
    set (c := new_loc (memory w)).
    exists (set_subreqs 0 (subreqs m) m),
      (set_memory (<[c := Ints (replicate (Z.to_nat 1) env_junk)]> (memory w)) w).
    assert (c <> b) by (intros F; pose proof (new_loc_fresh (memory w)) as G; fold c in G; congruence).
    split_and!; try done. cbn [memory set_memory]. rewrite lookup_insert_ne by done. done.
  - destruct (divide_eq m (start_addr m) 0 (total_bytes m) w)
      as (l & arr1 & He & Hl1 & [Hnum Htk Hc Hlen H1]); try done; try lia.
    { by rewrite Z.add_0_r, u64_small. }
    rewrite Z.add_0_r, (u64_small (start_addr m)) in Hc by done.
    destruct (execute_get_eq (set_subreqs (len l) arr1 m) (start_addr m) 0 (total_bytes m) l w b arr)
      as (w' & Hx & Hid' & Htm & Hm & _); try done; try lia.
    { cbn. unfold is_u64. lia. }
    by exists (set_subreqs (len l) arr1 m), w'.
Qed.

(** The division and the accesses of [set_dev_mem]. *)
Lemma direct_set m w b arr :
  client_idle w -> mem_cmd_ok m -> mc_devID m <= 1 -> rw_values m = Some (b, 0) ->
  length (subreqs m) = MAX_NUM_SUBREQ -> memory w !! b = Some (Ints arr) ->
  len arr = MEM_MAX_BIN_SZ -> 0 < total_bytes m <= 16309 ->
  bytes_ok (take (Z.to_nat (total_bytes m)) arr) ->
  exists m' w', divide m 0 (total_bytes m) w = Some (Val m', w) /\
    execute_set_dev_mem_out m' w = Some (Val 0, w') /\ client_idle w' /\
    tmem_eq (target (transport w'))
      (write_bytes (mc_devID m) (start_addr m) (take (Z.to_nat (total_bytes m)) arr)
         (target (transport w))).
Proof.
  intros Hid Hok Hd Hrw Hsub Hb Harr Hle Hby. pose proof max_bin_eq as Hmax.
  assert (Hmx : MEM_MAX_RW_SZ = 16352) by done.
  pose proof (accepted_aligned m Hok Hd) as Hal. destruct Hok as [Hd0 Ha Ht Hfl _ _].
  destruct (divide_eq m (start_addr m) 0 (total_bytes m) w)
    as (l & arr1 & He & Hl1 & [Hnum Htk Hc Hlen H1]); try done; try lia.
  { by rewrite Z.add_0_r, u64_small. }
  rewrite Z.add_0_r, (u64_small (start_addr m)) in Hc by done.
  destruct (execute_set_eq (set_subreqs (len l) arr1 m) (start_addr m) 0 (total_bytes m) l w b arr)
    as (w' & Hx & Hid' & Htm & _); try done; try lia.
  { cbn. lia. }
  by exists (set_subreqs (len l) arr1 m), w'.
Qed.
End direct.

(** ** The commands *)

(** [accepted c argv w m w2]: the command [c] accepts its arguments as the
    parameters [m] of a device with checked alignment, and its session is set
    up in the state [w2]. *)
Record accepted {T} `{CcuEnv T, !MemTarget T} (c : mem_extract) (argv : list cstr)
    (w : world T) (m : mem_cmd_t) (w2 : world T) : Prop := {
  acc_malloc : malloc_ok;
  acc_dev : mc_devID m <= 1;
  acc_params : exists w1, params c argv w m w1 /\ setup_cdebug true w1 = Some (Val 0, w2);
  acc_ready : ready (transport w2);
}.

Section commands.
Context {T : Type} `{CcuEnv T, !MemTarget T}.
Implicit Types (w : world T).

(** The start of a memory command. *)
Lemma accepted_start {A} c argv w m w2 (k : mem_cmd_t -> E (world T) A) :
  accepted c argv w m w2 ->
  (m ← local_cmd; m ← extract (extract_mem_param env_file c argv m);
   res ← setup_cdebug true; check res;; k m) w = k m w2.
Proof.
  intros [Hm Hd (w1 & Hp & Hs) Hr]. apply params_inv in Hp as (m0 & E0 & _ & _ & E1 & _).
  rewrite (E_bind_val _ _ _ _ _ E0), (E_bind_val _ _ _ _ _ E1), (E_bind_val _ _ _ _ _ Hs). done.
Qed.

Lemma accepted_state c argv w m w2 :
  accepted c argv w m w2 ->
  client_idle w2 /\ mem_cmd_ok m /\ rw_values m = Some (cmd_array w, 0) /\
  length (subreqs m) = MAX_NUM_SUBREQ /\
  exists arr, memory w2 !! cmd_array w = Some (Ints arr) /\ len arr = MEM_MAX_BIN_SZ /\
    match c with
    | GetMem => total_bytes m <= 400
    | DumpMem => True
    | SetMem => total_bytes m ∈ [1; 2; 4; 8] /\
        exists s v, argv !! 4%nat = Some s /\ is_valid_hex_str s tt = Some (Val v, tt) /\
          take (Z.to_nat (total_bytes m)) arr = le_bytes (Z.to_nat (total_bytes m)) v
    | FillMem => exists name data, argv !! 3%nat = Some name /\ env_file name = Some data /\
        total_bytes m = len data /\ take (Z.to_nat (total_bytes m)) arr = data
    end.
Proof.
  intros [Hm Hd (w1 & Hp & Hs) Hr]. destruct (setup_inv _ _ _ _ Hm Hs) as [Hmem Hid].
  rewrite Hmem. pose proof (params_ok _ _ _ _ _ Hp). auto.
Qed.

Lemma load_array w b arr data n :
  memory w !! b = Some (Ints (splice arr 0 data)) -> len data = n -> n <= len arr ->
  lift (on_memory (load (Some (b, 0)) n)) w = Some (Val data, w).
Proof.
  intros Hb Hd Hn. apply lift_eq. unfold on_memory, load. rewrite Hb.
  rewrite decide_True by (rewrite length_splice by lia; lia).
  rewrite <- Hd, Nat2Z.id. change (Z.to_nat 0) with 0%nat. unfold splice.
  rewrite take_0, app_nil_l, drop_0, take_app_length. by destruct w.
Qed.

(** [get_dev_mem] prints the bytes that the memory of the target has at the
    address of its arguments, and changes none of them, whatever the size, the
    address and the division into requests. *)
Lemma get_prints_memory argv w m w2 :
  accepted GetMem argv w m w2 ->
  exists w3, get_dev_mem argv w = (print (OutGetMem (start_addr m)
      (read_bytes (target (transport w2)) (mc_devID m) (start_addr m) (total_bytes m)));; finish true) w3 /\
    client_idle w3 /\ target (transport w3) = target (transport w2).
Proof.
  intros Ha. destruct (accepted_state _ _ _ _ _ Ha) as (Hid & Hok & Hrw & Hsub & arr & Hb & Hl & H4).
  assert (Hmx : MEM_MAX_RW_SZ = 16352) by done. pose proof max_bin_eq as Hmax.
  destruct (direct_get m w2 (cmd_array w) arr)
    as (m' & w3 & Hdiv & Hx & Hrw' & Ht' & Hs' & Hid3 & Htm & Hm); try done; [apply Ha|lia|].
  exists w3. split; [|done]. unfold get_dev_mem. rewrite (accepted_start GetMem _ _ _ _ _ Ha).
  rewrite (E_bind_val _ _ _ _ _ Hdiv), (E_bind_val _ _ _ _ _ (status_val _ _ _ _ Hx)).
  rewrite (E_bind_val _ _ w3 tt w3) by done. rewrite Hrw', Hrw, Ht', Hs'. destruct Hok.
  erewrite E_bind_val; [done|]. eapply load_array; [exact Hm|apply read_bytes_length; lia|lia].
Qed.

(** [dump_dev_mem] returns exactly the bytes of the range asked for, also
    when it takes several chunks. *)
Lemma dump_prints_memory argv w m w2 :
  accepted DumpMem argv w m w2 ->
  exists w3, dump_dev_mem argv w = (print (OutDumpMem
      (read_bytes (target (transport w2)) (mc_devID m) (start_addr m) (total_bytes m)));; finish true) w3 /\
    client_idle w3 /\ target (transport w3) = target (transport w2).
Proof.
  intros Ha. destruct (accepted_state _ _ _ _ _ Ha) as (Hid & Hok & Hrw & Hsub & arr & Hb & Hl & _).
  destruct (chunks_get m w2 (cmd_array w) arr) as (w3 & Hx & Hid3 & Htm & Hm); try done; [apply Ha|].
  exists w3. split; [|done]. unfold dump_dev_mem. rewrite (accepted_start DumpMem _ _ _ _ _ Ha).
  rewrite (E_bind_val _ _ _ _ _ Hx), Hrw. destruct Hok.
  erewrite E_bind_val; [done|]. eapply load_array; [exact Hm|apply read_bytes_length; lia|lia].
Qed.

(** [set_dev_mem] writes the low bytes of its value, least significant
    first, at the address of its arguments, and no other byte. *)
Lemma set_writes_memory argv w m w2 :
  accepted SetMem argv w m w2 ->
  exists s v w3, argv !! 4%nat = Some s /\ is_valid_hex_str s tt = Some (Val v, tt) /\
    set_dev_mem argv w = (print OutSetMem;; finish true) w3 /\ client_idle w3 /\
    tmem_eq (target (transport w3))
      (write_bytes (mc_devID m) (start_addr m) (le_bytes (Z.to_nat (total_bytes m)) v)
         (target (transport w2))).
Proof.
  intros Ha. destruct (accepted_state _ _ _ _ _ Ha)
    as (Hid & Hok & Hrw & Hsub & arr & Hb & Hl & Hin & s & v & Harg & Hv & Harr).
  assert (0 < total_bytes m <= 8) by (set_unfold; lia).
  destruct (direct_set m w2 (cmd_array w) arr) as (m' & w3 & Hdiv & Hx & Hid3 & Htm); try done;
    [apply Ha|lia|rewrite Harr; apply le_bytes_ok|].
  exists s, v, w3. split; [done|]. split; [done|]. split; [|by rewrite <- Harr].
  unfold set_dev_mem. rewrite (accepted_start SetMem _ _ _ _ _ Ha).
  rewrite (E_bind_val _ _ _ _ _ Hdiv), (E_bind_val _ _ _ _ _ (status_val _ _ _ _ Hx)). done.
Qed.

(** [fill_dev_mem] writes its whole file at the address of its arguments,
    in several chunks when it is large, provided the last chunk leaves room for
    the headers of its requests; reading the range back gives the file. *)
Lemma fill_writes_memory argv w m w2 name data :
  accepted FillMem argv w m w2 -> argv !! 3%nat = Some name -> env_file name = Some data ->
  bytes_ok data -> write_fits (mc_devID m) (len data) ->
  exists w3, fill_dev_mem argv w = (print OutSetMem;; finish true) w3 /\ client_idle w3 /\
    tmem_eq (target (transport w3))
      (write_bytes (mc_devID m) (start_addr m) data (target (transport w2))) /\
    read_bytes (target (transport w3)) (mc_devID m) (start_addr m) (len data) = data.
Proof.
  intros Ha Hn Hf Hby Hfit. destruct (accepted_state _ _ _ _ _ Ha)
    as (Hid & Hok & Hrw & Hsub & arr & Hb & Hl & name' & data' & Hn' & Hf' & Ht & Harr).
  assert (name' = name) as -> by congruence. assert (data' = data) as -> by congruence.
  pose proof max_bin_eq as Hmax.
  destruct (chunks_set m w2 (cmd_array w) arr) as (w3 & Hx & Hid3 & Htm); try done;
    [apply Ha|by rewrite Harr|by rewrite Ht|].
  rewrite Harr in Htm. exists w3. split; [|split; [done|split; [done|]]].
  - unfold fill_dev_mem. rewrite (accepted_start FillMem _ _ _ _ _ Ha). by rewrite (E_bind_val _ _ _ _ _ Hx).
  - rewrite Htm. apply read_write_bytes. destruct Hok. lia.
Qed.
End commands.

(** ** The commands against a server that keeps the promise *)

#[export] Instance ideal_env : CcuEnv ideal := {
  env_ops := ideal_base;
  env_create _ t := (Ret tt, t);
  env_cfg := Some (bytes_of "type=tcp
ipaddr=127.0.0.1
");
  env_file _ := Some [10; 11; 12; 13; 14; 15; 16; 17; 18; 19; 20; 21];
  env_malloc := (Some (zeroes 15), Some (zeroes 16384), Some (zeroes 16384));
  env_junk := 77;
  env_sdf := None;
  env_wrksp := None;
  env_fopen _ := None;
  env_asyncs _ := O;
  env_print _ t := t;
  env_signal := true;
  env_signal_dfl := true;
  env_rounds := O;
  env_turn t := t;
}.

Definition ex_target : tmem := fun d a => (a + d) mod 256.
Definition ideal_start (t : tmem) : world ideal := mkWorld None 0 None ∅ (mkIdeal t []).
Definition ex_start : world ideal := ideal_start ex_target.
Definition ex_ready (w : world ideal) : world ideal :=
  mkWorld (Some []) 0 (Some (mkPriv (mkBuf 15 0 0 (zeroes 15)) (mkBuf 16384 0 0 (zeroes 16384))
    (mkBuf 16384 0 0 (zeroes 16384)) BATCH_NONE 0 [] 0 0 0 None)) (memory w) (transport w).

Lemma ideal_setup w : setup_cdebug true w = Some (Val 0, ex_ready w).
Proof.
  assert (E : parse_transport_cfg_file env_cfg =
    CfgVal (mkCfg (bytes_of "tcp") 0 0 0 0 [] (bytes_of "127.0.0.1") 8080)) by (vm_compute; reflexivity).
  unfold setup_cdebug. rewrite E. reflexivity.
Qed.

Lemma ideal_malloc : malloc_ok (T := ideal).
Proof. intros h c r E. injection E as <- <- <-. split_and!; by apply len_zeroes. Qed.

(** The structure of a command and the array of its bytes. *)
Definition ex_cmd0 : mem_cmd_t :=
  mkMemCmd 77 77 77 (Some (cmd_array ex_start, 0)) 77
    (replicate MAX_NUM_SUBREQ (mkSubreq 77 CSWP_ACCESS_SIZE_DEF 77 77)) 77.

Lemma ideal_accepted t c argv m x :
  mc_devID m <= 1 ->
  extract_mem_param env_file c argv ex_cmd0 (cmd_memory ex_start) = Some (Val m, x) ->
  accepted c argv (ideal_start t) m (ex_ready (set_memory x (ideal_start t))).
Proof.
  intros Hd He. constructor; [exact ideal_malloc|done| |done].
  exists (set_memory x (ideal_start t)). split; [|apply ideal_setup].
  unfold params, local_cmd, local_array, extract, mbind, E_bind, mret, E_ret.
  unfold ex_cmd0, cmd_memory, cmd_array in He. cbn [memory ex_start ideal_start set_memory] in *.
  change env_junk with 77 in *. by rewrite He.
Qed.

Lemma ideal_reads t c argv m :
  mc_devID m <= 1 -> (forall x, extract_mem_param env_file c argv ex_cmd0 x = Some (Val m, x)) ->
  accepted c argv (ideal_start t) m (ex_ready (set_memory (cmd_memory ex_start) (ideal_start t))).
Proof. intros Hd He. by apply ideal_accepted. Qed.

Definition ex_get : list cstr :=
  [bytes_of "ccu"; bytes_of "get_dev0_mem"; bytes_of "0x1000"; bytes_of "6"].
Definition ex_dump : list cstr :=
  [bytes_of "ccu"; bytes_of "dump_dev1_mem"; bytes_of "0x2000"; bytes_of "20005"].
Definition ex_set : list cstr :=
  [bytes_of "ccu"; bytes_of "set_dev1_mem"; bytes_of "0x1002"; bytes_of "2"; bytes_of "0xA1B2C3"].
Definition ex_fill : list cstr :=
  [bytes_of "ccu"; bytes_of "fill_dev1_mem"; bytes_of "0x3000"; bytes_of "data.bin"].

Lemma get_prints_memory_witness :
  exists w3, get_dev_mem ex_get ex_start =
      (print (OutGetMem 0x1000 [0; 1; 2; 3; 4; 5; 6; 7]);; finish true) w3.
Proof.
  destruct (get_prints_memory ex_get ex_start (mem_params 0 0x1000 8 0 ex_cmd0)
    (ex_ready (set_memory (cmd_memory ex_start) ex_start))) as (w3 & Hx & _).
  - apply ideal_reads; [done|]. intros x. reflexivity.
  - exists w3. exact Hx.
Defined.

Lemma dump_prints_memory_witness :
  exists w3, dump_dev_mem ex_dump ex_start =
    (print (OutDumpMem (read_bytes ex_target 1 0x2000 20005));; finish true) w3.
Proof.
  destruct (dump_prints_memory ex_dump ex_start (mem_params 1 0x2000 20005 0 ex_cmd0)
    (ex_ready (set_memory (cmd_memory ex_start) ex_start))) as (w3 & Hx & _).
  - apply ideal_reads; [done|]. intros x. reflexivity.
  - exists w3. exact Hx.
Defined.

#[local] Transparent Z.to_nat.

Lemma ideal_fill_values n f :
  0 <= n <= MEM_MAX_BIN_SZ ->
  fill_values ex_cmd0 n f (cmd_memory ex_start) =
    Some (Val tt, put_mem (rw_values ex_cmd0) (f <$> seqZ 0 n) (cmd_memory ex_start)).
Proof.
  intros Hn. apply fill_values_eq; [lia|]. eapply valid_le; [apply cmd_memory_valid|lia].
Qed.

Lemma set_writes_memory_witness :
  exists w3, set_dev_mem ex_set ex_start = (print OutSetMem;; finish true) w3 /\
    target (transport w3) 1 0x1002 = 0xC3 /\ target (transport w3) 1 0x1003 = 0xB2 /\
    target (transport w3) 1 0x1004 = 5.
Proof.
  destruct (set_writes_memory ex_set ex_start (mem_params 1 0x1002 2 0 ex_cmd0)
    (ex_ready (set_memory (put_mem (rw_values ex_cmd0)
       ((fun i => u8 (Z.land (Z.shiftr 0xA1B2C3 (i * 8)) 0xFF)) <$> seqZ 0 2)
       (cmd_memory ex_start)) ex_start))) as (s & v & w3 & Harg & Hv & Hx & _ & Ht).
  - apply ideal_accepted; [done|]. cbn [extract_mem_param]. unfold extract_set_dev_mem_param.
    transitivity ((fill_values ex_cmd0 2 (fun i => u8 (Z.land (Z.shiftr 0xA1B2C3 (i * 8)) 0xFF));;
      mret (mem_params 1 0x1002 2 0 ex_cmd0)) (cmd_memory ex_start)); [reflexivity|].
    erewrite E_bind_val; [reflexivity|]. apply ideal_fill_values. pose proof max_bin_eq. lia.
  - exists w3. split; [exact Hx|]. injection Harg as <-. injection Hv as <-.
    rewrite !(Ht 1). split_and!; reflexivity.
Defined.

(** The memory after the file of [ex_fill] has been read. *)
Definition fill_data : list Z := [10; 11; 12; 13; 14; 15; 16; 17; 18; 19; 20; 21].
Definition fill_mem := put_mem (rw_values ex_cmd0) ((fun i => default 0 (fill_data !! Z.to_nat i)) <$> seqZ 0 12) (cmd_memory ex_start).
Lemma fill_accepted : accepted FillMem ex_fill ex_start (mem_params 1 0x3000 12 0 ex_cmd0) (ex_ready (set_memory fill_mem ex_start)).
Proof.
  apply ideal_accepted; [done|]. cbn [extract_mem_param]. unfold extract_fill_dev_mem_param.
  transitivity (((fill_values ex_cmd0 12 (fun i => default 0 (fill_data !! Z.to_nat i));; mret 12) ≫=
    (fun t => mret (mem_params 1 0x3000 t 0 ex_cmd0))) (cmd_memory ex_start)).
  { generalize (cmd_memory ex_start). intros x. reflexivity. }
  erewrite E_bind_val; [reflexivity|]. erewrite E_bind_val; [reflexivity|]. apply ideal_fill_values.
  pose proof max_bin_eq. lia.
Qed.

Lemma fill_writes_memory_witness :
  exists w3, fill_dev_mem ex_fill ex_start = (print OutSetMem;; finish true) w3 /\
    read_bytes (target (transport w3)) 1 0x3000 12 = fill_data.
Proof.
  destruct (fill_writes_memory ex_fill ex_start (mem_params 1 0x3000 12 0 ex_cmd0)
    (ex_ready (set_memory fill_mem ex_start)) (bytes_of "data.bin") fill_data fill_accepted)
    as (w3 & Hx & _ & _ & Hr); try reflexivity.
  - unfold fill_data. repeat constructor; unfold is_byte; lia.
  - right. vm_compute. discriminate.
  - exists w3. split; [exact Hx|]. exact Hr.
Defined.
