(* ===== verification/CcuTrace.v ===== *)
(** The trace command of the client utility ([perf_cstrace] of
    [client_utility/ccu_cswp.cpp]) as a client of trace streaming: setting up,
    capturing into a file until the user interrupts, and cleaning up.

    The command runs against the system of [TraceRun.v].  A [schedule] says who
    runs next: the data thread, the client, or the user who presses control-c;
    a command that has not come to its end when the schedule has is [Running].
    Any schedule is allowed, so a theorem about all of them is about every
    interleaving. *)
From S2P Require Import Prelude CcuIn PlatIf CcuCswp.
From S2P Require Import UsbIf Trace TraceRun TraceScript.

Definition FLUSH_TIMEOUT : Z := 10 * 1000.

(** ** Computations *)

(** [PThread]: a turn of the data thread; [PClient]: the client goes on, its
    time-out having passed or not; [PSignal]: control-c. *)
Inductive pick := PThread | PClient (timed_out : bool) | PSignal.

(** The fields of [cstrace_cmd_t]; [tbufs_info[i]] is client buffer [i] of the
    trace object, which is [tracep]. *)
Record cstrace_cmd_t := mkTraceCmd {
  etrID : Z;
  num_Dbufs : Z;
  num_Ebufs : Z;
  num_tbufs : Z;
  tbufs_req_tokens : list Z;
  num_pending_bufs : Z;
  num_capture_bytes : Z;
}.

(** The state of the process: the trace object and its thread, the turns that
    they have taken (a record, which nothing reads), what is left of the schedule, the signal flag and whether its handler is installed, how often
    the clock was read and the file written, and the contents of cstrace.bin. *)
Record Proc (D : Type) := mkProc {
  p_sys : Sys D;
  p_turns : list turn;
  p_sched : list pick;
  exitFlag : Z;
  p_handler : bool;
  p_reads : nat;
  p_writes : nat;
  outFile : list Z;
}.
Arguments mkProc {D}.
Arguments p_sys {D}.
Arguments p_turns {D}.
Arguments p_sched {D}.
Arguments exitFlag {D}.
Arguments p_handler {D}.
Arguments p_reads {D}.
Arguments p_writes {D}.
Arguments outFile {D}.

(** What the command meets outside: the clock, how much of a write succeeds,
    and whether opening and closing the file, installing the handler and
    allocating succeed. *)
Record TraceEnv := mkTraceEnv {
  te_clock : nat -> Z;
  te_write : nat -> list Z -> nat;
  te_fopen : bool;
  te_fclose : bool;
  te_signal : bool;
  te_malloc : bool;
  te_cfg : option (list Z);
  te_junk : Z;
}.

Inductive outcome3 (S A : Type) :=
  | Done (r : result A) (s : S)
  | Running (s : S)
  | Undefined.
Arguments Done {S A}.
Arguments Running {S A}.
Arguments Undefined {S A}.

Definition R (S A : Type) : Type := S -> outcome3 S A.
#[export] Instance R_ret S : MRet (R S) := fun A a s => Done (Val a) s.
#[export] Instance R_bind S : MBind (R S) := fun A B f m s =>
  match m s with
  | Done (Val a) s' => f a s'
  | Done (Fail c) s' => Done (Fail c) s'
  | Running s' => Running s'
  | Undefined => Undefined
  end.
Definition r_fail {S A} (c : Z) : R S A := fun s => Done (Fail c) s.
Definition r_ub {S A} : R S A := fun _ => Undefined.
Definition r_gets {S A} (f : S -> A) : R S A := fun s => Done (Val (f s)) s.
Definition r_modify {S} (f : S -> S) : R S unit := fun s => Done (Val tt) (f s).

Section capture.
Context {D : Type} `{USBDevice D dest} (env : TraceEnv).
Implicit Types s : Proc D.
Abbreviation P := (R (Proc D)).

Definition set_sys x l s : Proc D :=
  mkProc x l (p_sched s) (exitFlag s) (p_handler s) (p_reads s) (p_writes s) (outFile s).
Definition took_turn t x s : Proc D := set_sys x (p_turns s ++ [t]) s.
Definition set_sched l s : Proc D :=
  mkProc (p_sys s) (p_turns s) l (exitFlag s) (p_handler s) (p_reads s) (p_writes s) (outFile s).
Definition set_exit v h s : Proc D :=
  mkProc (p_sys s) (p_turns s) (p_sched s) v h (p_reads s) (p_writes s) (outFile s).
Definition set_reads n s : Proc D :=
  mkProc (p_sys s) (p_turns s) (p_sched s) (exitFlag s) (p_handler s) n (p_writes s) (outFile s).
Definition set_out n l s : Proc D :=
  mkProc (p_sys s) (p_turns s) (p_sched s) (exitFlag s) (p_handler s) (p_reads s) n l.

(** A call of the trace object.  The handler sets the flag, and a second
    signal is ignored; without the handler the process ends. *)
Fixpoint drive (c : call) (started : bool) (l : list pick) s : outcome3 (Proc D) (result Z) :=
  match l with
  | [] => Running (set_sched [] s)
  | PThread :: l' =>
      match step TThread (p_sys s) with
      | Some (_, x) => drive c started l' (took_turn TThread x s)
      | None => Undefined
      end
  | PSignal :: l' => if p_handler s then drive c started l' (set_exit 1 true s) else Undefined
  | PClient b :: l' =>
      let t := if started then TResume b else TCall c in
      match step t (p_sys s) with
      | Some (Some r, x) => Done (Val r) (set_sched l' (took_turn t x s))
      | Some (None, x) => drive c true l' (took_turn t x s)
      | None => Undefined
      end
  end.
Definition invoke (c : call) : P (result Z) := fun s => drive c false (p_sched s) s.

(** [TRAP_EX_CCU(token = call)] *)
Definition trap (c : call) : P (Z * Z) :=
  r ← invoke c;
  mret (match r with Val v => (0, v) | Fail code => (int32 code, -1) end).
(** A call whose exception nothing catches. *)
Definition untrapped (c : call) : P unit :=
  r ← invoke c; match r with Val _ => mret tt | Fail _ => r_ub end.

Definition early (b : bool) (code : Z) : P unit := if b then r_fail code else mret tt.

Definition setup_user_sigint_handler : P bool :=
  if te_signal env then r_modify (set_exit 0 true);; mret true else mret false.
Definition get_current_time : P Z := fun s =>
  Done (Val (te_clock env (p_reads s))) (set_reads (S (p_reads s)) s).

(** ** Set-up *)

Definition on_trace {A} (m : E (Trace D) A) : P A := fun s =>
  match m (s_trace (p_sys s)) with
  | Some (Val a, x) => Done (Val a) (set_sys (mkSys x (s_client (p_sys s))) (p_turns s) s)
  | Some (Fail _, _) | None => Undefined
  end.

(** The buffers hold arbitrary bytes; if an allocation fails, so does the
    function. *)
Definition alloc_bufs (nD sD nE sE : Z) : P unit :=
  on_trace (e_modify (fun x =>
    set_bufs (list_to_map (imap (fun i n => (Z.of_nat i, mkEvBuf (te_junk env) (repeat (te_junk env) (Z.to_nat n)) (te_junk env)))
                             (repeat sD (Z.to_nat nD) ++ repeat sE (Z.to_nat nE)))) x)).
Definition alloc_cstrace_runtime_storage (etr : Z) : P cstrace_cmd_t :=
  sink ← on_trace (GetSinkDetails etr);
  let nD := dataBufferCount sink in
  let nE := eventBufferCount sink in
  early (negb (te_malloc env)) CCU_MALLOC_ERR;;
  alloc_bufs nD (dataBufferSize sink) nE (eventBufferSize sink);;
  mret (mkTraceCmd etr nD nE (nD + nE) (repeat (-1) (Z.to_nat (nD + nE))) 0 0).

(** An early return, with what has to be done before. *)
Definition or_else {A} (m : P A) (undo : Z -> P unit) : P A := fun s =>
  match m s with
  | Done (Fail c) s' => (undo c;; r_fail c) s'
  | o => o
  end.

(** [setup_cstrace]: the object is created, connected and attached. *)
Definition create_cstrace (d : D) : P (Trace D) :=
  match parse_transport_cfg_file (te_cfg env) with
  | CfgErr => r_fail CCU_CFG_FILE_ERR
  | CfgThrow => r_ub
  | CfgVal cfg =>
      early (negb (bool_decide (cfg_type cfg = bytes_of "usb"))) CCU_CFG_FILE_ERR;;
      match CreateStreamingTrace (cfg_type cfg) (mkUSBID (cfg_vid cfg) (cfg_pid cfg) (cfg_iid cfg) (cfg_sid cfg))
              (cfg_serial cfg) d ∅ with
      | Val x => mret x
      | Fail code => r_fail (int32 code)
      end
  end.
Definition attach_cstrace (etr : Z) : P cstrace_cmd_t :=
  '(ex_stat, _) ← trap CConnect;
  early (negb (ex_stat =? 0)) ex_stat;;
  '(ex_stat, _) ← trap (CAttach etr);
  (if ex_stat =? 0 then mret tt else untrapped CDisconnect;; r_fail ex_stat);;
  or_else (alloc_cstrace_runtime_storage etr) (fun _ => untrapped (CDetach etr);; untrapped CDisconnect).

Definition cleanup_cstrace (c : cstrace_cmd_t) : P unit :=
  '(ex_stat, _) ← trap (CDetach (etrID c));
  early (negb (ex_stat =? 0)) ex_stat;;
  '(ex_stat, _) ← trap CDisconnect;
  early (negb (ex_stat =? 0)) ex_stat;;
  on_trace (e_modify (set_bufs ∅)).

(** ** Capture *)

Definition set_tokens l n (c : cstrace_cmd_t) : cstrace_cmd_t :=
  mkTraceCmd (etrID c) (num_Dbufs c) (num_Ebufs c) (num_tbufs c) l n (num_capture_bytes c).
Definition set_pending_bufs n (c : cstrace_cmd_t) : cstrace_cmd_t := set_tokens (tbufs_req_tokens c) n c.
Definition set_capture_bytes n (c : cstrace_cmd_t) : cstrace_cmd_t :=
  mkTraceCmd (etrID c) (num_Dbufs c) (num_Ebufs c) (num_tbufs c) (tbufs_req_tokens c) (num_pending_bufs c) n.

(** The command record is changed before a function fails, so it is returned
    with the code. *)
Definition cstrace_submit_client_buf (c : cstrace_cmd_t) (idx : Z) : P (Z * cstrace_cmd_t) :=
  let tbuf_type := if idx <? num_Dbufs c then CSTRACE_EVENT_TYPE_DATA else CSTRACE_EVENT_TYPE_EVENT in
  '(ex_stat, token) ← trap (CSubmitEventBuffer (etrID c) tbuf_type idx);
  mret (if ex_stat =? 0
        then (0, set_tokens (<[Z.to_nat idx := token]> (tbufs_req_tokens c)) (u64 (num_pending_bufs c + 1)) c)
        else (ex_stat, c)).

(** The first position of the token. *)
Fixpoint cstrace_find_tbuf_id (token : Z) (l : list Z) : option nat :=
  match l with
  | [] => None
  | t :: l' => if token =? t then Some O else S <$> cstrace_find_tbuf_id token l'
  end.

(** [fwrite]: a part of the bytes is written. *)
Definition write_file (bytes : list Z) : P nat := fun s =>
  let n := (te_write env (p_writes s) bytes `min` length bytes)%nat in
  Done (Val n) (set_out (S (p_writes s)) (outFile s ++ take n bytes) s).

Definition capture_buf (c : cstrace_cmd_t) (i : nat) : P (Z * cstrace_cmd_t) :=
  b ← on_trace (get_buf (Z.of_nat i));
  if eb_type b =? CSTRACE_EVENT_TYPE_END_OF_DATA then mret (CCU_ETR_END_OF_DATA, c)
  else if eb_type b =? CSTRACE_EVENT_TYPE_DATA then
    if eb_size b <? eb_used b then r_ub
    else
      n ← write_file (take (Z.to_nat (eb_used b)) (eb_buf b));
      if negb (Z.of_nat n =? eb_used b) then mret (CCU_FILEIO_ERR, c)
      else cstrace_submit_client_buf (set_capture_bytes (u64 (num_capture_bytes c + eb_used b)) c) (Z.of_nat i)
  else mret (CCU_TBUF_NOT_FOUND_ERR, c).

Definition cstrace_capture_data (c : cstrace_cmd_t) : P (Z * cstrace_cmd_t) :=
  '(ex_stat, token) ← trap (CWaitForEvent (etrID c));
  if negb (ex_stat =? 0) then mret (ex_stat, c)
  else
    match cstrace_find_tbuf_id token (tbufs_req_tokens c) with
    | None => mret (CCU_TBUF_NOT_FOUND_ERR, c)
    | Some i => capture_buf (set_pending_bufs (u64 (num_pending_bufs c - 1)) c) i
    end.

(** The loop that submits all buffers stops at the first error. *)
Fixpoint submit_all (n : nat) (i : Z) (c : cstrace_cmd_t) : P (bool * cstrace_cmd_t) :=
  match n with
  | O => mret (true, c)
  | S n' =>
      '(res, c) ← cstrace_submit_client_buf c i;
      if res =? 0 then submit_all n' (i + 1) c else mret (false, c)
  end.

(** What is done about a signal in a turn of the loop: [None] to leave it. *)
Definition on_signal (c : cstrace_cmd_t) (flush_time : option Z) : P (option (option Z)) :=
  f ← r_gets exitFlag;
  if f =? 1 then
    match flush_time with
    | None =>
        trap (CFlush (etrID c));;
        t ← get_current_time;
        mret (Some (Some t))
    | Some t0 =>
        t ← get_current_time;
        mret (if t0 + FLUSH_TIMEOUT <? t then None else Some (Some t0))
    end
  else mret (Some flush_time).

(** A turn of the loop takes at least one pick of the schedule, so its length
    bounds the loop. *)
Fixpoint capture_loop (fuel : nat) (c : cstrace_cmd_t) (flush_time : option Z) : P cstrace_cmd_t :=
  match fuel with
  | O => fun s => Running s
  | S n =>
      f ← on_signal c flush_time;
      match f with
      | None => mret c
      | Some flush_time =>
          '(res, c) ← cstrace_capture_data c;
          if negb (res =? 0) && negb (res =? CSTRACE_TIMEOUT) then mret c
          else get_current_time;; capture_loop n c flush_time
      end
  end.

Fixpoint discard_loop (fuel : nat) (c : cstrace_cmd_t) : P cstrace_cmd_t :=
  if 0 <? num_pending_bufs c then
    match fuel with
    | O => fun s => Running s
    | S n =>
        '(ex_stat, _) ← trap (CWaitForEvent (etrID c));
        early (negb (ex_stat =? 0)) ex_stat;;
        discard_loop n (set_pending_bufs (num_pending_bufs c - 1) c)
    end
  else mret c.

Definition capture_cstrace (c : cstrace_cmd_t) : P cstrace_cmd_t :=
  '(ex_stat, _) ← trap (CStart (etrID c));
  early (negb (ex_stat =? 0)) ex_stat;;
  early (negb (te_fopen env)) CCU_FILEIO_ERR;;
  r_modify (fun s => set_out (p_writes s) [] s);;
  e_res ← setup_user_sigint_handler;
  early (negb e_res) CCU_SIG_HANDLE_ERR;;
  '(tbufs_sub_stat, c) ← submit_all (Z.to_nat (num_tbufs c)) 0 c;
  get_current_time;;
  n ← r_gets (fun s => S (length (p_sched s)));
  c ← (if tbufs_sub_stat : bool then capture_loop n c None else mret c);
  get_current_time;;
  early (negb (te_fclose env)) CCU_FILEIO_ERR;;
  '(ex_stat, _) ← trap (CStop (etrID c));
  early (negb (ex_stat =? 0)) ex_stat;;
  n ← r_gets (fun s => S (length (p_sched s)));
  discard_loop n c.

(** The capture's error comes first; the destructor of the trace object
    disconnects, whatever happened. *)
Definition status_of {A} (m : P A) : P Z := fun s =>
  match m s with
  | Done (Val _) s' => Done (Val 0) s'
  | Done (Fail c) s' => Done (Val c) s'
  | Running s' => Running s'
  | Undefined => Undefined
  end.
Definition run_cstrace (etr : Z) : P unit :=
  c ← attach_cstrace etr;
  capture_status ← status_of (capture_cstrace c);
  cleanup_status ← status_of (cleanup_cstrace c);
  early (negb (capture_status =? 0)) capture_status;;
  early (negb (cleanup_status =? 0)) cleanup_status.
(** The destructor of the trace object, which [cstrace_cmd_t] owns: it
    disconnects, and catches what that throws; then there is no thread left for
    the base class to join. *)
Definition destroy_trace : P (Z * Z) := trap CDisconnect.
Definition perf_cstrace (d : D) (argv : list cstr) : P unit :=
  match extract_perf_cstrace_param argv ∅ with
  | None => r_ub
  | Some (Fail _, _) => r_fail CCU_BAD_CMD_ARG
  | Some (Val etr, _) =>
      x ← create_cstrace d;
      r_modify (set_sys (mkSys x Idle) []);;
      res ← status_of (run_cstrace etr);
      destroy_trace;;
      early (negb (res =? 0)) res
  end.
End capture.

(** ** A session

    Two blocks of data, the end of the session announced by the target, and the
    cancelled transfers given back: the file holds the data. *)
Definition usb_cfg : list Z := bytes_of "type=usb
vid=955
pid=7045
".
Definition clock_env : TraceEnv :=
  mkTraceEnv Z.of_nat (fun _ l => length l) true true true true (Some usb_cfg) 0.
Definition no_device : Sys script_dev :=
  mkSys (mkTrace false (mkScript 0 [] []) [] [] 0 None false [] (mkUSBID 0 0 0 0) [] 0 0 [] None 0 [] ∅ []) Idle.
Definition capture_run (script : list (Z * Transfer_Status * list Z)) (l : list pick) : outcome3 (Proc script_dev) unit :=
  perf_cstrace clock_env (mkScript 0 [] script) (map bytes_of ["ccu"; "cstrace"; "0"]%string)
    (mkProc no_device [] l 0 false 0 0 []).
Definition capture_script : list (Z * Transfer_Status * list Z) :=
  [(1, Transfer_SUCCESS, [7; 8]); (2, Transfer_SUCCESS, [9]); (0, Transfer_SUCCESS, [0; 0; 5; 0; 0; 0; 0; 0])] ++
  map (fun t => (t, Transfer_CANCELLED, [])) [3; 4; 5; 6; 7; 8; 9; 10; 11; 12; 13; 14].
Definition turns_of (n : nat) : list pick :=
  concat (repeat [PThread; PClient false; PClient false; PClient false] n).
Definition result_of {A} (o : outcome3 (Proc script_dev) A) : option (option (result A) * list Z) :=
  match o with
  | Done r s => Some (Some r, outFile s)
  | Running s => Some (None, outFile s)
  | Undefined => None
  end.

Example capture_two_blocks :
  result_of (capture_run capture_script (turns_of 60)) = Some (Some (Val tt), [7; 8; 9]).
Proof. vm_compute. reflexivity. Qed.
(** With fewer turns the command is still running, with the first block written. *)
Example capture_running : result_of (capture_run capture_script (turns_of 7)) = Some (None, [7; 8]).
Proof. vm_compute. reflexivity. Qed.
