(* ===== verification/LinuxTrace.v ===== *)
(** Trace streaming on the USB device of [UsbDev.v]: the trace command of the
    utility from its arguments to its file, through the trace client, the device
    class and a libusb.  The device keeps the promise that the theorems on trace
    streaming rely on, so they hold of this stack. *)
From S2P Require Import Prelude UsbIf UsbDev UsbScript UsbDevInv Trace TraceRun CcuIn CcuCswp CcuTrace.

(** The scripted libusb, when it accepts all that it is given. *)
Definition accepting_libusb : LibUSB script_usb dest :=
  let L := script_libusb (P := dest) in {|
    libusb_init := @libusb_init _ _ L;
    libusb_exit := @libusb_exit _ _ L;
    libusb_get_device_list := @libusb_get_device_list _ _ L;
    libusb_get_device_descriptor := @libusb_get_device_descriptor _ _ L;
    libusb_get_active_config_descriptor := @libusb_get_active_config_descriptor _ _ L;
    libusb_get_config_descriptor := @libusb_get_config_descriptor _ _ L;
    libusb_open := @libusb_open _ _ L;
    libusb_close := @libusb_close _ _ L;
    libusb_claim_interface := @libusb_claim_interface _ _ L;
    libusb_clear_halt := @libusb_clear_halt _ _ L;
    libusb_control_transfer := @libusb_control_transfer _ _ L;
    libusb_control_string := @libusb_control_string _ _ L;
    libusb_alloc_transfer := @libusb_alloc_transfer _ _ L;
    libusb_free_transfer := @libusb_free_transfer _ _ L;
    libusb_submit_transfer u w :=
      (0, mkUsb (ul_next w) (ul_held w ++ [(u_endpoint u, u_ptr u)]) (ul_cancelled w) (ul_script w) (ul_room w));
    libusb_cancel_transfer := @libusb_cancel_transfer _ _ L;
    libusb_handle_event := @libusb_handle_event _ _ L;
  |}.
#[local] Existing Instance accepting_libusb.
Abbreviation linux_trace := (USBDeviceLinux script_usb dest).

Lemma accepting_accepts : accepting (W := script_usb) (P := dest).
Proof. intros u w. simpl. lia. Qed.
#[export] Instance accepting_laws : USBDeviceLaws linux_trace dest := linux_laws accepting_accepts.

(** ** A capture *)

Definition linux_env : TraceEnv :=
  mkTraceEnv Z.of_nat (fun _ l => length l) true true true true (Some (bytes_of "type=usb
vid=955
pid=7045
iid=1
serial=AB
")) 0.
Definition linux_new (script : list (Z * libusb_status * list Z)) : linux_trace :=
  mkDev (mkUSBID 0 0 0 0) [] false 0 [] 0 [] ∅ 0 [] false (mkUsb 1 [] [] script None).
Definition linux_start (script : list (Z * libusb_status * list Z)) (l : list pick) : Proc linux_trace :=
  mkProc (mkSys (mkTrace false (linux_new script) [] [] 0 None false [] (mkUSBID 0 0 0 0) [] 0 0 [] None 0 [] ∅ []) Idle)
    [] l 0 false 0 0 [].
Definition linux_capture (script : list (Z * libusb_status * list Z)) (l : list pick) : outcome3 (Proc linux_trace) unit :=
  perf_cstrace linux_env (linux_new script) (map bytes_of ["ccu"; "cstrace"; "0"]%string) (linux_start script l).

(** The control transfer has address 1 in libusb, the buffers those after it:
    three of them are filled, one after another, then the device says that the
    data has ended. *)
Definition linux_script : list (Z * libusb_status * list Z) :=
  [(2, LIBUSB_TRANSFER_COMPLETED, [7; 8]); (3, LIBUSB_TRANSFER_COMPLETED, [9]);
   (4, LIBUSB_TRANSFER_COMPLETED, [10; 11; 12]); (1, LIBUSB_TRANSFER_COMPLETED, [0; 0; 5; 0; 0; 0; 0; 0])].
Definition capture_result (o : outcome3 (Proc linux_trace) unit) :=
  match o with
  | Done r p => Some (Some (match r with Val _ => 0 | Fail c => c end), outFile p)
  | Running p => Some (None, outFile p)
  | Undefined => None
  end.

(** While it runs, and when the user has interrupted it: the command cancels the
    transfers that are left, gets them all back, and returns 0. *)
Example linux_capturing : capture_result (linux_capture linux_script (turns_of 12)) = Some (None, [7; 8; 9; 10; 11; 12]).
Proof. vm_compute. reflexivity. Qed.
Example linux_captured :
  capture_result (linux_capture linux_script (turns_of 12 ++ [PSignal] ++ turns_of 100)) =
    Some (Some 0, [7; 8; 9; 10; 11; 12]).
Proof. vm_compute. reflexivity. Qed.
