(* ===== verification/CcuCapture.v ===== *)
(** What the trace command of the client utility captures: however the user,
    the command and the data thread take turns, cstrace.bin holds the bytes
    that the device delivered, from the first on and in order. *)
From S2P Require Import Prelude CcuIn PlatIf CcuCswp.
From S2P Require Import UsbIf Trace TraceRun TraceScript TraceQueue TraceInv TraceOrder TraceData TraceStream CcuTrace.

#[local] Set Warnings "-clear-no-such-hyp".

Section history.
Context {D : Type} `{USBDeviceLaws D dest}.
Implicit Types (S : Sys D) (g : gmap Z Z).

Definition with_bufs (m : gmap Z CSTraceEventBuffer) S : Sys D := mkSys (set_bufs m (s_trace S)) (s_client S).

(** What happened to a system: turns, and allocations of the client's buffers;
    with the addresses of the buffers submitted ([owners]) and the bytes that
    the device delivered. *)
Inductive history (S0 : Sys D) : list turn -> gmap Z Z -> list Z -> Sys D -> Prop :=
  | hist_start : history S0 [] ∅ [] S0
  | hist_turn ts g d S t o S' :
      history S0 ts g d S -> step t S = Some (o, S') ->
      history S0 (ts ++ [t]) (owners t S g) (d ++ delivered_by t S) S'
  | hist_alloc ts g d S m : history S0 ts g d S -> history S0 ts g d (with_bufs m S).

(** The calls that end a capture. *)
Definition ends (t : turn) : bool :=
  match t with TCall (CStop _) | TCall (CDetach _) | TCall CDisconnect => true | _ => false end.
Definition ended (ts : list turn) : Prop := exists t, t ∈ ts /\ ends t = true.
Lemma ended_app ts ts' : ended ts -> ended (ts ++ ts').
Proof. intros (t & Ht & He). exists t. set_solver. Qed.

(** ** The tokens of the command *)

(** [l] is [tbufs_req_tokens]: position [i] is the token of buffer [i], and
    every buffer in use is there. *)
Record tokens_ok (k : Z) (l : list Z) g S : Prop := {
  to_owner i t : l !! i = Some t -> t = -1 \/ (g !! t = Some (Z.of_nat i) /\ t < m_nextToken (s_trace S));
  to_all st t : m_sinkState (s_trace S) !! Z.to_nat k = Some st -> t ∈ st_tokens [] st -> t ∈ l;
}.
Definition not_in_use (k : Z) (t : Z) S : Prop :=
  forall st, m_sinkState (s_trace S) !! Z.to_nat k = Some st -> t ∉ st_tokens [] st.

(** The bytes received so far, those waiting and those lost are those that
    were delivered. *)
Record capturing (S0 : Sys D) (k : Z) (ts : list turn) (rcv : list Z) g S : Prop := {
  cap_streaming : streaming k g S;
  cap_delivered : exists d lost, history S0 ts g d S /\
    rcv ++ waiting_data k g [] (s_trace S) ++ lost = d /\ (lost = [] \/ stopped (s_trace S));
}.

(** Tokens in use were in use before, or are new. *)
Lemma sys_tokens k S st t :
  Sys_inv S -> m_sinkState (s_trace S) !! Z.to_nat k = Some st -> t ∈ st_tokens [] st -> 0 <= t < m_nextToken (s_trace S).
Proof.
  intros [[_ _ _ _ Hf _] _ _] Hst Ht. rewrite list.Forall_forall in Hf. apply (Hf t).
  unfold all_tokens. apply list_elem_of_In, in_concat. exists (q_tokens (abs st)). split.
  - apply in_map_iff. exists st. split; [done|]. by eapply list_elem_of_In, list_elem_of_lookup_2.
  - apply list_elem_of_In. revert Ht. unfold st_tokens, st_ready, st_buffers, q_tokens, abs. simpl.
    rewrite !map_app. set_solver.
Qed.
Lemma st_tokens_abs st t : t ∈ st_tokens [] st <-> t ∈ q_tokens (abs st).
Proof. unfold st_tokens, st_ready, st_buffers, q_tokens, abs. simpl. rewrite !map_app. set_solver. Qed.
Lemma pushed_submitted acts t :
  t ∈ pushed acts -> t ∈ data_pushed acts \/ t ∈ event_pushed acts.
Proof.
  unfold pushed, data_pushed, event_pushed. rewrite !list_elem_of_omap. intros (a & Ha & Ht).
  destruct a; try done; [left|right]; eauto.
Qed.
Lemma submitted_token ty i t S S' x :
  x ∈ submitted_by ty i t S S' ->
  x = m_nextToken (s_trace S) /\ exists k p, t = TCall (CSubmitEventBuffer k ty p) /\ m_nextToken (s_trace S') <> x.
Proof.
  unfold submitted_by. repeat case_match; intros Hx; try (by apply not_elem_of_nil in Hx).
  apply list_elem_of_singleton in Hx as ->. destruct_and!. subst. eauto 6.
Qed.
Lemma step_tokens k g t S o S' st st' x :
  uses_sink k t -> streaming k g S -> step t S = Some (o, S') ->
  m_sinkState (s_trace S) !! Z.to_nat k = Some st -> m_sinkState (s_trace S') !! Z.to_nat k = Some st' ->
  x ∈ st_tokens [] st' -> x ∈ st_tokens [] st \/
    (x = m_nextToken (s_trace S) /\ x < m_nextToken (s_trace S') /\ exists j ty p, t = TCall (CSubmitEventBuffer j ty p)).
Proof.
  intros Hu [Hi Hc _ _] Hs Hst Hst' Hx.
  destruct (step_spec (Z.to_nat k) t S o S') as (acts & [Hon Hd He _ _ _ _ _]); try done;
    [by eapply uses_sink_session|by eapply client_uses_session|apply Hi|].
  destruct (on_queue _ _ _ _ Hon st Hst) as (st2 & Hst2 & Hq). rewrite Hst' in Hst2. injection Hst2 as <-.
  destruct (qacts_tokens _ _ _ Hq) as (gone & Hp). apply st_tokens_abs in Hx.
  assert (Hin : x ∈ pushed acts ++ q_tokens (abs st)) by (rewrite Hp; set_solver).
  apply elem_of_app in Hin as [Hin|Hin]; [right|left; by apply st_tokens_abs].
  assert (Hlt := on_fresh _ _ _ _ Hon). rewrite list.Forall_forall in Hlt. specialize (Hlt x Hin).
  apply pushed_submitted in Hin as [Hin|Hin]; [rewrite Hd in Hin|rewrite He in Hin];
    apply submitted_token in Hin as (-> & j & p & -> & _); eauto 8 with lia.
Qed.
Lemma step_next k g t S o S' :
  uses_sink k t -> streaming k g S -> step t S = Some (o, S') -> m_nextToken (s_trace S) <= m_nextToken (s_trace S').
Proof.
  intros Hu [Hi Hc _ _] Hs.
  destruct (step_spec (Z.to_nat k) t S o S') as (acts & Hsp); try done;
    [by eapply uses_sink_session|by eapply client_uses_session|apply Hi|]. apply (on_next _ _ _ _ (ts_on _ _ _ _ _ _ Hsp)).
Qed.

(** ** A turn of the capture *)

Lemma capturing_step S0 k ts rcv g S t o S' :
  stream_turn k t -> free_turn k g t S -> capturing S0 k ts rcv g S -> step t S = Some (o, S') ->
  capturing S0 k (ts ++ [t]) (rcv ++ received_by k g t S o) (owners t S g) S'.
Proof.
  intros Ht Hf [Hst (d & lost & Hh & He & Hl)] Hs.
  destruct (step_moved k g t S o S' Ht Hst Hf Hs) as (Hst' & l2 & He2 & Hl2).
  assert (Hl2' : l2 = [] \/ stopped (s_trace S')) by tauto. clear Hl2. rename Hl2' into Hl2. split; [done|].
  exists (d ++ delivered_by t S), (l2 ++ lost). split; [by eapply hist_turn|].
  rewrite <- He. destruct Hl as [->|Hsto].
  - rewrite !app_nil_r, <- !app_assoc, He2. done.
  - rewrite (stopped_delivers S Hsto t) in *. rewrite app_nil_r in He2. rewrite app_nil_r, He2, <- !app_assoc.
    split; [done|]. right. by eapply (step_stopped k g t S o S' Ht Hst).
Qed.

Lemma not_submit_owners t S g :
  (forall j ty p, t <> TCall (CSubmitEventBuffer j ty p)) -> owners t S g = g.
Proof. intros Hn. unfold owners. destruct t as [[]| |]; try done. by destruct (Hn sink bufferType p). Qed.
Lemma not_submit_free k t S g :
  (forall j ty p, t <> TCall (CSubmitEventBuffer j ty p)) -> free_turn k g t S.
Proof. intros Hn. unfold free_turn. destruct t as [[]| |]; try done. by destruct (Hn sink bufferType p). Qed.
Lemma tokens_ok_step k l g t S o S' :
  uses_sink k t -> streaming k g S -> streaming k g S' -> step t S = Some (o, S') ->
  (forall j ty p, t <> TCall (CSubmitEventBuffer j ty p)) -> tokens_ok k l g S -> tokens_ok k l g S'.
Proof.
  intros Hu Hst Hst' Hs Hn [Ho Ha]. split.
  - intros i x Hi. destruct (Ho i x Hi) as [?|[? ?]]; [by left|right]. split; [done|].
    assert (Hle := step_next _ _ _ _ _ _ Hu Hst Hs). lia.
  - intros st' x Hk Hx. destruct (so_sink _ _ _ _ (sm_stream _ _ _ Hst)) as (st & Hk0 & _).
    destruct (step_tokens _ _ _ _ _ _ _ _ _ Hu Hst Hs Hk0 Hk Hx) as [Hin|(_ & _ & j & ty & p & ->)];
      [by eapply Ha|by destruct (Hn j ty p)].
Qed.

Definition submits (t : turn) : bool := match t with TCall (CSubmitEventBuffer _ _ _) => true | _ => false end.
Lemma submits_no t : submits t = false -> forall j ty p, t <> TCall (CSubmitEventBuffer j ty p).
Proof. intros Hs j ty p ->. done. Qed.

Lemma capture_step S0 k l ts rcv g S t o S' :
  stream_turn k t -> submits t = false -> capturing S0 k ts rcv g S -> tokens_ok k l g S -> step t S = Some (o, S') ->
  capturing S0 k (ts ++ [t]) (rcv ++ received_by k g t S o) g S' /\ tokens_ok k l g S'.
Proof.
  intros Ht Hn Hc Htok Hs. assert (Hn' := submits_no t Hn).
  assert (Hc' := capturing_step S0 k ts rcv g S t o S' Ht (not_submit_free k t S g Hn') Hc Hs).
  rewrite (not_submit_owners t S g Hn') in Hc'. split; [exact Hc'|].
  eapply tokens_ok_step; [apply Ht|apply Hc|apply Hc'|exact Hs|exact Hn'|exact Htok].
Qed.
Lemma capture_quiet S0 k l ts rcv g S t o S' :
  stream_turn k t -> submits t = false -> returned_by (Z.to_nat k) t S o = [] ->
  capturing S0 k ts rcv g S -> tokens_ok k l g S -> step t S = Some (o, S') ->
  capturing S0 k (ts ++ [t]) rcv g S' /\ tokens_ok k l g S'.
Proof.
  intros Ht Hn Hret Hc Htok Hs. destruct (capture_step S0 k l ts rcv g S t o S' Ht Hn Hc Htok Hs) as [Hc' Ht'].
  unfold received_by in Hc'. rewrite Hret, app_nil_r in Hc'. done.
Qed.

Lemma returned_inv i t S o S' v :
  step t S = Some (o, S') -> returned_by i t S o = [v] ->
  exists j st rest, Z.to_nat j = i /\ m_sinkState (s_trace S) !! Z.to_nat j = Some st /\
    completedEventTokens st = v :: rest /\ S' = mkSys (put_sink j (set_completed rest st) (s_trace S)) Idle /\
    o = Some (Val v).
Proof.
  intros Hs Hr. destruct S as [s c].
  assert (Htake : forall j none r s', take_event j none s = Some (r, s') -> o = observed r -> S' = mkSys s' (after r) ->
    o = Some (Val v) -> (forall r s', none s = Some (r, s') -> forall v, observed r <> Some (Val v)) -> Z.to_nat j = i ->
    exists j st rest, Z.to_nat j = i /\ m_sinkState s !! Z.to_nat j = Some st /\
      completedEventTokens st = v :: rest /\ S' = mkSys (put_sink j (set_completed rest st) s) Idle /\ o = Some (Val v)).
  { intros j none r s' He Ho -> Hov Hnone Hj. apply take_event_inv2 in He as [He|(st & t0 & rest & Hst & Hc & -> & ->)].
    - exfalso. eapply Hnone; [exact He|]. by rewrite <- Ho, Hov.
    - simpl in Ho. rewrite Ho in Hov. injection Hov as ->. exists j, st, rest. by rewrite Ho. }
  unfold returned_by in Hr. destruct o as [[w|]|]; try done.
  destruct t as [[| | |j|j|j|j|j|j ty p|j|j ty]|b|]; try done; simpl in Hs.
  - case_decide; [|done]. injection Hr as ->. destruct c; try done.
    apply client_turn_eq in Hs as (r & s' & Hs & Ho & ->). unfold WaitForEvent in Hs.
    apply E_bind_cases in Hs as [(u & s1 & Hc & Hs)|(x & Hc & ->)]; apply check_sink_same in Hc as ->; [|done].
    eapply Htake; [exact Hs|done|done|done| |done]. by intros r0 s0 [= <- _].
  - simpl in Hr. destruct c as [| | | | | |j]; try done. case_decide; [|done]. injection Hr as ->.
    apply client_turn_eq in Hs as (r & s' & Hs & Ho & ->). simpl in Hs.
    apply E_bind_cases in Hs as [(st & s1 & Hst & Hs)|(x & Hst & ->)];
      apply sink_state_inv in Hst as (st0 & _ & _ & Hv & ->); [|done].
    destruct b; [eapply Htake; [exact Hs|done|done|done| |done]; by intros r0 s0 [= <- _]|].
    case_decide; [by injection Hs as <- _|].
    eapply Htake; [exact Hs|done|done|done| |done]; by intros r0 s0 [= <- _].
Qed.

Lemma capture_take S0 k l ts rcv g S t o S' v :
  stream_turn k t -> submits t = false -> returned_by (Z.to_nat k) t S o = [v] ->
  capturing S0 k ts rcv g S -> tokens_ok k l g S -> step t S = Some (o, S') ->
  capturing S0 k (ts ++ [t]) (rcv ++ content_of g (client_bufs (s_trace S')) v) g S' /\ tokens_ok k l g S' /\
  not_in_use k v S' /\ v ∈ l /\ 0 <= v.
Proof.
  intros Ht Hn Hret Hc Htok Hs. destruct (capture_step S0 k l ts rcv g S t o S' Ht Hn Hc Htok Hs) as [Hc' Ht'].
  unfold received_by in Hc'. rewrite Hret in Hc'. simpl in Hc'. rewrite app_nil_r in Hc'.
  destruct (returned_inv _ _ _ _ _ _ Hs Hret) as (j & st & rest & Hj & Hst & Hcomp & -> & _). rewrite Hj in Hst.
  assert (Hin : v ∈ st_tokens [] st) by (unfold st_tokens, st_ready; rewrite Hcomp; set_solver).
  split; [exact Hc'|]. split; [exact Ht'|]. split; [|split; [exact (to_all _ _ _ _ Htok st v Hst Hin)|]].
  - intros st'. simpl. rewrite Hj, list_lookup_insert_eq by (by eapply lookup_lt_Some). intros [= <-].
    destruct (so_sink _ _ _ _ (sm_stream _ _ _ (cap_streaming _ _ _ _ _ _ Hc))) as (st0 & Hst0 & Hok).
    rewrite Hst in Hst0. injection Hst0 as <-. assert (Hd := sk_distinct _ _ _ Hok).
    unfold st_tokens, st_ready in *. rewrite Hcomp in Hd. simpl in *.
    assert (Hd' : NoDup (map (fun t => g !! t) (v :: map buf_token (st_buffers st) ++ rest ++ []))).
    { eapply NoDup_map_sub; [exact Hd|]. apply Permutation_submseteq. solve_Permutation. }
    apply list.NoDup_cons in Hd' as [Hni _]. intros Hv. apply Hni. by apply (list_elem_of_fmap_2 (fun t => g !! t)).
  - eapply (sys_tokens k S st v); [apply Hc|exact Hst|exact Hin].
Qed.

(** A position of [l] whose token is not in use: its buffer is free. *)
Lemma free_position k l g S i u ty :
  tokens_ok k l g S -> streaming k g S -> l !! Z.to_nat i = Some u -> not_in_use k u S -> 0 <= i ->
  free_turn k g (TCall (CSubmitEventBuffer k ty i)) S.
Proof.
  intros [Ho Ha] Hst Hl Hu Hi. unfold free_turn. destruct (s_client S); try done.
  destruct (m_sinkState (s_trace S) !! Z.to_nat k) as [st|] eqn:Hk; [|done]. unfold unused.
  intros (t & Hg & Ht)%list_elem_of_fmap_1. assert (Hin := Ha st t eq_refl Ht).
  apply list_elem_of_lookup in Hin as (j & Hj). destruct (Ho j t Hj) as [->|[Hg' _]].
  - assert (H0' := sys_tokens k S st (-1) (sm_inv _ _ _ Hst) Hk Ht). lia.
  - rewrite Hg' in Hg. injection Hg as Hij. subst i. rewrite Nat2Z.id in Hl. rewrite Hj in Hl. injection Hl as <-.
    by apply (Hu st).
Qed.

Lemma capture_submit S0 k l ts rcv g S i u ty o S' :
  capturing S0 k ts rcv g S -> tokens_ok k l g S -> s_client S = Idle -> l !! Z.to_nat i = Some u ->
  not_in_use k u S -> 0 <= i -> step (TCall (CSubmitEventBuffer k ty i)) S = Some (o, S') ->
  let g' := <[m_nextToken (s_trace S) := i]> g in
  s_client S' = Idle /\ capturing S0 k (ts ++ [TCall (CSubmitEventBuffer k ty i)]) rcv g' S' /\
  match o with
  | Some (Val t) => tokens_ok k (<[Z.to_nat i := t]> l) g' S'
  | Some (Fail _) => True
  | None => False
  end.
Proof.
  intros Hc Htok Hid Hl Hu Hi Hs g'.
  assert (Ht : stream_turn k (TCall (CSubmitEventBuffer k ty i))) by done.
  assert (Hf := free_position k l g S i u ty Htok (cap_streaming _ _ _ _ _ _ Hc) Hl Hu Hi).
  assert (Hc' := capturing_step S0 k ts rcv g S _ o S' Ht Hf Hc Hs).
  assert (Hown : owners (TCall (CSubmitEventBuffer k ty i)) S g = g') by (unfold owners; by rewrite Hid).
  rewrite Hown in Hc'. unfold received_by in Hc'.
  replace (returned_by _ _ _ _) with (@nil Z) in Hc' by by destruct o as [[]|].
  rewrite app_nil_r in Hc'. assert (Hs0 := Hs). unfold step in Hs. rewrite Hid in Hs.
  apply client_turn_eq in Hs as (r & s' & Hs & -> & ->).
  assert (Hr : after r = Idle /\ match observed r with Some (Val t) => t = m_nextToken (s_trace S) /\
      m_nextToken s' = m_nextToken (s_trace S) + 1 | Some (Fail _) => True | None => False end).
  { unfold returns in Hs. apply E_bind_cases in Hs as [(v & s1 & Hs & [= <- <-])|(x & _ & ->)]; [|done].
    split; [done|]. simpl. unfold SubmitEventBuffer in Hs.
    apply E_bind_cases in Hs as [(stt & s2 & Hck & Hs)|(x & _ & [=])].
    apply submit_checks_keeps in Hck. assert (Hn2 : m_nextToken s2 = m_nextToken (s_trace S)) by by injection Hck.
    apply E_bind_cases in Hs as [(t & s3 & Ha & Hs)|(x & _ & [=])]. apply alloc_token_inv in Ha as [[= ->] ->].
    apply E_bind_cases in Hs as [(w & s4 & He & [= <- <-])|(x & _ & [=])].
    apply (enqueue_changes k ty stt _ s2) in He as (_ & Hn3 & _); [|done..]. simpl. split; [done|congruence]. }
  destruct Hr as [Hidle Hr]. split; [exact Hidle|]. split; [exact Hc'|].
  destruct (observed r) as [[t|x]|] eqn:Hobs; [|done|done]. destruct Hr as [-> Hnext]. destruct Htok as [Ho Ha].
  assert (Hlen : (Z.to_nat i < length l)%nat) by by eapply lookup_lt_Some. split.
  - intros j x Hj. simpl. unfold g'. apply list_lookup_insert_Some in Hj as [(<- & <- & _)|[Hne Hj]].
    + right. rewrite lookup_insert_eq, Z2Nat.id by lia. split; [done|lia].
    + destruct (Ho j x Hj) as [?|[Hg Hx]]; [by left|]. right. rewrite lookup_insert_ne by lia. split; [done|lia].
  - intros st' x Hk Hx. destruct (so_sink _ _ _ _ (sm_stream _ _ _ (cap_streaming _ _ _ _ _ _ Hc))) as (st & Hk0 & _).
    destruct (step_tokens _ _ _ _ _ _ _ _ _ ltac:(apply Ht) (cap_streaming _ _ _ _ _ _ Hc)
      Hs0 Hk0 Hk Hx) as [Hin|(-> & _)].
    + assert (Hinl := Ha st x Hk0 Hin). apply list_elem_of_lookup in Hinl as (j & Hj).
      apply list_elem_of_lookup. exists j. rewrite list_lookup_insert_ne; [done|]. intros <-.
      rewrite Hj in Hl. injection Hl as ->. by apply (Hu st).
    + apply list_elem_of_lookup. exists (Z.to_nat i). by rewrite list_lookup_insert_eq.
Qed.
End history.

(** ** Reasoning about the command *)

Section command.
Context {D : Type} `{USBDeviceLaws D dest} (env : TraceEnv) (S0 : Sys D) (k : Z).
Implicit Types (p : Proc D) (S : Sys D) (g : gmap Z Z) (f : list Z).
Abbreviation P := (R (Proc D)).

(** Assertions speak of the system and of the file. *)
Definition assertion : Type := Sys D -> list Z -> list turn -> Prop.
Implicit Types A B : assertion.

Definition all_written : Prop := forall n l, (length l <= te_write env n l)%nat.

(** What is promised of the command at any time: the file is the beginning of
    what was delivered; and during the capture all of it, but for what is
    waiting. *)
Definition promise : assertion := fun S f ts =>
  exists g d, history S0 ts g d S /\ f `prefix_of` d /\
    (all_written -> in_loop (s_trace S) -> ~ ended ts -> f ++ waiting_data k g [] (s_trace S) = d).

Definition over : assertion := fun S f ts => exists g d, history S0 ts g d S /\ f `prefix_of` d /\ ended ts.
Definition unstarted : assertion := fun S f ts =>
  exists g d, history S0 ts g d S /\ f = [] /\ m_dataThread (s_trace S) = None.
(** The capture cannot go on, but nothing was missed. *)
Definition halted : assertion := fun S f ts =>
  exists g rcv, capturing S0 k ts rcv g S /\ f `prefix_of` rcv /\ (all_written -> f = rcv).
Definition broken : assertion := fun S f ts => over S f ts \/ unstarted S f ts \/ halted S f ts.
Definition going (l : list Z) : assertion := fun S f ts =>
  exists g, capturing S0 k ts f g S /\ tokens_ok k l g S /\ s_client S = Idle.

Lemma over_promise S f ts : over S f ts -> promise S f ts.
Proof. intros (g & d & Hh & Hp & He). exists g, d. by split. Qed.
Lemma unstarted_promise S f ts : unstarted S f ts -> promise S f ts.
Proof.
  intros (g & d & Hh & -> & Hth). exists g, d. split; [done|]. split; [apply prefix_nil|].
  intros _ Hl. unfold in_loop in Hl. by rewrite Hth in Hl.
Qed.
Lemma halted_promise S f ts : halted S f ts -> promise S f ts.
Proof.
  intros (g & rcv & [Hst (d & lost & Hh & He & Hl)] & Hp & Hw). exists g, d. split; [done|].
  split; [rewrite <- He; etrans; [exact Hp|by apply prefix_app_r]|].
  intros Hall Hin _. rewrite (Hw Hall). destruct Hl as [->|Hs]; [|exfalso; by eapply in_loop_stopped].
  by rewrite app_nil_r in He.
Qed.
Lemma broken_promise S f ts : broken S f ts -> promise S f ts.
Proof. intros [?|[?|?]]; [by apply over_promise|by apply unstarted_promise|by apply halted_promise]. Qed.
Lemma going_halted l S f ts : going l S f ts -> halted S f ts.
Proof. intros (g & Hc & _ & _). by exists g, f. Qed.
Lemma going_broken l S f ts : going l S f ts -> broken S f ts.
Proof. intros Hg. right. right. by eapply going_halted. Qed.
Lemma going_promise l S f ts : going l S f ts -> promise S f ts.
Proof. intros Hg. by eapply halted_promise, going_halted. Qed.

Definition holds {T} (A : assertion) (m : P T) (post : result T -> assertion) : Prop :=
  forall p, A (p_sys p) (outFile p) (p_turns p) ->
    match m p with
    | Done r p' => post r (p_sys p') (outFile p') (p_turns p')
    | Running p' => promise (p_sys p') (outFile p') (p_turns p')
    | Undefined => True
    end.

Lemma holds_bind {T U} A (m : P T) (mid : result T -> assertion) (f : T -> P U) post :
  holds A m mid -> (forall a, holds (mid (Val a)) (f a) post) ->
  (forall c S l ts, mid (Fail c) S l ts -> post (Fail c) S l ts) -> holds A (m ≫= f) post.
Proof.
  intros Hm Hf Hc p Hp. unfold mbind, R_bind. specialize (Hm p Hp).
  destruct (m p) as [[a|c] p'|p'|]; [by apply Hf|by apply Hc|done..].
Qed.
Lemma holds_ret {T} A (a : T) (post : result T -> assertion) :
  (forall S f ts, A S f ts -> post (Val a) S f ts) -> holds A (mret a) post.
Proof. intros Hp p. apply Hp. Qed.
Lemma holds_fail {T} A c (post : result T -> assertion) :
  (forall S f ts, A S f ts -> post (Fail c) S f ts) -> holds A (r_fail c : P T) post.
Proof. intros Hp p. apply Hp. Qed.
Lemma holds_ub {T} A (post : result T -> assertion) : holds A (r_ub : P T) post.
Proof. by intros p. Qed.
Lemma holds_weaken {T} A A' (m : P T) (post post' : result T -> assertion) :
  (forall S f ts, A' S f ts -> A S f ts) -> holds A m post ->
  (forall r S f ts, post r S f ts -> post' r S f ts) -> holds A' m post'.
Proof.
  intros HA Hm Hp p Hp'. specialize (Hm p (HA _ _ _ Hp')). destruct (m p) as [r p'|p'|]; [by apply Hp|done..].
Qed.
Lemma holds_if {T} A (b : bool) (m1 m2 : P T) post :
  holds A m1 post -> holds A m2 post -> holds A (if b then m1 else m2) post.
Proof. by destruct b. Qed.
Lemma holds_early A b c (post : result unit -> assertion) :
  (forall S f ts, A S f ts -> post (Val tt) S f ts) -> (forall S f ts, A S f ts -> post (Fail c) S f ts) ->
  holds A (early b c) post.
Proof. intros H1 H2. destruct b; [by apply holds_fail|by apply holds_ret]. Qed.

(** Computations that change neither the system nor the file. *)
Definition silent_comp {T} (m : P T) : Prop :=
  forall p, match m p with Done (Val _) p' => p_sys p' = p_sys p /\ outFile p' = outFile p /\ p_turns p' = p_turns p | Undefined => True | _ => False end.
Lemma holds_silent {T U} A (m : P T) (f : T -> P U) post :
  silent_comp m -> (forall a, holds A (f a) post) -> holds A (m ≫= f) post.
Proof.
  intros Hm Hf p Hp. unfold mbind, R_bind. specialize (Hm p). destruct (m p) as [[a|c] p'|p'|]; try done.
  destruct Hm as (Hs & Ho & Ht). apply Hf. by rewrite Hs, Ho, Ht.
Qed.
Lemma gets_silent {T} (f : Proc D -> T) : silent_comp (r_gets f).
Proof. by intros p. Qed.
Lemma time_silent : silent_comp (get_current_time env : P Z).
Proof. by intros p. Qed.
Lemma sigint_silent : silent_comp (setup_user_sigint_handler env : P bool).
Proof. intros p. unfold setup_user_sigint_handler. by destruct (te_signal env). Qed.
Lemma on_trace_silent {T} (m : E (Trace D) T) :
  (forall s r s', m s = Some (r, s') -> s' = s) -> silent_comp (on_trace m).
Proof.
  intros Hm p. unfold on_trace. destruct (m (s_trace (p_sys p))) as [[[a|c] s']|] eqn:He; [|done..].
  apply Hm in He as ->. simpl. by destruct (p_sys p).
Qed.

(** ** Calls *)

Lemma drive_holds c (J : bool -> assertion) (post : result Z -> assertion) f :
  (forall b S o S' ts, J b S f ts -> step TThread S = Some (o, S') -> J b S' f (ts ++ [TThread])) ->
  (forall S o S' ts, J false S f ts -> step (TCall c) S = Some (o, S') ->
     match o with Some r => post r S' f (ts ++ [TCall c]) | None => J true S' f (ts ++ [TCall c]) end) ->
  (forall b S o S' ts, J true S f ts -> step (TResume b) S = Some (o, S') ->
     match o with Some r => post r S' f (ts ++ [TResume b]) | None => J true S' f (ts ++ [TResume b]) end) ->
  (forall b S ts, J b S f ts -> promise S f ts) ->
  forall l b p, J b (p_sys p) f (p_turns p) -> outFile p = f ->
    match drive c b l p with
    | Done (Val r) p' => post r (p_sys p') f (p_turns p') /\ outFile p' = f
    | Done (Fail _) _ => False
    | Running p' => promise (p_sys p') f (p_turns p') /\ outFile p' = f
    | Undefined => True
    end.
Proof.
  intros Hth Hcall Hres Hpr l. induction l as [|[|b0|] l IH]; intros b p HJ Hf; cbn [drive].
  - split; [by eapply Hpr|done].
  - destruct (step TThread (p_sys p)) as [[o S']|] eqn:Hs; [|done]. apply IH; [by eapply Hth|done].
  - destruct b.
    + destruct (step (TResume b0) (p_sys p)) as [[[r|] S']|] eqn:Hs; [| |done].
      * by split; [apply (Hres _ _ _ _ _ HJ Hs)|].
      * apply IH; [by apply (Hres _ _ _ _ _ HJ Hs)|done].
    + destruct (step (TCall c) (p_sys p)) as [[[r|] S']|] eqn:Hs; [| |done].
      * by split; [apply (Hcall _ _ _ _ HJ Hs)|].
      * apply IH; [by apply (Hcall _ _ _ _ HJ Hs)|done].
  - destruct (p_handler p); [by apply IH|done].
Qed.
Lemma invoke_holds c (A : assertion) (J : bool -> assertion) (post : result Z -> assertion) :
  (forall b S o S' f ts, J b S f ts -> step TThread S = Some (o, S') -> J b S' f (ts ++ [TThread])) ->
  (forall S o S' f ts, J false S f ts -> step (TCall c) S = Some (o, S') ->
     match o with Some r => post r S' f (ts ++ [TCall c]) | None => J true S' f (ts ++ [TCall c]) end) ->
  (forall b S o S' f ts, J true S f ts -> step (TResume b) S = Some (o, S') ->
     match o with Some r => post r S' f (ts ++ [TResume b]) | None => J true S' f (ts ++ [TResume b]) end) ->
  (forall b S f ts, J b S f ts -> promise S f ts) -> (forall S f ts, A S f ts -> J false S f ts) ->
  holds A (invoke c) (fun r => match r with Val v => post v | Fail _ => fun _ _ _ => False end).
Proof.
  intros Hth Hcall Hres Hpr HA p Hp. unfold invoke.
  assert (Hd := drive_holds c J post (outFile p) (fun b S o S' => Hth b S o S' _) (fun S o S' => Hcall S o S' _)
    (fun b S o S' => Hres b S o S' _) (fun b S => Hpr b S _) (p_sched p) false p (HA _ _ _ Hp) eq_refl).
  destruct (drive c false (p_sched p) p) as [[r|x] p'|p'|]; [|done| |done]; destruct Hd as [Hd ->]; done.
Qed.
Lemma trap_holds c A (post : result Z -> assertion) (Q : result (Z * Z) -> assertion) :
  holds A (invoke c) (fun r => match r with Val v => post v | Fail _ => fun _ _ _ => False end) ->
  (forall v S f ts, post (Val v) S f ts -> Q (Val (0, v)) S f ts) ->
  (forall x S f ts, post (Fail x) S f ts -> Q (Val (int32 x, -1)) S f ts) -> holds A (trap c) Q.
Proof.
  intros Hi Hv Hx. unfold trap. eapply holds_bind; [exact Hi| |done].
  intros [v|x]; apply holds_ret; [apply Hv|apply Hx].
Qed.
Lemma untrapped_holds c A (post : assertion) :
  holds A (invoke c) (fun r => match r with Val v => post | Fail _ => fun _ _ _ => False end) ->
  holds A (untrapped c) (fun _ => post).
Proof.
  intros Hi. unfold untrapped. eapply holds_bind; [exact Hi| |done].
  intros [v|x]; [by apply holds_ret|apply holds_ub].
Qed.

(** After the capture has ended, everything is allowed. *)
Lemma over_step t S o S' f ts : over S f ts -> step t S = Some (o, S') -> over S' f (ts ++ [t]).
Proof.
  intros (g & d & Hh & Hp & He) Hs. exists (owners t S g), (d ++ delivered_by t S).
  split; [by eapply hist_turn|]. split; [by apply prefix_app_r|by apply ended_app].
Qed.
Lemma over_invoke c : holds over (invoke c) (fun r => match r with Val v => over | Fail _ => fun _ _ _ => False end).
Proof.
  apply (invoke_holds c over (fun _ => over) (fun _ => over)).
  - intros b S o S' f ts. apply over_step.
  - intros S o S' f ts Ho Hs. apply (over_step _ _ _ _ _ _ Ho) in Hs. by destruct o.
  - intros b S o S' f ts Ho Hs. apply (over_step _ _ _ _ _ _ Ho) in Hs. by destruct o.
  - intros _. apply over_promise.
  - done.
Qed.

Lemma broken_thread S o S' f ts : broken S f ts -> step TThread S = Some (o, S') -> broken S' f (ts ++ [TThread]).
Proof.
  intros [Ho|[(g & d & Hh & -> & Hth)|(g & rcv & Hc & Hp & Hw)]] Hs.
  - left. by eapply over_step.
  - right. left. exists (owners TThread S g), (d ++ delivered_by TThread S).
    split; [by eapply hist_turn|]. split; [done|]. simpl in Hs. unfold thread_step in Hs. rewrite Hth in Hs.
    by injection Hs as _ <-.
  - right. right. exists g, rcv. split; [|done].
    assert (Hc' := capturing_step S0 k ts rcv g S TThread o S' ltac:(done) ltac:(done) Hc Hs).
    unfold received_by in Hc'. replace (returned_by _ _ _ _) with (@nil Z) in Hc' by by destruct o as [[]|].
    by rewrite app_nil_r in Hc'.
Qed.
(** A call that ends the capture. *)
Lemma broken_over t S o S' f ts : broken S f ts -> ends t = true -> step t S = Some (o, S') -> over S' f (ts ++ [t]).
Proof.
  intros Hb He Hs. assert (Hb' := broken_promise _ _ _ Hb). destruct Hb' as (g & d & Hh & Hp & _).
  exists (owners t S g), (d ++ delivered_by t S). split; [by eapply hist_turn|].
  split; [by apply prefix_app_r|]. exists t. split; [set_solver|done].
Qed.
Lemma end_invoke c : ends (TCall c) = true ->
  holds broken (invoke c) (fun r => match r with Val v => over | Fail _ => fun _ _ _ => False end).
Proof.
  intros He. apply (invoke_holds c broken (fun b => if b then over else broken) (fun _ => over)).
  - intros [] S o S' f ts; [apply over_step|apply broken_thread].
  - intros S o S' f ts Hb Hs. apply (broken_over _ _ _ _ _ _ Hb He) in Hs. by destruct o.
  - intros b S o S' f ts Ho Hs. apply (over_step _ _ _ _ _ _ Ho) in Hs. by destruct o.
  - intros [] S f ts; [apply over_promise|apply broken_promise].
  - done.
Qed.

(** Calls of the capture itself. *)
Lemma after_observed (r : result outcome) : observed r <> None -> after r = Idle.
Proof. by destruct r as [[c|v]|x]. Qed.
Lemma step_idle t S o S' : step t S = Some (Some o, S') -> t <> TThread -> s_client S' = Idle.
Proof.
  intros Hs Ht. destruct t as [c|b|]; [| |done]; simpl in Hs.
  - destruct (s_client S); try done. apply client_turn_eq in Hs as (r & s' & _ & Ho & ->).
    apply after_observed. by rewrite <- Ho.
  - apply client_turn_eq in Hs as (r & s' & _ & Ho & ->). apply after_observed. by rewrite <- Ho.
Qed.
Lemma thread_client S o S' : step TThread S = Some (o, S') -> s_client S' = s_client S /\ o = None.
Proof. simpl. destruct (thread_step (s_trace S)) as [[u s]|]; [|done]. by intros [= <- <-]. Qed.

Lemma going_thread l S o S' f ts : going l S f ts -> step TThread S = Some (o, S') -> going l S' f (ts ++ [TThread]).
Proof.
  intros (g & Hc & Ht & Hi) Hs. destruct (thread_client _ _ _ Hs) as [Hcl ->]. exists g.
  destruct (capture_quiet S0 k l ts f g S TThread None S' ltac:(done) eq_refl eq_refl Hc Ht Hs) as [Hc' Ht'].
  split; [done|]. split; [done|congruence].
Qed.

Lemma quiet_invoke c l :
  stream_turn k (TCall c) -> submits (TCall c) = false -> (forall j, c <> CWaitForEvent j) ->
  (forall s r s', start_call c s = Some (r, s') -> after r = Idle /\ observed r <> None) ->
  holds (going l) (invoke c) (fun r => match r with Val v => going l | Fail _ => fun _ _ _ => False end).
Proof.
  intros Ht Hn Hw Hret.
  apply (invoke_holds c (going l) (fun b => if b then fun _ _ _ => False else going l) (fun _ => going l)); try done.
  - intros [] S o S' f ts; [done|apply going_thread].
  - intros S o S' f ts (g & Hc & Htok & Hi) Hs.
    assert (Hr : returned_by (Z.to_nat k) (TCall c) S o = []).
    { unfold returned_by. destruct o as [[v|]|]; try done. destruct c; try done. by destruct (Hw sink). }
    destruct (capture_quiet S0 k l ts f g S (TCall c) o S' Ht Hn Hr Hc Htok Hs) as [Hc' Ht'].
    unfold step in Hs. rewrite Hi in Hs. apply client_turn_eq in Hs as (r & s' & Hs & -> & ->).
    destruct (Hret _ _ _ Hs) as [Hai Hobs]. destruct (observed r); [|done]. by exists g.
  - intros [] S f ts; [done|apply going_promise].
Qed.
Lemma returns_outcome {T} (m : E (Trace D) T) (v : T -> Z) s r s' :
  returns m v s = Some (r, s') -> after r = Idle /\ observed r <> None.
Proof.
  unfold returns. intros Hs. by apply E_bind_cases in Hs as [(a & s1 & _ & [= <- <-])|(c & _ & ->)].
Qed.

(** A code that the command takes neither for success nor for a time-out. *)
Definition bad_code (x : Z) : Prop := int32 x <> 0 /\ int32 x <> CSTRACE_TIMEOUT.
Lemma usb_code_bad c : usb_code c -> bad_code c.
Proof. by intros [-> | ->]. Qed.
Lemma raises_mono {T1 T2} (Q Q' : Z -> Prop) (m : E T1 T2) : (forall c, Q c -> Q' c) -> raises Q m -> raises Q' m.
Proof. intros HQ Hm s c s' Hs. by eapply HQ, Hm. Qed.
Lemma on_dev_raises {T} (m : E D T) : raises usb_code m -> raises bad_code (on_dev m : E (Trace D) T).
Proof.
  intros Hm s c s' Hs. unfold on_dev, zoom in Hs. destruct (m (m_dev s)) as [[r d]|] eqn:He; [|done].
  injection Hs as -> <-. by eapply usb_code_bad, Hm.
Qed.
Ltac bad_tac := raises_with ltac:(first [by split | auto]).
Lemma throw_bad b c : bad_code c -> raises bad_code (throw_if b c : E (Trace D) unit).
Proof. intros Hc. unfold throw_if. by destruct b; [apply raises_fail|apply raises_ret]. Qed.
Lemma sink_state_bad j : raises bad_code (sink_state j : E (Trace D) SinkState).
Proof. unfold sink_state. bad_tac. Qed.
Lemma sink_details_bad j : raises bad_code (sink_details j : E (Trace D) SinkDetails).
Proof. unfold sink_details. bad_tac. Qed.
Lemma upd_sink_bad j v : raises bad_code (upd_sink j v : E (Trace D) unit).
Proof. unfold upd_sink, sink_state. bad_tac. Qed.
Lemma submit_loop_bad n j : raises bad_code (submit_loop n j : E (Trace D) unit).
Proof.
  assert (Hs := sink_state_bad j). assert (Hi := sink_details_bad j).
  assert (Hu := upd_sink_bad j).
  induction n as [|n IH]; cbn [submit_loop]; [bad_tac|]. unfold submitBuffer, get_buf.
  bad_tac; try (apply Hu); apply on_dev_raises, queued_raises.
Qed.
Lemma SubmitEventBuffer_raises j ty q : raises bad_code (SubmitEventBuffer j ty q : E (Trace D) Z).
Proof.
  assert (Hl := submit_loop_bad). assert (Ht := throw_bad). assert (Hu := upd_sink_bad j).
  assert (Hs := sink_state_bad j).
  unfold SubmitEventBuffer, submit_checks, alloc_token, enqueue, submitBuffers, CheckConnected, check_sink, upd_buf, get_buf.
  bad_tac; first [apply Hu|apply Hl|by apply Ht].
Qed.
Lemma Connect_raises : raises bad_code (Connect : E (Trace D) unit).
Proof.
  assert (Hd : raises bad_code (doConnect : E (Trace D) unit)).
  { unfold doConnect. apply raises_bind; [bad_tac|]. intros _ s c s' Hs. unfold destroy_on_fail in Hs.
    destruct ((on_dev dev_connect;; usbSetup) s) as [[[u|x] s1]|] eqn:He; try done. injection Hs as <- _.
    revert He. apply (raises_bind (S := Trace D)); [apply on_dev_raises, connect_raises|].
    intros _. unfold usbSetup. bad_tac. }
  unfold Connect. bad_tac.
Qed.
Definition wait_code (x : Z) : Prop := int32 x <> 0.
Lemma take_event_raises j (none : E (Trace D) outcome) :
  raises wait_code none -> raises wait_code (take_event j none).
Proof. intros Hn. unfold take_event, upd_sink, sink_state. bad_tac. Qed.
Lemma WaitForEvent_raises j : raises wait_code (WaitForEvent j : E (Trace D) outcome).
Proof.
  unfold WaitForEvent, check_sink. apply raises_bind; [unfold throw_if; bad_tac|]. intros _.
  apply take_event_raises. bad_tac.
Qed.
Lemma resume_raises j b : raises wait_code (resume (InWait j) b : E (Trace D) outcome).
Proof.
  simpl. apply raises_bind; [unfold sink_state; bad_tac|]. intros st. destruct b; [apply take_event_raises; bad_tac|].
  case_decide; [bad_tac|]. apply take_event_raises. bad_tac.
Qed.

(** [WaitForEvent] returned a token: its bytes are not written yet. *)
Definition took (l : list Z) (v : Z) : assertion := fun S f ts =>
  exists g, capturing S0 k ts (f ++ content_of g (client_bufs (s_trace S)) v) g S /\ tokens_ok k l g S /\
    s_client S = Idle /\ not_in_use k v S /\ v ∈ l /\ 0 <= v.
Definition timed (l : list Z) (x : Z) : assertion := fun S f ts => going l S f ts /\ wait_code x.
Definition waits (l : list Z) : assertion := fun S f ts => exists g, capturing S0 k ts f g S /\ tokens_ok k l g S.

Lemma wait_step l t S o S' f ts :
  waits l S f ts -> t = TCall (CWaitForEvent k) \/ (exists b, t = TResume b) -> step t S = Some (o, S') ->
  match o with
  | Some (Val v) => took l v S' f (ts ++ [t])
  | Some (Fail x) => timed l x S' f (ts ++ [t])
  | None => waits l S' f (ts ++ [t])
  end.
Proof.
  intros (g & Hc & Htok) Ht Hs.
  assert (Hst : stream_turn k t /\ submits t = false /\ t <> TThread) by by destruct Ht as [-> | [b ->]].
  destruct Hst as (Hst & Hn & Hth).
  destruct (returned_by (Z.to_nat k) t S o) as [|v l'] eqn:Hr.
  - destruct (capture_quiet S0 k l ts f g S t o S' Hst Hn Hr Hc Htok Hs) as [Hc' Ht'].
    destruct o as [[v|x]|].
    + exfalso. assert (Hu := sm_client _ _ _ (cap_streaming _ _ _ _ _ _ Hc)). unfold returned_by in Hr.
      destruct Ht as [-> | [b ->]]; [by rewrite decide_True in Hr|].
      destruct S as [s c]. simpl in *. destruct c; try done. by rewrite decide_True in Hr by (by rewrite Hu).
    + split; [exists g; split; [done|]; split; [done|]; by eapply step_idle|].
      assert (Hu := sm_client _ _ _ (cap_streaming _ _ _ _ _ _ Hc)). destruct S as [s c]. simpl in Hu.
      destruct Ht as [-> | [b ->]]; simpl in Hs.
      * destruct c; try done. apply client_turn_eq in Hs as (r & s' & Hs & Ho & _).
        destruct r as [[]|]; try done. injection Ho as ->. by eapply WaitForEvent_raises.
      * apply client_turn_eq in Hs as (r & s' & Hs & Ho & _). destruct r as [[]|]; try done. injection Ho as ->.
        destruct c; try done. by eapply resume_raises.
    + by exists g.
  - assert (l' = []) as ->. { unfold returned_by in Hr. repeat case_match; congruence. }
    destruct (capture_take S0 k l ts f g S t o S' v Hst Hn Hr Hc Htok Hs) as (Hc' & Ht' & Hni & Hin & Hv).
    destruct (returned_inv _ _ _ _ _ _ Hs Hr) as (j & st & rest & _ & _ & _ & _ & ->).
    exists g. split; [done|]. split; [done|]. split; [by eapply step_idle|done].
Qed.
Lemma wait_invoke l :
  holds (going l) (invoke (CWaitForEvent k))
    (fun r => match r with Val (Val v) => took l v | Val (Fail x) => timed l x | Fail _ => fun _ _ _ => False end).
Proof.
  eapply holds_weaken;
    [|apply (invoke_holds (CWaitForEvent k) (going l) (fun _ => waits l)
        (fun r => match r with Val v => took l v | Fail x => timed l x end))|].
  - done.
  - intros _ S o S' f ts (g & Hc & Ht) Hs. destruct (thread_client _ _ _ Hs) as [_ ->]. exists g.
    eapply (capture_quiet S0 k l ts f g S TThread None S' ltac:(done) eq_refl eq_refl Hc Ht Hs).
  - intros S o S' f ts Hw Hs. assert (Hstep := wait_step l _ S o S' f ts Hw (or_introl eq_refl) Hs).
    by destruct o as [[]|].
  - intros b S o S' f ts Hw Hs.
    assert (Hstep := wait_step l _ S o S' f ts Hw (or_intror (ex_intro _ b eq_refl)) Hs). by destruct o as [[]|].
  - intros _ S f ts (g & Hc & _). apply halted_promise. by exists g, f.
  - intros S f ts (g & Hc & Ht & _). by exists g.
  - intros [[v|x]|x]; done.
Qed.

(** Position [i] may be submitted. *)
Definition free_at (l : list Z) (i : Z) : assertion := fun S f ts =>
  going l S f ts /\ 0 <= i /\ exists u, l !! Z.to_nat i = Some u /\ not_in_use k u S.
Lemma free_thread l i S o S' f ts :
  free_at l i S f ts -> step TThread S = Some (o, S') -> free_at l i S' f (ts ++ [TThread]).
Proof.
  intros (Hg & Hi & u & Hl & Hu) Hs. split; [by eapply going_thread|]. split; [done|]. exists u. split; [done|].
  destruct Hg as (g & Hc & _). assert (Hst := cap_streaming _ _ _ _ _ _ Hc). intros st' Hst' Hx.
  destruct (so_sink _ _ _ _ (sm_stream _ _ _ Hst)) as (st & Hk0 & _).
  destruct (step_tokens k g TThread S o S' st st' u ltac:(done) Hst Hs Hk0 Hst' Hx) as [Hin|(_ & _ & j & ty & p & [=])].
  by apply (Hu st).
Qed.
Definition refused (x : Z) : assertion := fun S f ts => halted S f ts /\ bad_code x.
Lemma submit_invoke l i ty :
  holds (free_at l i) (invoke (CSubmitEventBuffer k ty i))
    (fun r => match r with
              | Val (Val t) => going (<[Z.to_nat i := t]> l)
              | Val (Fail x) => refused x
              | Fail _ => fun _ _ _ => False
              end).
Proof.
  eapply holds_weaken;
    [|apply (invoke_holds (CSubmitEventBuffer k ty i) (free_at l i)
        (fun b => if b then fun _ _ _ => False else free_at l i)
        (fun r => match r with Val t => going (<[Z.to_nat i := t]> l) | Fail x => refused x end))|]; try done.
  - intros [] S o S' f ts; [done|apply free_thread].
  - intros S o S' f ts ((g & Hc & Ht & Hid) & Hi & u & Hl & Hu) Hs.
    destruct (capture_submit S0 k l ts f g S i u ty o S' Hc Ht Hid Hl Hu Hi Hs) as (Hid' & Hc' & Hm).
    destruct o as [[t|x]|]; [| |done].
    + by exists (<[m_nextToken (s_trace S):=i]> g).
    + split; [by exists (<[m_nextToken (s_trace S):=i]> g), f|]. unfold step in Hs. rewrite Hid in Hs.
      apply client_turn_eq in Hs as (r & s' & Hs & Ho & _). simpl in Hs. unfold returns in Hs.
      apply E_bind_cases in Hs as [(a & s1 & _ & [= <- _])|(y & Hs & ->)]; [done|]. injection Ho as ->.
      by eapply SubmitEventBuffer_raises.
  - intros [] S f ts; [done|]. intros (Hg & _). by eapply going_promise.
Qed.

(** ** The capture *)

Definition never : assertion := fun _ _ _ => False.
Definition on_val {T} (post : T -> assertion) (r : result T) : assertion :=
  match r with Val a => post a | Fail _ => never end.

Lemma holds_bind_val {T U} A (m : P T) (mid : T -> assertion) (n : T -> P U) post :
  holds A m (on_val mid) -> (forall a, holds (mid a) (n a) post) -> holds A (m ≫= n) post.
Proof. intros Hm Hn. eapply holds_bind; [exact Hm|exact Hn|done]. Qed.

Lemma trap_wait l :
  holds (going l) (trap (CWaitForEvent k))
    (on_val (fun r => if r.1 =? 0 then took l r.2 else going l)).
Proof.
  eapply trap_holds; [eapply holds_weaken; [done|apply wait_invoke|]|..].
  - intros [v|x] S f ts Hs; [exact Hs|done].
  - done.
  - intros x S f ts [Hg Hx]. simpl. unfold wait_code in Hx. by rewrite (proj2 (Z.eqb_neq _ _) Hx).
Qed.

(** The fields of the command record that do not change. *)
Definition same_cmd (c c' : cstrace_cmd_t) : Prop := etrID c' = etrID c /\ num_tbufs c' = num_tbufs c.
#[export] Instance same_cmd_preorder : PreOrder same_cmd.
Proof. unfold same_cmd. split; [done|]. intros c1 c2 c3 [-> ->] [-> ->]. done. Qed.

Lemma submit_client_buf_holds c i :
  etrID c = k ->
  holds (free_at (tbufs_req_tokens c) i) (cstrace_submit_client_buf c i)
    (on_val (fun r S f ts => same_cmd c r.2 /\ r.1 <> CSTRACE_TIMEOUT /\
       if r.1 =? 0 then (exists t, tbufs_req_tokens r.2 = <[Z.to_nat i := t]> (tbufs_req_tokens c)) /\
                        going (tbufs_req_tokens r.2) S f ts
       else halted S f ts)).
Proof.
  intros Hk. unfold cstrace_submit_client_buf. rewrite Hk.
  eapply (holds_bind_val _ _ (fun r S f ts => if r.1 =? 0 then going (<[Z.to_nat i := r.2]> (tbufs_req_tokens c)) S f ts
                                           else halted S f ts /\ r.1 <> CSTRACE_TIMEOUT)).
  - eapply trap_holds; [eapply holds_weaken; [done|apply submit_invoke|]|..].
    + intros [v|x] S f ts Hs; [exact Hs|done].
    + done.
    + intros x S f ts [Hg [Hx1 Hx2]]. simpl. by rewrite (proj2 (Z.eqb_neq _ _) Hx1).
  - intros [e t]. simpl. apply holds_ret. intros S f ts Hs. simpl. destruct (e =? 0) eqn:He; simpl.
    + split; [done|]. split; [done|]. split; [by exists t|exact Hs].
    + rewrite He. destruct Hs as [Hs Hne]. by repeat split.
Qed.

Lemma find_token t l i : cstrace_find_tbuf_id t l = Some i -> l !! i = Some t.
Proof.
  revert i. induction l as [|x l IH]; intros i; simpl; [done|].
  destruct (Z.eqb_spec t x) as [->|]; [by intros [= <-]|].
  destruct (cstrace_find_tbuf_id t l) as [j|]; [|done]. intros [= <-]. by apply IH.
Qed.
Lemma find_token_in t l : t ∈ l -> exists i, cstrace_find_tbuf_id t l = Some i.
Proof.
  induction l as [|x l IH]; simpl; [by intros ?%not_elem_of_nil|].
  destruct (Z.eqb_spec t x) as [->|Hne]; [eauto|]. intros [->|Hin]%elem_of_cons; [done|].
  destruct (IH Hin) as [j ->]. simpl. eauto.
Qed.

(** After a buffer was taken: it is written and submitted again. *)
Definition turn_done (c : cstrace_cmd_t) (r : Z * cstrace_cmd_t) : assertion := fun S f ts =>
  same_cmd c r.2 /\ halted S f ts /\ (r.1 = 0 \/ r.1 = CSTRACE_TIMEOUT -> going (tbufs_req_tokens r.2) S f ts).

Lemma took_halted l v S f ts : took l v S f ts ->
  exists g, capturing S0 k ts (f ++ content_of g (client_bufs (s_trace S)) v) g S /\
    forall i, l !! i = Some v -> content_of g (client_bufs (s_trace S)) v =
      from_option contents [] (client_bufs (s_trace S) !! Z.of_nat i).
Proof.
  intros (g & Hc & [Ho _] & _ & _ & _ & Hv). exists g. split; [done|]. intros i Hi.
  destruct (Ho i v Hi) as [->|[Hg _]]; [done|]. unfold content_of. by rewrite Hg.
Qed.

Lemma write_holds l v i b :
  l !! i = Some v ->
  eb_type b = CSTRACE_EVENT_TYPE_DATA -> eb_used b <= eb_size b ->
  holds (fun S f ts => took l v S f ts /\ client_bufs (s_trace S) !! Z.of_nat i = Some b)
    (write_file env (take (Z.to_nat (eb_used b)) (eb_buf b)))
    (on_val (fun n S f ts => halted S f ts /\ (Z.of_nat n = eb_used b -> free_at l (Z.of_nat i) S f ts))).
Proof.
  intros Hi Hty Hsz p [Ht Hb]. unfold write_file. simpl.
  set (bytes := take (Z.to_nat (eb_used b)) (eb_buf b)).
  destruct (took_halted _ _ _ _ _ Ht) as (g & Hc & Hcont). rewrite (Hcont i Hi), Hb in Hc. simpl in Hc.
  replace (contents b) with bytes in Hc by (unfold contents; by rewrite Hty). split.
  - exists g, (outFile p ++ bytes). split; [exact Hc|]. split; [apply prefix_app, prefix_take|].
    intros Hall. specialize (Hall (p_writes p) bytes). rewrite take_ge; [done|lia].
  - intros Hn. assert (Hlen : length bytes = Z.to_nat (eb_used b)).
    { unfold bytes. rewrite length_take. unfold eb_size in Hsz. lia. }
    rewrite take_ge by lia.
    destruct Ht as (g' & Hc' & Ht' & Hid & Hni & _ & Hv).
    assert (Hcont' : content_of g' (client_bufs (s_trace (p_sys p))) v = bytes).
    { destruct Ht' as [Ho _]. destruct (Ho i v Hi) as [->|[Hg _]]; [done|]. unfold content_of. rewrite Hg, Hb. simpl.
      unfold contents. by rewrite Hty. }
    rewrite Hcont' in Hc'. split; [by exists g'|]. split; [lia|]. exists v. by rewrite Nat2Z.id.
Qed.

Lemma get_buf_holds A j (n : CSTraceEventBuffer -> P (Z * cstrace_cmd_t)) post :
  (forall b, holds (fun S f ts => A S f ts /\ client_bufs (s_trace S) !! j = Some b) (n b) post) ->
  holds A (on_trace (get_buf j) ≫= n) post.
Proof.
  intros Hn p Hp. unfold mbind, R_bind, on_trace. destruct (get_buf j (s_trace (p_sys p))) as [[[b|x] s]|] eqn:Hb; [|done..].
  apply get_buf_inv in Hb as (b' & Hb & [= ->] & ->). apply (Hn b'). simpl. by destruct (p_sys p).
Qed.

Lemma capture_buf_holds c i v :
  etrID c = k -> tbufs_req_tokens c !! i = Some v ->
  holds (took (tbufs_req_tokens c) v) (capture_buf env c i) (on_val (turn_done c)).
Proof.
  intros Hk Hi. unfold capture_buf. apply get_buf_holds. intros b.
  assert (Hstop : forall code, code <> 0 -> code <> CSTRACE_TIMEOUT -> eb_type b <> CSTRACE_EVENT_TYPE_DATA ->
    holds (fun S f ts => took (tbufs_req_tokens c) v S f ts /\ client_bufs (s_trace S) !! Z.of_nat i = Some b)
      (mret (code, c)) (on_val (turn_done c))).
  { intros code H1 H2 Hty. apply holds_ret. intros S f ts [Ht Hb]. split; [done|]. split; [|by intros [?|?]].
    destruct (took_halted _ _ _ _ _ Ht) as (g & Hc & Hcont). rewrite (Hcont i Hi), Hb in Hc. simpl in Hc.
    unfold contents in Hc. rewrite (proj2 (Z.eqb_neq _ _) Hty), app_nil_r in Hc. by exists g, f. }
  case_match eqn:H1; [apply Z.eqb_eq in H1; apply Hstop; [done..|by rewrite H1]|].
  case_match eqn:H2; [apply Z.eqb_eq in H2|apply Z.eqb_neq in H2; by apply Hstop].
  case_match eqn:H3; [apply holds_ub|]. apply Z.ltb_ge in H3.
  eapply holds_bind_val; [by apply (write_holds (tbufs_req_tokens c) v i b)|]. intros n. simpl.
  case_match eqn:H4.
  { apply holds_ret. intros S f ts [Hh _]. split; [done|]. split; [exact Hh|]. by intros [[=]|[=]]. }
  apply negb_false_iff, Z.eqb_eq in H4.
  eapply holds_weaken; [|apply submit_client_buf_holds|].
  - intros S f ts [_ Hf]. by apply Hf.
  - done.
  - intros [[res c']|x] S f ts Hpost; [|done]. destruct Hpost as (Hs & Hne & Hp). simpl in *. split; [exact Hs|].
    simpl. destruct (Z.eqb_spec res 0) as [->|Hnz].
    + destruct Hp as [_ Hg]. split; [by eapply going_halted|]. by intros _.
    + split; [done|]. by intros [?|?].
Qed.

Lemma capture_data_holds c :
  etrID c = k -> holds (going (tbufs_req_tokens c)) (cstrace_capture_data env c) (on_val (turn_done c)).
Proof.
  intros Hk. unfold cstrace_capture_data. rewrite Hk.
  eapply holds_bind_val; [apply trap_wait|]. intros [e t]. simpl.
  destruct (e =? 0) eqn:He; simpl.
  2: { apply holds_ret. intros S f ts Hg. split; [done|]. split; [by eapply going_halted|]. by intros _. }
  destruct (cstrace_find_tbuf_id t (tbufs_req_tokens c)) as [i|] eqn:Hf.
  - apply find_token in Hf. eapply holds_weaken; [done|by apply (capture_buf_holds (set_pending_bufs _ c) i t)|done].
  - intros p (g & _ & _ & _ & _ & Hin & _). destruct (find_token_in _ _ Hin) as [j Hj]. congruence.
Qed.

Lemma flush_outcome s r s' : start_call (CFlush k) s = Some (r, s') -> after r = Idle /\ observed r <> None.
Proof. apply returns_outcome. Qed.
Lemma trap_quiet c l :
  stream_turn k (TCall c) -> submits (TCall c) = false -> (forall j, c <> CWaitForEvent j) ->
  (forall s r s', start_call c s = Some (r, s') -> after r = Idle /\ observed r <> None) ->
  holds (going l) (trap c) (on_val (fun _ => going l)).
Proof. intros H1 H2 H3 H4. by eapply trap_holds; [apply (quiet_invoke c l)|..]. Qed.
Lemma on_signal_holds c ft l :
  etrID c = k -> holds (going l) (on_signal env c ft) (on_val (fun _ => going l)).
Proof.
  intros Hk. unfold on_signal. rewrite Hk. apply holds_silent; [apply gets_silent|]. intros e.
  case_match; [|by apply holds_ret]. destruct ft as [t0|].
  - apply holds_silent; [apply time_silent|]. intros t. by apply holds_ret.
  - eapply holds_bind_val; [apply trap_quiet; [done..|apply flush_outcome]|]. intros r.
    apply holds_silent; [apply time_silent|]. intros t. by apply holds_ret.
Qed.

Definition stopped_cmd (r : cstrace_cmd_t) : assertion := fun S f ts => etrID r = k /\ halted S f ts.
Lemma capture_loop_holds n c ft :
  etrID c = k -> holds (going (tbufs_req_tokens c)) (capture_loop env n c ft) (on_val stopped_cmd).
Proof.
  revert c ft. induction n as [|n IH]; intros c ft Hk; cbn [capture_loop].
  { intros p Hp. by eapply going_promise. }
  eapply holds_bind_val; [by apply on_signal_holds|]. intros [ft'|].
  2: { apply holds_ret. intros S f ts Hg. split; [done|by eapply going_halted]. }
  eapply holds_bind_val; [by apply capture_data_holds|]. intros [res c']. simpl.
  intros p ((Hke & _) & Hh & Hg). simpl in *. destruct (negb (res =? 0) && negb (res =? CSTRACE_TIMEOUT)) eqn:Hb.
  - split; [congruence|exact Hh].
  - apply (holds_silent (going (tbufs_req_tokens c')) (get_current_time env));
      [apply time_silent|intros _; apply IH; congruence|]. apply Hg.
    destruct (Z.eqb_spec res 0); [by left|]. destruct (Z.eqb_spec res CSTRACE_TIMEOUT); [by right|done].
Qed.

Lemma repeat_lookup {T} (x : T) n j : (j < n)%nat -> repeat x n !! j = Some x.
Proof. revert j. induction n as [|n IH]; intros [|j] Hj; simpl; [lia..|done|apply IH; lia]. Qed.
Lemma holds_val_post {T} A (m : P T) post B :
  holds A m (on_val post) -> (forall a S f ts, post a S f ts -> B S f ts) -> holds A m (fun _ => B).
Proof. intros Hm Hp. eapply holds_weaken; [done|exact Hm|]. intros [a|x] S f ts Hs; [by eapply Hp|done]. Qed.

Lemma unused_minus l S f ts : going l S f ts -> not_in_use k (-1) S.
Proof.
  intros (g & [Hst _] & _) st Hk Hin. assert (Hr := sys_tokens k S st (-1) (sm_inv _ _ _ Hst) Hk Hin). lia.
Qed.
Definition submitted_all (r : bool * cstrace_cmd_t) : assertion := fun S f ts =>
  etrID r.2 = k /\ if r.1 then going (tbufs_req_tokens r.2) S f ts else halted S f ts.
Lemma submit_all_holds n i c :
  etrID c = k -> 0 <= i -> (Z.to_nat i + n = length (tbufs_req_tokens c))%nat ->
  (forall j, (Z.to_nat i <= j < length (tbufs_req_tokens c))%nat -> tbufs_req_tokens c !! j = Some (-1)) ->
  holds (going (tbufs_req_tokens c)) (submit_all n i c) (on_val submitted_all).
Proof.
  revert i c. induction n as [|n IH]; intros i c Hk Hi Hlen Hj; cbn [submit_all].
  { apply holds_ret. intros S f ts Hg. by split. }
  eapply holds_bind_val.
  - eapply holds_weaken; [|by apply submit_client_buf_holds|done].
    intros S f ts Hg. split; [exact Hg|]. split; [done|]. exists (-1). split; [apply Hj; lia|by eapply unused_minus].
  - intros [res c']. simpl. intros p ((Hke & _) & _ & Hp). simpl in *. destruct (res =? 0).
    + destruct Hp as [[t Ht] Hg]. assert (Hl : length (tbufs_req_tokens c') = length (tbufs_req_tokens c)).
      { by rewrite Ht, length_insert. }
      apply (IH (i + 1) c'); [congruence|lia|rewrite Hl; lia| |exact Hg].
      intros j Hjr. rewrite Hl in Hjr. rewrite Ht, list_lookup_insert_ne by lia. apply Hj. lia.
    + split; [simpl; congruence|exact Hp].
Qed.

(** A call does not change the file. *)
Lemma drive_file c l b p :
  match drive c b l p with Done _ p' | Running p' => outFile p' = outFile p | Undefined => True end.
Proof.
  revert b p. induction l as [|[|b0|] l IH]; intros b p; cbn [drive]; [done|..].
  - destruct (step TThread (p_sys p)) as [[o S']|]; [apply (IH b (took_turn TThread S' p))|done].
  - destruct (step _ (p_sys p)) as [[[r|] S']|]; [done|apply (IH true (took_turn _ S' p))|done].
  - destruct (p_handler p); [apply (IH b (set_exit 1 true p))|done].
Qed.
Lemma trap_file c p :
  match trap c p with Done _ p' | Running p' => outFile p' = outFile p | Undefined => True end.
Proof.
  unfold trap, mbind, R_bind, invoke. assert (Hd := drive_file c (p_sched p) false p).
  by destruct (drive c false (p_sched p) p) as [[r|x] p'|p'|].
Qed.
Lemma holds_file A c post l0 :
  holds A (trap c) post ->
  holds (fun S f ts => A S f ts /\ f = l0) (trap c) (fun r S f ts => post r S f ts /\ f = l0).
Proof.
  intros Hm p [HA Hf]. specialize (Hm p HA). assert (Hd := trap_file c p).
  destruct (trap c p); [|done..]. split; [done|congruence].
Qed.

Lemma discard_holds n c : holds over (discard_loop n c) (fun _ => over).
Proof.
  revert c. induction n as [|n IH]; intros c; cbn [discard_loop]; (case_match; [|by apply holds_ret]).
  { intros p Hp. by apply over_promise. }
  eapply (holds_bind _ _ (fun _ => over)); [eapply trap_holds; [apply over_invoke|done..]| |done].
  intros [e t]. eapply (holds_bind _ _ (fun _ => over)); [by apply holds_early| |done]. intros _. apply IH.
Qed.
Lemma trap_over c : holds over (trap c) (fun _ => over).
Proof. eapply trap_holds; [apply over_invoke|done..]. Qed.
Lemma trap_end c : ends (TCall c) = true -> holds broken (trap c) (fun _ => over).
Proof. intros He. eapply trap_holds; [by apply end_invoke|done..]. Qed.

Lemma capture_cstrace_holds c :
  etrID c = k -> tbufs_req_tokens c = repeat (-1) (Z.to_nat (num_tbufs c)) ->
  holds (fun S f ts => going (tbufs_req_tokens c) S f ts /\ f = []) (capture_cstrace env c) (fun _ => broken).
Proof.
  intros Hk Ht. unfold capture_cstrace. rewrite Hk. set (l := tbufs_req_tokens c) in *.
  assert (Hb : forall S f ts, going l S f ts /\ f = [] -> broken S f ts) by (intros S f ts [Hg _]; by eapply going_broken).
  eapply (holds_bind _ _ (fun r S f ts => on_val (fun _ => going l) r S f ts /\ f = [])).
  { apply holds_file, trap_quiet; try done. intros s r s'. apply returns_outcome. }
  2: { by intros x S f ts [[] _]. }
  intros [e t]. eapply (holds_bind _ _ (fun _ S f ts => going l S f ts /\ f = [])); [by apply holds_early| |by intros x; apply Hb].
  intros _. eapply (holds_bind _ _ (fun _ S f ts => going l S f ts /\ f = [])); [by apply holds_early| |by intros x; apply Hb].
  intros _. eapply (holds_bind _ _ (fun _ S f ts => going l S f ts /\ f = [])).
  { intros p [Hg Hf]. simpl. by rewrite Hf in Hg. }
  2: by intros x; apply Hb.
  intros _. eapply (holds_weaken (going l) _ _ (fun _ => broken)); [by intros S f ts [? _]| |done].
  apply holds_silent; [apply sigint_silent|]. intros e_res.
  eapply (holds_bind _ _ (fun _ => going l)); [by apply holds_early| |by intros x S f ts; apply going_broken].
  intros _. eapply holds_bind_val.
  { subst l. apply submit_all_holds; [done|lia|rewrite Ht, repeat_length; lia|].
    intros j Hj. rewrite Ht in *. rewrite repeat_length in Hj. apply repeat_lookup. lia. }
  intros [b c']. simpl. apply holds_silent; [apply time_silent|]. intros t1.
  apply holds_silent; [apply gets_silent|]. intros n.
  eapply (holds_bind_val _ _ stopped_cmd).
  { intros p [He Hp]. simpl in *. destruct b; [by apply capture_loop_holds|by split]. }
  intros c2. apply holds_silent; [apply time_silent|]. intros t2.
  eapply (holds_bind _ _ (fun _ => broken)); [| |done].
  { apply holds_early; intros S f ts [_ Hh]; by right; right. }
  intros _. eapply (holds_bind _ _ (fun _ => over)); [by apply trap_end| |by left].
  intros [e2 t3]. eapply (holds_bind _ _ (fun _ => over)); [by apply holds_early| |by left].
  intros _. apply holds_silent; [apply gets_silent|]. intros n2.
  eapply holds_weaken; [done|apply discard_holds|by left].
Qed.

(** ** Setting up and cleaning up *)

Lemma status_holds {T} A (m : P T) B :
  holds A m (fun _ => B) -> holds A (status_of m) (on_val (fun _ => B)).
Proof. intros Hm p Hp. specialize (Hm p Hp). unfold status_of. by destruct (m p) as [[a|x] p'|p'|]. Qed.

Lemma cleanup_holds c : holds broken (cleanup_cstrace c) (fun _ => broken).
Proof.
  unfold cleanup_cstrace.
  assert (Hob : forall x : Z, forall S f ts, over S f ts -> broken S f ts) by by left.
  eapply (holds_bind _ _ (fun _ => over)); [by apply trap_end| |exact Hob]. intros [e t].
  eapply (holds_bind _ _ (fun _ => over)); [by apply holds_early| |exact Hob]. intros _.
  eapply (holds_bind _ _ (fun _ => over)); [by apply trap_over| |exact Hob]. intros [e2 t2].
  eapply (holds_bind _ _ (fun _ => over)); [by apply holds_early| |exact Hob]. intros _.
  intros p (g & d & Hh & Hp & He). simpl. left. exists g, d. split; [|done].
  by apply (hist_alloc S0 _ g d (p_sys p) ∅).
Qed.

(** The object as it was created. *)
Definition fresh : assertion := fun S f ts => S = S0 /\ f = [] /\ history S0 ts ∅ [] S0.

Section connecting.
Context type id serial d bufs x
  (Hcreate : CreateStreamingTrace type id serial d bufs = Val x) (HS0 : S0 = mkSys x Idle)
  (Hk : 0 <= k < Z.of_nat MAX_NUM_ETRS).

Lemma fresh_thread_none : m_dataThread (s_trace S0) = None.
Proof. rewrite HS0. simpl. revert Hcreate. unfold CreateStreamingTrace. case_decide; [|done]. by intros [= <-]. Qed.
Lemma fresh_unstarted S f ts : fresh S f ts -> unstarted S f ts.
Proof. intros (-> & -> & Hh). exists ∅, []. split; [done|]. split; [done|apply fresh_thread_none]. Qed.
Definition same_thread (s s' : Trace D) : Prop := m_dataThread s' = m_dataThread s.
#[local] Instance same_thread_preorder : PreOrder same_thread.
Proof. unfold same_thread. split; [done|]. intros s1 s2 s3. congruence. Qed.
Lemma Connect_thread : within same_thread (Connect : E (Trace D) unit).
Proof.
  assert (Hin : within same_thread (on_dev dev_connect;; usbSetup : E (Trace D) unit)).
  { apply within_bind; [|intros _; by apply within_modify]. intros s1 r s2 Hs. unfold on_dev, zoom in Hs.
    destruct (dev_connect (m_dev s1)) as [[r0 d0]|]; [|done]. by injection Hs as _ <-. }
  assert (Hdo : within same_thread (doConnect : E (Trace D) unit)).
  { unfold doConnect. apply within_bind; [by apply within_modify|]. intros _ s1 r s2 Hs. unfold destroy_on_fail in Hs.
    destruct ((on_dev dev_connect;; usbSetup) s1) as [[[u|c] s3]|] eqn:He; try done; injection Hs as _ <-;
      by apply Hin in He. }
  unfold Connect. within_tac.
Qed.

Lemma connect_invoke :
  holds fresh (invoke CConnect)
    (fun r => match r with
              | Val (Val _) => fun S f ts => going [] S f ts /\ f = []
              | Val (Fail c) => fun S f ts => unstarted S f ts /\ bad_code c
              | Fail _ => never
              end).
Proof.
  eapply holds_weaken;
    [|apply (invoke_holds CConnect fresh (fun b => if b then never else fresh)
        (fun r => match r with
                  | Val _ => fun S f ts => going [] S f ts /\ f = []
                  | Fail c => fun S f ts => unstarted S f ts /\ bad_code c
                  end))|]; try done.
  - intros [] S o S' f ts; [done|]. intros (-> & -> & Hh) Hs.
    assert (He := Hs). simpl in He. unfold thread_step in He. rewrite fresh_thread_none in He. injection He as <- He.
    assert (S' = S0) as -> by (rewrite <- He; by destruct S0). split; [done|]. split; [done|].
    assert (Hh' := hist_turn _ _ _ _ _ _ _ _ Hh Hs). simpl in Hh'.
    unfold delivers in Hh'. by rewrite fresh_thread_none in Hh'.
  - intros S o S' f ts (-> & -> & Hh) Hs. assert (Hs0 := Hs). rewrite HS0 in Hs. unfold step in Hs. simpl in Hs.
    apply client_turn_eq in Hs as (r & s' & Hs & -> & ->).
    assert (Hh' := hist_turn _ _ _ _ _ _ _ _ Hh Hs0). simpl in Hh'.
    assert (Hi : Sys_inv S0) by (rewrite HS0; by eapply created_inv).
    assert (Hi' := step_inv _ _ _ _ Hi Hs0).
    unfold returns in Hs. apply E_bind_cases in Hs as [([] & s1 & Hc & [= <- <-])|(y & Hc & ->)].
    + simpl in *. assert (Hcn : connected k s1) by by eapply Connect_connected. split; [|done].
      exists ∅. assert (Hst := connected_streaming k s1 Hi' Hcn). split; [|split; [split|done]].
      * split; [done|]. exists [], []. simpl. rewrite (connected_waiting _ _ _ Hcn).
        split; [|auto]. unfold owners in Hh'. by destruct (s_client S0).
      * by intros i t.
      * intros st t Hst0. simpl in Hst0. rewrite (cn_sink _ _ Hcn) in Hst0. injection Hst0 as <-. done.
    + simpl in *. split; [|by eapply Connect_raises]. eexists _, _. split; [exact Hh'|]. split; [done|]. simpl.
      apply Connect_thread in Hc. unfold same_thread in Hc. rewrite Hc. assert (Ht := fresh_thread_none). by rewrite HS0 in Ht.
  - intros [] S f ts; [done|]. intros Hf. by apply unstarted_promise, fresh_unstarted.
Qed.
End connecting.

(** The client's buffers are allocated: none was in use. *)
Lemma alloc_going m n S f ts : going [] S f ts -> going (repeat (-1) n) (with_bufs m S) f ts.
Proof.
  intros (g & [[Hi Hc Ha Hso] (d & lost & Hh & He & Hl)] & [_ Hall] & Hid). exists g.
  destruct Hso as [(st & Hst & Hok) Hout].
  assert (Hnone : st_tokens [] st = []).
  { destruct (st_tokens [] st) as [|t rest] eqn:Ht; [done|]. exfalso.
    assert (Hin := Hall st t Hst ltac:(rewrite Ht; set_solver)). by apply not_elem_of_nil in Hin. }
  assert (Hw : forall m', waiting_data k g [] (set_bufs m' (s_trace S)) = []).
  { intros m'. unfold waiting_data. simpl. rewrite Hst. unfold st_tokens in Hnone.
    apply app_eq_nil in Hnone as [_ ->]. done. }
  split; [split|split; [split|done]].
  - split; [|done| |].
    + destruct Hi as [[? ? ? ? ? ?] Hth Hcl]. split; [by split|exact Hth|]. simpl. by destruct (s_client S).
    + destruct Ha as [Ha|[? ? ? ? ?]]; [by left|right; by split].
    + split; [by exists st|exact Hout].
  - exists d, lost. split; [by apply hist_alloc|]. split; [|exact Hl]. simpl. rewrite Hw.
    rewrite <- He. f_equal. f_equal. specialize (Hw (client_bufs (s_trace S))). unfold waiting_data in *. simpl in Hw.
    by rewrite <- Hw at 1.
  - intros i t Hi'. left. apply list_elem_of_lookup_2, list_elem_of_In, repeat_spec in Hi'. done.
  - intros st' t Hst' Ht. simpl in Hst'. rewrite Hst in Hst'. injection Hst' as <-. rewrite Hnone in Ht. by apply not_elem_of_nil in Ht.
Qed.

Lemma alloc_holds :
  holds (fun S f ts => going [] S f ts /\ f = []) (alloc_cstrace_runtime_storage env k)
    (fun r S f ts => match r with
                  | Val c => (etrID c = k /\ tbufs_req_tokens c = repeat (-1) (Z.to_nat (num_tbufs c))) /\
                             going (tbufs_req_tokens c) S f ts /\ f = []
                  | Fail _ => broken S f ts
                  end).
Proof.
  unfold alloc_cstrace_runtime_storage. apply holds_silent.
  { apply on_trace_silent. intros s r s' Hs. unfold GetSinkDetails in Hs.
    assert (Hkeep : within eq (CheckConnected;; check_sink k;; sink_details k : E (Trace D) SinkDetails)).
    { unfold CheckConnected, check_sink, sink_details, throw_if. within_with ltac:(auto with within). }
    symmetry. by eapply Hkeep. }
  intros sink. eapply (holds_bind _ _ (fun r => match r with Val _ => fun S f ts => going [] S f ts /\ f = [] | Fail _ => broken end)).
  - apply holds_early; [done|]. intros S f ts [Hg _]. by eapply going_broken.
  - intros _. intros p [Hg Hf]. simpl. split; [done|]. split; [|exact Hf].
    by apply (alloc_going _ _ (p_sys p)).
  - done.
Qed.


Definition ready (c : cstrace_cmd_t) : assertion := fun S f ts =>
  (etrID c = k /\ tbufs_req_tokens c = repeat (-1) (Z.to_nat (num_tbufs c))) /\ going (tbufs_req_tokens c) S f ts /\ f = [].
(** A value, or an error after which the capture is over. *)
Definition or_broken {T} (post : T -> assertion) (r : result T) : assertion :=
  match r with Val a => post a | Fail _ => broken end.

Lemma holds_check e B :
  holds (fun S f ts => if e =? 0 then B S f ts else broken S f ts) (early (negb (e =? 0)) e : P unit) (or_broken (fun _ => B)).
Proof. destruct (e =? 0); [by apply holds_ret|by apply holds_fail]. Qed.
Lemma untrapped_end c : ends (TCall c) = true -> holds broken (untrapped c) (fun _ => broken).
Proof.
  intros He. eapply holds_weaken; [done|by apply untrapped_holds, end_invoke|]. intros r S f ts Ho. by left.
Qed.
Lemma holds_or_else {T} A (m : P T) undo post :
  holds A m (or_broken post) -> (forall e, holds broken (undo e) (fun _ => broken)) ->
  holds A (or_else m undo) (or_broken post).
Proof.
  intros Hm Hu p Hp. specialize (Hm p Hp). unfold or_else. destruct (m p) as [[a|e] p'|p'|]; [exact Hm| |exact Hm|done].
  eapply (holds_bind broken _ (fun _ => broken)); [apply Hu|intros u; by apply holds_fail|done|exact Hm].
Qed.

Section perf.
Context type id serial d bufs x
  (Hcreate : CreateStreamingTrace type id serial d bufs = Val x) (HS0 : S0 = mkSys x Idle)
  (Hk : 0 <= k < Z.of_nat MAX_NUM_ETRS).

Lemma attach_holds : holds fresh (attach_cstrace env k) (or_broken ready).
Proof.
  unfold attach_cstrace. set (B := (fun S f ts => going [] S f ts /\ f = []) : assertion).
  assert (HB : forall S f ts, B S f ts -> broken S f ts) by (intros S f ts [Hg _]; by eapply going_broken).
  eapply (holds_bind_val _ _ (fun r S f ts => if r.1 =? 0 then B S f ts else broken S f ts)).
  { eapply trap_holds; [eapply holds_weaken; [done|by eapply connect_invoke|]|..].
    - intros [v|c] S f ts Hs; [exact Hs|done].
    - done.
    - intros c S f ts [Hu [Hne _]]. simpl. rewrite (proj2 (Z.eqb_neq _ _) Hne). by right; left. }
  intros [e t]. simpl. eapply (holds_bind _ _ (or_broken (fun _ => B))); [apply holds_check| |done].
  intros []. eapply (holds_bind_val _ _ (fun _ => B)).
  { apply (holds_weaken B _ _ (fun r S f ts => on_val (fun _ => going []) r S f ts /\ f = []));
      [done|apply holds_file, (trap_quiet (CAttach k) []); try done|].
    - intros s r s'. apply returns_outcome.
    - by intros [a|c] S f ts [Hg Hf]. }
  intros [e2 t2]. simpl. eapply (holds_bind _ _ (or_broken (fun _ => B))); [|intros []|done].
  { destruct (e2 =? 0); [by apply holds_ret|].
    eapply holds_weaken; [exact HB| |done].
    eapply (holds_bind _ _ (fun _ => broken)); [by apply untrapped_end|intros u; by apply holds_fail|done]. }
  apply holds_or_else.
  - eapply (holds_weaken B); [done|apply alloc_holds|]. by intros [c|c] S f ts.
  - intros e3. eapply (holds_bind _ _ (fun _ => broken)); [by apply untrapped_end|intros u; by apply untrapped_end|done].
Qed.

Lemma run_cstrace_holds : holds fresh (run_cstrace env k) (fun _ => broken).
Proof.
  unfold run_cstrace. eapply (holds_bind _ _ (or_broken ready)); [apply attach_holds| |done]. intros c.
  eapply (holds_bind_val _ _ (fun _ => broken)).
  { apply status_holds. intros p [[He Ht] Hg]. by apply capture_cstrace_holds. }
  intros st. eapply (holds_bind_val _ _ (fun _ => broken)); [apply status_holds, cleanup_holds|].
  intros st2. eapply (holds_bind _ _ (fun _ => broken)); [by apply holds_early| |done].
  intros u. by apply holds_early.
Qed.

Lemma perf_holds : holds fresh (res ← status_of (run_cstrace env k); destroy_trace;; early (negb (res =? 0)) res) (fun _ => promise).
Proof.
  eapply (holds_bind_val _ _ (fun _ => broken)); [apply status_holds, run_cstrace_holds|]. intros res.
  eapply (holds_bind _ _ (fun _ => over)); [by apply trap_end| |intros c; apply over_promise].
  intros r. apply holds_early; apply over_promise.
Qed.
End perf.
End command.

Section capture.
Context {D : Type} `{USBDeviceLaws D dest}.

(** C33: However the command, the data thread and the user take turns, and
    whatever fails on the way: at any time, and when [perf_cstrace] returns,
    the file holds bytes that the device delivered, from the first one on,
    in order and without a gap.  As long as the capture goes on and no write
    fails, it holds all of them, but for those of the buffers that are waiting
    to be fetched. *)
Theorem capture_faithful (env : TraceEnv) (d : D) argv k m x (p p0 : Proc D) :
  extract_perf_cstrace_param argv ∅ = Some (Val k, m) -> 0 <= k < Z.of_nat MAX_NUM_ETRS ->
  create_cstrace env d p = Done (Val x) p0 -> outFile p = [] ->
  match perf_cstrace env d argv p with
  | Done _ p' | Running p' =>
      exists g bytes,
        history (mkSys x Idle) (p_turns p') g bytes (p_sys p') /\ outFile p' `prefix_of` bytes /\
        (all_written env -> in_loop (s_trace (p_sys p')) -> ~ ended (p_turns p') ->
         outFile p' ++ waiting_data k g [] (s_trace (p_sys p')) = bytes)
  | Undefined => True
  end.
Proof.
  intros He Hk Hc Hf. unfold perf_cstrace. rewrite He. unfold mbind at 1, R_bind at 1. rewrite Hc.
  assert (Hcr : exists type id serial bufs, CreateStreamingTrace type id serial d bufs = Val x /\ p0 = p).
  { unfold create_cstrace in Hc. destruct (parse_transport_cfg_file (te_cfg env)) as [cfg| |]; try done.
    destruct (bool_decide _); [|done]. cbn in Hc.
    destruct (CreateStreamingTrace _ _ _ _ _) as [y|code] eqn:Hcreate; [|done]. injection Hc as -> ->. eauto 6. }
  destruct Hcr as (type & id & serial & bufs & Hcreate & ->).
  assert (Hp := perf_holds env (mkSys x Idle) k type id serial d bufs x Hcreate eq_refl Hk (set_sys (mkSys x Idle) [] p)).
  apply Hp. split; [done|]. split; [done|]. apply hist_start.
Qed.
End capture.

Definition capture_args : list cstr := map bytes_of ["ccu"; "cstrace"; "0"]%string.
Definition capture_start (n : nat) : Proc script_dev := mkProc no_device [] (turns_of n) 0 false 0 0 [].
Definition capture_facts (o : outcome3 (Proc script_dev) unit) : option (list Z * bool * bool) :=
  match o with
  | Running p => Some (outFile p, existsb ends (p_turns p),
                       match m_dataThread (s_trace (p_sys p)) with Some th => is_waiting (th_pc th) | None => false end)
  | _ => None
  end.
Lemma capture_midway : capture_facts (capture_run capture_script (turns_of 7)) = Some ([7; 8], false, true).
Proof. vm_compute. reflexivity. Qed.
Lemma capture_created :
  match create_cstrace clock_env (mkScript 0 [] capture_script) (capture_start 7) with
  | Done (Val _) p0 => Some (p_sched p0)
  | _ => None
  end = Some (turns_of 7).
Proof. vm_compute. reflexivity. Qed.
Lemma capture_param : extract_perf_cstrace_param capture_args ∅ = Some (Val 0, ∅).
Proof. vm_compute. reflexivity. Qed.

Lemma capture_faithful_witness :
  exists x p' g bytes,
    capture_run capture_script (turns_of 7) = Running p' /\ outFile p' = [7; 8] /\
    history (mkSys x Idle) (p_turns p') g bytes (p_sys p') /\
    [7; 8] ++ waiting_data 0 g [] (s_trace (p_sys p')) = bytes.
Proof.
  assert (Hm := capture_midway). assert (Hc := capture_created).
  destruct (create_cstrace clock_env (mkScript 0 [] capture_script) (capture_start 7)) as [[x|c] p0|p0|] eqn:Hcreate;
    [|discriminate Hc..].
  assert (Hf := capture_faithful clock_env (mkScript 0 [] capture_script) capture_args 0 ∅ x (capture_start 7) p0
    capture_param ltac:(by split) Hcreate eq_refl).
  unfold capture_run in *. fold capture_args in *. change (mkProc no_device [] (turns_of 7) 0 false 0 0 []) with (capture_start 7) in *.
  destruct (perf_cstrace clock_env (mkScript 0 [] capture_script) capture_args (capture_start 7)) as [r p'|p'|];
    [discriminate Hm| |discriminate Hm].
  cbn [capture_facts] in Hm. apply (inj Some), pair_eq in Hm as [Hm H3]. apply pair_eq in Hm as [H1 H2].
  destruct Hf as (g & bytes & Hh & _ & He). exists x, p', g, bytes. split; [reflexivity|]. split; [exact H1|].
  split; [exact Hh|]. rewrite <- H1. apply He.
  - intros n l. simpl. lia.
  - unfold in_loop. destruct (m_dataThread (s_trace (p_sys p'))) as [th|]; [|discriminate H3]. by destruct (th_pc th).
  - intros (t & Ht & Hends). assert (Hx : existsb ends (p_turns p') = true).
    { apply existsb_exists. exists t. split; [by apply list_elem_of_In|exact Hends]. }
    rewrite Hx in H2. discriminate H2.
Defined.
