(* ===== verification/CcuAsync.v ===== *)
(** Asynchronous messages of the client utility: what [rd_async_msg] and the
    flush at the end of every command print, from the messages as the target
    sends them to the text that the user sees.

    The transport is any that promises to hand over the messages in the order
    of their arrival ([AsyncSource]); the class [CSWPBase] of [PlatIf.v] over USB
    does ([usb_source]). *)
From S2P Require Import Prelude Wire CswpTypes CswpBuffer Memory ClientCommands ClientState ClientComplete ClientTransact ClientApi ClientBatch ClientReading ClientReceive UsbIf CcuIn PlatIf CcuCswp CcuMem.

(** ** Messages *)

Record async_msg := mkAsync {
  am_event : Z;
  am_device : Z;
  am_level : Z;
  am_text : list Z;
}.

Definition async_bytes (a : async_msg) : list Z :=
  rframe 1 (varint_enc (cmd_id CSWP_ASYNC_MESSAGE) ++ varint_enc (am_event a) ++
    varint_enc (am_device a) ++ varint_enc (am_level a) ++ string_enc (am_text a)).

(** The text is a C string that fits the buffer of the utility. *)
Record async_ok (a : async_msg) : Prop := {
  ao_event : am_event a = ASYNC_RAS_EVENT \/ am_event a = ASYNC_DBG_PUTS;
  ao_device : is_u64 (am_device a);
  ao_level : is_u64 (am_level a);
  ao_text : len (am_text a) < MAX_ASYNC_MSG_LEN;
  ao_nul : Forall (fun x => x <> 0) (am_text a);
}.

(** What is printed. *)
Definition shown (a : async_msg) : output := OutAsync (am_device a) (am_level a) (am_text a).

Lemma async_length a : async_ok a -> len (async_bytes a) <= CSWP_REQ_RSP_BUFFER_SIZE.
Proof.
  intros [_ _ _ Ht _]. change MAX_ASYNC_MSG_LEN with 1024 in Ht.
  change CSWP_REQ_RSP_BUFFER_SIZE with 16384. unfold async_bytes, string_enc.
  rewrite rframe_length, !length_app.
  pose proof (varint_enc_length (cmd_id CSWP_ASYNC_MESSAGE)). pose proof (varint_enc_length 1).
  pose proof (varint_enc_length (am_event a)). pose proof (varint_enc_length (am_device a)).
  pose proof (varint_enc_length (am_level a)). pose proof (varint_enc_length (len (am_text a))). lia.
Qed.

(** The reading thread takes such a message for what it is. *)
Lemma async_recognised a : is_async_msg (async_bytes a) = true.
Proof.
  unfold async_bytes. set (tail := varint_enc (am_event a) ++ _).
  destruct (rframe_head 1 (varint_enc (cmd_id CSWP_ASYNC_MESSAGE) ++ tail) ltac:(lia))
    as (b0 & b1 & b2 & b3 & ->).
  rewrite async_head, type_is_async. by rewrite bool_decide_true.
Qed.

(** The three variables that a message is stored in. *)
Record async_vars (m : mem) (d l t : ptr) : Prop := {
  av_device : valid m d 1;
  av_level : valid m l 1;
  av_text : valid m t MAX_ASYNC_MSG_LEN;
  av_dl : block_of d <> block_of l;
  av_dt : block_of d <> block_of t;
  av_lt : block_of l <> block_of t;
}.

Definition stored (a : async_msg) (d l t : ptr) (m : mem) : mem :=
  put_mem t (am_text a ++ [0]) (put_mem l [am_level a] (put_mem d [am_device a] m)).

Lemma stored_vars a m d l t : async_vars m d l t -> async_vars (stored a d l t m) d l t.
Proof. intros []. constructor; unfold stored; auto 6 with cswp. Qed.

Lemma dreads_store {A} (m : DecM A) q vs bs a x y :
  valid x q (len vs) -> DReads m bs a (put_mem q vs x) y ->
  DReads (on_mem (store q vs);; m) bs a x y.
Proof.
  intros Hv Hm. change bs with ([] ++ bs). eapply dreads_bind; [|exact Hm].
  intros [sz u p bf] rest _ _. unfold set_pos. simpl. rewrite Z.add_0_r.
  by apply on_mem_eq, store_valid.
Qed.

Lemma dreads_async a m d l t :
  async_ok a -> async_vars m d l t ->
  DReads (cswp_decode_async_message_body d l t MAX_ASYNC_MSG_LEN)
    (varint_enc (am_device a) ++ varint_enc (am_level a) ++ string_enc (am_text a)) tt m (stored a d l t m).
Proof.
  intros [_ Hd Hl Ht _] [Vd Vl Vt _ _ _]. unfold cswp_decode_async_message_body.
  eapply dreads_bind; [by apply dreads_buf, reads_get_varint|]. apply dreads_store; [done|].
  eapply dreads_bind; [by apply dreads_buf, reads_get_varint|]. apply dreads_store; [auto with cswp|].
  apply dreads_string; [change MAX_ASYNC_MSG_LEN with 1024 in *; lia|].
  apply put_mem_valid, put_mem_valid. eapply valid_le; [exact Vt|]. lia.
Qed.

(** ** Reading a message *)

Section message.
Context {T : Type} `{Transport T}.
Implicit Types w : world T.

(** A varint of the response. *)
Lemma on_rsp_varint w p bs v rest m :
  is_u64 v -> reading w p (bs ++ varint_enc v ++ rest) ->
  on_rsp cswp_buffer_get_varint (read_to w p bs m) = Some (Val v, read_to w p (bs ++ varint_enc v) m) /\
  reading w p ((bs ++ varint_enc v) ++ rest).
Proof.
  intros Hv Hr. split; [|by rewrite <- app_assoc]. apply (reading_next w p bs _ m) in Hr.
  rewrite (on_rsp_reads _ _ _ _ _ _ (reads_get_varint v Hv) Hr). by rewrite read_to_next.
Qed.

(** A message of a source that promises to deliver it is stored. *)
Lemma async_message_eq w p a t' d l t :
  priv w = Some p -> rsp_ok p -> async_ok a -> async_vars (memory w) d l t ->
  t_receive_async CSWP_REQ_RSP_BUFFER_SIZE (transport w) = (TRet CSWP_ASYNC_MSG_LOG, Some (async_bytes a), t') ->
  cswp_async_message d l t MAX_ASYNC_MSG_LEN w =
    Some (CSWP_ASYNC_MSG_LOG,
      read_to (received w p (async_bytes a) t') (filled p (async_bytes a)) (async_bytes a)
        (stored a d l t (memory w))).
Proof.
  intros Hp Hok Ha Hv Ht. assert (Hl := async_length a Ha).
  destruct (call_receive_eq _ _ _ _ _ _ Hp Hok Hl Ht) as (_ & w' & Hc1 & Hc2).
  unfold cswp_async_message. erewrite M_bind_eq by exact Hc1. rewrite Z.eqb_refl. cbn [negb].
  erewrite M_bind_eq by exact Hc2.
  set (w0 := received w p (async_bytes a) t'). set (p0 := filled p (async_bytes a)).
  set (body := varint_enc (am_device a) ++ varint_enc (am_level a) ++ string_enc (am_text a)).
  set (h := le_bytes 4 (len (async_bytes a))).
  assert (Hr : reading w0 p0 (async_bytes a)) by by apply filled_reading.
  assert (Hbs : async_bytes a =
    h ++ varint_enc 1 ++ varint_enc (cmd_id CSWP_ASYNC_MESSAGE) ++ varint_enc (am_event a) ++ body).
  { unfold h, async_bytes. rewrite rframe_length. unfold rframe, body. rewrite length_app.
    do 2 f_equal. lia. }
  change CSWP_REQ_RSP_BUFFER_SIZE with 16384 in *.
  assert (Hr0 : reading w0 p0 (h ++ varint_enc 1 ++ varint_enc (cmd_id CSWP_ASYNC_MESSAGE) ++
    varint_enc (am_event a) ++ body)) by by rewrite <- Hbs.
  erewrite M_bind_eq by (eapply on_rsp_reads; [|exact Hr0]; apply reads_get_uint32; unfold is_u32; lia).
  erewrite M_bind_eq by reflexivity. cbv beta iota.
  change (used _) with (len (async_bytes a)). rewrite Z.ltb_irrefl.
  destruct (on_rsp_varint w0 p0 h 1 _ (memory w0) ltac:(unfold is_u64; lia) Hr0) as [E1 Hr1].
  erewrite M_bind_eq by exact E1. cbv beta iota. rewrite Z.eqb_refl. cbn [negb].
  destruct (on_rsp_varint w0 p0 _ _ _ (memory w0) (cmd_id_u64 CSWP_ASYNC_MESSAGE) Hr1) as [E2 Hr2].
  erewrite M_bind_eq by exact E2. cbv beta iota. rewrite Z.eqb_refl. cbn [negb].
  assert (Hev : is_u64 (am_event a)) by (destruct Ha as [[-> | ->] _ _ _ _]; by vm_compute).
  destruct (on_rsp_varint w0 p0 _ _ _ (memory w0) Hev Hr2) as [E3 Hr3].
  erewrite M_bind_eq by exact E3. cbv beta iota.
  assert (Hn : negb (am_event a =? ASYNC_RAS_EVENT) && negb (am_event a =? ASYNC_DBG_PUTS) = false).
  { by destruct Ha as [[-> | ->] _ _ _ _]. }
  rewrite Hn. cbv iota. rewrite <- (app_nil_r body) in Hr3.
  pose proof (reading_next _ _ _ _ (memory w0) Hr3) as Hr4.
  erewrite M_bind_eq by (eapply on_rsp_dreads; [exact (dreads_async a (memory w) d l t Ha Hv)|exact Hr4]).
  rewrite read_to_next. cbn [code_of]. rewrite Z.eqb_refl. unfold mret, M_ret.
  do 3 f_equal.
Qed.
End message.

(** ** Showing it *)

Lemma on_memory_points {T A} (m : MemM A) (w : world T) a :
  m (memory w) = Some (Val a, memory w) -> on_memory m w = Some (a, w).
Proof. unfold on_memory. intros ->. by destruct w. Qed.

Lemma load1_points m p v : points m p [v] -> load1 p m = Some (Val v, m).
Proof. intros Hp. unfold load1. by rewrite (E_bind_val _ _ _ _ _ (load_points m p [v] Hp)). Qed.

Definition prints {T} `{CcuEnv T} (o : output) (w : world T) : world T :=
  set_transport (env_print o (transport w)) w.

Lemma show_async_eq {T} `{CcuEnv T} (w : world T) a m d l t :
  async_ok a -> async_vars m d l t -> memory w = stored a d l t m ->
  show_async d l t w = Some (tt, prints (shown a) w).
Proof.
  intros [_ _ _ Ht Hn] [Vd Vl Vt Hdl Hdt Hlt] Hm. unfold stored in Hm. unfold show_async.
  assert (Hx : valid (put_mem l [am_level a] (put_mem d [am_device a] m)) t (len (am_text a ++ [0]))).
  { apply put_mem_valid, put_mem_valid. eapply valid_le; [exact Vt|].
    rewrite length_app. simpl. lia. }
  erewrite M_bind_eq by (apply on_memory_points, load1_points; rewrite Hm; auto 6 with cswp).
  erewrite M_bind_eq by (apply on_memory_points, load1_points; rewrite Hm; auto 6 with cswp).
  erewrite M_bind_eq by (apply on_memory_points, load_cstr_points; [rewrite Hm; auto with cswp|done]).
  done.
Qed.

(** ** Sources of messages *)

(** What the transport promises: messages are handed over in the order of their
    arrival, printing is recorded, and neither disturbs the other nor what
    arrives later: [arriving n t] in the turn [n] from now on. *)
Class AsyncSource (T : Type) `{CcuEnv T} := {
  waiting : T -> list (list Z);
  arriving : nat -> T -> list (list Z);
  printed : T -> list output;
  open : T -> Prop;
  source_some t m q :
    open t -> waiting t = m :: q ->
    exists t', t_receive_async CSWP_REQ_RSP_BUFFER_SIZE t = (TRet CSWP_ASYNC_MSG_LOG, Some m, t') /\
      waiting t' = q /\ printed t' = printed t /\ open t' /\ forall n, arriving n t' = arriving n t;
  source_none t :
    open t -> waiting t = [] ->
    t_receive_async CSWP_REQ_RSP_BUFFER_SIZE t = (TRet CSWP_ASYNC_MSG_END, None, t);
  source_print t o :
    open t -> waiting (env_print o t) = waiting t /\ printed (env_print o t) = printed t ++ [o] /\
      open (env_print o t) /\ forall n, arriving n (env_print o t) = arriving n t;
  source_turn t :
    open t -> waiting (env_turn t) = waiting t ++ arriving 0 t /\ printed (env_turn t) = printed t /\
      open (env_turn t) /\ forall n, arriving n (env_turn t) = arriving (S n) t;
  source_count t : open t -> env_asyncs t = length (waiting t);
}.

(** What arrives in the next [n] turns. *)
Definition arrived {T} `{AsyncSource T} (n : nat) (t : T) : list (list Z) :=
  concat (map (fun i => arriving i t) (seq 0 n)).

Lemma arrived_ext {T} `{AsyncSource T} n (t t' : T) :
  (forall i, arriving i t' = arriving i t) -> arrived n t' = arrived n t.
Proof. intros E. unfold arrived. f_equal. by apply map_ext. Qed.

Lemma arrived_turn {T} `{AsyncSource T} n (t : T) :
  open t -> arrived (S n) t = arriving 0 t ++ arrived n (env_turn t).
Proof.
  intros Ho. unfold arrived. cbn [seq map concat]. f_equal. rewrite <- seq_shift, map_map. f_equal.
  apply map_ext. intros i. symmetry. by apply source_turn.
Qed.

Section source.
Context {T : Type} `{AsyncSource T}.
Implicit Types w : world T.

(** A client that can read messages into its variables. *)
Record can_read (d l t : ptr) w : Prop := {
  cr_open : open (transport w);
  cr_priv : exists p, priv w = Some p /\ rsp_ok p;
  cr_vars : async_vars (memory w) d l t;
}.

Definition queue w : list (list Z) := waiting (transport w).
Definition screen w : list output := printed (transport w).

(** [w'] is [w] after the messages [l] were shown. *)
Definition showed (l : list async_msg) w w' : Prop := screen w' = screen w ++ map shown l.
Definition same_future w w' : Prop := forall n, arriving n (transport w') = arriving n (transport w).

Lemma showed_refl w : showed [] w w.
Proof. unfold showed. by rewrite app_nil_r. Qed.
Lemma showed_trans l1 l2 w1 w2 w3 : showed l1 w1 w2 -> showed l2 w2 w3 -> showed (l1 ++ l2) w1 w3.
Proof. unfold showed. intros E1 E2. by rewrite E2, E1, map_app, app_assoc. Qed.

Lemma filled_rsp_ok p bs n :
  rsp_ok p -> len bs <= CSWP_REQ_RSP_BUFFER_SIZE -> rsp_ok (adv (filled p bs) n).
Proof.
  intros [Hs Hb] Hl. split; [done|]. simpl.
  change CSWP_REQ_RSP_BUFFER_SIZE with 16384 in *. rewrite length_splice by lia. done.
Qed.

(** Reading and showing the message that waits for longest. *)
Lemma read_and_show d l t w a q :
  can_read d l t w -> queue w = async_bytes a :: q -> async_ok a ->
  exists w1 w2, cswp_async_message d l t MAX_ASYNC_MSG_LEN w = Some (CSWP_ASYNC_MSG_LOG, w1) /\
    show_async d l t w1 = Some (tt, w2) /\ can_read d l t w2 /\ queue w2 = q /\ showed [a] w w2 /\
    same_future w w2.
Proof.
  intros [Ho (p & Hp & Hok) Hv] Hq Ha.
  destruct (source_some _ _ _ Ho Hq) as (t' & Ht & Hq' & Hs' & Ho' & Hf').
  do 2 eexists. split; [by eapply async_message_eq|]. split; [by eapply show_async_eq|].
  destruct (source_print t' (shown a) Ho') as (Hq2 & Hs2 & Ho2 & Hf2). split.
  - constructor; [exact Ho2| |by apply stored_vars].
    eexists. split; [reflexivity|]. apply filled_rsp_ok; [done|by apply async_length].
  - split; [exact (eq_trans Hq2 Hq')|]. split; [unfold showed, screen; simpl; by rewrite <- Hs'|].
    intros n. exact (eq_trans (Hf2 n) (Hf' n)).
Qed.

Lemma read_nothing d l t w :
  can_read d l t w -> queue w = [] ->
  exists w', cswp_async_message d l t MAX_ASYNC_MSG_LEN w = Some (CSWP_ASYNC_MSG_END, w') /\
    can_read d l t w' /\ queue w' = [] /\ showed [] w w' /\ same_future w w'.
Proof.
  intros Hc Hq. exists w. split; [|split; [done|split; [done|split; [apply showed_refl|done]]]].
  destruct Hc as [Ho (p & Hp & Hok) Hv].
  assert (Hr := source_none _ Ho Hq).
  unfold cswp_async_message, call_receive. erewrite M_bind_eq; [|].
  2: { erewrite M_bind_eq by reflexivity. erewrite M_bind_eq by (by apply get_priv_eq).
       destruct Hok as [-> _]. rewrite Hr. erewrite M_bind_eq by reflexivity.
       erewrite M_bind_eq by reflexivity. reflexivity. }
  by destruct w.
Qed.

Lemma flush_loop_all n d l t w ms :
  can_read d l t w -> queue w = map async_bytes ms -> Forall async_ok ms -> (length ms < n)%nat ->
  exists w', flush_loop n d l t w = Some (0, w') /\ can_read d l t w' /\ queue w' = [] /\ showed ms w w'.
Proof.
  revert w ms. induction n as [|n IH]; intros w ms Hc Hq Hok Hn; [lia|].
  destruct ms as [|a ms]; cbn [flush_loop].
  - destruct (read_nothing d l t w Hc Hq) as (w' & E & Hc' & Hq' & Hs & _). exists w'. split; [|done].
    by rewrite (M_bind_eq _ _ _ _ _ E).
  - apply list.Forall_cons in Hok as [Ha Hok].
    destruct (read_and_show d l t w a _ Hc Hq Ha) as (w1 & w2 & E1 & E2 & Hc2 & Hq2 & Hs2 & _).
    destruct (IH w2 ms Hc2 Hq2 Hok) as (w3 & E3 & Hc3 & Hq3 & Hs3); [simpl in Hn; lia|].
    exists w3. rewrite (M_bind_eq _ _ _ _ _ E1). rewrite Z.eqb_refl.
    rewrite (M_bind_eq _ _ _ _ _ E2). split; [exact E3|]. split; [done|]. split; [done|].
    by apply (showed_trans [a] ms w w2 w3).
Qed.

(** The variables of a function. *)
Lemma local_array_eq w n :
  local_array n w = Some (Val (Some (new_loc (memory w), 0)),
    set_memory (<[new_loc (memory w) := Ints (replicate (Z.to_nat n) env_junk)]> (memory w)) w).
Proof. done. Qed.

Lemma fresh_valid m n x : 0 <= n -> valid (<[new_loc m := Ints (replicate (Z.to_nat n) x)]> m) (Some (new_loc m, 0)) n.
Proof. intros. eexists. split; [apply lookup_insert_eq|]. rewrite length_replicate. lia. Qed.

Lemma valid_insert m b v q n : m !! b = None -> valid m q n -> valid (<[b := v]> m) q n.
Proof.
  destruct q as [[c o]|]; [|done]. intros Hb (l & Hl & Hx). exists l. split; [|done].
  rewrite lookup_insert_ne; [done|]. congruence.
Qed.

Lemma new_loc_ne m v : new_loc (<[new_loc m := v]> m) <> new_loc m.
Proof. intros E. pose proof (new_loc_above (<[new_loc m := v]> m) (new_loc m) v (lookup_insert_eq _ _ _)). lia. Qed.

Lemma locals_eq {A} (k : ptr -> ptr -> ptr -> E (world T) A) w :
  exists d l t w', (d ← local_array 1; l ← local_array 1; t ← local_array MAX_ASYNC_MSG_LEN; k d l t) w =
      k d l t w' /\ async_vars (memory w') d l t /\ transport w' = transport w /\ priv w' = priv w.
Proof.
  set (m1 := <[new_loc (memory w) := Ints (replicate (Z.to_nat 1) env_junk)]> (memory w)).
  set (m2 := <[new_loc m1 := Ints (replicate (Z.to_nat 1) env_junk)]> m1).
  set (m3 := <[new_loc m2 := Ints (replicate (Z.to_nat MAX_ASYNC_MSG_LEN) env_junk)]> m2).
  exists (Some (new_loc (memory w), 0)), (Some (new_loc m1, 0)), (Some (new_loc m2, 0)), (set_memory m3 w).
  split; [done|]. split; [|done]. cbn [memory set_memory].
  assert (H21 : new_loc m2 <> new_loc m1) by apply new_loc_ne.
  assert (H1 : new_loc m1 <> new_loc (memory w)) by apply new_loc_ne.
  assert (H2 : (new_loc (memory w) < new_loc m2)%nat).
  { eapply (new_loc_above m2). unfold m2. rewrite lookup_insert_ne by done. apply lookup_insert_eq. }
  assert (V1 : valid m2 (Some (new_loc (memory w), 0)) 1).
  { apply valid_insert; [apply new_loc_fresh|]. by apply fresh_valid. }
  constructor; try (intros [=]; done || lia).
  - apply valid_insert; [apply new_loc_fresh|exact V1].
  - apply valid_insert; [apply new_loc_fresh|]. by apply fresh_valid.
  - by apply fresh_valid.
Qed.

Lemma can_read_at d l t w : open (transport w) -> (exists p, priv w = Some p /\ rsp_ok p) ->
  async_vars (memory w) d l t -> can_read d l t w.
Proof. by constructor. Qed.

(** The flush at the end of a command. *)
Lemma flush_shows w ms :
  open (transport w) -> (exists p, priv w = Some p /\ rsp_ok p) ->
  queue w = map async_bytes ms -> Forall async_ok ms ->
  exists w', flush_async_data_queue w = Some (0, w') /\ queue w' = [] /\ showed ms w w' /\
    open (transport w').
Proof.
  intros Ho Hp Hq Hok. unfold flush_async_data_queue. erewrite M_bind_eq by reflexivity.
  destruct (locals_eq (fun d l t => lift (flush_loop (S (env_asyncs (transport w))) d l t)) w)
    as (d & l & t & w1 & E & Hv & Ht & Hp1).
  assert (Hc : can_read d l t w1) by (apply can_read_at; [by rewrite Ht|by rewrite Hp1|done]).
  assert (Hn : env_asyncs (transport w) = length ms).
  { rewrite source_count by done. change (length (queue w) = length ms). rewrite Hq. apply length_map. }
  destruct (flush_loop_all (S (env_asyncs (transport w))) d l t w1 ms) as (w2 & E2 & [Ho2 _ _] & Hq2 & Hs); try done.
  { unfold queue. by rewrite Ht. } { lia. }
  exists w2. erewrite M_bind_eq by (rewrite E; by apply lift_eq). split; [done|]. split; [done|].
  split; [|done]. unfold showed, screen in *. by rewrite <- Ht.
Qed.

(** ** The loop of [rd_async_msg] *)

Definition after_turn w : world T := set_transport (env_turn (transport w)) w.

(** A turn shows the first message, if there is one. *)
Lemma poll_shows d l t w ms :
  can_read d l t w -> queue w = map async_bytes ms -> Forall async_ok ms ->
  exists w', poll_async d l t w = Some (Val tt, w') /\ can_read d l t w' /\
    queue w' = map async_bytes (tail ms) /\ showed (take 1 ms) w w' /\ same_future w w'.
Proof.
  intros Hc Hq Hok. unfold poll_async. destruct ms as [|a ms].
  - destruct (read_nothing d l t w Hc Hq) as (w' & E & Hw'). exists w'. split; [|exact Hw'].
    by rewrite (E_bind_val _ _ _ _ _ (lift_eq _ _ _ _ E)).
  - apply list.Forall_cons in Hok as [Ha Hok].
    destruct (read_and_show d l t w a _ Hc Hq Ha) as (w1 & w2 & E1 & E2 & Hw2).
    exists w2. split; [|exact Hw2].
    rewrite (E_bind_val _ _ _ _ _ (lift_eq _ _ _ _ E1)), Z.eqb_refl. by apply lift_eq.
Qed.

Lemma after_turn_spec d l t w :
  can_read d l t w ->
  can_read d l t (after_turn w) /\ queue (after_turn w) = queue w ++ arriving 0 (transport w) /\
  showed [] w (after_turn w) /\ forall n, arriving n (transport (after_turn w)) = arriving (S n) (transport w).
Proof.
  intros [Ho Hp Hv]. destruct (source_turn _ Ho) as (Hq & Hs & Ho' & Hf). split; [by constructor|].
  split; [done|]. split; [|done]. unfold showed, screen. simpl. by rewrite Hs, app_nil_r.
Qed.

Lemma async_loop_shows n d l t w ms :
  can_read d l t w -> queue w ++ arrived n (transport w) = map async_bytes ms -> Forall async_ok ms ->
  exists ms1 ms2 w', async_loop n d l t w = Some (Val tt, w') /\ ms = ms1 ++ ms2 /\
    queue w' = map async_bytes ms2 /\ showed ms1 w w' /\ can_read d l t w' /\
    forall i, (i <= n)%nat -> ((n - i) `min` length (queue w ++ arrived i (transport w)) <= length ms1)%nat.
Proof.
  revert w ms. induction n as [|n IH]; intros w ms Hc Hq Hok.
  - exists [], ms, w. cbn in Hq. rewrite app_nil_r in Hq. split_and!; try done. apply showed_refl.
  - assert (Ho : open (transport w)) by apply Hc. rewrite arrived_turn in Hq by done.
    cbn [async_loop].
    assert (Hms := Hq). symmetry in Hms. apply map_eq_app in Hms as (m0 & m1 & -> & Hm0 & Hm1).
    apply Forall_app in Hok as [Hok0 Hok1].
    destruct (poll_shows d l t w m0 Hc (eq_sym Hm0) Hok0) as (w1 & E1 & Hc1 & Hq1 & Hs1 & Hf1).
    destruct (after_turn_spec d l t w1 Hc1) as (Hc2 & Hq2 & Hs2 & Hf2).
    assert (Hf : forall j, arrived j (transport (after_turn w1)) = arrived j (env_turn (transport w))).
    { intros j. apply arrived_ext. intros i. rewrite Hf2, Hf1. symmetry. by apply source_turn. }
    destruct (IH (after_turn w1) (tail m0 ++ m1)) as (ms1 & ms2 & w3 & E3 & Hsplit & Hq3 & Hs3 & Hc3 & Hn).
    { done. } { by rewrite Hq2, Hq1, <- app_assoc, Hf, Hf1, map_app, Hm1. }
    { apply Forall_app. split; [by destruct Hok0|done]. }
    exists (take 1 m0 ++ ms1), ms2, w3. split.
    { rewrite (E_bind_val _ _ _ _ _ E1). erewrite E_bind_val by (by apply lift_eq). exact E3. }
    split; [destruct m0; simpl in *; by rewrite Hsplit|]. split; [done|]. split.
    { eapply showed_trans; [exact Hs1|]. apply (showed_trans [] ms1 w1 (after_turn w1) w3 Hs2 Hs3). }
    split; [done|]. intros i Hi.
    assert (Hl : length (queue w) = length m0) by (rewrite <- Hm0; apply length_map).
    destruct i as [|i]; [specialize (Hn 0%nat ltac:(lia))|specialize (Hn i ltac:(lia)); rewrite arrived_turn by done];
      rewrite ?Hf, Hq2, Hq1, Hf1 in Hn; unfold arrived in Hn |- *; rewrite !length_app, ?length_map in *;
      destruct m0; cbn [tail take length seq map concat] in *; lia.
Qed.
End source.

(** ** The platform transport as a source *)

(** What is printed goes to a log that is none of the USB device's business. *)
Class Console (U : Type) `{PlatIO U} (prt : output -> U -> U) := {
  console : U -> list output;
  console_prt o u : console (prt o u) = console u ++ [o];
  console_reads u : console (usb_reads u).2 = console u;
  reads_prt o u : usb_reads (prt o u) = ((usb_reads u).1, prt o (usb_reads u).2);
}.

(** The asynchronous messages that arrive in the turn [n] from now on. *)
Fixpoint arriving_usb {U} `{PlatIO U} (n : nat) (running : bool) (u : U) : list (list Z) :=
  let (evs, u') := usb_reads u in
  match n with
  | O => asyncs_of (arrivals running evs)
  | S n' => arriving_usb n' (alive running evs) u'
  end.

Lemma arriving_usb_prt {U} `{Console U prt} n running u o :
  arriving_usb n running (prt o u) = arriving_usb n running u.
Proof.
  revert running u. induction n as [|n IH]; intros running u; cbn [arriving_usb];
    rewrite reads_prt; destruct (usb_reads u) as [evs u']; [done|apply IH].
Qed.

Lemma fold_listen {U} (evs : list read_event) (s : CSWPBase U) :
  let s' := fold_left (fun s e => listen e s) evs s in
  asyncQ s' = asyncQ s ++ asyncs_of (arrivals (readThread_running s) evs) /\
  readThread_running s' = alive (readThread_running s) evs /\ io s' = io s /\ is_usb s' = is_usb s.
Proof.
  revert s. induction evs as [|e evs IH]; intros s; simpl; [by rewrite app_nil_r|].
  destruct (IH (listen e s)) as (E1 & E2 & E3 & E4). destruct (listen_queues e s evs) as (_ & Ha & Hr).
  rewrite E1, E2, E3, E4. split; [by rewrite <- Ha|]. split; [by rewrite <- Hr|].
  unfold listen. destruct (readThread_running s); [|done]. destruct e as [[] d|]; try done.
  by destruct (is_async_msg d).
Qed.

Section usb.
Context {U : Type} (prt : output -> U -> U) `{Console U prt}.
Context (cfg : option (list Z)) (file : list Z -> option (list Z)).
Context (malloc : option (list Z) * option (list Z) * option (list Z)).
Context (sdf wrksp : option (list Z)) (fopen : list Z -> option sdf_file) (junk : Z).
Context (sig sig_dfl : bool) (rounds : nat).
#[local] Instance env : CcuEnv (CSWPBase U) :=
  plat_env cfg file malloc sdf wrksp fopen junk prt sig sig_dfl rounds.

#[export] Instance usb_source : AsyncSource (CSWPBase U).
Proof.
  refine {|
    waiting := asyncQ;
    arriving n s := arriving_usb n (readThread_running s) (io s);
    printed s := console (io s);
    open s := is_usb s = true;
  |}.
  - intros s m q Hu Hq. exists (set_asyncQ q s).
    cbn -[CSWP_REQ_RSP_BUFFER_SIZE]. unfold cswp_transport_receive_async. cbn.
    unfold receive_async. by rewrite Hu, Hq.
  - intros s Hu Hq. cbn -[CSWP_REQ_RSP_BUFFER_SIZE]. unfold cswp_transport_receive_async. cbn.
    unfold receive_async. by rewrite Hu, Hq.
  - intros s o Hu. cbn. split; [done|]. split; [apply console_prt|]. split; [done|].
    intros n. apply arriving_usb_prt.
  - intros s Hu. cbn. pose proof (console_reads (io s)) as Hc.
    destruct (usb_reads (io s)) as [evs u] eqn:Hr.
    destruct (fold_listen evs (set_io u s)) as (E1 & E2 & E3 & E4).
    rewrite E1, E2, E3, E4. split; [done|]. split; [done|]. split; [done|]. done.
  - done.
Defined.
End usb.

(** ** The command *)

Section command.
Context {T : Type} `{AsyncSource T}.
Implicit Types w : world T.

(** C35: [rd_async_msg] prints the asynchronous messages of the target, those
    that wait when it has connected and those that arrive while it runs, each
    once, with its device, level and text, in the order of their arrival.  At
    the interrupt it has printed all of them but those that still wait, which
    are none if there was a turn of the loop left for every one.  Then it
    disconnects. *)
Theorem rd_async_shows_arrivals argv w w1 ms :
  length argv = 2%nat -> setup_cdebug true w = Some (Val 0, w1) -> open (transport w1) ->
  (exists p, priv w1 = Some p /\ rsp_ok p) -> env_signal = true -> env_signal_dfl = true ->
  queue w1 ++ arrived env_rounds (transport w1) = map async_bytes ms -> Forall async_ok ms ->
  exists ms1 ms2 w2, rd_async_msg argv w = lift cleanup_cdebug_wo_async_flush w2 /\
    ms = ms1 ++ ms2 /\ queue w2 = map async_bytes ms2 /\ screen w2 = screen w1 ++ map shown ms1 /\
    forall i, (i <= env_rounds)%nat ->
      ((env_rounds - i) `min` length (queue w1 ++ arrived i (transport w1)) <= length ms1)%nat.
Proof.
  intros Harg Hset Ho Hp Hsig Hdfl Hq Hok. unfold rd_async_msg.
  erewrite E_bind_val by (unfold check_args; rewrite Harg; reflexivity).
  rewrite (E_bind_val _ _ _ _ _ Hset). erewrite E_bind_val by reflexivity.
  edestruct (locals_eq (fun d l t => term_wo_flush (negb setup_user_sigint_handler) CCU_SIG_HANDLE_ERR;;
      async_loop env_rounds d l t;; term_wo_flush (negb restore_sigint_handler) CCU_SIG_HANDLE_ERR;;
      lift cleanup_cdebug_wo_async_flush) w1) as (d & l & t & w2 & E & Hv & Ht & Hp2).
  rewrite E. unfold setup_user_sigint_handler, restore_sigint_handler. rewrite Hsig, Hdfl.
  erewrite E_bind_val by reflexivity. unfold queue in *. rewrite <- Ht in *.
  destruct (async_loop_shows env_rounds d l t w2 ms) as (ms1 & ms2 & w3 & E3 & -> & Hq3 & Hs & _ & Hn); try done.
  { apply can_read_at; [done|by rewrite Hp2|done]. }
  exists ms1, ms2, w3. rewrite (E_bind_val _ _ _ _ _ E3). erewrite E_bind_val by reflexivity.
  unfold showed, screen in *. by rewrite <- Ht.
Qed.
End command.

(** ** A session over USB *)

Definition con : Type := list output * list (list read_event).
#[export] Instance con_io : PlatIO con := {
  io_getaddrinfo _ _ u := (true, u);
  io_inet_pton _ := true;
  io_socket u := (3, u);
  io_connect _ u := (0, u);
  io_send _ d u := (len d, u);
  io_recv _ _ u := (0, [], u);
  io_close _ u := u;
  usb_open _ u := (Ret [mkEP EP_TYPE_BULK 1; mkEP EP_TYPE_BULK 0x81], u);
  usb_disconnect u := (Ret tt, u);
  usb_write _ d u := (Ret (Transfer_SUCCESS, len d), u);
  usb_cancelTransfers u := ([], u);
  thread_create u := (true, u);
  usb_reads u := let (evs, l) := usb_reads u.2 in (evs, (u.1, l));
}.
Definition con_print (o : output) (u : con) : con := (u.1 ++ [o], u.2).
#[export] Instance con_console : Console con con_print.
Proof.
  refine {| console := fst |}.
  - done.
  - intros [l [|]]; done.
  - intros o [l [|]]; done.
Defined.

Definition usb_cfg_file : list Z := bytes_of "type=usb
vid=955
pid=7045
".
(** Three turns of the loop. *)
#[export] Instance con_env : CcuEnv (CSWPBase con) :=
  env con_print (Some usb_cfg_file) (fun _ => None) (Some (zeroes 15), Some (zeroes 16384), Some (zeroes 16384))
    None None (fun _ => None) 77 true true 3.
#[export] Instance con_source : AsyncSource (CSWPBase con) :=
  usb_source con_print (Some usb_cfg_file) (fun _ => None) (Some (zeroes 15), Some (zeroes 16384), Some (zeroes 16384))
    None None (fun _ => None) 77 true true 3.

Definition ex_boot : async_msg := mkAsync ASYNC_DBG_PUTS 0 2 (bytes_of "boot").
Definition ex_ras : async_msg := mkAsync ASYNC_RAS_EVENT 1 0 (bytes_of "ECC error").
Definition ex_events : list (list read_event) :=
  [[ReadDone Transfer_SUCCESS (async_bytes ex_boot); ReadDone Transfer_NODATA []; ReadDone Transfer_SUCCESS (async_bytes ex_ras)]; []].
Definition con_world : world (CSWPBase con) :=
  mkWorld None 0 None ∅ (mkBase ex_usb (-1) (-1) (-1) false false false [] [] ([], ex_events)).
Definition con_argv : list cstr := map bytes_of ["ccu"; "rd_async_msg"]%string.
Definition con_ready : world (CSWPBase con) :=
  match setup_cdebug true con_world with Some (_, w) => w | None => con_world end.

Lemma rd_async_shows_arrivals_witness :
  exists w2, rd_async_msg con_argv con_world = lift cleanup_cdebug_wo_async_flush w2 /\
    screen w2 = [OutAsync 0 2 (bytes_of "boot"); OutAsync 1 0 (bytes_of "ECC error")].
Proof.
  destruct (rd_async_shows_arrivals con_argv con_world con_ready [ex_boot; ex_ras])
    as (ms1 & ms2 & w2 & E & Hms & Hq & Hs & Hn).
  - reflexivity.
  - vm_compute. reflexivity.
  - vm_compute. reflexivity.
  - eexists. split; [vm_compute; reflexivity|]. split; vm_compute; reflexivity.
  - reflexivity.
  - reflexivity.
  - vm_compute. reflexivity.
  - constructor; [|constructor; [|constructor]]; constructor; try (vm_compute; intuition congruence);
      repeat constructor; done.
  - exists w2. split; [exact E|].
    assert (Hl : (2 <= length ms1)%nat) by (specialize (Hn 1%nat ltac:(vm_compute; lia)); exact Hn).
    assert (ms1 = [ex_boot; ex_ras]) as ->.
    { destruct ms1 as [|? [|? [|]]]; cbn in Hl; try lia; by injection Hms as <- <-. }
    rewrite Hs. vm_compute. reflexivity.
Defined.
