(* ===== verification/CcuOut.v ===== *)
(** What the client utility prints ([client_utility/ccu_out.cpp], and [errMap],
    [print_err] and [print_help] of [client_utility/main.cpp]), as text: each
    function is a [Definition] that inserts into a model of [std::ostream] with
    the manipulators that the code uses.  [render] takes the outputs of the
    commands of [CcuCswp.v] to these functions. *)
From S2P Require Import Prelude Wire CswpTypes ClientState Trace CcuIn PlatIf CcuCswp.

(** ** Streams *)

(** The text inserted so far, the base of integers, and what the manipulators
    [showbase], [setw] and [setfill] have set. *)
Record ostream := mkOs {
  os_text : list Z;
  os_hex : bool;
  os_showbase : bool;
  os_width : Z;
  os_fill : Z;
}.

Definition new_stream : ostream := mkOs [] false false 0 32.

Inductive item :=
  | Str (s : list Z)
  | Num (v : Z)
  | Int (v : Z)
  | Hex | Dec | Showbase | Noshowbase
  | Setw (n : Z)
  | Setfill (c : Z).

(** The digits of a number, most significant first. *)
Fixpoint digit_list (base : Z) (fuel : nat) (v : Z) (acc : list Z) : list Z :=
  match fuel with
  | O => acc
  | S f => if v <? base then v :: acc else digit_list base f (v / base) (v mod base :: acc)
  end.
Definition lower (d : Z) : Z := if d <? 10 then 48 + d else 87 + d.
Definition number (base v : Z) : list Z := map lower (digit_list base 20 v []).

(** Inserting characters: they are padded on the left to the width, which is
    then reset. *)
Definition insert_chars (s : list Z) (st : ostream) : ostream :=
  mkOs (os_text st ++ replicate (Z.to_nat (os_width st - len s)) (os_fill st) ++ s)
    (os_hex st) (os_showbase st) 0 (os_fill st).

Definition num_text (v : Z) (st : ostream) : list Z :=
  if os_hex st then (if os_showbase st && negb (v =? 0) then bytes_of "0x" else []) ++ number 16 v
  else number 10 v.

(** An [int] is printed in hexadecimal as if it were unsigned. *)
Definition int_text (v : Z) (st : ostream) : list Z :=
  if os_hex st then num_text (u32 v) st
  else if v <? 0 then 45 :: number 10 (- v) else number 10 v.

Definition put1 (st : ostream) (i : item) : ostream :=
  match i with
  | Str s => insert_chars s st
  | Num v => insert_chars (num_text v st) st
  | Int v => insert_chars (int_text v st) st
  | Hex => mkOs (os_text st) true (os_showbase st) (os_width st) (os_fill st)
  | Dec => mkOs (os_text st) false (os_showbase st) (os_width st) (os_fill st)
  | Showbase => mkOs (os_text st) (os_hex st) true (os_width st) (os_fill st)
  | Noshowbase => mkOs (os_text st) (os_hex st) false (os_width st) (os_fill st)
  | Setw n => mkOs (os_text st) (os_hex st) (os_showbase st) n (os_fill st)
  | Setfill c => mkOs (os_text st) (os_hex st) (os_showbase st) (os_width st) c
  end.
Definition put (l : list item) (st : ostream) : ostream := fold_left put1 l st.

Definition lit (s : string) : item := Str (bytes_of s).
Definition endl : item := Str [10].

(** The process's view of the outside: both streams and the files written.
    A file may not open, and a write may fail, of which the stream knows or not
    when it is asked. *)
Record Console := mkConsole {
  cout : ostream;
  cerr : ostream;
  files : gmap (list Z) (list Z);
}.
Record FileSys := mkFs {
  fs_open : list Z -> bool;
  fs_write : list Z -> list Z -> list Z * bool;
}.

Definition out (l : list item) (c : Console) : Console := mkConsole (put l (cout c)) (cerr c) (files c).
Definition err (l : list item) (c : Console) : Console := mkConsole (cout c) (put l (cerr c)) (files c).
Definition set_file name data (c : Console) : Console := mkConsole (cout c) (cerr c) (<[name := data]> (files c)).

(** ** [ccu_out.cpp] *)

Definition process_init_cswp_out (serverProtoV : Z) (serverID : list Z) (serverV : Z) : Console -> Console :=
  out [lit "[ccu_out] CSWP server has started. Server Protocol Version is "; Hex; Showbase; Num serverProtoV;
       lit ", Server ID is "; Str serverID; lit ", Server Version is "; Num serverV; lit "."; endl].

Definition process_term_cswp_out : Console -> Console := out [lit "[ccu_out] CSWP server has stopped."; endl].

Definition process_dev_open_out (deviceInfoList : list (list Z)) : Console -> Console :=
  out (concat (imap (fun i s =>
    [lit "[ccu_out] Device "; Dec; Noshowbase; Num (Z.of_nat i); lit ": "; Str s; lit " (Status: OPEN)"; endl])
    deviceInfoList)).

Definition process_dev_close_out : Console -> Console := out [lit "[ccu_out] All devices are closed."; endl].

(** Each entry: the type and the name of a device. *)
Definition process_get_dev_info_out (l : list (list Z * list Z)) : Console -> Console :=
  out (concat (imap (fun i '(type, name) =>
    [lit "[ccu_out] Device:"; Num (Z.of_nat i); lit ", Type:"; Str type; lit ", "; lit "Name:"; Str name; endl]) l)).

(** [ofstream file(name)], [write], the message that it is ready, and the one
    that it failed. *)
Definition write_out (fs : FileSys) (name data : list Z) (ready failed : list item) (c : Console) : Console :=
  let (written, fail) := fs_write fs name data in
  let c := out ready (set_file name written c) in
  if fail : bool then err failed c else c.

Definition process_get_sys_info_out (fs : FileSys) (format : Z) (data : list Z) (c : Console) : Console :=
  if len data =? 0 then
    err [lit "[ccu_out] Received empty description. Please check if the server implements the CSWP_GET_SYSTEM_DESCRIPTION command or"; endl;
         lit "[ccu_out] that the file vera_sil.sdf exists for client to read."; endl] c
  else
    let c := out [lit "[ccu_out] Description Size: "; Num (len data); endl] c in
    let '(filename, c) :=
      if format =? 0 then (bytes_of "system_description.sdf", out [lit "[ccu_out] Description Format: SDF"; endl] c)
      else if format =? 1 then
        (bytes_of "system_description.sdf.gz", out [lit "[ccu_out] Description Format: SDF gzipped"; endl] c)
      else ([], err [lit "[ccu_out] Description Format: UNKNOWN"; endl] c) in
    let c := out [lit "[ccu_out] Dumping data to "; Str filename; lit "..."; endl] c in
    if negb (fs_open fs filename) then err [lit "[ccu_out] Could not open "; Str filename; lit "."; endl] c
    else write_out fs filename data [lit "[ccu_out] "; Str filename; lit " is ready."; endl]
           [lit "[ccu_out] Failed to write to"; Str filename; lit "."; endl] c.

Definition has_cap (capabilities cap : Z) : bool := Z.land capabilities cap =? cap.
Definition process_get_dev_cap_out (capabilities capabilityData : Z) : Console -> Console :=
  out ((if has_cap capabilities CSWP_CAP_REG
        then [lit "[ccu_out] CSWP_CAP_REG (MaxNumRegs:"; Num capabilityData; lit ")"; endl] else []) ++
       (if has_cap capabilities CSWP_CAP_MEM then [lit "[ccu_out] CSWP_CAP_MEM"; endl] else []) ++
       (if has_cap capabilities CSWP_CAP_MEM_POLL then [lit "[ccu_out] CSWP_CAP_MEM_POLL"; endl] else [])).

Definition process_get_reg_list_out (l : list (list Z * Z * Z * list Z * list Z)) : Console -> Console :=
  out ([lit "[ccu_out] Name : Id : Size encoding : Display name : Description"; endl] ++
    concat (map (fun '(name, id, size, display, description) =>
      [lit "[ccu_out] "; Str name; lit " : "; Showbase; Hex; Num id; lit " : "; Num size; lit " : ";
       Str display; lit " : "; Str description; endl]) l)).

Definition process_get_dev_reg_out (values : list Z) : Console -> Console :=
  match values with
  | [v] => out [lit "[ccu_out] 0x"; Hex; Setfill 48; Setw 8; Num v; endl]
  | [v; wide_val] => out [lit "[ccu_out] 0x"; Hex; Setfill 48; Setw 16; Num (Z.lor v (Z.shiftl wide_val 32)); endl]
  | _ => out [lit "[ccu_out] RegisterValue Size is not as expected. Allowed size are 32b or 64b."; endl]
  end.

Definition write_sent : list item :=
  [lit "[ccu_out] Write has been sent but it can be ignored if it is not valid."; endl;
   lit "          Please read-read to verify."; endl].
Definition process_set_dev_reg_out : Console -> Console := out write_sent.
Definition process_set_dev_mem_out : Console -> Console := out write_sent.

(** The loop over the bytes from [i] on. *)
Fixpoint mem_out_loop (address bytesRead : Z) (l : list Z) (i val_64 byte_pos num_64b : Z) (c : Console) : Console :=
  match l with
  | [] => c
  | b :: l' =>
      let val_64 := Z.lor val_64 (u64 (Z.shiftl b (byte_pos * 8))) in
      let c := if i mod 8 =? 0 then
          out [endl; lit "[ccu_out] 0x"; Hex; Setfill 48; Setw 16; Num (u64 (address + u64 (num_64b * 8))); lit ": 0x"] c
        else c in
      let num_64b := if i mod 8 =? 0 then num_64b + 1 else num_64b in
      if byte_pos =? 7 then
        mem_out_loop address bytesRead l' (u32 (i + 1)) 0 0 num_64b (out [Hex; Setfill 48; Setw 16; Num val_64] c)
      else if u32 (i + 1) =? bytesRead then
        mem_out_loop address bytesRead l' (u32 (i + 1)) val_64 byte_pos num_64b
          (out [Hex; Setfill 48; Setw ((byte_pos + 1) * 2); Num val_64] c)
      else mem_out_loop address bytesRead l' (u32 (i + 1)) val_64 (byte_pos + 1) num_64b c
  end.
Definition process_get_dev_mem_out (address : Z) (buf : list Z) (c : Console) : Console :=
  out [endl] (mem_out_loop address (len buf) buf 0 0 0 0 c).

Definition process_dump_dev_mem_out (fs : FileSys) (buf : list Z) (c : Console) : Console :=
  let name := bytes_of "mem_dump.bin" in
  if negb (fs_open fs name) then err [lit "[ccu_out] Could not open mem_dump.bin to dump read data."; endl] c
  else write_out fs name buf [lit "[ccu_out] mem_dump.bin is ready."; endl] [lit "[ccu_out] Failed to write to mem_dump.bin"; endl]
         (out [lit "[ccu_out] Dumping data to mem_dump.bin..."; endl] c).

Definition level_name (msg_level : Z) : string :=
  if msg_level =? 0 then "error"
  else if msg_level =? 1 then "warning"
  else if msg_level =? 2 then "info"
  else if msg_level =? 3 then "debug"
  else "UNKNOWN MSG LEVEL".
Definition process_async_message_out (deviceNo msg_level : Z) (msg : list Z) : Console -> Console :=
  out [lit "[ccu_out] Received "; lit (level_name msg_level); lit " async msg from device "; Num deviceNo; lit " -"; endl;
       lit "*********"; endl; Str msg; endl; lit "*********"; endl].

(** ** [main.cpp] *)

Definition CDEBUG_INVALID_TARGET : Z := 0x0711.
Definition CDEBUG_INVALID_CONFIG : Z := 0x0712.
Definition CSTRACE_NO_EVENT : Z := 0x0202.
Definition CSTRACE_NO_DEVICE : Z := 0x0205.
Definition CSTRACE_CONNECT_FAILED : Z := 0x0209.
Definition CSTRACE_SINK_START_FAILED : Z := 0x020A.
Definition CSTRACE_SINK_STOP_FAILED : Z := 0x020B.
Definition CSTRACE_DATA_OVERFLOW : Z := 0x020C.
Definition CSTRACE_DATA_INTEGRITY : Z := 0x020D.
Definition CSTRACE_AUX_PROBE_PROG : Z := 0x020E.
Definition CSTRACE_SET_MODE_FAILED : Z := 0x020F.
Definition CSTRACE_INVALID_CONFIG : Z := 0x0212.

(** The initialiser of [errMap]; of several entries with the same key the map
    keeps the first. *)
Definition errMap : list (Z * string) := [
  (CSWP_SUCCESS, "cswp_error:CSWP_SUCCESS");
  (CSWP_FAILED, "cswp_error:CSWP_FAILED");
  (CSWP_CANCELLED, "cswp_error:CSWP_CANCELLED");
  (CSWP_NOT_INITIALIZED, "cswp_error:CSWP_NOT_INITIALIZED");
  (CSWP_ASYNC_MSG_LOG, "cswp_async:CSWP_ASYNC_MSG_LOG");
  (CSWP_ASYNC_MSG_END, "cswp_async:CSWP_ASYNC_MSG_END");
  (CSWP_NVSEC_TOKEN_REQ_ERR, "cswp_error:CSWP_NVSEC_TOKEN_REQ_ERR");
  (CSWP_NVSEC_SIGNED_TOKEN_ERR, "cswp_error:CSWP_NVSEC_SIGNED_TOKEN_ERR");
  (CSWP_NVSEC_SIGNATURE_ERR, "cswp_error:CSWP_NVSEC_SIGNATURE_ERR");
  (CSWP_NVSEC_PUBLIC_KEY_ERR, "cswp_error:CSWP_NVSEC_PUBLIC_KEY_ERR");
  (CSWP_BUFFER_FULL, "cswp_error:CSWP_BUFFER_FULL");
  (CSWP_BUFFER_EMPTY, "cswp_error:CSWP_BUFFER_EMPTY");
  (CSWP_OUTPUT_BUFFER_OVERFLOW, "cswp_error:CSWP_OUTPUT_BUFFER_OVERFLOW");
  (CSWP_UNEXPECTED_RESPONSE, "cswp_error:CSWP_UNEXPECTED_RESPONSE");
  (CSWP_RESPONSE_SIZE_ERR, "cswp_error:CSWP_RESPONSE_SIZE_ERR");
  (CSWP_COMMS, "cswp_error:CSWP_COMMS");
  (CSWP_INCOMPATIBLE, "cswp_error:CSWP_INCOMPATIBLE");
  (CSWP_TIMEOUT, "cswp_error:CSWP_TIMEOUT");
  (CSWP_UNSUPPORTED, "cswp_error:CSWP_UNSUPPORTED");
  (CSWP_DEVICE_UNSUPPORTED, "cswp_error:CSWP_DEVICE_UNSUPPORTED");
  (CSWP_INVALID_DEVICE, "cswp_error:CSWP_INVALID_DEVICE");
  (CSWP_BAD_ARGS, "cswp_error:CSWP_BAD_ARGS");
  (CSWP_NOT_PERMITTED, "cswp_error:CSWP_NOT_PERMITTED");
  (CSWP_REG_FAILED, "cswp_error:CSWP_REG_FAILED");
  (CSWP_REG_PARTIAL, "cswp_error:CSWP_REG_PARTIAL");
  (CSWP_MEM_FAILED, "cswp_error:CSWP_MEM_FAILED");
  (CSWP_MEM_INVALID_ADDRESS, "cswp_error:CSWP_MEM_INVALID_ADDRESS");
  (CSWP_MEM_BAD_ACCESS_SIZE, "cswp_error:CSWP_MEM_BAD_ACCESS_SIZE");
  (CSWP_MEM_POLL_NO_MATCH, "cswp_error:CSWP_MEM_POLL_NO_MATCH");
  (CSWP_TXFAILED, "cswp_error:CSWP_TXFAILED");
  (CDEBUG_INVALID_TARGET, "cswp_error:CDEBUG_INVALID_TARGET");
  (CDEBUG_INVALID_CONFIG, "cswp_error:CDEBUG_INVALID_CONFIG");
  (CSTRACE_NO_CONNECTION, "cswp_error:CSTRACE_NO_CONNECTION");
  (CSTRACE_NO_EVENT, "cswp_error:CSTRACE_NO_EVENT");
  (CSTRACE_COMMSERROR, "cswp_error:CSTRACE_COMMSERROR");
  (CSTRACE_TIMEOUT, "cswp_error:CSTRACE_TIMEOUT");
  (CSTRACE_NO_DEVICE, "cswp_error:CSTRACE_NO_DEVICE");
  (CSTRACE_INVALID_SINK, "cswp_error:CSTRACE_INVALID_SINK");
  (CSTRACE_SINK_NOT_ATTACHED, "cswp_error:CSTRACE_SINK_NOT_ATTACHED");
  (CSTRACE_SINK_NOT_STARTED, "cswp_error:CSTRACE_SINK_NOT_STARTED");
  (CSTRACE_CONNECT_FAILED, "cswp_error:CSTRACE_CONNECT_FAILED");
  (CSTRACE_SINK_START_FAILED, "cswp_error:CSTRACE_SINK_START_FAILED");
  (CSTRACE_SINK_STOP_FAILED, "cswp_error:CSTRACE_SINK_STOP_FAILED");
  (CSTRACE_DATA_OVERFLOW, "cswp_error:CSTRACE_DATA_OVERFLOW");
  (CSTRACE_DATA_INTEGRITY, "cswp_error:CSTRACE_DATA_INTEGRITY");
  (CSTRACE_AUX_PROBE_PROG, "cswp_error:CSTRACE_AUX_PROBE_PROG");
  (CSTRACE_SET_MODE_FAILED, "cswp_error:CSTRACE_SET_MODE_FAILED");
  (CSTRACE_INVALID_EVENT_TYPE, "cswp_error:CSTRACE_INVALID_EVENT_TYPE");
  (CSTRACE_INVALID_TARGET, "cswp_error:CSTRACE_INVALID_TARGET");
  (CSTRACE_INVALID_CONFIG, "cswp_error:CSTRACE_INVALID_CONFIG");
  (CCU_CMD_NOT_SUPPORTED, "ccu_error:CCU_CMD_NOT_SUPPORTED");
  (CCU_USB_RUNTIME_EXCEPTION, "ccu_error:CCU_USB_RUNTIME_EXCEPTION");
  (CCU_UNKNOWN_EXCEPTION, "ccu_error:CCU_UNKNOWN_EXCEPTION");
  (CCU_CFG_FILE_ERR, "ccu_error:CCU_CFG_FILE_ERR");
  (CCU_BAD_CMD_ARG, "ccu_error:CCU_BAD_CMD_ARG");
  (CCU_FILEIO_ERR, "ccu_error:CCU_FILEIO_ERR");
  (CCU_MALLOC_ERR, "ccu_error:CCU_MALLOC_ERR");
  (CCU_SIG_HANDLE_ERR, "ccu_error:CCU_SIG_HANDLE_ERR");
  (CCU_TBUF_NOT_FOUND_ERR, "ccu_error:CCU_TBUF_NOT_FOUND_ERR");
  (CCU_BATCH_OPS_ERR, "ccu_error:CCU_BATCH_OPS_ERR");
  (CCU_ETR_END_OF_DATA, "ccu_error:CCU_ETR_END_OF_DATA")
]%string.
Fixpoint find_err (errcode : Z) (l : list (Z * string)) : option string :=
  match l with
  | [] => None
  | (k, name) :: l' => if k =? errcode then Some name else find_err errcode l'
  end.
Definition print_err (errcode : Z) : Console -> Console :=
  let errname := default "UNKNOWN_ERROR."%string (find_err errcode errMap) in
  out [lit "[ccu_main] "; lit errname; lit "(errcode:0x"; Hex; Setw 4; Setfill 48; Int errcode; lit ")"; endl].

Definition print_help : Console -> Console :=
  out (concat (map (fun s => [lit s; endl]) [
    "------------------------------------------------------------------------------------------------------------------------------------------";
    "Client CSWP utility (CCU)";
    "Usage:";
    "------------------------------------------------------------------------------------------------------------------------------------------";
    "1.  ccu help";
    "2.  ccu init_cswp";
    "3.  ccu term_cswp";
    "4.  ccu get_dev_info";
    "5.  ccu get_sys_info";
    "6.  ccu get_dev*_cap                                     (where * can be 0/1/2)";
    "7.  ccu get_dev*_reg_list                                (where * can be 0)";
    "8.  ccu get_dev*_reg      <regSz> <regID>                (where * can be 0/2)";
    "9.  ccu set_dev*_reg      <regSz> <regID> <value>        (where * can be 0/2)";
    "10. ccu get_dev*_mem      <start_addr> <SZ>              (where * can be 0/1)";
    "11. ccu dump_dev*_mem     <start_addr> <SZ>              (where * can be 0/1)";
    "12. ccu set_dev*_mem      <addr> <SZ> <value>            (where * can be 0/1)";
    "13. ccu fill_dev*_mem     <start_addr> <bin file>        (where * can be 0/1)";
    "14. ccu rd_async_msg";
    "15. ccu cstrace           <etr_id>";
    "-------------------------------------------------------------------------------------------------------------------------"
  ]%string)).

Definition render (fs : FileSys) (o : output) : Console -> Console :=
  match o with
  | OutInit v id sv => process_init_cswp_out v id sv
  | OutTerm => process_term_cswp_out
  | OutOpen l => process_dev_open_out l
  | OutClose => process_dev_close_out
  | OutDevices l => process_get_dev_info_out l
  | OutCapabilities c n => process_get_dev_cap_out c n
  | OutSysInfo f d => process_get_sys_info_out fs f d
  | OutRegisters l => process_get_reg_list_out l
  | OutGetReg l => process_get_dev_reg_out l
  | OutSetReg => process_set_dev_reg_out
  | OutGetMem a l => process_get_dev_mem_out a l
  | OutDumpMem l => process_dump_dev_mem_out fs l
  | OutSetMem => process_set_dev_mem_out
  | OutAsync d l m => process_async_message_out d l m
  | OutHelp => print_help
  | OutErr c => print_err c
  end.

(** The text of a process that prints [l]. *)
Definition new_console : Console := mkConsole new_stream new_stream ∅.
Definition all_ok : FileSys := mkFs (fun _ => true) (fun _ data => (data, false)).
Definition text_of (l : list output) : list Z := os_text (cout (fold_left (fun c o => render all_ok o c) l new_console)).

Example text_reg : text_of [OutGetReg [0x12ab]] = bytes_of "[ccu_out] 0x000012ab
".
Proof. vm_compute. reflexivity. Qed.
Example text_mem : text_of [OutGetMem 0x1000 [1; 2; 3; 4; 5; 6; 7; 8; 0xa9; 0xb]] = bytes_of "
[ccu_out] 0x0000000000001000: 0x0807060504030201
[ccu_out] 0x0000000000001008: 0x0ba9
".
Proof. vm_compute. reflexivity. Qed.
Example text_err : text_of [OutErr CSWP_TIMEOUT] = bytes_of "[ccu_main] cswp_error:CSWP_TIMEOUT(errcode:0x0022)
".
Proof. vm_compute. reflexivity. Qed.

(** The code of a lost trace connection is that of a partial register access,
    whose name comes first in the map. *)
Example connection_error_misnamed : text_of [OutErr CSTRACE_NO_CONNECTION] =
  bytes_of "[ccu_main] cswp_error:CSWP_REG_PARTIAL(errcode:0x0201)
".
Proof. vm_compute. reflexivity. Qed.
(** [showbase] stays set after the register list, so the prefix of an error
    code is printed twice, and so it is on the device of a message. *)
Example prefix_twice : text_of [OutRegisters []; OutRegisters [([65], 0, 3, [66], [67])]; OutErr CSWP_COMMS; OutAsync 1 2 [68]] =
  bytes_of "[ccu_out] Name : Id : Size encoding : Display name : Description
[ccu_out] Name : Id : Size encoding : Display name : Description
[ccu_out] A : 0 : 0x3 : B : C
[ccu_main] cswp_error:CSWP_COMMS(errcode:0x0x20)
[ccu_out] Received info async msg from device 0x1 -
*********
D
*********
".
Proof. vm_compute. reflexivity. Qed.
