(* ===== verification/CcuText.v ===== *)
(** The text of a memory access can be read back: the rows that
    [process_get_dev_mem_out] prints are those of a simple reference, and a
    parser recovers from them the address and the bytes of every row. *)
From S2P Require Import Prelude Wire CcuIn PlatIf CcuCswp CcuOut.

(** ** The reference *)

(** The bytes in groups of eight, [part] being those of the first one so far. *)
Fixpoint groups (part l : list Z) : list (list Z) :=
  match l with
  | [] => match part with [] => [] | _ => [part] end
  | b :: l' => if len part =? 7 then (part ++ [b]) :: groups [] l' else groups (part ++ [b]) l'
  end.

(** A number in exactly [n] hexadecimal digits. *)
Fixpoint nibbles (n : nat) (v : Z) : list Z :=
  match n with
  | O => []
  | S n' => nibbles n' (v / 16) ++ [v mod 16]
  end.
Definition hex (l : list Z) : list Z := map lower l.

Definition row_head (a : Z) : list Z := [10] ++ bytes_of "[ccu_out] 0x" ++ hex (nibbles 16 a) ++ bytes_of ": 0x".
(** The bytes of a row, the most significant, that is the last one, first. *)
Definition row_bytes (l : list Z) : list Z := hex (concat (map (nibbles 2) (rev l))).
Fixpoint mem_rows (a : Z) (gs : list (list Z)) : list Z :=
  match gs with
  | [] => []
  | g :: gs' => row_head (u64 a) ++ row_bytes g ++ mem_rows (a + 8) gs'
  end.

Lemma groups_concat part l : len part < 8 -> concat (groups part l) = part ++ l.
Proof.
  revert part. induction l as [|b l IH]; intros part Hp; cbn [groups].
  - destruct part; simpl; by rewrite ?app_nil_r.
  - destruct (Z.eqb_spec (len part) 7).
    + cbn [concat]. rewrite IH by (simpl; lia). by rewrite <- !app_assoc.
    + rewrite IH by (rewrite length_app; simpl; lia). by rewrite <- app_assoc.
Qed.

Lemma groups_sizes part l : len part < 8 -> Forall (fun g => 1 <= len g <= 8) (groups part l).
Proof.
  revert part. induction l as [|b l IH]; intros part Hp; cbn [groups].
  - destruct part; repeat constructor; simpl in *; lia.
  - destruct (Z.eqb_spec (len part) 7).
    + constructor; [rewrite length_app; simpl; lia|]. apply IH. simpl. lia.
    + apply IH. rewrite length_app. simpl. lia.
Qed.

Lemma groups_ok part l : bytes_ok part -> bytes_ok l -> Forall bytes_ok (groups part l).
Proof.
  intros Hp Hl. revert part Hp. induction Hl as [|b l Hb Hl IH]; intros part Hp; cbn [groups].
  - destruct part; [constructor|]. constructor; [done|constructor].
  - assert (bytes_ok (part ++ [b])) by (apply Forall_app; split; [done|by constructor]).
    case_match; [constructor; [done|]|]; by apply IH.
Qed.

(** ** Padded numbers *)

Lemma digit_list_acc base f v acc :
  digit_list base f v acc = digit_list base f v [] ++ acc.
Proof.
  revert v acc. induction f as [|f IH]; intros v acc; simpl; [done|].
  case_match; [done|]. rewrite IH, (IH _ [_]), <- app_assoc. done.
Qed.

Lemma nibbles_length n v : length (nibbles n v) = n.
Proof. revert v. induction n as [|n IH]; intros v; simpl; [done|]. rewrite length_app, IH. simpl. lia. Qed.

Lemma nibbles_zero n : nibbles n 0 = replicate n 0.
Proof.
  induction n as [|n IH]; [done|]. change (nibbles (S n) 0) with (nibbles n 0 ++ [0]).
  rewrite IH. symmetry. apply (replicate_S_end n 0).
Qed.

(** A number padded with zeroes to a width that it does not exceed. *)
Lemma pad_nibbles n f v :
  (0 < n)%nat -> 0 <= v < 16 ^ Z.of_nat n -> (n <= f)%nat ->
  let ds := digit_list 16 f v [] in
  (length ds <= n)%nat /\ replicate (n - length ds) 0 ++ ds = nibbles n v.
Proof.
  revert f v. induction n as [|n IH]; intros f v Hn Hv Hf; [lia|].
  destruct f as [|f]; [lia|]. cbn [digit_list nibbles]. destruct (Z.ltb_spec v 16).
  - rewrite Z.div_small, Z.mod_small, nibbles_zero by lia. cbn [length].
    split; [lia|]. by rewrite Nat.sub_succ, Nat.sub_0_r.
  - rewrite digit_list_acc. rewrite Nat2Z.inj_succ, Z.pow_succ_r in Hv by lia.
    assert (Hd : 0 <= v / 16 < 16 ^ Z.of_nat n) by (split; [apply Z.div_pos|apply Z.div_lt_upper_bound]; lia).
    assert (0 < n)%nat by (destruct n; [change (16 ^ Z.of_nat 0) with 1 in Hv; lia|lia]).
    destruct (IH f (v / 16) ltac:(done) Hd ltac:(lia)) as [Hl He].
    rewrite length_app. cbn [length]. split; [lia|].
    replace (S n - (length (digit_list 16 f (v / 16) []) + 1))%nat
      with (n - length (digit_list 16 f (v / 16) []))%nat by lia.
    by rewrite app_assoc, He.
Qed.

Lemma pad_hex n v :
  (0 < n <= 20)%nat -> 0 <= v < 16 ^ Z.of_nat n ->
  replicate (Z.to_nat (Z.of_nat n - len (number 16 v))) 48 ++ number 16 v = hex (nibbles n v).
Proof.
  intros Hn Hv. destruct (pad_nibbles n 20 v ltac:(lia) Hv ltac:(lia)) as [Hl <-].
  unfold number, hex. rewrite length_map, map_app. f_equal.
  replace (Z.to_nat _) with (n - length (digit_list 16 20 v []))%nat by lia.
  generalize (n - length (digit_list 16 20 v []))%nat. intros k.
  induction k as [|k IH]; [done|]. simpl. by rewrite <- IH.
Qed.

(** The digits of the bytes of a little-endian number. *)
Lemma nibbles_le l : bytes_ok l -> nibbles (2 * length l) (le_val l) = concat (map (nibbles 2) (rev l)).
Proof.
  induction 1 as [|b l Hb _ IH]; [done|].
  change (le_val (b :: l)) with (b + 256 * le_val l). cbn [rev length].
  rewrite map_app, concat_app, <- IH. replace (2 * S (length l))%nat with (S (S (2 * length l))) by lia.
  unfold is_byte in Hb. cbn [nibbles]. rewrite <- app_assoc.
  assert (E1 : (b + 256 * le_val l) / 16 / 16 = le_val l)
    by (rewrite Z.div_div by lia; Z.div_mod_to_equations; lia).
  assert (E2 : (b + 256 * le_val l) / 16 mod 16 = b / 16 mod 16) by (Z.div_mod_to_equations; lia).
  assert (E3 : (b + 256 * le_val l) mod 16 = b mod 16) by (Z.div_mod_to_equations; lia).
  rewrite E1, E2, E3. done.
Qed.

(** ** The loop *)

(** A stream on which a number is not decorated. *)
Definition plain (c : Console) : Prop := os_showbase (cout c) = false /\ os_width (cout c) = 0.
Definition shows (c : Console) (t : list Z) (c' : Console) : Prop :=
  plain c' /\ os_text (cout c') = os_text (cout c) ++ t.

Lemma shows_nil c : plain c -> shows c [] c.
Proof. intros. split; [done|]. by rewrite app_nil_r. Qed.
Lemma shows_app c1 t1 c2 t2 c3 : shows c1 t1 c2 -> shows c2 t2 c3 -> shows c1 (t1 ++ t2) c3.
Proof. intros [_ E1] [Hp E2]. split; [done|]. by rewrite E2, E1, app_assoc. Qed.

Lemma shows_hex n v c :
  plain c -> (0 < n <= 20)%nat -> 0 <= v < 16 ^ Z.of_nat n ->
  shows c (hex (nibbles n v)) (out [Hex; Setfill 48; Setw (Z.of_nat n); Num v] c).
Proof.
  intros [Hs Hw] Hn Hv. destruct c as [[t h sb w f] e fl]. simpl in *. subst sb w.
  split; [done|]. unfold out, put, put1, insert_chars, num_text. cbn [fold_left os_text cout os_hex
    os_showbase os_width os_fill andb app]. by rewrite pad_hex.
Qed.

Lemma shows_str s c : plain c -> shows c s (out [Str s] c).
Proof.
  intros [Hs Hw]. destruct c as [[t h sb w f] e fl]. simpl in *. subst sb w.
  split; [done|]. unfold out, put, put1, insert_chars. cbn [fold_left os_text cout os_hex
    os_showbase os_width os_fill]. by replace (Z.to_nat (0 - len s)) with 0%nat by lia.
Qed.

Lemma out_app l1 l2 c : out (l1 ++ l2) c = out l2 (out l1 c).
Proof. unfold out, put. by rewrite fold_left_app. Qed.

Lemma shows_head a c :
  plain c -> is_u64 a ->
  shows c (row_head a) (out [endl; lit "[ccu_out] 0x"; Hex; Setfill 48; Setw 16; Num a; lit ": 0x"] c).
Proof.
  intros Hp Ha. change [endl; lit "[ccu_out] 0x"; Hex; Setfill 48; Setw 16; Num a; lit ": 0x"]
    with ([Str [10]] ++ [Str (bytes_of "[ccu_out] 0x")] ++ [Hex; Setfill 48; Setw (Z.of_nat 16); Num a] ++ [Str (bytes_of ": 0x")]).
  rewrite !out_app. unfold row_head.
  assert (H1 : shows c [10] (out [Str [10]] c)) by by apply shows_str.
  eapply shows_app; [exact H1|].
  assert (H2 := shows_str (bytes_of "[ccu_out] 0x") _ (proj1 H1)).
  eapply shows_app; [exact H2|].
  assert (H3 := shows_hex 16 a _ (proj1 H2) ltac:(lia) ltac:(unfold is_u64 in Ha; lia)).
  eapply shows_app; [exact H3|]. apply shows_str, H3.
Qed.

(** The digits of a group. *)
Lemma shows_group l c :
  plain c -> bytes_ok l -> 1 <= len l <= 8 ->
  shows c (row_bytes l) (out [Hex; Setfill 48; Setw (len l * 2); Num (le_val l)] c).
Proof.
  intros Hp Hl Hn. unfold row_bytes. rewrite <- nibbles_le by done.
  replace (len l * 2) with (Z.of_nat (2 * length l)) by lia.
  apply shows_hex; [done|lia|]. pose proof (le_val_range l Hl).
  replace (16 ^ Z.of_nat (2 * length l)) with (256 ^ len l); [done|].
  change 256 with (16 ^ 2). rewrite <- Z.pow_mul_r by lia. f_equal. lia.
Qed.

Lemma le_val_snoc l b : le_val (l ++ [b]) = le_val l + 256 ^ len l * b.
Proof.
  induction l as [|x l IH]; [simpl; lia|]. cbn [app le_val length].
  rewrite IH, Nat2Z.inj_succ, Z.pow_succ_r by lia. lia.
Qed.

(** The accumulator. *)
Lemma or_byte part b :
  bytes_ok part -> is_byte b -> len part < 8 ->
  Z.lor (le_val part) (u64 (Z.shiftl b (len part * 8))) = le_val (part ++ [b]).
Proof.
  intros Hp Hb Hl. unfold is_byte in Hb. pose proof (le_val_range part Hp) as Hr.
  assert (E : 256 ^ len part = 2 ^ (len part * 8)).
  { change 256 with (2 ^ 8). rewrite <- Z.pow_mul_r by lia. f_equal. lia. }
  rewrite le_val_snoc, E in *. rewrite u64_small.
  - rewrite lor_shiftl_add by lia. lia.
  - rewrite Z.shiftl_mul_pow2 by lia.
    assert (2 ^ (len part * 8) <= 2 ^ 56) by (apply Z.pow_le_mono_r; lia).
    assert (0 < 2 ^ (len part * 8)) by (apply Z.pow_pos_nonneg; lia).
    change (2 ^ 64) with (2 ^ 56 * 256). nia.
Qed.

(** What is printed for the bytes [l], when [part] are those of the current
    group so far. *)
Definition rest_text (part : list Z) (a : Z) (l : list Z) : list Z :=
  match l, groups part l with
  | _ :: _, g :: gs => match part with [] => row_head (u64 a) | _ => [] end ++ row_bytes g ++ mem_rows (a + 8) gs
  | _, _ => []
  end.

Lemma rest_text_nil a l : rest_text [] a l = mem_rows a (groups [] l).
Proof. unfold rest_text. destruct l; [done|]. by destruct (groups [] (z :: l)). Qed.

Lemma u64_add_r a b : u64 (a + u64 b) = u64 (a + b).
Proof. unfold u64. apply Zplus_mod_idemp_r. Qed.

Lemma group_start (part : list Z) k :
  len part < 8 -> ((8 * k + len part) mod 8 =? 0) = match part with [] => true | _ => false end.
Proof.
  intros Hl. destruct part as [|x part].
  - by rewrite Z.add_0_r, (Z.mul_comm 8), Z.mod_mul by lia.
  - apply Z.eqb_neq. cbn [length] in *. Z.div_mod_to_equations. lia.
Qed.

(** The start of a row, if a new group begins. *)
Lemma shows_start (part : list Z) a k c :
  plain c ->
  let start := match part with [] => true | _ => false end in
  shows c (match part with [] => row_head (u64 (a + 8 * k)) | _ => [] end)
    (if start then out [endl; lit "[ccu_out] 0x"; Hex; Setfill 48; Setw 16;
       Num (u64 (a + u64 (match part with [] => k | _ => k + 1 end * 8))); lit ": 0x"] c else c).
Proof.
  intros Hp. destruct part; [|by apply shows_nil].
  rewrite u64_add_r, (Z.mul_comm k). apply shows_head; [done|apply u64_range].
Qed.

Lemma groups_cons part b l : len part < 8 -> groups part (b :: l) <> [].
Proof.
  intros Hp Hg. pose proof (groups_concat part (b :: l) Hp) as Hc. rewrite Hg in Hc.
  by destruct part.
Qed.

Lemma mem_out_loop_eq a n l part k c :
  plain c -> bytes_ok part -> bytes_ok l -> len part < 8 -> 0 <= k ->
  8 * k + len part + len l = n -> n < 2 ^ 32 ->
  shows c (rest_text part (a + 8 * k) l)
    (mem_out_loop a n l (8 * k + len part) (le_val part) (len part) (match part with [] => k | _ => k + 1 end) c).
Proof.
  intros Hp Hpart Hl. revert part k c Hp Hpart. induction Hl as [|b l Hb Hl IH];
    intros part k c Hp Hpart Hlen Hk Hn Hmax; [by apply shows_nil|].
  cbn [mem_out_loop length] in *. rewrite or_byte, group_start by done.
  rewrite !(u32_small (_ + 1)) by lia.
  pose proof (shows_start part a k c Hp) as Hc1. cbv zeta in Hc1. set (c1 := if _ : bool then _ else c) in *.
  replace (if match part with [] => true | _ => false end then match part with [] => k | _ => k + 1 end + 1
    else match part with [] => k | _ => k + 1 end) with (k + 1) by (by destruct part).
  assert (Hok : bytes_ok (part ++ [b])) by (apply Forall_app; split; [done|by constructor]).
  assert (Hsn : len (part ++ [b]) = len part + 1) by (rewrite length_app; simpl; lia).
  pose proof (shows_group (part ++ [b]) c1 (proj1 Hc1) Hok ltac:(lia)) as Hc2. rewrite Hsn in Hc2.
  destruct (Z.eqb_spec (len part) 7) as [E|E].
  - unfold rest_text. cbn [groups]. rewrite E in Hc2 |- *. cbn [Z.eqb Pos.eqb].
    eapply shows_app; [exact Hc1|]. eapply shows_app; [exact Hc2|].
    pose proof (IH [] (k + 1) _ (proj1 Hc2) ltac:(constructor) ltac:(simpl; lia) ltac:(lia) ltac:(simpl; lia) Hmax) as Hs.
    assert (E1 : a + 8 * (k + 1) = a + 8 * k + 8) by lia.
    assert (E2 : 8 * (k + 1) + len (@nil Z) = 8 * k + 7 + 1) by (simpl; lia).
    rewrite rest_text_nil, E1, E2 in Hs. exact Hs.
  - destruct l as [|b' l].
    + rewrite (proj2 (Z.eqb_eq _ n)) by (simpl in Hn; lia). cbn [mem_out_loop]. unfold rest_text. cbn [groups].
      rewrite (proj2 (Z.eqb_neq (len part) 7) E).
      destruct (part ++ [b]) as [|x g] eqn:Hg; [by destruct part|]. rewrite app_nil_r.
      eapply shows_app; [exact Hc1|exact Hc2].
    + rewrite (proj2 (Z.eqb_neq _ n)) by (cbn [length] in Hn; lia).
      pose proof (IH (part ++ [b]) k c1 (proj1 Hc1) Hok ltac:(lia) Hk ltac:(lia) Hmax) as Hs.
      rewrite Hsn, Z.add_assoc in Hs. unfold rest_text in *. cbn [groups] in Hs |- *.
      rewrite (proj2 (Z.eqb_neq (len part) 7) E).
      assert (exists x g, part ++ [b] = x :: g) as (x & g & Hg) by (clear; destruct part; simpl; eauto).
      rewrite Hg in *.
      pose proof (groups_cons (x :: g) b' l ltac:(lia)) as Hne. cbn [groups] in Hne.
      destruct (if len (x :: g) =? 7 then _ else _) as [|g1 gs]; [done|].
      eapply shows_app; [exact Hc1|exact Hs].
Qed.

(** ** Reading the text *)

Definition strip (p l : list Z) : option (list Z) :=
  if decide (take (length p) l = p) then Some (drop (length p) l) else None.

Fixpoint pair_up (l : list Z) : option (list Z) :=
  match l with
  | [] => Some []
  | h :: d :: l' => r ← pair_up l'; Some (h * 16 + d :: r)
  | [_] => None
  end.

(** The address and the bytes of a row. *)
Definition read_row (line : list Z) : option (Z * list Z) :=
  l ← strip (bytes_of "[ccu_out] 0x") line;
  a ← mapM hex_digit (take 16 l);
  l ← strip (bytes_of ": 0x") (drop 16 l);
  ds ← mapM hex_digit l;
  bs ← pair_up ds;
  Some (digits_val 16 a, rev bs).

(** The text begins with an empty line. *)
Definition read_rows (text : list Z) : option (list (Z * list Z)) :=
  match file_lines [] text with [] :: lines => mapM read_row lines | _ => None end.

Definition row_line (a : Z) (g : list Z) : list Z :=
  bytes_of "[ccu_out] 0x" ++ hex (nibbles 16 a) ++ bytes_of ": 0x" ++ row_bytes g.
Fixpoint row_lines (a : Z) (gs : list (list Z)) : list (list Z) :=
  match gs with [] => [] | g :: gs' => row_line (u64 a) g :: row_lines (a + 8) gs' end.

Lemma mem_rows_lines a gs : mem_rows a gs ++ [10] = [10] ++ concat (map (fun r => r ++ [10]) (row_lines a gs)).
Proof.
  revert a. induction gs as [|g gs IH]; intros a; [done|]. cbn [mem_rows row_lines map concat].
  rewrite <- !app_assoc, IH. unfold row_head, row_line. by rewrite <- !app_assoc.
Qed.

Lemma strip_app p l : strip p (p ++ l) = Some l.
Proof. unfold strip. rewrite take_app_length, decide_True by done. by rewrite drop_app_length. Qed.

Lemma hex_digit_lower d : 0 <= d < 16 -> hex_digit (lower d) = Some d.
Proof.
  intros Hd. unfold hex_digit, dec_digit, lower. destruct (Z.ltb_spec d 10).
  - rewrite (proj2 (Z.leb_le 48 (48 + d))), (proj2 (Z.leb_le (48 + d) 57)) by lia. simpl. f_equal. lia.
  - rewrite (proj2 (Z.leb_le 48 (87 + d))), (proj2 (Z.leb_gt (87 + d) 57)) by lia. simpl.
    rewrite (proj2 (Z.leb_le 65 (87 + d))), (proj2 (Z.leb_gt (87 + d) 70)) by lia. simpl.
    rewrite (proj2 (Z.leb_le 97 (87 + d))), (proj2 (Z.leb_le (87 + d) 102)) by lia. simpl. f_equal. lia.
Qed.

Abbreviation nibbles_ok := (Forall (fun d => 0 <= d < 16)).

Lemma nibbles_range n v : nibbles_ok (nibbles n v).
Proof.
  revert v. induction n as [|n IH]; intros v; simpl; [constructor|].
  apply Forall_app. split; [done|]. constructor; [|constructor]. apply Z.mod_pos_bound. lia.
Qed.

Lemma read_hex ds : nibbles_ok ds -> mapM hex_digit (hex ds) = Some ds.
Proof. intros Hd. apply mapM_Some. induction Hd; constructor; [by apply hex_digit_lower|done]. Qed.

Lemma nibbles_val n v : 0 <= v < 16 ^ Z.of_nat n -> digits_val 16 (nibbles n v) = v.
Proof.
  revert v. unfold digits_val. induction n as [|n IH]; intros v Hv; [simpl in *; lia|].
  cbn [nibbles]. rewrite fold_left_app. cbn [fold_left]. rewrite Nat2Z.inj_succ, Z.pow_succ_r in Hv by lia.
  rewrite IH by (split; [apply Z.div_pos|apply Z.div_lt_upper_bound]; lia). Z.div_mod_to_equations. lia.
Qed.

Lemma pair_up_bytes l : bytes_ok l -> pair_up (concat (map (nibbles 2) l)) = Some l.
Proof.
  induction 1 as [|b l Hb _ IH]; [done|]. unfold is_byte in Hb. cbn [map concat].
  change (nibbles 2 b) with [b / 16 mod 16; b mod 16]. cbn [app pair_up].
  rewrite IH. cbn. do 2 f_equal. Z.div_mod_to_equations. lia.
Qed.

Lemma read_row_line a g : is_u64 a -> bytes_ok g -> read_row (row_line a g) = Some (a, g).
Proof.
  intros Ha Hg. unfold read_row, row_line. rewrite strip_app. cbn [mbind option_bind].
  assert (Hl : length (hex (nibbles 16 a)) = 16%nat) by (unfold hex; by rewrite length_map, nibbles_length).
  rewrite take_app_length', drop_app_length', read_hex by (done || apply nibbles_range). cbn [mbind option_bind].
  rewrite strip_app. cbn [mbind option_bind]. unfold row_bytes.
  assert (Hr : nibbles_ok (concat (map (nibbles 2) (rev g)))).
  { generalize (rev g). intros l. induction l as [|b l IH]; [constructor|].
    cbn [map concat]. apply Forall_app. split; [apply nibbles_range|done]. }
  rewrite (read_hex _ Hr). cbn [mbind option_bind].
  rewrite pair_up_bytes by by apply Forall_rev. cbn [mbind option_bind]. rewrite rev_involutive, nibbles_val; [done|].
  unfold is_u64 in Ha. change (16 ^ Z.of_nat 16) with (2 ^ 64). lia.
Qed.

(** ** The property *)

(** Row [i] has the bytes from [8 * i] on. *)
Lemma groups_lookup part l i g :
  len part < 8 -> groups part l !! i = Some g -> g = take 8 (drop (8 * i) (part ++ l)).
Proof.
  revert part i. induction l as [|b l IH]; intros part i Hp; cbn [groups].
  - destruct part as [|x part]; [done|]. destruct i; [|done]. intros [= <-].
    change (8 * 0)%nat with 0%nat. rewrite app_nil_r, drop_0, take_ge; [done|lia].
  - destruct (Z.eqb_spec (len part) 7) as [E|E].
    + assert (Hb : part ++ b :: l = (part ++ [b]) ++ l) by by rewrite <- app_assoc. rewrite Hb.
      destruct i as [|i].
      * intros [= <-]. change (8 * 0)%nat with 0%nat. rewrite drop_0.
        rewrite take_app_length'; [done|]. rewrite length_app. simpl. lia.
      * intros Hi. apply IH in Hi; [|simpl; lia]. rewrite Hi. f_equal. replace (8 * S i)%nat with (length (part ++ [b]) + 8 * i)%nat
          by (rewrite length_app; simpl; lia). by rewrite <- drop_drop, drop_app_length.
    + intros Hi. apply IH in Hi; [|rewrite length_app; simpl; lia]. by rewrite <- app_assoc in Hi.
Qed.

Fixpoint rows (a : Z) (gs : list (list Z)) : list (Z * list Z) :=
  match gs with [] => [] | g :: gs' => (u64 a, g) :: rows (a + 8) gs' end.

Lemma rows_lookup a gs i x :
  rows a gs !! i = Some x -> exists g, gs !! i = Some g /\ x = (u64 (a + 8 * Z.of_nat i), g).
Proof.
  revert a i. induction gs as [|g gs IH]; intros a i; [done|]. destruct i as [|i]; simpl.
  - intros [= <-]. exists g. by rewrite Z.add_0_r.
  - intros Hx. destruct (IH _ _ Hx) as (g' & Hg & ->). exists g'. split; [done|].
    by replace (a + 8 * Z.of_nat (S i)) with (a + 8 + 8 * Z.of_nat i) by lia.
Qed.

Lemma rows_concat a gs : concat (map snd (rows a gs)) = concat gs.
Proof. revert a. induction gs as [|g gs IH]; intros a; simpl; by rewrite ?IH. Qed.

Lemma hex_no_newline ds : nibbles_ok ds -> Forall (fun c => c <> 10) (hex ds).
Proof.
  intros Hd. unfold hex. apply list.Forall_fmap. eapply list.Forall_impl; [exact Hd|].
  intros d Hr. cbv beta in Hr. unfold compose, lower. destruct (d <? 10); lia.
Qed.
Lemma row_line_no_newline a g : Forall (fun c => c <> 10) (row_line a g).
Proof.
  unfold row_line, row_bytes. repeat (apply Forall_app; split);
    try (apply hex_no_newline); try (repeat constructor; discriminate); [apply nibbles_range|].
  generalize (rev g). intros l. induction l as [|b l IH]; [constructor|].
  cbn [map concat]. apply Forall_app. split; [apply nibbles_range|done].
Qed.

Lemma file_lines_line cur r rest :
  Forall (fun c => c <> 10) r -> file_lines cur (r ++ 10 :: rest) = (cur ++ r) :: file_lines [] rest.
Proof.
  intros Hr. revert cur. induction Hr as [|c r Hc _ IH]; intros cur; [simpl; by rewrite app_nil_r|].
  transitivity (file_lines (cur ++ [c]) (r ++ 10 :: rest)).
  - clear -Hc. destruct c as [|p|p]; try done. do 4 (destruct p as [p|p|]; try done).
  - rewrite IH. by rewrite <- app_assoc.
Qed.

Lemma file_lines_rows ls :
  Forall (Forall (fun c => c <> 10)) ls -> file_lines [] (concat (map (fun r => r ++ [10]) ls)) = ls.
Proof.
  induction 1 as [|r ls Hr _ IH]; [done|]. cbn [map concat].
  rewrite <- app_assoc. cbn [app]. rewrite file_lines_line by done. by rewrite IH.
Qed.

Lemma read_row_lines a gs :
  Forall bytes_ok gs -> mapM read_row (row_lines a gs) = Some (rows a gs).
Proof.
  intros Hg. apply mapM_Some. revert a. induction Hg as [|g gs Hg _ IH]; intros a; constructor; [|apply IH].
  apply read_row_line; [apply u64_range|done].
Qed.

Lemma row_lines_no_newline a gs : Forall (Forall (fun c => c <> 10)) (row_lines a gs).
Proof. revert a. induction gs as [|g gs IH]; intros a; constructor; [apply row_line_no_newline|apply IH]. Qed.

(** What [get_dev_mem] prints tells the contents of the memory: from the
    text of [process_get_dev_mem_out] a parser recovers rows that hold all bytes
    that were read, in order; row [i] carries the address [8 * i] above the
    start, and the eight bytes found there, the last row what is left. *)
Lemma mem_text_read_back a bytes c :
  plain c -> os_text (cout c) = [] -> bytes_ok bytes -> len bytes < 2 ^ 32 ->
  exists l, read_rows (os_text (cout (process_get_dev_mem_out a bytes c))) = Some l /\
    concat (map snd l) = bytes /\
    forall i x, l !! i = Some x ->
      x = (u64 (a + 8 * Z.of_nat i), take 8 (drop (8 * i) bytes)).
Proof.
  intros Hp Ht Hb Hn. exists (rows a (groups [] bytes)).
  assert (Hs := mem_out_loop_eq a (len bytes) bytes [] 0 c Hp ltac:(constructor) Hb ltac:(simpl; lia) ltac:(lia) eq_refl Hn).
  rewrite rest_text_nil, Z.add_0_r in Hs.
  destruct (shows_app _ _ _ _ _ Hs (shows_str [10] _ (proj1 Hs))) as [_ E].
  split; [|split].
  - change (out [Str [10]] _) with (process_get_dev_mem_out a bytes c) in E. rewrite E, Ht.
    cbn [app]. rewrite mem_rows_lines. unfold read_rows. cbn [app file_lines].
    rewrite file_lines_rows; [by apply read_row_lines, groups_ok|]. apply row_lines_no_newline.
  - rewrite rows_concat. by apply groups_concat.
  - intros i x Hx. apply rows_lookup in Hx as (g & Hg & ->). by rewrite (groups_lookup [] bytes i g).
Qed.

Lemma mem_text_read_back_witness :
  exists l, read_rows (os_text (cout (process_get_dev_mem_out 0x1000 [1; 2; 3; 4; 5; 6; 7; 8; 0xa9; 0xb] new_console))) = Some l /\
    concat (map snd l) = [1; 2; 3; 4; 5; 6; 7; 8; 0xa9; 0xb].
Proof.
  destruct (mem_text_read_back 0x1000 [1; 2; 3; 4; 5; 6; 7; 8; 0xa9; 0xb] new_console) as (l & Hl & Hc & _).
  - split; reflexivity.
  - reflexivity.
  - repeat constructor; discriminate.
  - reflexivity.
  - exists l. split; [exact Hl|exact Hc].
Defined.
