(* ===== verification/CcuShow.v ===== *)
(** The memory commands of the utility up to what the user gets: the text on the
    screen and the file on the disk, from the memory of the target
    ([CcuAccess.v] composed with [CcuOut.v] and [CcuText.v]). *)
From S2P Require Import Prelude Wire ClientCommands ClientState PlatIf MemTarget CcuIn CcuCswp CcuMem CcuAccess CcuOut CcuText.

(** The console of a process that prints [l]. *)
Definition console_of (fs : FileSys) (l : list output) : Console := fold_left (fun c o => render fs o c) l new_console.
Definition dump_name : list Z := bytes_of "mem_dump.bin".

(** A file system that can create the file of a dump, and writes it all. *)
Definition saves (fs : FileSys) (data : list Z) : Prop :=
  fs_open fs dump_name = true /\ fs_write fs dump_name data = (data, false).

Lemma dump_file fs data :
  saves fs data -> files (console_of fs [OutDumpMem data]) !! dump_name = Some data.
Proof.
  intros [Ho Hw]. unfold console_of. cbn [fold_left render]. unfold process_dump_dev_mem_out.
  fold dump_name. rewrite Ho. cbn [negb]. unfold write_out. rewrite Hw.
  unfold out, set_file. cbn [files]. by rewrite lookup_insert_eq.
Qed.

Lemma read_bytes_ok t dev a n : (forall d x, is_byte (t d x)) -> bytes_ok (read_bytes t dev a n).
Proof. intros Ht. unfold read_bytes. apply list.Forall_forall. intros b (i & -> & _)%list_elem_of_fmap. apply Ht. Qed.

Lemma read_bytes_eq t1 t2 dev a n : tmem_eq t1 t2 -> read_bytes t1 dev a n = read_bytes t2 dev a n.
Proof. intros Ht. unfold read_bytes. apply list_fmap_ext. intros i x _. apply Ht. Qed.

Section show.
Context {T : Type} `{CcuEnv T, !MemTarget T}.
Implicit Types (w : world T).

(** C22: [get_dev_mem] shows the memory of the target: it prints a text from
    which a parser recovers the address of each row and exactly the bytes that
    the target has in the range asked for, whatever the range and its division
    into requests, and the memory is not changed. *)
Theorem get_shows_memory argv w m w2 :
  accepted GetMem argv w m w2 -> (forall d x, is_byte (target (transport w2) d x)) ->
  exists o w3 l,
    get_dev_mem argv w = (print o;; finish true) w3 /\
    target (transport w3) = target (transport w2) /\
    read_rows (text_of [o]) = Some l /\
    concat (map snd l) = read_bytes (target (transport w2)) (mc_devID m) (start_addr m) (total_bytes m) /\
    forall i x, l !! i = Some x -> fst x = u64 (start_addr m + 8 * Z.of_nat i).
Proof.
  intros Ha Ht. destruct (get_prints_memory argv w m w2 Ha) as (w3 & Hg & _ & Htm).
  destruct (accepted_state _ _ _ _ _ Ha) as (_ & Hok & _ & _ & arr & _ & _ & H4).
  set (bytes := read_bytes (target (transport w2)) (mc_devID m) (start_addr m) (total_bytes m)) in *.
  assert (Hlen : len bytes = total_bytes m) by (apply read_bytes_length; destruct Hok; lia).
  destruct (mem_text_read_back (start_addr m) bytes new_console) as (l & Hl & Hc & Hx);
    [by split|done|by apply read_bytes_ok|lia|].
  exists (OutGetMem (start_addr m) bytes), w3, l. split_and!; try done.
  intros i x Hi. by rewrite (Hx i x Hi).
Qed.

(** C21: [dump_dev_mem] saves the memory of the target: the file that it writes
    holds exactly the bytes of the range asked for, also when the range takes
    several chunks, and the memory is not changed. *)
Theorem dump_saves_memory fs argv w m w2 :
  let bytes := read_bytes (target (transport w2)) (mc_devID m) (start_addr m) (total_bytes m) in
  accepted DumpMem argv w m w2 -> saves fs bytes ->
  exists o w3,
    dump_dev_mem argv w = (print o;; finish true) w3 /\
    target (transport w3) = target (transport w2) /\
    files (console_of fs [o]) !! dump_name = Some bytes.
Proof.
  cbn zeta. intros Ha Hs. destruct (dump_prints_memory argv w m w2 Ha) as (w3 & Hd & _ & Htm).
  eexists _, w3. split; [exact Hd|]. split; [done|]. by apply dump_file.
Qed.

(** C23: when the file fits ([write_fits]: it is for device 0, or its last chunk
    leaves room for the headers of its requests; [fill_chunk_overflows] in
    CcuAccess.v is a file that does not, and is not written), [fill_dev_mem]
    writes the whole file at the address of its arguments, and no other byte, in
    several chunks when it is large; and the file comes back: when
    [dump_dev_mem] reads the same range later, in another process, from a target
    that kept the memory that [fill_dev_mem] left, it writes a file equal to the
    one that was filled in. *)
Theorem fill_dump_roundtrip fs argv w m w2 name data :
  accepted FillMem argv w m w2 -> argv !! 3%nat = Some name -> env_file name = Some data ->
  bytes_ok data -> write_fits (mc_devID m) (len data) -> saves fs data ->
  exists o w3,
    fill_dev_mem argv w = (print o;; finish true) w3 /\
    tmem_eq (target (transport w3)) (write_bytes (mc_devID m) (start_addr m) data (target (transport w2))) /\
    forall argv' w' m' w2',
      accepted DumpMem argv' w' m' w2' ->
      mc_devID m' = mc_devID m -> start_addr m' = start_addr m -> total_bytes m' = len data ->
      tmem_eq (target (transport w2')) (target (transport w3)) ->
      exists o' w4,
        dump_dev_mem argv' w' = (print o';; finish true) w4 /\
        files (console_of fs [o']) !! dump_name = Some data.
Proof.
  intros Ha Hn Hf Hb Hfit Hs.
  destruct (fill_writes_memory argv w m w2 name data Ha Hn Hf Hb Hfit) as (w3 & Hfill & _ & Hw & Hr).
  exists OutSetMem, w3. split; [exact Hfill|]. split; [exact Hw|]. intros argv' w' m' w2' Ha' Hd Hst Hto Heq.
  destruct (dump_prints_memory argv' w' m' w2' Ha') as (w4 & Hdump & _).
  rewrite Hd, Hst, Hto, (read_bytes_eq _ _ _ _ _ Heq), Hr in Hdump.
  eexists _, w4. split; [exact Hdump|]. by apply dump_file.
Qed.
End show.

(** ** Against a server that keeps the promise *)

Lemma get_shows_memory_witness :
  exists o w3 l, get_dev_mem ex_get ex_start = (print o;; finish true) w3 /\
    read_rows (text_of [o]) = Some l /\ concat (map snd l) = [0; 1; 2; 3; 4; 5; 6; 7].
Proof.
  destruct (get_shows_memory ex_get ex_start (mem_params 0 0x1000 8 0 ex_cmd0)
    (ex_ready (set_memory (cmd_memory ex_start) ex_start))) as (o & w3 & l & Hx & _ & Hl & Hc & _).
  - apply ideal_reads; [done|]. intros x. reflexivity.
  - intros d x. unfold is_byte. simpl. unfold ex_target. pose proof (Z.mod_pos_bound (x + d) 256 eq_refl). lia.
  - exists o, w3, l. split; [exact Hx|]. split; [exact Hl|]. exact Hc.
Defined.

Lemma dump_saves_memory_witness :
  exists o w3 bytes, dump_dev_mem ex_dump ex_start = (print o;; finish true) w3 /\
    files (console_of all_ok [o]) !! dump_name = Some bytes /\ len bytes = 20005 /\ bytes !! 7%nat = Some 8.
Proof.
  destruct (dump_saves_memory all_ok ex_dump ex_start (mem_params 1 0x2000 20005 0 ex_cmd0)
    (ex_ready (set_memory (cmd_memory ex_start) ex_start))) as (o & w3 & Hx & _ & Hf).
  - apply ideal_reads; [done|]. intros x. reflexivity.
  - split; reflexivity.
  - exists o, w3, (read_bytes ex_target 1 0x2000 20005). split; [exact Hx|]. split; [exact Hf|].
    split; [by apply read_bytes_length|]. reflexivity.
Defined.

(** Twelve bytes are filled in, and dumped from the memory that is left. *)
Definition ex_redump : list cstr :=
  [bytes_of "ccu"; bytes_of "dump_dev1_mem"; bytes_of "0x3000"; bytes_of "12"].
Lemma fill_dump_roundtrip_witness :
  exists o w3 o' w4,
    fill_dev_mem ex_fill ex_start = (print o;; finish true) w3 /\
    dump_dev_mem ex_redump (ideal_start (target (transport w3))) = (print o';; finish true) w4 /\
    files (console_of all_ok [o']) !! dump_name = Some fill_data.
Proof.
  destruct (fill_dump_roundtrip all_ok ex_fill ex_start (mem_params 1 0x3000 12 0 ex_cmd0)
    (ex_ready (set_memory fill_mem ex_start)) (bytes_of "data.bin") fill_data fill_accepted)
    as (o & w3 & Hfill & _ & Hd); try reflexivity.
  - unfold fill_data. repeat constructor; unfold is_byte; lia.
  - right. vm_compute. discriminate.
  - by split.
  - destruct (Hd ex_redump (ideal_start (target (transport w3))) (mem_params 1 0x3000 12 0 ex_cmd0)
      (ex_ready (set_memory (cmd_memory ex_start) (ideal_start (target (transport w3)))))) as (o' & w4 & Hx & Hf);
      [|done..|].
    + apply ideal_reads; [done|]. intros x. reflexivity.
    + exists o, w3, o', w4. split; [exact Hfill|]. split; [exact Hx|exact Hf].
Defined.
