(* ===== verification/ServerMain.v ===== *)
(** The test server as a process ([start_server], [stop_server] and [main] of
    [client_utility/dummy_server_main.cpp]): its configuration, its sockets and
    the loop that answers one message after the other with [server_step] of
    [DummyServer.v].

    The socket calls are the class [SrvIO].  A process ends with [main]'s result
    ([Exit]), by an exception or undefined behaviour ([Crash]), or is still
    running when it has read [fuel] messages ([More]). *)
From S2P Require Import Prelude Wire CswpTypes CswpBuffer ClientCommands ClientState ClientTransact ClientBatch ClientReading ClientReceive DummyServer ServerParse EndToEnd ServerReply PlatIf CcuCswp.

(** The transport configuration: the address and the port. *)
Definition parse_transport_cfg_file (file : option (list Z)) : cfg_result (list Z * Z) :=
  match file with
  | None => CfgErr
  | Some bytes =>
      let m := fold_left cfg_line (file_lines [] bytes) ∅ in
      match m !! bytes_of "type" with
      | None => CfgErr
      | Some type =>
          if bool_decide (type = bytes_of "tcp") then
            port ← stoi 10 (default [] (m !! bytes_of "port"));
            mret (default [] (m !! bytes_of "ipaddr"), port)
          else CfgErr
      end
  end.

(** The system calls; a negative result is an error.  [sv_read] may return the
    bytes of a part of what was sent, or of several messages. *)
Class SrvIO (U : Type) := {
  sv_socket : U -> Z * U;
  sv_setsockopt : Z -> U -> Z * U;
  sv_bind : Z -> list Z -> Z -> U -> Z * U;
  sv_listen : Z -> Z -> U -> Z * U;
  sv_accept : Z -> U -> Z * U;
  sv_read : Z -> Z -> U -> Z * list Z * U;
  sv_send : Z -> list Z -> U -> U;
  sv_close : Z -> U -> U;
}.

Section server.
Context {U : Type} `{SrvIO U}.

(** The sockets, or the status of [start_server]; an error leaves the socket
    open. *)
Inductive started :=
  | Started (server_fd client_socket : Z) (u : U)
  | NotStarted (status : Z) (u : U)
  | StartThrow.

Definition start_server (cfg : option (list Z)) (u : U) : started :=
  match parse_transport_cfg_file cfg with
  | CfgErr => NotStarted (-1) u
  | CfgThrow => StartThrow
  | CfgVal (ipaddr, port) =>
      let (server_fd, u) := sv_socket u in
      if server_fd <? 0 then NotStarted (-1) u
      else
        let (res, u) := sv_setsockopt server_fd u in
        if res <? 0 then NotStarted (-2) u
        else
          let (res, u) := sv_bind server_fd ipaddr (u16 port) u in
          if res <? 0 then NotStarted (-3) u
          else
            let (res, u) := sv_listen server_fd 3 u in
            if res <? 0 then NotStarted (-4) u
            else
              let (client_socket, u) := sv_accept server_fd u in
              if client_socket <? 0 then NotStarted (-5) u
              else Started server_fd client_socket u
  end.

Definition stop_server (server_fd client_socket : Z) (u : U) : U := sv_close server_fd (sv_close client_socket u).

Inductive srv_outcome :=
  | Exit (status : Z) (s : srv) (u : U)
  | More (s : srv) (u : U)
  | Crash.

(** The loop of [main]: the state at its end. *)
Fixpoint serve_loop (fuel : nat) (client_socket : Z) (s : srv) (u : U) : srv_outcome :=
  match fuel with
  | O => More s u
  | S n =>
      let '(bytes_read, bytes, u) := sv_read client_socket (SRV_BUFFER - 1) u in
      if bytes_read <=? 0 then Exit 0 s u
      else
        match server_step (take (Z.to_nat bytes_read) bytes) s with
        | None => Crash
        | Some ((packet, running), s) =>
            let u := match packet with Some p => sv_send client_socket p u | None => u end in
            if running : bool then serve_loop n client_socket s u else Exit 0 s u
        end
  end.

Definition main (fuel : nat) (cfg : option (list Z)) (s : srv) (u : U) : srv_outcome :=
  match start_server cfg u with
  | StartThrow => Crash
  | NotStarted status u => Exit status s u
  | Started server_fd client_socket u =>
      match serve_loop fuel client_socket s u with
      | Exit status s u => Exit status s (stop_server server_fd client_socket u)
      | o => o
      end
  end.
End server.
Arguments srv_outcome : clear implicits.
Arguments started : clear implicits.

(** ** A session *)

(** A connection over which every read yields one whole message, until the
    client closes it: what is still to come, what was sent, and the sockets that
    are open. *)
Record conn := mkConn {
  c_in : list (list Z);
  c_out : list (list Z);
  c_open : list Z;
}.
#[export] Instance conn_io : SrvIO conn := {
  sv_socket c := (3, mkConn (c_in c) (c_out c) (3 :: c_open c));
  sv_setsockopt _ c := (0, c);
  sv_bind _ _ _ c := (0, c);
  sv_listen _ _ c := (0, c);
  sv_accept _ c := (4, mkConn (c_in c) (c_out c) (4 :: c_open c));
  sv_read _ n c := match c_in c with
                   | [] => (0, [], c)
                   | m :: l => (Z.min (len m) n, m, mkConn l (c_out c) (c_open c))
                   end;
  sv_send _ p c := mkConn (c_in c) (c_out c ++ [p]) (c_open c);
  sv_close fd c := mkConn (c_in c) (c_out c) (filter (fun x => x <> fd) (c_open c));
}.

(** A message of commands, with what the server replies to each. *)
Record exchange := mkEx {
  x_mode : batch_mode_t;
  x_commands : list (request * reply);
}.
Definition x_message (x : exchange) : list Z :=
  frame (len (x_commands x)) (x_mode x) (concat (request_bytes <$> (x_commands x).*1)).
Definition x_answer (x : exchange) : list Z :=
  rframe (len (x_commands x)) (replies (x_mode x) false (x_commands x)).
Definition x_last (x : exchange) : bool := existsb (fun c => is_term c.1) (x_commands x).
Record exchange_ok (sdf : list Z) (x : exchange) : Prop := {
  xo_reply : Forall (fun c => reply_to sdf c.1 = Some c.2) (x_commands x);
  xo_parse : Forall parse_ok (x_commands x).*1;
  xo_some : x_commands x <> [];
  xo_len : len (x_message x) <= 4095;
  xo_answer : len (replies (x_mode x) false (x_commands x)) < 2 ^ 31;
}.

Lemma last_running x : forallb (fun c => negb (is_term c.1)) (x_commands x) = negb (x_last x).
Proof. unfold x_last. induction (x_commands x) as [|c l IH]; [done|]. simpl. by rewrite IH, negb_orb. Qed.

(** One turn of the loop. *)
Lemma serve_turn x tl n fd s o p :
  exchange_ok (sdf s) x -> len (sdf s) < 2 ^ 64 -> resp_buffer s = None ->
  exists s', serve_loop (S n) fd s (mkConn (x_message x :: tl) o p) =
      (if x_last x then Exit 0 s' (mkConn tl (o ++ [x_answer x]) p)
       else serve_loop n fd s' (mkConn tl (o ++ [x_answer x]) p)) /\
    resp_buffer s' = None /\ sdf s' = sdf s.
Proof.
  intros [Hx Hp Hne Hl Ha] Hsdf Hs.
  destruct (server_step_replies (x_commands x) (x_mode x) s Hx Hsdf Hp Hne Hs Hl Ha) as (s1 & Hstep & Hs1).
  fold (x_message x) (x_answer x) in Hstep. rewrite last_running in Hstep. exists s1. split; [|done].
  cbn [serve_loop sv_read conn_io c_in c_out c_open]. change (SRV_BUFFER - 1) with 4095. rewrite Z.min_l by done.
  assert (0 < len (x_message x)).
  { unfold x_message. rewrite frame_length. pose proof (varint_enc_length (len (x_commands x))). lia. }
  rewrite (proj2 (Z.leb_gt _ _)), Nat2Z.id, firstn_all, Hstep by lia. by destruct (x_last x).
Qed.

Lemma serve_loop_answers xs tl n fd s o p :
  Forall (exchange_ok (sdf s)) xs -> Forall (fun x => x_last x = false) xs ->
  len (sdf s) < 2 ^ 64 -> resp_buffer s = None ->
  exists s', serve_loop (length xs + n) fd s (mkConn (map x_message xs ++ tl) o p) =
      serve_loop n fd s' (mkConn tl (o ++ map x_answer xs) p) /\
    resp_buffer s' = None /\ sdf s' = sdf s.
Proof.
  revert s o. induction xs as [|x xs IH]; intros s o Hok Hlast Hsdf Hs.
  - exists s. by rewrite app_nil_r.
  - apply Forall_cons_1 in Hok as [Hx Hok]. apply Forall_cons_1 in Hlast as [Hxl Hlast].
    destruct (serve_turn x (map x_message xs ++ tl) (length xs + n) fd s o p Hx Hsdf Hs) as (s1 & E1 & Hs1 & Hd1).
    rewrite Hxl in E1. rewrite <- Hd1 in Hok, Hsdf.
    destruct (IH s1 (o ++ [x_answer x]) Hok Hlast Hsdf Hs1) as (s2 & E & Hs2 & Hd2).
    exists s2. split; [|by rewrite Hd2]. cbn [length Nat.add map app]. by rewrite E1, E, <- app_assoc.
Qed.

(** C36: A session of the test server, from its configuration to its end: over a
    connection that delivers whole messages it answers each message with the
    replies to its commands, in order, the failures and cancellations among
    them, until a message that holds [CSWP_TERM], which it answers too; what
    comes after that is not read.  Then it closes both sockets and ends with
    status 0.  The commands are those that the server parses ([parse_ok], which
    leaves out [CSWP_GET_CONFIG], [CSWP_MEM_POLL] and register writes) and that
    [reply_to] describes, a message has at most 4095 bytes. *)
Theorem server_session cfg ipaddr port xs y tl n s :
  parse_transport_cfg_file cfg = CfgVal (ipaddr, port) ->
  Forall (exchange_ok (sdf s)) (xs ++ [y]) -> Forall (fun x => x_last x = false) xs -> x_last y = true ->
  len (sdf s) < 2 ^ 64 -> resp_buffer s = None -> (length xs < n)%nat ->
  exists s', main n cfg s (mkConn (map x_message xs ++ x_message y :: tl) [] []) =
    Exit 0 s' (mkConn tl (map x_answer xs ++ [x_answer y]) []).
Proof.
  intros Hcfg Hok Hlast Hy Hsdf Hs Hn. apply Forall_app in Hok as [Hok Hoky]. apply Forall_cons_1 in Hoky as [Hoky _].
  unfold main, start_server. rewrite Hcfg. cbn [sv_socket sv_setsockopt sv_bind sv_listen sv_accept conn_io].
  destruct (serve_loop_answers xs (x_message y :: tl) (S (n - length xs - 1)) 4 s [] [4; 3] Hok Hlast Hsdf Hs)
    as (s1 & E & Hs1 & Hd1).
  rewrite <- Hd1 in Hoky, Hsdf.
  destruct (serve_turn y tl (n - length xs - 1) 4 s1 ([] ++ map x_answer xs) [4; 3] Hoky Hsdf Hs1) as (s2 & E2 & _).
  replace (length xs + S (n - length xs - 1))%nat with n in E by lia.
  exists s2. cbn [Z.ltb c_in c_out c_open].
  change (0 <? 0) with false. change (3 <? 0) with false. change (4 <? 0) with false. cbv iota.
  rewrite E, E2, Hy. reflexivity.
Qed.

(** A batch in which a command fails, then the end. *)
Definition ex_cfg : list Z := bytes_of "type=tcp
ipaddr=127.0.0.1
port=5555
".
Definition ex_exchange : exchange :=
  mkEx BATCH_ABORT
    [(ReqRegRead 0 [0xdfc], Answer (ok_response (ReqRegRead 0 [0xdfc]) (varint_enc 1 ++ le_bytes 4 (rd_value 0 0xdfc))));
     (ReqRegList 0, Refuse srv_DEVICE_UNSUPPORTED);
     (ReqDeviceClose 0, Answer [129; 2; 0; 129; 2; 0; 129; 2; 0])].
Definition term_message (mode : batch_mode_t) : list Z := frame 1 mode (request_bytes ReqTerm).
Definition ex_term : exchange := mkEx BATCH_NONE [(ReqTerm, Answer (ok_response ReqTerm []))].

(** The second command fails, so the third is cancelled. *)
Lemma server_session_witness :
  exists s', main 2 (Some ex_cfg) (srv_init []) (mkConn [x_message ex_exchange; x_message ex_term; [1; 2; 3]] [] []) =
    Exit 0 s' (mkConn [[1; 2; 3]]
      [[19; 0; 0; 0; 3; 129; 4; 0; 1; 6; 0; 119; 68; 128; 4; 36; 129; 2; 2]; [7; 0; 0; 0; 1; 2; 0]] []).
Proof.
  apply (server_session (Some ex_cfg) (bytes_of "127.0.0.1") 5555 [ex_exchange] ex_term [[1; 2; 3]] 2 (srv_init [])).
  - vm_compute. reflexivity.
  - repeat constructor; try done; vm_compute; intuition congruence.
  - repeat constructor.
  - reflexivity.
  - reflexivity.
  - reflexivity.
  - simpl. lia.
Defined.

(** A message that arrives in two pieces is not put together: the first piece
    is taken for a message, here one that is too short. *)
Example split_message :
  main 9 (Some ex_cfg) (srv_init []) (mkConn [take 6 (term_message BATCH_NONE); drop 6 (term_message BATCH_NONE)] [] []) =
    Exit 0 (srv_init []) (mkConn [drop 6 (term_message BATCH_NONE)] [] []).
Proof. vm_compute. reflexivity. Qed.
(** Without a port the exception of [stoi] ends the process. *)
Example no_port : main 9 (Some (bytes_of "type=tcp
ipaddr=127.0.0.1
")) (srv_init []) (mkConn [] [] []) = Crash (U := conn).
Proof. vm_compute. reflexivity. Qed.
