(* ===== verification/CdebugC.v ===== *)
(** The C interface of the client ([client/cdebug/cdebug_c_wrapper.cpp]):
    [cswp_create_c] with the configuration strings that it scans, and the
    functions that forward a handle to the methods of [CSWPBase], which forward
    to the client library with the client that the object holds
    ([client/cdebug/cswp_client_plat_if.cpp], its last section).

    The objects live in a heap; they share the memory of the caller and the
    world outside.  A null handle or a deleted one is undefined behaviour, and so
    is an exception, which must not leave an [extern "C"] function. *)
From S2P Require Import Prelude Wire CswpTypes CswpBuffer Memory ClientCommands ClientState ClientComplete ClientTransact ClientApi UsbIf CcuIn PlatIf.

(** ** [sscanf]

    The conversions that the wrapper uses: [%x] and [%d] into an [int], [%n[^:]],
    and a literal character.  The result is the list of the values stored;
    [None]: a number that its type cannot represent. *)

Inductive conv := ConvX | ConvD | ConvSet (n : nat) | Lit (c : Z).
Inductive sval := SInt (v : Z) | SStr (s : list Z).

(** The digits of a number without its sign. *)
Definition scan_hex (s : cstr) : list Z * cstr :=
  let s' := match s with 48 :: 120 :: t | 48 :: 88 :: t => t | _ => s end in
  let ds := digit_run hex_digit s' in (ds, drop (length ds) s').
Definition scan_dec (s : cstr) : list Z * cstr :=
  let ds := digit_run dec_digit s in (ds, drop (length ds) s).

Fixpoint scan_set (n : nat) (s : cstr) : list Z :=
  match n, s with
  | S n', c :: s' => if c =? 58 then [] else c :: scan_set n' s'
  | _, _ => []
  end.

(** The number that was scanned, and the input after it. *)
Inductive scanned := NoMatch | Overflow | Match (v : option sval) (rest : cstr).
Definition scan1 (c : conv) (s : cstr) : scanned :=
  match c with
  | ConvX =>
      let (neg, s) := take_sign (skip_space s) in
      let (ds, rest) := scan_hex s in
      if decide (ds = []) then NoMatch
      else
        let v := if neg then - digits_val 16 ds else digits_val 16 ds in
        if (- 2 ^ 32 <? v) && (v <? 2 ^ 32) then Match (Some (SInt (int32 v))) rest else Overflow
  | ConvD =>
      let (neg, s) := take_sign (skip_space s) in
      let (ds, rest) := scan_dec s in
      if decide (ds = []) then NoMatch
      else
        let v := if neg then - digits_val 10 ds else digits_val 10 ds in
        if (- 2 ^ 31 <=? v) && (v <? 2 ^ 31) then Match (Some (SInt v)) rest else Overflow
  | ConvSet n => match scan_set n s with [] => NoMatch | t => Match (Some (SStr t)) (drop (length t) s) end
  | Lit c => match s with x :: s' => if x =? c then Match None s' else NoMatch | [] => NoMatch end
  end.

Fixpoint sscanf (fmt : list conv) (s : cstr) : option (list sval) :=
  match fmt with
  | [] => Some []
  | c :: fmt' =>
      match scan1 c s with
      | NoMatch => Some []
      | Overflow => None
      | Match v rest => l ← sscanf fmt' rest; Some (option_list v ++ l)
      end
  end.

Definition colon : conv := Lit 58.
Definition usb_format : list conv := [ConvX; colon; ConvX; colon; ConvSet 199; colon; ConvD; colon; ConvD].
Definition usb_format_no_serial : list conv := [ConvX; colon; ConvX; colon; colon; ConvD; colon; ConvD].
Definition tcp_format : list conv := [ConvSet 49; colon; ConvD].

Definition int_at (l : list sval) (i : nat) (dflt : Z) : Z :=
  match l !! i with Some (SInt v) => v | _ => dflt end.
Definition str_at (l : list sval) (i : nat) : list Z :=
  match l !! i with Some (SStr s) => s | _ => [] end.

(** The configuration of [cswp_create_c]: [None] is a null pointer as its
    result.  [junk] is what the members hold that are not set. *)
Definition transport_cfg_c (junk : Z) (type cfg_str : cstr) : option (option transport_cfg_t) :=
  if bool_decide (type = bytes_of "usb") then
    l ← sscanf usb_format cfg_str;
    if (length l <? 2)%nat then Some None
    else if (length l =? 2)%nat then
      l ← sscanf usb_format_no_serial cfg_str;
      Some (Some (mkCfg type (int_at l 0 0) (int_at l 1 0) (int_at l 3 0) (int_at l 2 0) [] [] junk))
    else
      Some (Some (mkCfg type (int_at l 0 0) (int_at l 1 0) (int_at l 4 0) (int_at l 3 0) (str_at l 2) [] junk))
  else if bool_decide (type = bytes_of "tcp") then
    l ← sscanf tcp_format cfg_str;
    if (length l =? 2)%nat then Some (Some (mkCfg type junk junk junk junk [] (str_at l 0) (int_at l 1 0)))
    else Some None
  else Some (Some (mkCfg type junk junk junk junk [] [] junk)).

Example cfg_full : transport_cfg_c 77 (bytes_of "usb") (bytes_of "0955:7045:ABC123:2:1") =
  Some (Some (mkCfg (bytes_of "usb") 0x955 0x7045 1 2 (bytes_of "ABC123") [] 77)).
Proof. vm_compute. reflexivity. Qed.
Example cfg_no_serial : transport_cfg_c 77 (bytes_of "usb") (bytes_of "0955:7045::2:1") =
  Some (Some (mkCfg (bytes_of "usb") 0x955 0x7045 1 2 [] [] 77)).
Proof. vm_compute. reflexivity. Qed.
(** The format of the comment, "vid:pid:sid:iid": the speed is taken for the
    serial number, the interface for the speed. *)
Example cfg_as_documented : transport_cfg_c 77 (bytes_of "usb") (bytes_of "0955:7045:2:1") =
  Some (Some (mkCfg (bytes_of "usb") 0x955 0x7045 0 1 (bytes_of "2") [] 77)).
Proof. vm_compute. reflexivity. Qed.

(** *** Configuration strings are read back *)

(** A number in hexadecimal or decimal, and what follows it. *)
Definition hex_text (v : Z) : cstr := digits 16 16 v [].
Definition dec_text (v : Z) : cstr := digits 10 20 v [].
Definition ends_number (rest : cstr) : Prop :=
  match rest with c :: _ => c = 58 | [] => True end.

Lemma run_text base f digit v rest :
  2 <= base <= 16 -> 0 <= v < base ^ Z.of_nat f -> (0 < f)%nat ->
  (forall d, 0 <= d < base -> digit (digit_char d) = Some d) -> digit 58 = None -> ends_number rest ->
  exists ds, digits base f v [] = digit_char <$> ds /\ digits_in base ds /\ ds <> [] /\ digits_val base ds = v /\
    digit_run digit (digits base f v [] ++ rest) = ds /\
    drop (length ds) (digits base f v [] ++ rest) = rest.
Proof.
  intros Hb Hv Hf Hd H58 Hr.
  destruct (digits_chars base f ltac:(lia) v [] Hv Hf) as (ds & E & Hin & Hne & Hval).
  rewrite app_nil_r in E. exists ds. rewrite E. split_and!; try done.
  - unfold digits_val. rewrite Hval. lia.
  - apply (digit_run_chars base); [done|done|]. destruct rest as [|c l]; [done|]. by rewrite Hr.
  - by rewrite drop_app_length' by (symmetry; apply length_fmap).
Qed.

Lemma scan_hex_no_prefix s :
  (match s with _ :: x :: _ => x <> 120 /\ x <> 88 | _ => True end) ->
  scan_hex s = (digit_run hex_digit s, drop (length (digit_run hex_digit s)) s).
Proof.
  intros Hx. unfold scan_hex. destruct s as [|c [|x s]]; [done|by repeat case_match|].
  destruct Hx. repeat case_match; simplify_eq; done.
Qed.
Lemma scan_hex_plain ds rest :
  ds <> [] -> digits_in 16 ds -> ends_number rest ->
  let s := (digit_char <$> ds) ++ rest in
  scan_hex s = (digit_run hex_digit s, drop (length (digit_run hex_digit s)) s).
Proof.
  intros Hne Hin Hr s. apply scan_hex_no_prefix. unfold s, digits_in in *.
  destruct ds as [|d [|e ds]]; [done| |]; simpl.
  - destruct rest as [|c l]; [done|]. simpl in Hr. lia.
  - inversion_clear Hin as [|? ? _ Hin']. inversion_clear Hin' as [|? ? He _].
    unfold digit_char. case_match; lia.
Qed.

Lemma scan_hex_text v rest :
  0 <= v < 2 ^ 31 -> ends_number rest -> scan1 ConvX (hex_text v ++ rest) = Match (Some (SInt v)) rest.
Proof.
  intros Hv Hr. unfold scan1, hex_text.
  assert (Hp : 0 <= v < 16 ^ Z.of_nat 16) by (change (16 ^ Z.of_nat 16) with (2 ^ 64); lia).
  rewrite digits_head by lia.
  destruct (run_text 16 16 hex_digit v rest) as (ds & E & Hin & Hne & Hval & Hrun & Hdrop);
    try done; try lia; [exact hex_digit_char|].
  rewrite E in *. rewrite scan_hex_plain by done. cbv zeta. rewrite Hrun, Hdrop.
  rewrite decide_False by done. rewrite Hval.
  rewrite (proj2 (Z.ltb_lt (- 2 ^ 32) v)), (proj2 (Z.ltb_lt v (2 ^ 32))) by lia. simpl.
  by rewrite int32_small by lia.
Qed.

Lemma scan_dec_text v rest :
  0 <= v < 2 ^ 31 -> ends_number rest -> scan1 ConvD (dec_text v ++ rest) = Match (Some (SInt v)) rest.
Proof.
  intros Hv Hr. unfold scan1, dec_text.
  assert (Hp : 0 <= v < 10 ^ Z.of_nat 20).
  { assert (2 ^ 31 < 10 ^ Z.of_nat 20) by (vm_compute; done). lia. }
  rewrite digits_head by lia. unfold scan_dec.
  destruct (run_text 10 20 dec_digit v rest) as (ds & E & Hin & Hne & Hval & Hrun & Hdrop);
    try done; try lia; [exact dec_digit_char|].
  rewrite Hrun, Hdrop, decide_False by done. rewrite Hval.
  by rewrite (proj2 (Z.leb_le (- 2 ^ 31) v)), (proj2 (Z.ltb_lt v (2 ^ 31))) by lia.
Qed.

Lemma scan_set_text n t rest :
  Forall (fun c => c <> 58) t -> (length t <= n)%nat -> ends_number rest -> scan_set n (t ++ rest) = t.
Proof.
  intros Ht. revert n. induction Ht as [|c t Hc _ IH]; intros n Hn Hr; simpl in *.
  - destruct rest as [|c l]; [by destruct n|]. simpl in Hr. subst. by destruct n.
  - destruct n as [|n]; [lia|]. simpl. rewrite (proj2 (Z.eqb_neq _ _)) by done. rewrite IH by (done || lia). done.
Qed.
Lemma scan_set_match n t rest :
  t <> [] -> Forall (fun c => c <> 58) t -> (length t <= n)%nat -> ends_number rest ->
  scan1 (ConvSet n) (t ++ rest) = Match (Some (SStr t)) rest.
Proof.
  intros Hne Ht Hn Hr. unfold scan1. rewrite scan_set_text by done. destruct t as [|c t]; [done|].
  by rewrite drop_app_length.
Qed.

Lemma scan_match c s v rest fmt l :
  scan1 c s = Match v rest -> sscanf fmt rest = Some l -> sscanf (c :: fmt) s = Some (option_list v ++ l).
Proof. intros H1 H2. simpl. by rewrite H1, H2. Qed.
Lemma scan_colon s fmt : sscanf (colon :: fmt) (58 :: s) = sscanf fmt s.
Proof. simpl. by destruct (sscanf fmt s). Qed.

(** The string of a USB device, its serial number empty or not, and of a TCP
    address. *)
Definition usb_text (vid pid : Z) (serial : list Z) (sid iid : Z) : cstr :=
  hex_text vid ++ 58 :: hex_text pid ++ 58 :: serial ++ 58 :: dec_text sid ++ 58 :: dec_text iid.
Definition tcp_text (ipaddr : list Z) (portid : Z) : cstr := ipaddr ++ 58 :: dec_text portid.
Definition int31 (v : Z) : Prop := 0 <= v < 2 ^ 31.

Lemma scan_dec_end v : int31 v -> sscanf [ConvD] (dec_text v) = Some [SInt v].
Proof.
  intros Hv. rewrite <- (app_nil_r (dec_text v)).
  by apply (scan_match _ _ (Some (SInt v)) [] [] []); [apply scan_dec_text|].
Qed.

Lemma scan_usb_tail fmt vid pid rest l :
  int31 vid -> int31 pid -> sscanf fmt rest = Some l ->
  sscanf (ConvX :: colon :: ConvX :: colon :: fmt) (hex_text vid ++ 58 :: hex_text pid ++ 58 :: rest) =
    Some (SInt vid :: SInt pid :: l).
Proof.
  intros Hv Hp Hl.
  eapply (scan_match _ _ (Some (SInt vid)) _ _ (SInt pid :: l)); [by apply scan_hex_text|]. rewrite scan_colon.
  eapply (scan_match _ _ (Some (SInt pid)) _ _ l); [by apply scan_hex_text|]. by rewrite scan_colon.
Qed.
Lemma scan_speed_tail sid iid :
  int31 sid -> int31 iid -> sscanf [ConvD; colon; ConvD] (dec_text sid ++ 58 :: dec_text iid) = Some [SInt sid; SInt iid].
Proof.
  intros Hs Hi. eapply (scan_match _ _ (Some (SInt sid)) _ _ [SInt iid]); [by apply scan_dec_text|].
  rewrite scan_colon. by apply scan_dec_end.
Qed.

(** C37: The configuration strings of the C interface are read as they are
    written: of a USB device the vendor, the product, the serial number, the
    speed and the interface, whether the serial number is empty or not; of a
    TCP address the host and the port.  No other member is set. *)
Theorem config_string_read junk vid pid serial sid iid ipaddr portid :
  int31 vid -> int31 pid -> int31 sid -> int31 iid -> int31 portid ->
  Forall (fun c => c <> 58) serial -> len serial <= 199 ->
  ipaddr <> [] -> Forall (fun c => c <> 58) ipaddr -> len ipaddr <= 49 ->
  transport_cfg_c junk (bytes_of "usb") (usb_text vid pid serial sid iid) =
    Some (Some (mkCfg (bytes_of "usb") vid pid iid sid serial [] junk)) /\
  transport_cfg_c junk (bytes_of "tcp") (tcp_text ipaddr portid) =
    Some (Some (mkCfg (bytes_of "tcp") junk junk junk junk [] ipaddr portid)).
Proof.
  intros Hv Hp Hs Hi Hport Hser Hsl Hne Hip Hil. split; unfold transport_cfg_c.
  - rewrite bool_decide_true by done. pose proof (scan_speed_tail sid iid Hs Hi) as Ht.
    destruct (decide (serial = [])) as [->|Hse].
    + unfold usb_text, usb_format, usb_format_no_serial.
      rewrite (scan_usb_tail [ConvSet 199; colon; ConvD; colon; ConvD] vid pid ([] ++ _) []); [|done|done|reflexivity].
      cbn [mbind option_bind length Nat.ltb Nat.leb Nat.eqb app].
      rewrite (scan_usb_tail _ vid pid _ [SInt sid; SInt iid]); [reflexivity|done|done|by rewrite scan_colon].
    + unfold usb_text, usb_format.
      rewrite (scan_usb_tail _ vid pid _ [SStr serial; SInt sid; SInt iid]); [reflexivity|done|done|].
      eapply (scan_match _ _ (Some (SStr serial)) _ _ [SInt sid; SInt iid]);
        [apply scan_set_match; done || lia|by rewrite scan_colon].
  - rewrite bool_decide_false, bool_decide_true by done. unfold tcp_text, tcp_format.
    erewrite (scan_match _ _ (Some (SStr ipaddr)) _ _ [SInt portid]);
      [reflexivity|apply scan_set_match; done || lia|].
    rewrite scan_colon. by apply scan_dec_end.
Qed.
Lemma config_string_read_witness :
  transport_cfg_c 77 (bytes_of "usb") (usb_text 0x955 0x7045 [] 2 1) =
    Some (Some (mkCfg (bytes_of "usb") 0x955 0x7045 1 2 [] [] 77)) /\
  transport_cfg_c 77 (bytes_of "tcp") (tcp_text (bytes_of "127.0.0.1") 8080) =
    Some (Some (mkCfg (bytes_of "tcp") 77 77 77 77 [] (bytes_of "127.0.0.1") 8080)).
Proof.
  apply (config_string_read 77 0x955 0x7045 [] 2 1 (bytes_of "127.0.0.1") 8080);
    try (unfold int31; lia); try (vm_compute; discriminate).
  - constructor.
  - vm_compute. repeat constructor; discriminate.
Defined.

(** ** Objects *)

(** An object without its world outside: the client and the transport. *)
Record cswp_object (U : Type) := mkObject {
  o_errorMsg : option (list Z);
  o_errorCode : Z;
  o_priv : option cswp_client_priv_t;
  o_base : CSWPBase U;
}.
Arguments mkObject {U}.
Arguments o_errorMsg {U}.
Arguments o_errorCode {U}.
Arguments o_priv {U}.
Arguments o_base {U}.

Record heap (U : Type) := mkHeap {
  h_objects : gmap nat (cswp_object U);
  h_memory : mem;
  h_io : U;
}.
Arguments mkHeap {U}.
Arguments h_objects {U}.
Arguments h_memory {U}.
Arguments h_io {U}.

(** The null pointer is [None]. *)
Definition cswp_handle_t : Type := option nat.

Section wrapper.
Context {U : Type} `{PlatIO U}.
Abbreviation HM := (M (heap U)).
Abbreviation CM := (ClientM (CSWPBase U)).

(** The world of an object's client, and back. *)
Definition world_of (o : cswp_object U) (h : heap U) : world (CSWPBase U) :=
  mkWorld (o_errorMsg o) (o_errorCode o) (o_priv o) (h_memory h) (set_io (h_io h) (o_base o)).
Definition object_of (w : world (CSWPBase U)) : cswp_object U :=
  mkObject (errorMsg w) (errorCode w) (priv w) (transport w).
Definition heap_with (n : nat) (w : world (CSWPBase U)) (h : heap U) : heap U :=
  mkHeap (<[n := object_of w]> (h_objects h)) (memory w) (io (transport w)).

(** [static_cast<CSWPBase*>(handle)->method(...)] *)
Definition on_handle {A} (handle : cswp_handle_t) (method : CM A) : HM A := fun h =>
  match handle with
  | Some n =>
      match h_objects h !! n with
      | Some o =>
          match method (world_of o h) with
          | Some (a, w) => Some (a, heap_with n w h)
          | None => None
          end
      | None => None
      end
  | None => None
  end.

(** [new CSWPBase(transport_cfg)]: the client is initialised by the
    constructor. *)
Definition cswp_create_c (malloc : option (list Z) * option (list Z) * option (list Z)) (junk : Z)
    (type cfg_str : cstr) : HM cswp_handle_t := fun h =>
  match transport_cfg_c junk type cfg_str with
  | None => None
  | Some None => Some (None, h)
  | Some (Some cfg) =>
      match CreateCSWP cfg (h_io h) with
      | (Ret s, u) =>
          let '(hdr, cmd, rsp) := malloc in
          match cswp_client_init hdr cmd rsp (mkWorld None 0 None (h_memory h) s) with
          | Some (_, w) =>
              let n := fresh (dom (h_objects h)) in
              Some (Some n, mkHeap (<[n := object_of w]> (h_objects h)) (memory w) u)
          | None => None
          end
      | _ => None
      end
  end.

(** [delete]: of a null pointer it does nothing. *)
Definition cswp_delete_c (handle : cswp_handle_t) : HM unit := fun h =>
  match handle with
  | None => Some (tt, h)
  | Some n =>
      match h_objects h !! n with
      | Some o =>
          match cswp_client_term (world_of o h) with
          | Some (_, w) =>
              match destroy (transport w) with
              | Some u => Some (tt, mkHeap (base.delete n (h_objects h)) (memory w) u)
              | None => None
              end
          | None => None
          end
      | None => None
      end
  end.

(** ** The methods

    Of the class, which run the client library on the client of the object, and
    of the C interface, which run them on the object of a handle. *)

Definition base_cswp_init := cswp_init (T := CSWPBase U).
Definition base_cswp_term := cswp_term (T := CSWPBase U).
Definition base_cswp_batch_begin := cswp_batch_begin (T := CSWPBase U).
Definition base_cswp_batch_end := cswp_batch_end (T := CSWPBase U).
Definition base_cswp_client_info := cswp_client_info (T := CSWPBase U).
Definition base_cswp_set_devices := cswp_set_devices (T := CSWPBase U).
Definition base_cswp_get_devices := cswp_get_devices (T := CSWPBase U).
Definition base_cswp_get_system_description := cswp_get_system_description (T := CSWPBase U).
Definition base_cswp_device_open := cswp_device_open (T := CSWPBase U).
Definition base_cswp_device_close := cswp_device_close (T := CSWPBase U).
Definition base_cswp_set_config := cswp_set_config (T := CSWPBase U).
Definition base_cswp_get_config := cswp_get_config (T := CSWPBase U).
Definition base_cswp_get_device_capabilities := cswp_get_device_capabilities (T := CSWPBase U).
Definition base_cswp_device_reg_list := cswp_device_reg_list (T := CSWPBase U).
Definition base_cswp_device_reg_read := cswp_device_reg_read (T := CSWPBase U).
Definition base_cswp_device_reg_write := cswp_device_reg_write (T := CSWPBase U).
Definition base_cswp_device_mem_read := cswp_device_mem_read (T := CSWPBase U).
Definition base_cswp_device_mem_write := cswp_device_mem_write (T := CSWPBase U).
Definition base_cswp_device_mem_poll := cswp_device_mem_poll (T := CSWPBase U).
Definition base_cswp_async_message := cswp_async_message (T := CSWPBase U).
Definition base_cswp_decode_error := cswp_decode_error (T := CSWPBase U).
(** A [std::string] made of a null pointer is undefined. *)
Definition get_client_error : CM (list Z) :=
  m ← gets errorMsg;
  match m with Some l => mret l | None => ub end.

Definition cswp_init_c handle clientID ProtocolVersion serverProtocolVersion serverID serverIDSize serverVersion : HM Z :=
  on_handle handle (base_cswp_init clientID ProtocolVersion serverProtocolVersion serverID serverIDSize serverVersion).
Definition cswp_term_c handle : HM Z := on_handle handle base_cswp_term.
Definition cswp_device_open_c handle deviceNo deviceInfo deviceInfoSize : HM Z :=
  on_handle handle (base_cswp_device_open deviceNo deviceInfo deviceInfoSize).
Definition cswp_device_close_c handle deviceNo : HM Z := on_handle handle (base_cswp_device_close deviceNo).
Definition cswp_get_devices_c handle deviceCount deviceList deviceListSize deviceListEntrySize
    deviceTypes deviceTypeSize deviceTypeEntrySize : HM Z :=
  on_handle handle (base_cswp_get_devices deviceCount deviceList deviceListSize deviceListEntrySize
    deviceTypes deviceTypeSize deviceTypeEntrySize).
Definition cswp_get_device_capabilities_c handle deviceNo capabilities capabilityData : HM Z :=
  on_handle handle (base_cswp_get_device_capabilities deviceNo capabilities capabilityData).
Definition cswp_device_reg_list_c handle deviceNo registerCount registerInfo registerInfoSize strBuf strBufSize : HM Z :=
  on_handle handle (base_cswp_device_reg_list deviceNo registerCount registerInfo registerInfoSize strBuf strBufSize).
Definition cswp_device_reg_read_c handle deviceNo registerCount registerIDs registerValues registerValuesSize : HM Z :=
  on_handle handle (base_cswp_device_reg_read deviceNo registerCount registerIDs registerValues registerValuesSize).
Definition cswp_device_reg_write_c handle deviceNo registerCount registerIDs registerValues : HM Z :=
  on_handle handle (base_cswp_device_reg_write deviceNo registerCount registerIDs registerValues).
Definition cswp_device_mem_read_c handle deviceNo address size accessSize flags buf bytesRead : HM Z :=
  on_handle handle (base_cswp_device_mem_read deviceNo address size accessSize flags buf bytesRead).
Definition cswp_device_mem_write_c handle deviceNo address size accessSize flags buf : HM Z :=
  on_handle handle (base_cswp_device_mem_write deviceNo address size accessSize flags buf).
Definition cswp_device_mem_poll_c handle deviceNo address size accessSize flags tries interval mask value buf bytesRead : HM Z :=
  on_handle handle (base_cswp_device_mem_poll deviceNo address size accessSize flags tries interval mask value buf bytesRead).
Definition cswp_async_message_c handle deviceNo msg_level msg msg_size : HM Z :=
  on_handle handle (base_cswp_async_message deviceNo msg_level msg msg_size).
Definition cswp_batch_begin_c handle abortOnError : HM Z := on_handle handle (base_cswp_batch_begin abortOnError).
Definition cswp_batch_end_c handle opsCompleted : HM Z := on_handle handle (base_cswp_batch_end opsCompleted).
Definition cswp_decode_error_c handle e : HM (option (list Z)) := on_handle handle (base_cswp_decode_error e).
End wrapper.
