(* ===== verification/CcuLink.v ===== *)
(** A register read of the client utility over any transport behind which the
    test server listens ([ServerLink]): the command between its connecting and
    its end. *)
From S2P Require Import Prelude Wire CswpTypes CswpBuffer Memory ClientCommands ClientState ClientComplete ClientTransact ClientApi ClientBatch ClientReading ClientReceive DummyServer ServerParse EndToEnd UsbIf CcuIn PlatIf CcuCswp CcuMem CcuAsync.

(** The name of the command, and its argument in hexadecimal. *)
Definition get_reg_name (d : Z) : cstr :=
  bytes_of (if (d =? 0)%Z then "get_dev0_reg"%string else "get_dev2_reg"%string).
Definition hex_arg (v : Z) : cstr := bytes_of "0x" ++ fmt_lX v.

Lemma reg_read_prefix {T} `{Transport T} n k ids q size (x : world T) :
  0 <= k <= len ids -> k < 2 ^ 32 ->
  cswp_device_reg_read n k ids q size x =
    run_command (ReqRegRead n (take (Z.to_nat k) ids)) (Some (Creg_read (Build_cswp_reg_read_rsp_data q size))) x.
Proof.
  intros Hk Hs. rewrite <- reg_read_is_command by (rewrite length_take; lia).
  rewrite length_take. replace (Z.of_nat (Z.to_nat k `min` length ids)) with k by lia.
  unfold cswp_device_reg_read, copy_regIDs. rewrite length_take.
  replace (Z.of_nat (Z.to_nat k `min` length ids)) with k by lia.
  rewrite (proj2 (Z.ltb_lt k (2 ^ 32))), (proj2 (Z.leb_le k (len ids))), (proj2 (Z.leb_le k k)) by lia.
  rewrite take_take. by rewrite Nat.min_id.
Qed.

Lemma reg_request_length d ids :
  0 <= d < 128 -> len ids <= 2 -> len (request_bytes (ReqRegRead d ids)) <= 4095 - 15.
Proof.
  intros Hd Hl. unfold request_bytes. cbn [request_fields].
  rewrite !fields_bytes_cons, !length_app, varints_bytes. cbn [field_bytes].
  pose proof (varint_enc_length (cmd_id CSWP_REG_READ)). pose proof (varint_enc_length d).
  pose proof (varint_enc_length (len ids)). cbn [request_type].
  assert (len (concat (varint_enc <$> ids)) <= 22); [|lia].
  destruct ids as [|i [|j [|]]]; simpl in *; rewrite ?length_app; simpl; try lia.
  - pose proof (varint_enc_length i). lia.
  - pose proof (varint_enc_length i). pose proof (varint_enc_length j). lia.
Qed.

Section reading.
Context {T : Type} `{CcuEnv T} `{!ServerLink T}.
Implicit Types w : world T.

(** The read, and the values in the array of the command. *)
Lemma link_reads w p d width ids :
  priv w = Some p -> priv_ok (prepped p) -> batch_mode p = BATCH_NONE -> linked (transport w) ->
  d = 0 \/ d = 2 -> 0 <= width <= len ids -> len ids <= 2 -> Forall small ids ->
  let q := Some (new_loc (memory w), 0) : ptr in
  let w0 := set_memory (<[new_loc (memory w) := Ints (replicate 2 env_junk)]> (memory w)) w in
  exists w1 p1, cswp_device_reg_read d width ids q width w0 = Some (0, w1) /\
    on_memory (load q width) w1 = Some (rd_value d <$> take (Z.to_nat width) ids, w1) /\
    priv w1 = Some p1 /\ priv_ok p1 /\ link_after (transport w) (transport w1).
Proof.
  intros Hp Hok Hb Hl Hd Hw Hlen Hids q w0.
  assert (Hlt : len (take (Z.to_nat width) ids) = width) by (rewrite length_take; lia).
  assert (Hv : valid (memory w0) q width).
  { eexists. split; [apply lookup_insert_eq|]. rewrite length_replicate. lia. }
  assert (Hv' : valid (memory w0) q (len (rd_value d <$> take (Z.to_nat width) ids)))
    by (by rewrite length_fmap, Hlt).
  destruct (reg_read_served (set_priv (Some (prepped p)) w0) (prepped p) d
    (take (Z.to_nat width) ids) q width) as (w1 & p1 & E & Hp1 & Hok1 & _ & Hm1 & Hl1); try done.
  - by apply prepped_mode.
  - by apply Forall_take.
  - apply reg_request_length; [lia|]. rewrite length_take. lia.
  - by rewrite Hlt.
  - by rewrite Hlt.
  - exists w1, p1. split; [|split; [|by split_and!]].
    + rewrite reg_read_prefix by lia. by rewrite (run_command_prepped w0 p).
    + apply on_memory_points. rewrite Hm1.
      pose proof (load_points _ _ _ (put_mem_points (memory w0) q _ Hv')) as Hlp.
      by rewrite length_fmap, Hlt in Hlp.
Qed.

(** The command: what is left after the values are printed is its end. *)
Lemma link_get_dev_reg prog wd id width d w w1 p :
  d = 0 \/ d = 2 -> is_valid_regW wd d tt = Some (Val width, tt) -> 0 <= id < 2 ^ 31 - 4 ->
  setup_cdebug true w = Some (Val 0, w1) -> priv w1 = Some p -> priv_ok (prepped p) ->
  batch_mode p = BATCH_NONE -> linked (transport w1) ->
  exists w2 p2 t2, get_dev_reg [prog; get_reg_name d; wd; hex_arg id] w = finish true w2 /\
    priv w2 = Some p2 /\ rsp_ok p2 /\ link_after (transport w1) t2 /\
    transport w2 = env_print (OutGetReg (rd_value d <$> take (Z.to_nat width) [id; id + 4])) t2.
Proof.
  intros Hd Hwd Hid E1 Hp Hok Hb Hl.
  assert (Hx : extract (extract_get_dev_reg_param [prog; get_reg_name d; wd; hex_arg id]) w =
    Some (Val (mkRegCmd d id width 0), w)).
  { unfold extract, hex_arg. destruct (set_reg_truncates_id prog (get_reg_name d) wd id 0 d width (memory w)) as [-> _];
      [unfold is_u64; lia|unfold is_u64; lia|by destruct Hd as [-> | ->]|lia|done|]. by destruct w. }
  assert (Hw : 1 <= width <= 2).
  { unfold is_valid_regW in Hwd. repeat case_match; ok_simpl; simplify_eq; lia. }
  unfold get_dev_reg. rewrite (E_bind_val _ _ _ _ _ Hx). cbn [rc_devID rc_regSZ rc_regID].
  rewrite (E_bind_val _ _ _ _ _ E1). erewrite E_bind_val by reflexivity. rewrite u64_small by lia.
  destruct (link_reads w1 p d width [id; id + 4]) as (w2 & p2 & E2 & E3 & Hp2 & Hok2 & Hl2);
    try done; [simpl; lia|repeat constructor; lia|].
  erewrite E_bind_val by reflexivity.
  erewrite E_bind_val by (apply lift_eq; exact E2). erewrite E_bind_val by reflexivity.
  erewrite E_bind_val by (apply lift_eq; exact E3). erewrite E_bind_val by reflexivity.
  eexists _, p2, (transport w2). split; [reflexivity|]. by split_and!; [|apply pok_rsp| |].
Qed.
End reading.

(** [main] with this command. *)
Lemma main_get_reg {T} `{CcuEnv T} other d prog wd id (w w' : world T) :
  d = 0 \/ d = 2 -> get_dev_reg [prog; get_reg_name d; wd; hex_arg id] w = Some (Val 0, w') ->
  CcuCswp.main other [prog; get_reg_name d; wd; hex_arg id] w = Some (0, w').
Proof.
  intros Hd E. unfold CcuCswp.main.
  assert (Hf : funcMap other (get_reg_name d) = Some get_dev_reg) by (by destruct Hd as [-> | ->]).
  destruct (bool_decide (get_reg_name d = bytes_of "help") || bool_decide (get_reg_name d = bytes_of "-help") ||
    bool_decide (get_reg_name d = bytes_of "--help")) eqn:Hh; [by destruct Hd as [-> | ->]|].
  rewrite Hf. erewrite M_bind_eq by (by rewrite E). done.
Qed.
