(* ===== verification/TcpSession.v ===== *)
(** A command of the client utility against the test server, over TCP: both
    programs from their configuration files to their exit codes, through every
    layer between them (the utility, the client library, the transport class,
    the sockets, the loop of the server).

    The machine that both run on is [host]: the server is a process that waits
    in its [read] ([More]) until the client sends, and goes on for one turn of
    its loop then; closing the connection ends it. *)
From S2P Require Import Prelude Wire CswpTypes CswpBuffer Memory ClientCommands ClientState ClientComplete ClientTransact ClientApi ClientBatch ClientReading ClientReceive DummyServer ServerParse EndToEnd UsbIf CcuIn PlatIf CcuCswp CcuMem CcuAsync CcuLink ServerMain.

(** ** The machine *)

(** [h_server]: the server process, with the packets that it has sent and the
    client has not received. *)
Record host := mkHost {
  h_server : srv_outcome conn;
  h_screen : list output;
}.

(** The server goes on with the messages [l]. *)
Definition continue_server (l : list (list Z)) (o : srv_outcome conn) : srv_outcome conn :=
  match o with
  | More s c =>
      match serve_loop 1 4 s (mkConn l (c_out c) (c_open c)) with
      | Exit st s c => Exit st s (stop_server 3 4 c)
      | o => o
      end
  | o => o
  end.

(** The packet that the client receives next. *)
Definition next_packet (o : srv_outcome conn) : option (list Z * srv_outcome conn) :=
  match o with
  | More s (mkConn i (p :: l) k) => Some (p, More s (mkConn i l k))
  | Exit st s (mkConn i (p :: l) k) => Some (p, Exit st s (mkConn i l k))
  | _ => None
  end.

#[export] Instance host_io : PlatIO host := {
  io_getaddrinfo _ _ h := (true, h);
  io_inet_pton _ := true;
  io_socket h := (3, h);
  io_connect _ h := (match h_server h with More _ _ => 0 | _ => -1 end, h);
  io_send _ d h :=
    match h_server h with
    | More _ _ => (len d, mkHost (continue_server [d] (h_server h)) (h_screen h))
    | _ => (-1, h)
    end;
  io_recv _ n h :=
    match next_packet (h_server h) with
    | Some (p, o) => (Z.min (len p) n, take (Z.to_nat n) p, mkHost o (h_screen h))
    | None => (0, [], h)
    end;
  io_close _ h := mkHost (continue_server [] (h_server h)) (h_screen h);
  usb_open _ h := (USBException (bytes_of "no device"), h);
  usb_disconnect h := (Ret tt, h);
  usb_write _ d h := (USBException (bytes_of "no device"), h);
  usb_cancelTransfers h := ([], h);
  thread_create h := (true, h);
  usb_reads h := ([], h);
}.
Definition host_print (o : output) (h : host) : host := mkHost (h_server h) (h_screen h ++ [o]).

(** The server waits for a message. *)
Definition waits (h : host) : Prop :=
  exists s, h_server h = More s (mkConn [] [] [4; 3]) /\ resp_buffer s = None.

(** ** The transport class as a link to the server *)

(** Connected, with nothing under way and [l] on the screen. *)
Definition tcp_linked (l : list output) (t : CSWPBase host) : Prop :=
  is_usb t = false /\ 0 <= m_socket_fd t /\ asyncQ t = [] /\ h_screen (io t) = l /\ waits (io t).

Definition tcp_link (l : list output) : ServerLink (CSWPBase host).
Proof.
  refine {| linked := tcp_linked l; link_after := fun _ t => tcp_linked l t |}; [done|].
  intros t mode rs bodies (Hu & Hfd & Hq & Hscr & s & Hsrv & Hs) Hsv Hok Hne msg resp Hl Hr.
  destruct (server_step_served rs bodies mode s Hsv Hok Hne Hs Hl (rframe_small _ _ Hr)) as (s' & Hstep & Hs' & _).
  fold msg resp in Hstep.
  assert (Hpos : 0 < len msg).
  { unfold msg. rewrite frame_length. pose proof (varint_enc_length (len rs)). lia. }
  exists (set_io (mkHost (More s' (mkConn [] [resp] [4; 3])) (h_screen (io t))) t),
    (set_io (mkHost (More s' (mkConn [] [] [4; 3])) (h_screen (io t))) t).
  change CSWP_REQ_RSP_BUFFER_SIZE with 16384 in *. split; [|split; [|by repeat esplit]].
  - cbn [t_send init_client_info]. unfold cswp_transport_send. cbn [base_send base_ops]. unfold send.
    rewrite Hu, (proj2 (Z.ltb_ge _ _)) by lia. cbn [io_send host_io]. rewrite Hsrv.
    unfold continue_server. cbn [serve_loop sv_read conn_io c_in c_out c_open].
    change (SRV_BUFFER - 1) with 4095. rewrite Z.min_l, (proj2 (Z.leb_gt _ _)), Nat2Z.id, firstn_all, Hstep by lia.
    rewrite u64_small, Z.eqb_refl by lia. done.
  - cbn [t_receive init_client_info]. unfold cswp_transport_receive. cbn [base_receive base_ops]. unfold receive.
    match goal with |- context [is_usb ?x] => change (is_usb x) with (is_usb t) end.
    rewrite Hu. cbn [io_recv host_io io set_io h_server next_packet].
    rewrite Z.min_l, u64_small, (proj2 (Z.ltb_ge _ _)), take_ge by lia. done.
Defined.

(** ** The utility *)

Section utility.
Context (cfg : option (list Z)) (file : list Z -> option (list Z)) (hm cm rm : list Z).
Context (sdf wrksp : option (list Z)) (fopen : list Z -> option sdf_file) (junk : Z).
Context (sig sig_dfl : bool) (rounds : nat).
Hypotheses (hm_size : len hm = CSWP_REQ_HEADER_SIZE) (cm_size : len cm = CSWP_REQ_RSP_BUFFER_SIZE)
  (rm_size : len rm = CSWP_REQ_RSP_BUFFER_SIZE).

#[local] Instance tcp_env : CcuEnv (CSWPBase host) :=
  plat_env cfg file (Some hm, Some cm, Some rm) sdf wrksp fopen junk host_print sig sig_dfl rounds.
Implicit Types w : world (CSWPBase host).

Definition screen w : list output := h_screen (io (transport w)).

(** Over TCP there are no asynchronous messages. *)
#[local] Instance tcp_source : AsyncSource (CSWPBase host).
Proof.
  refine {|
    waiting _ := [];
    arriving _ _ := [];
    printed t := h_screen (io t);
    open t := exists l, tcp_linked l t;
  |}.
  - done.
  - intros t (l & Hu & _) _. cbn -[CSWP_REQ_RSP_BUFFER_SIZE]. unfold cswp_transport_receive_async. cbn.
    unfold receive_async. by rewrite Hu.
  - intros t o (l & Hu & Hfd & Hq & Hs & Hw). cbn. split_and!; try done. by exists (h_screen (io t) ++ [o]).
  - intros t (l & Hu & Hfd & Hq & Hs & Hw). cbn. split_and!; try done. by exists l.
  - intros t (l & Hu & Hfd & Hq & _). cbn. by rewrite Hq.
Defined.

Lemma tcp_setup c w :
  CcuCswp.parse_transport_cfg_file cfg = CfgVal c -> cfg_type c = bytes_of "tcp" -> 0 < cfg_portid c <= 65535 ->
  waits (io (transport w)) ->
  exists w1 p, setup_cdebug true w = Some (Val 0, w1) /\ memory w1 = memory w /\
    priv w1 = Some p /\ priv_ok (prepped p) /\ batch_mode p = BATCH_NONE /\
    tcp_linked (screen w) (transport w1).
Proof.
  intros Hcfg Ht Hport (s & Hsrv & Hs). unfold setup_cdebug. cbn [env_cfg tcp_env plat_env]. rewrite Hcfg.
  assert (Hc : on_base (env_create c) w = Some (Val (Ret tt),
    set_transport (mkBase c (-1) (-1) (-1) false false false [] [] (io (transport w))) w)).
  { unfold on_base. cbn [env_create tcp_env plat_env]. unfold CreateCSWP, init_transport_info.
    rewrite decide_False by (by rewrite Ht). rewrite decide_True by done. cbn [negb io_inet_pton host_io].
    by rewrite (proj2 (Z.leb_gt _ _)), (proj2 (Z.ltb_ge _ _)) by lia. }
  rewrite (E_bind_val _ _ _ _ _ Hc).
  assert (Hu : is_usb (mkBase c (-1) (-1) (-1) false false false [] [] (io (transport w))) = false)
    by (unfold is_usb; cbn; by rewrite bool_decide_false by (by rewrite Ht)).
  assert (Hcon : forall x : world (CSWPBase host),
    transport x = mkBase c (-1) (-1) (-1) false false false [] [] (io (transport w)) ->
    on_base base_connect x = Some (Val (Ret CSWP_SUCCESS),
      set_transport (mkBase c 3 (-1) (-1) false false false [] [] (io (transport w))) x)).
  { intros x Hx. unfold on_base. rewrite Hx. cbn [base_connect env_ops tcp_env plat_env base_ops].
    unfold PlatIf.connect. rewrite Hu. cbn. by rewrite Hsrv. }
  eexists _, _. split.
  { erewrite E_bind_val by reflexivity. cbv beta iota. erewrite E_bind_val by reflexivity.
    cbn [env_malloc tcp_env plat_env]. erewrite E_bind_val by reflexivity. erewrite E_bind_val by reflexivity.
    erewrite E_bind_val by (by apply Hcon). reflexivity. }
  split; [done|]. split; [reflexivity|]. split; [by constructor|]. split; [done|].
  unfold tcp_linked, is_usb. cbn. rewrite bool_decide_false by (by rewrite Ht).
  split_and!; try done. by exists s.
Qed.

(** The end of a command: the server notices, closes its sockets and ends. *)
Lemma tcp_finish w p l :
  priv w = Some p -> rsp_ok p -> tcp_linked l (transport w) ->
  exists w' s, finish true w = Some (Val 0, w') /\ screen w' = l /\
    h_server (io (transport w')) = Exit 0 s (mkConn [] [] []).
Proof.
  intros Hp Hok Hl. unfold finish, cleanup_cdebug.
  destruct (flush_shows w []) as (w1 & E1 & _ & Hs1 & l1 & Hu & Hfd & Hq & Hscr & s & Hsrv & Hs); try done;
    [by exists l|by exists p|].
  assert (l1 = l) as ->.
  { destruct Hl as (_ & _ & _ & Hl & _). unfold showed, CcuAsync.screen in Hs1. cbn in Hs1. rewrite app_nil_r in Hs1. congruence. }
  eexists _, s. split.
  { unfold lift. erewrite M_bind_eq by exact E1. unfold disconnect_transport, mbind, M_bind. cbn.
    unfold disconnect. rewrite Hu, (proj2 (Z.leb_le _ _)) by done. cbn. reflexivity. }
  unfold screen. cbn. rewrite Hsrv. done.
Qed.

Lemma tcp_printed l t o : tcp_linked l t -> tcp_linked (l ++ [o]) (set_io (host_print o (io t)) t).
Proof. intros (Hu & Hfd & Hq & Hs & Hw). split_and!; try done. cbn. by rewrite Hs. Qed.

Lemma tcp_get_dev_reg c prog wd id width d w :
  CcuCswp.parse_transport_cfg_file cfg = CfgVal c -> cfg_type c = bytes_of "tcp" -> 0 < cfg_portid c <= 65535 ->
  d = 0 \/ d = 2 -> is_valid_regW wd d tt = Some (Val width, tt) -> 0 <= id < 2 ^ 31 - 4 ->
  waits (io (transport w)) ->
  exists w' s, get_dev_reg [prog; get_reg_name d; wd; hex_arg id] w = Some (Val 0, w') /\
    screen w' = screen w ++ [OutGetReg (rd_value d <$> take (Z.to_nat width) [id; id + 4])] /\
    h_server (io (transport w')) = Exit 0 s (mkConn [] [] []).
Proof.
  intros Hcfg Ht Hport Hd Hwd Hid Hwait.
  destruct (tcp_setup c w Hcfg Ht Hport Hwait) as (w1 & p & E1 & _ & Hp & Hok & Hb & Hl).
  destruct (@link_get_dev_reg _ tcp_env (tcp_link (screen w)) prog wd id width d w w1 p)
    as (w2 & p2 & t2 & -> & Hp2 & Hok2 & Hl2 & Ht2); try done.
  apply (tcp_finish _ p2); [done|done|]. rewrite Ht2. by apply tcp_printed.
Qed.

(** C2: Two processes from end to end: [ccu get_dev0_reg 1 0xdfc], or the same of
    device 2 or of two registers, in a process whose configuration names a TCP
    target, against the test server started with its own configuration.  The
    utility prints the values that the server has for the registers and nothing
    else, [main] returns 0, and the server sees the connection close, closes its
    sockets and ends with status 0. *)
Theorem get_reg_over_tcp other c srvcfg ipaddr port dir prog wd id width d w :
  CcuCswp.parse_transport_cfg_file cfg = CfgVal c -> cfg_type c = bytes_of "tcp" -> 0 < cfg_portid c <= 65535 ->
  parse_transport_cfg_file srvcfg = CfgVal (ipaddr, port) ->
  d = 0 \/ d = 2 -> is_valid_regW wd d tt = Some (Val width, tt) -> 0 <= id < 2 ^ 31 - 4 ->
  h_server (io (transport w)) = main 0 srvcfg (srv_init dir) (mkConn [] [] []) ->
  exists w' s, CcuCswp.main other [prog; get_reg_name d; wd; hex_arg id] w = Some (0, w') /\
    screen w' = screen w ++ [OutGetReg (rd_value d <$> take (Z.to_nat width) [id; id + 4])] /\
    h_server (io (transport w')) = Exit 0 s (mkConn [] [] []).
Proof.
  intros Hcfg Ht Hport Hsrv Hd Hwd Hid Hmain.
  assert (Hwait : waits (io (transport w))).
  { unfold waits. rewrite Hmain. unfold main, start_server. rewrite Hsrv. by exists (srv_init dir). }
  destruct (tcp_get_dev_reg c prog wd id width d w Hcfg Ht Hport Hd Hwd Hid Hwait) as (w' & s & E & Hs & He).
  exists w', s. split; [|done]. by apply main_get_reg.
Qed.
End utility.

(** *** A session *)

Definition tcp_cfg : list Z := bytes_of "type=tcp
ipaddr=127.0.0.1
port=5555
".
Definition ex_host : host := mkHost (main 0 (Some tcp_cfg) (srv_init []) (mkConn [] [] [])) [].
Definition ex_process : world (CSWPBase host) :=
  mkWorld None 0 None ∅ (mkBase (mkCfg [] 0 0 0 0 [] [] 0) (-1) (-1) (-1) false false false [] [] ex_host).
#[local] Instance ex_tcp_env : CcuEnv (CSWPBase host) :=
  tcp_env (Some tcp_cfg) (fun _ => None) (zeroes 15) (zeroes 16384) (zeroes 16384) None None (fun _ => None)
    77 true true 0.

Lemma get_reg_over_tcp_witness :
  exists w' s, CcuCswp.main (fun _ => e_fail 0) [bytes_of "ccu"; bytes_of "get_dev2_reg"; bytes_of "2"; bytes_of "0xDF8"] ex_process =
      Some (0, w') /\
    screen w' = [OutGetReg [0x01020304; 0]] /\
    h_server (io (transport w')) = Exit 0 s (mkConn [] [] []).
Proof.
  apply (get_reg_over_tcp (Some tcp_cfg) (fun _ => None) (zeroes 15) (zeroes 16384) (zeroes 16384) None None
    (fun _ => None) 77 true true 0 ltac:(reflexivity) ltac:(reflexivity) ltac:(reflexivity) (fun _ => e_fail 0)
    (mkCfg (bytes_of "tcp") 0 0 0 0 [] (bytes_of "127.0.0.1") 5555) (Some tcp_cfg) (bytes_of "127.0.0.1") 5555 []
    (bytes_of "ccu") (bytes_of "2") 0xDF8 2 2 ex_process).
  - vm_compute. reflexivity.
  - reflexivity.
  - simpl. lia.
  - vm_compute. reflexivity.
  - by right.
  - reflexivity.
  - lia.
  - reflexivity.
Defined.
