(* ===== verification/UsbSession.v ===== *)
(** A command of the client utility over USB, while the target also sends
    asynchronous messages: the reading thread sorts what arrives, the command
    gets its response, and its clean-up shows the messages.

    The target is the test server behind a USB device ([bus]); it may send
    asynchronous messages before and after each response, and reads may end
    without data. *)
From S2P Require Import Prelude Wire CswpTypes CswpBuffer Memory ClientCommands ClientState ClientComplete ClientTransact ClientApi ClientBatch ClientReading ClientReceive DummyServer ServerParse EndToEnd UsbIf CcuIn PlatIf CcuCswp CcuMem CcuAsync CcuLink.

(** ** The bus *)

(** [b_out]: the responses that the client has not read; [b_noise]: what the
    reads before and after the next responses bring. *)
Record bus := mkBus {
  b_srv : srv;
  b_out : list (list Z);
  b_noise : list (list read_event * list read_event);
  b_screen : list output;
}.
Definition next_noise (b : bus) : list read_event * list read_event := default ([], []) (head (b_noise b)).

#[export] Instance bus_io : PlatIO bus := {
  io_getaddrinfo _ _ b := (false, b);
  io_inet_pton _ := false;
  io_socket b := (-1, b);
  io_connect _ b := (-1, b);
  io_send _ _ b := (-1, b);
  io_recv _ _ b := (-1, [], b);
  io_close _ b := b;
  usb_open _ b := (Ret [mkEP EP_TYPE_BULK 1; mkEP EP_TYPE_BULK 0x81], b);
  usb_disconnect b := (Ret tt, b);
  usb_write _ d b :=
    match server_step d (b_srv b) with
    | Some ((packet, _), s) =>
        (Ret (Transfer_SUCCESS, len d), mkBus s (b_out b ++ option_list packet) (b_noise b) (b_screen b))
    | None => (Ret (Transfer_ERROR, 0), b)
    end;
  usb_cancelTransfers b := ([ReadDone Transfer_CANCELLED []], b);
  thread_create b := (true, b);
  usb_reads b :=
    let (pre, post) := next_noise b in
    (pre ++ map (ReadDone Transfer_SUCCESS) (b_out b) ++ post, mkBus (b_srv b) [] (tail (b_noise b)) (b_screen b));
}.
Definition bus_print (o : output) (b : bus) : bus := mkBus (b_srv b) (b_out b) (b_noise b) (b_screen b ++ [o]).
#[export] Instance bus_console : Console bus bus_print.
Proof.
  refine {| console := b_screen |}.
  - done.
  - intros u. cbn. by destruct (next_noise u).
  - intros o u. cbn. change (next_noise (bus_print o u)) with (next_noise u). by destruct (next_noise u).
Defined.

(** ** What the reading thread sees *)

(** A read that brings no response: an asynchronous message, or no data. *)
Definition quiet_event (e : read_event) : Prop :=
  match e with
  | ReadDone Transfer_SUCCESS d => is_async_msg d = true
  | ReadDone Transfer_CANCELLED _ | ReadDone Transfer_NODATA _ => True
  | _ => False
  end.
Definition messages (l : list read_event) : list (list Z) := asyncs_of (arrivals true l).

Lemma messages_app l1 l2 : Forall quiet_event l1 -> messages (l1 ++ l2) = messages l1 ++ messages l2.
Proof.
  unfold messages, asyncs_of. induction 1 as [|e l He _ IH]; [done|]. destruct e as [[] d|]; try done.
  cbn [app arrivals]. cbn in He. by rewrite !filter_cons_True, IH by done.
Qed.

Lemma listen_quiet e (s : CSWPBase bus) :
  quiet_event e -> readThread_running s = true ->
  listen e s = set_asyncQ (asyncQ s ++ messages [e]) s /\ readThread_running (listen e s) = true.
Proof.
  intros He Hr. unfold listen, messages, asyncs_of. rewrite Hr.
  assert (Hs : set_asyncQ (asyncQ s ++ []) s = s) by (rewrite app_nil_r; by destruct s).
  destruct e as [[] d|]; try done; cbn [arrivals]; cbn in He; rewrite ?Hs; try done.
  by rewrite He, filter_cons_True by done.
Qed.

Lemma listen_all l (s : CSWPBase bus) :
  Forall quiet_event l -> readThread_running s = true ->
  fold_left (fun s e => listen e s) l s = set_asyncQ (asyncQ s ++ messages l) s.
Proof.
  intros Hl. revert s. induction Hl as [|e l He Hl IH]; intros s Hr.
  - simpl. unfold messages. simpl. rewrite app_nil_r. by destruct s.
  - destruct (listen_quiet e s He Hr) as [E Hr']. cbn [fold_left]. rewrite IH by done. rewrite E.
    change (asyncQ (set_asyncQ ?q s)) with q. change (e :: l) with ([e] ++ l).
    rewrite messages_app by (by constructor). by rewrite app_assoc.
Qed.

(** The wait for a response passes over the quiet reads. *)
Lemma wait_resp_quiet pre resp post (s : CSWPBase bus) :
  Forall quiet_event pre -> readThread_running s = true -> respQ s = [] -> is_async_msg resp = false ->
  wait_resp (pre ++ ReadDone Transfer_SUCCESS resp :: post) s =
    (true, post, set_respQ [resp] (set_asyncQ (asyncQ s ++ messages pre) s)).
Proof.
  intros Hl. revert s. induction Hl as [|e l He Hl IH]; intros s Hr Hq Hresp; cbn [app wait_resp].
  - rewrite bool_decide_true, Hr by done. cbn [andb]. unfold listen. rewrite Hr, Hresp, Hq.
    assert (E : set_asyncQ (asyncQ s ++ messages []) s = s) by (unfold messages; simpl; rewrite app_nil_r; by destruct s).
    rewrite E. by destruct post.
  - rewrite bool_decide_true, Hr by done. cbn [andb]. destruct (listen_quiet e s He Hr) as [E Hr'].
    rewrite E in *. rewrite IH by done. change (asyncQ (set_asyncQ ?q s)) with q.
    change (e :: l) with ([e] ++ l). rewrite messages_app by (by constructor). by rewrite app_assoc.
Qed.

(** A response is never taken for an asynchronous message, however many
    commands it answers. *)
Lemma rframe_not_async n t r rest :
  0 <= n < 128 * 128 -> t <> CSWP_ASYNC_MESSAGE ->
  is_async_msg (rframe n ((varint_enc (cmd_id t) ++ r) ++ rest)) = false.
Proof.
  intros Hn Ht. destruct (Z.ltb_spec n 128).
  - rewrite response_classified by lia. by apply bool_decide_false.
  - assert (Hv : varint_enc n = [n mod 128 + 128; n / 128]).
    { unfold varint_enc. cbn [varint_bytes]. rewrite (proj2 (Z.ltb_lt 127 n)) by lia.
      assert (0 <= n / 128 < 128) by (split; [apply Z.div_pos|apply Z.div_lt_upper_bound]; lia).
      rewrite (proj2 (Z.ltb_ge 127 (n / 128))) by lia. by rewrite (Z.mod_small (n / 128)) by lia. }
    unfold is_async_msg, rframe. rewrite Hv.
    assert (n / 128 < 128) by (apply Z.div_lt_upper_bound; lia).
    rewrite (bool_decide_false (_ !! 5%nat = Some 0x80)); [by rewrite andb_false_r|].
    simpl. intros [=]. lia.
Qed.

(** ** The transport class as a link to the target *)

(** Connected, with nothing under way. *)
Record usb_linked (t : CSWPBase bus) : Prop := {
  ul_usb : is_usb t = true;
  ul_thread : readThread t = true;
  ul_running : readThread_running t = true;
  ul_cmd : 0 <= m_epCmd t;
  ul_resp : respQ t = [];
  ul_out : b_out (io t) = [];
  ul_idle : resp_buffer (b_srv (io t)) = None;
  ul_noise : Forall (fun n => Forall quiet_event n.1 /\ Forall quiet_event n.2) (b_noise (io t));
}.
(** An exchange: the messages that came with it are in the queue. *)
Record usb_after (t t' : CSWPBase bus) : Prop := {
  ua_linked : usb_linked t';
  ua_queue : asyncQ t' = asyncQ t ++ messages (next_noise (io t)).1 ++ messages (next_noise (io t)).2;
  ua_noise : b_noise (io t') = tail (b_noise (io t));
  ua_screen : b_screen (io t') = b_screen (io t);
}.

Lemma next_quiet t : usb_linked t -> Forall quiet_event (next_noise (io t)).1 /\ Forall quiet_event (next_noise (io t)).2.
Proof. intros [_ _ _ _ _ _ _ Hn]. unfold next_noise. destruct (b_noise (io t)) as [|n l]; [by split|]. by inversion Hn. Qed.

Lemma usb_send msg resp srv' t :
  usb_linked t -> server_step msg (b_srv (io t)) = Some ((Some resp, true), srv') ->
  t_send msg t = (TRet CSWP_SUCCESS, set_io (mkBus srv' [resp] (b_noise (io t)) (b_screen (io t))) t).
Proof.
  intros [Hu _ _ Hc _ Ho _ _] Hs. cbn [t_send init_client_info]. unfold cswp_transport_send.
  cbn [base_send base_ops]. unfold send. rewrite Hu, (proj2 (Z.ltb_ge _ _)) by lia.
  cbn [usb_write bus_io]. rewrite Hs, Ho. by rewrite bool_decide_true, Z.ltb_irrefl by done.
Qed.

Lemma usb_receive resp srv' t :
  usb_linked t -> is_async_msg resp = false -> len resp <= CSWP_REQ_RSP_BUFFER_SIZE -> resp_buffer srv' = None ->
  exists t', t_receive CSWP_REQ_RSP_BUFFER_SIZE (set_io (mkBus srv' [resp] (b_noise (io t)) (b_screen (io t))) t) =
      (TRet CSWP_SUCCESS, Some resp, t') /\ usb_after t t'.
Proof.
  intros Hl Ha Hlen Hsrv. destruct (next_quiet t Hl) as [Hpre Hpost]. destruct Hl as [Hu Ht Hr Hc Hq Ho Hi Hn].
  unfold next_noise in *. set (n := default ([], []) (head (b_noise (io t)))) in *.
  set (t1 := set_io (mkBus srv' [resp] (b_noise (io t)) (b_screen (io t))) t).
  set (b2 := mkBus srv' [] (tail (b_noise (io t))) (b_screen (io t))).
  exists (set_asyncQ (asyncQ t ++ messages n.1 ++ messages n.2) (set_io b2 t)). split.
  - cbn -[CSWP_REQ_RSP_BUFFER_SIZE]. unfold cswp_transport_receive. cbn -[CSWP_REQ_RSP_BUFFER_SIZE]. unfold receive.
    change (is_usb t1) with (is_usb t). rewrite Hu. cbn [usb_reads bus_io].
    change (next_noise (io t1)) with n. destruct n as [pre post] eqn:En. cbn [fst snd] in *.
    change (map (ReadDone Transfer_SUCCESS) (b_out (io t1)) ++ post) with (ReadDone Transfer_SUCCESS resp :: post).
    match goal with |- context [wait_resp _ ?x] => change x with (set_io b2 t1) end.
    rewrite (wait_resp_quiet pre resp post (set_io b2 t1)) by done. cbv beta iota.
    unfold take_resp. change (readThread_running (set_respQ ?q (set_asyncQ ?a (set_io b2 t1)))) with (readThread_running t).
    rewrite Hr. cbn [negb]. change (respQ (set_respQ ?q ?x)) with q. cbv beta iota.
    rewrite listen_all by done. unfold t1, set_respQ, set_asyncQ, set_io. cbn.
    rewrite Hq, app_assoc. done.
  - constructor; [|done..]. constructor; try done. cbn. destruct (b_noise (io t)) as [|x l]; [done|]. by inversion Hn.
Qed.

Lemma answers_size rs bodies :
  Forall2 (fun r body => served r = Some body) rs bodies -> 2 * len rs <= len (concat (zip_with answer rs bodies)).
Proof.
  induction 1 as [|r b rs bs _ _ IH]; [simpl; lia|]. cbn [zip_with concat]. rewrite length_app.
  assert (2 <= len (answer r b)).
  { unfold answer, response_bytes. rewrite !length_app. pose proof (varint_enc_length (cmd_id (request_type r))).
    pose proof (varint_enc_length 0). lia. }
  simpl length. lia.
Qed.

Lemma response_not_async rs bodies :
  Forall2 (fun r body => served r = Some body) rs bodies -> rs <> [] ->
  len (rframe (len rs) (concat (zip_with answer rs bodies))) <= CSWP_REQ_RSP_BUFFER_SIZE ->
  is_async_msg (rframe (len rs) (concat (zip_with answer rs bodies))) = false.
Proof.
  intros Hs Hne Hl. pose proof (answers_size rs bodies Hs) as Hn. rewrite rframe_length in Hl.
  change CSWP_REQ_RSP_BUFFER_SIZE with 16384 in Hl. pose proof (varint_enc_length (len rs)).
  assert (Hlt : 0 <= len rs < 128 * 128) by lia. clear Hl Hn.
  destruct Hs as [|r b rs bs Hrb Hs]; [done|]. cbn [zip_with concat]. unfold answer at 1, response_bytes.
  apply rframe_not_async; [exact Hlt|]. by destruct r.
Qed.

#[export] Instance usb_link : ServerLink (CSWPBase bus).
Proof.
  refine {| linked := usb_linked; link_after := usb_after |}; [by intros t t' []|].
  intros t mode rs bodies Hl Hsv Hok Hne msg resp Hlm Hr.
  destruct (server_step_served rs bodies mode (b_srv (io t)) Hsv Hok Hne (ul_idle _ Hl) Hlm (rframe_small _ _ Hr))
    as (srv' & Hstep & Hsrv & _).
  destruct (usb_receive resp srv' t Hl (response_not_async _ _ Hsv Hne Hr) Hr Hsrv) as (t2 & E & Ha).
  exists (set_io (mkBus srv' [resp] (b_noise (io t)) (b_screen (io t))) t), t2.
  split; [by apply usb_send|]. by split.
Defined.

(** ** The utility *)

Section utility.
Context (cfg : option (list Z)) (file : list Z -> option (list Z)) (hm cm rm : list Z).
Context (sdf wrksp : option (list Z)) (fopen : list Z -> option sdf_file) (junk : Z).
Context (sig sig_dfl : bool) (rounds : nat).
Hypotheses (hm_size : len hm = CSWP_REQ_HEADER_SIZE) (cm_size : len cm = CSWP_REQ_RSP_BUFFER_SIZE)
  (rm_size : len rm = CSWP_REQ_RSP_BUFFER_SIZE).

#[local] Instance bus_env : CcuEnv (CSWPBase bus) :=
  plat_env cfg file (Some hm, Some cm, Some rm) sdf wrksp fopen junk bus_print sig sig_dfl rounds.
Implicit Types w : world (CSWPBase bus).

Definition screen w : list output := b_screen (io (transport w)).

Lemma usb_linked_queue q t : usb_linked t -> usb_linked (set_asyncQ q t).
Proof. by intros []. Qed.
Lemma usb_linked_print o t : usb_linked t -> usb_linked (set_io (bus_print o (io t)) t).
Proof. by intros []. Qed.

(** The messages of the turn [n] from now on. *)
Definition noise_at (n : nat) (b : bus) : list (list Z) :=
  let (pre, post) := nth n (b_noise b) ([], []) in messages (pre ++ post).

Lemma usb_turn t : usb_linked t ->
  env_turn t = set_asyncQ (asyncQ t ++ noise_at 0 (io t))
    (set_io (mkBus (b_srv (io t)) [] (tail (b_noise (io t))) (b_screen (io t))) t) /\ usb_linked (env_turn t).
Proof.
  intros Hl. destruct (next_quiet t Hl) as [Hpre Hpost].
  assert (E : env_turn t = set_asyncQ (asyncQ t ++ noise_at 0 (io t))
    (set_io (mkBus (b_srv (io t)) [] (tail (b_noise (io t))) (b_screen (io t))) t)).
  { cbn. unfold noise_at. replace (nth 0 (b_noise (io t)) ([], [])) with (next_noise (io t))
      by (unfold next_noise; by destruct (b_noise (io t))).
    destruct (next_noise (io t)) as [pre post]. rewrite (ul_out _ Hl). cbn [map app].
    by rewrite listen_all; [|by apply Forall_app|apply Hl]. }
  split; [done|]. rewrite E. apply usb_linked_queue. destruct Hl as [? ? ? ? ? ? ? Hn]. constructor; try done.
  cbn. by destruct Hn.
Qed.

#[local] Instance bus_source : AsyncSource (CSWPBase bus).
Proof.
  refine {|
    waiting := asyncQ;
    arriving n t := noise_at n (io t);
    printed t := b_screen (io t);
    open := usb_linked;
  |}.
  - intros t m q Hl Hq. exists (set_asyncQ q t). split; [|split_and!; try done; by apply usb_linked_queue].
    cbn -[CSWP_REQ_RSP_BUFFER_SIZE]. unfold cswp_transport_receive_async. cbn.
    unfold receive_async. by rewrite (ul_usb _ Hl), Hq.
  - intros t Hl Hq. cbn -[CSWP_REQ_RSP_BUFFER_SIZE]. unfold cswp_transport_receive_async. cbn.
    unfold receive_async. by rewrite (ul_usb _ Hl), Hq.
  - intros t o Hl. split_and!; try done. by apply usb_linked_print.
  - intros t Hl. destruct (usb_turn t Hl) as [E Hl']. rewrite E in *. split_and!; try done.
    intros n. unfold noise_at. cbn. by destruct (b_noise (io t)), n.
  - done.
Defined.

(** A target that is ready, with only quiet reads to come. *)
Record ready (b : bus) : Prop := {
  rd_out : b_out b = [];
  rd_idle : resp_buffer (b_srv b) = None;
  rd_noise : Forall (fun n => Forall quiet_event n.1 /\ Forall quiet_event n.2) (b_noise b);
}.

Lemma usb_setup c w :
  CcuCswp.parse_transport_cfg_file cfg = CfgVal c -> cfg_type c = bytes_of "usb" -> ready (io (transport w)) ->
  exists w1 p, setup_cdebug true w = Some (Val 0, w1) /\
    priv w1 = Some p /\ priv_ok (prepped p) /\ batch_mode p = BATCH_NONE /\
    usb_linked (transport w1) /\ asyncQ (transport w1) = [] /\ io (transport w1) = io (transport w).
Proof.
  intros Hcfg Ht [Ho Hi Hn]. unfold setup_cdebug. cbn [env_cfg bus_env plat_env]. rewrite Hcfg.
  set (t0 := mkBase c (-1) (-1) (-1) false false false [] [] (io (transport w))).
  assert (Hc : on_base (env_create c) w = Some (Val (Ret tt), set_transport t0 w)).
  { unfold on_base. cbn [env_create bus_env plat_env]. unfold CreateCSWP, init_transport_info.
    by rewrite decide_True by done. }
  rewrite (E_bind_val _ _ _ _ _ Hc).
  assert (Hu : is_usb t0 = true) by (by apply bool_decide_true).
  assert (Hcon : forall x : world (CSWPBase bus), transport x = t0 ->
    on_base base_connect x = Some (Val (Ret CSWP_SUCCESS),
      set_transport (mkBase c (-1) 1 0x81 true true true [] [] (io (transport w))) x)).
  { intros x Hx. unfold on_base. rewrite Hx. cbn [base_connect env_ops bus_env plat_env base_ops].
    unfold PlatIf.connect. by rewrite Hu. }
  eexists _, _. split.
  { erewrite E_bind_val by reflexivity. cbv beta iota. erewrite E_bind_val by reflexivity.
    cbn [env_malloc bus_env plat_env]. erewrite E_bind_val by reflexivity. erewrite E_bind_val by reflexivity.
    erewrite E_bind_val by (by apply Hcon). reflexivity. }
  split; [reflexivity|]. split; [by constructor|]. split; [done|]. split; [|done]. by constructor.
Qed.

(** Disconnecting joins the reading thread. *)
Lemma usb_disconnects t : usb_linked t ->
  exists t', PlatIf.disconnect t = (Ret tt, t') /\ readThread t' = false /\ b_screen (io t') = b_screen (io t).
Proof.
  intros [Hu _ Hr _ _ _ _ _]. unfold PlatIf.disconnect. rewrite Hu, Hr. clear Hu.
  destruct t as [? ? ? ? m ? running ? ? b]. simpl in Hr. subst running. by destruct m; eexists.
Qed.

(** The end of a command shows the messages that wait, and joins the reading
    thread. *)
Lemma usb_finish w p ms :
  priv w = Some p -> rsp_ok p -> usb_linked (transport w) ->
  asyncQ (transport w) = map async_bytes ms -> Forall async_ok ms ->
  exists w', finish true w = Some (Val 0, w') /\ screen w' = screen w ++ map shown ms /\
    readThread (transport w') = false.
Proof.
  intros Hp Hok Hl Hq Hms. unfold finish, cleanup_cdebug.
  destruct (flush_shows w ms) as (w1 & E1 & Hq1 & Hs1 & Hl1); try done; [by exists p|].
  destruct (usb_disconnects _ Hl1) as (t' & E & Hj & Hs). exists (set_transport t' w1). split; [|split; [|done]].
  - unfold lift. erewrite M_bind_eq by exact E1. unfold disconnect_transport, mbind, M_bind. cbn. by rewrite E.
  - unfold screen. cbn. rewrite Hs. exact Hs1.
Qed.

(** A register read of the utility while the target talks. *)
Lemma usb_get_dev_reg c prog wd id width d w ms :
  CcuCswp.parse_transport_cfg_file cfg = CfgVal c -> cfg_type c = bytes_of "usb" ->
  d = 0 \/ d = 2 -> is_valid_regW wd d tt = Some (Val width, tt) -> 0 <= id < 2 ^ 31 - 4 ->
  ready (io (transport w)) -> noise_at 0 (io (transport w)) = map async_bytes ms -> Forall async_ok ms ->
  exists w', get_dev_reg [prog; get_reg_name d; wd; hex_arg id] w = Some (Val 0, w') /\
    screen w' = screen w ++ OutGetReg (rd_value d <$> take (Z.to_nat width) [id; id + 4]) :: map shown ms /\
    readThread (transport w') = false.
Proof.
  intros Hcfg Ht Hd Hwd Hid Hready Hq Hms.
  destruct (usb_setup c w Hcfg Ht Hready) as (w1 & p & E1 & Hp & Hok & Hb & Hl & Hq1 & Hio).
  destruct (@link_get_dev_reg _ bus_env usb_link prog wd id width d w w1 p)
    as (w2 & p2 & t2 & -> & Hp2 & Hok2 & [Hl2 Hq2 _ Hs2] & Ht2); try done.
  destruct (next_quiet _ Hl) as [Hpre Hpost].
  destruct (usb_finish w2 p2 ms) as (w3 & E3 & Hs3 & Hj); try done.
  - rewrite Ht2. by apply usb_linked_print.
  - rewrite Ht2. cbn. rewrite Hq2, Hq1, <- messages_app, <- Hq, Hio by done. unfold noise_at, next_noise.
    by destruct (b_noise (io (transport w))) as [|[]].
  - exists w3. split; [exact E3|]. split; [|done]. rewrite Hs3. unfold screen. rewrite Ht2. cbn.
    by rewrite Hs2, Hio, <- app_assoc.
Qed.

(** C3: A command while the target talks: [ccu get_dev0_reg 1 0xdfc], or the
    same of device 2 or of two registers, over USB, from a target that answers
    as the test server does and sends asynchronous messages before and after
    the response, in reads of their own and among reads without data.  The
    reading thread keeps the two apart: the command prints the registers of the
    response first, then every message, once, in the order of arrival; [main]
    returns 0 and the reading thread has been joined. *)
Theorem get_reg_over_usb other c prog wd id width d w ms :
  CcuCswp.parse_transport_cfg_file cfg = CfgVal c -> cfg_type c = bytes_of "usb" ->
  d = 0 \/ d = 2 -> is_valid_regW wd d tt = Some (Val width, tt) -> 0 <= id < 2 ^ 31 - 4 ->
  ready (io (transport w)) -> noise_at 0 (io (transport w)) = map async_bytes ms -> Forall async_ok ms ->
  exists w', CcuCswp.main other [prog; get_reg_name d; wd; hex_arg id] w = Some (0, w') /\
    screen w' = screen w ++ OutGetReg (rd_value d <$> take (Z.to_nat width) [id; id + 4]) :: map shown ms /\
    readThread (transport w') = false.
Proof.
  intros Hcfg Ht Hd Hwd Hid Hready Hq Hms.
  destruct (usb_get_dev_reg c prog wd id width d w ms) as (w' & E & Hs); try done.
  exists w'. split; [|done]. by apply main_get_reg.
Qed.
End utility.

(** *** A session *)

Definition ex_noise : list (list read_event * list read_event) :=
  [([ReadDone Transfer_NODATA []; ReadDone Transfer_SUCCESS (async_bytes ex_boot)],
    [ReadDone Transfer_SUCCESS (async_bytes ex_ras); ReadDone Transfer_NODATA []])].
Definition ex_bus_process : world (CSWPBase bus) :=
  mkWorld None 0 None ∅ (mkBase (mkCfg [] 0 0 0 0 [] [] 0) (-1) (-1) (-1) false false false [] []
    (mkBus (srv_init []) [] ex_noise [])).
#[local] Instance ex_bus_env : CcuEnv (CSWPBase bus) :=
  bus_env (Some usb_cfg_file) (fun _ => None) (zeroes 15) (zeroes 16384) (zeroes 16384) None None (fun _ => None)
    77 true true 0.

Lemma get_reg_over_usb_witness :
  exists w', CcuCswp.main (fun _ => e_fail 0) [bytes_of "ccu"; bytes_of "get_dev2_reg"; bytes_of "2"; bytes_of "0xDF8"] ex_bus_process =
      Some (0, w') /\
    screen w' = [OutGetReg [0x01020304; 0]; OutAsync 0 2 (bytes_of "boot"); OutAsync 1 0 (bytes_of "ECC error")] /\
    readThread (transport w') = false.
Proof.
  apply (get_reg_over_usb (Some usb_cfg_file) (fun _ => None) (zeroes 15) (zeroes 16384) (zeroes 16384) None None
    (fun _ => None) 77 true true 0 ltac:(reflexivity) ltac:(reflexivity) ltac:(reflexivity) (fun _ => e_fail 0)
    (mkCfg (bytes_of "usb") 0x955 0x7045 0 0 [] [] 8080) (bytes_of "ccu") (bytes_of "2") 0xDF8 2 2 ex_bus_process [ex_boot; ex_ras]).
  - vm_compute. reflexivity.
  - reflexivity.
  - by right.
  - reflexivity.
  - lia.
  - constructor; [done|done|]. constructor; [|constructor]. split; repeat constructor; vm_compute; done.
  - vm_compute. reflexivity.
  - constructor; [|constructor; [|constructor]]; constructor; try (vm_compute; intuition congruence);
      repeat constructor; done.
Defined.
