(* ===== verification/UsbSync.v ===== *)
(** The device and libusb agree: over a libusb that holds what it accepts until
    it calls back, [synced] of [UsbDrain.v] is preserved by submissions, events
    and cancellations, as long as no transfer waits in the queue of the device,
    so that what is cancelled comes back.  (With a queue it is not: see the end
    of [UsbDrain.v].) *)
From S2P Require Import Prelude UsbIf UsbDev UsbScript UsbDevInv UsbDrain.

(** What libusb promises of all its calls that have to do with transfers. *)
Class SyncLaws (W P : Type) `{CancelLaws W P} := {
  alloc_transfer_law w : lu_held (libusb_alloc_transfer w).2 = lu_held w;
  submit_transfer_law (u : libusb_transfer P) w :
    lu_held (libusb_submit_transfer u w).2 ≡ₚ
      if (libusb_submit_transfer u w).1 <? 0 then lu_held w else (u_endpoint u, u_ptr u) :: lu_held w;
  handle_event_law flag w :
    match libusb_handle_event flag w with
    | EvDone ep ptr _ _ _ w' => lu_held w ≡ₚ (ep, ptr) :: lu_held w'
    | EvReturn w' | EvError _ w' => lu_held w' = lu_held w
    | EvNever => True
    end;
}.

Section sync.
Context {W P : Type} `{SyncLaws W P}.
Abbreviation Dev := (USBDeviceLinux W P).
Implicit Types d : Dev.

(** What [synced] says besides the counters. *)
Definition agrees d : Prop :=
  lu_held (m_libusb d) ≡ₚ map tag (in_flight d) /\
  map_Forall (fun ep q => Forall (fun t => u_endpoint (t_transfer t) = ep) q) (m_epInFlightTransfers d).
Lemma synced_agrees d : synced d <-> counted d /\ agrees d.
Proof. split; [by intros [? ? ?]|by intros (? & ? & ?)]. Qed.

(** Only the queue, the token or the other handles of libusb have changed. *)
Definition same_held d d' : Prop :=
  lu_held (m_libusb d') = lu_held (m_libusb d) /\ m_epInFlightTransfers d' = m_epInFlightTransfers d.
#[export] Instance same_held_preorder : PreOrder same_held.
Proof. unfold same_held. split; [by intros d|intros d1 d2 d3 [] []; split; congruence]. Qed.
Lemma same_held_agrees d d' : same_held d d' -> agrees d -> agrees d'.
Proof. intros [Hh Hi] [? ?]. unfold agrees, in_flight, deque_of. by rewrite Hh, Hi. Qed.
Lemma free_held p d : same_held d (set_lib (libusb_free_transfer p (m_libusb d)) d).
Proof. split; [|done]. simpl. by destruct (free_transfer_law p (m_libusb d)) as [-> _]. Qed.

Lemma createTransfer_held ep p n w : within same_held (createTransfer ep p n w : E Dev _).
Proof.
  unfold createTransfer. apply within_bind; [|intros ptr].
  - intros d r d'. unfold on_lib. pose proof (alloc_transfer_law (m_libusb d)) as Ha.
    destruct (libusb_alloc_transfer _). by intros [= _ <-].
  - destruct (ep_kind ep); try (case_match; [apply within_ub|apply within_ret]);
      (apply within_bind; [apply within_modify; intros d; apply free_held|intros _; apply within_fail]).
Qed.
Lemma new_transfer_held a dir p n w : within same_held (new_transfer a dir p n w : E Dev _).
Proof.
  unfold new_transfer, throw_if. apply within_bind; [apply within_gets|intros eps].
  case_match; [|apply within_fail].
  do 2 (apply within_bind; [case_match; [apply within_fail|apply within_ret]|intros _]).
  apply createTransfer_held.
Qed.

(** A new transfer is for the endpoint asked for. *)
Lemma find_ep_addr a l e : find_ep a l = Some e -> ep_addr e = a.
Proof.
  unfold find_ep. assert (Hr : forall r, (forall x, r = Some x -> ep_addr x = a) ->
    forall x, fold_left (fun r e => if ep_addr e =? a then Some e else r) l r = Some x -> ep_addr x = a).
  { induction l as [|y l IH]; intros r Hr; simpl; [done|]. apply IH.
    destruct (Z.eqb_spec (ep_addr y) a); [by intros x [= <-]|done]. }
  by apply Hr.
Qed.
Lemma new_transfer_endpoint a dir p n w d u d' :
  0 <= a < 256 -> new_transfer a dir p n w d = Some (Val u, d') -> u_endpoint u = a.
Proof.
  unfold new_transfer. intros Ha Hc. apply E_bind_cases in Hc as [(eps & d1 & _ & Hc)|(? & _ & [=])].
  destruct (find_ep a eps) as [e|] eqn:He; [|done]. apply find_ep_addr in He.
  do 2 apply E_bind_cases in Hc as [(? & ? & _ & Hc)|(? & _ & [=])].
  unfold createTransfer in Hc. apply E_bind_cases in Hc as [(ptr & d4 & _ & Hc)|(? & _ & [=])].
  destruct (ep_kind e); try (by injection Hc as []); destruct (ptr =? 0); try done; injection Hc as <- <-;
    simpl; by rewrite He, u8_small.
Qed.

Lemma dispatch_agrees a t d r d' :
  0 <= a < 256 -> u_endpoint (t_transfer t) = a -> agrees d -> dispatch a t d = Some (r, d') -> agrees d'.
Proof.
  intros Ha Ht Hg. unfold dispatch. rewrite (E_bind_val _ _ _ _ _ eq_refl).
  destruct (len (deque_of a d) <? MAX_IN_FLIGHT); [|by intros [= _ <-]].
  unfold mbind at 1, E_bind, on_lib. pose proof (submit_transfer_law (t_transfer t) (m_libusb d)) as Hs.
  destruct (libusb_submit_transfer _ _) as [err w]. simpl in Hs. destruct Hg as [Hh Hf].
  destruct (err <? 0); intros [= _ <-].
  - apply (same_held_agrees (set_lib w d)); [apply (free_held _ (set_lib w d))|]. split; [|done]. simpl. by rewrite Hs.
  - destruct (in_flight_split a (set_lib w d) Ha) as (A & B & Hd & Hset). split.
    + rewrite Hset. simpl. rewrite Hs, Hh. change (in_flight d) with (in_flight (set_lib w d)). rewrite Hd.
      change (deque_of a (set_lib w d)) with (deque_of a d). rewrite !map_app. simpl.
      assert (Htag : tag t = (u_endpoint (t_transfer t), u_ptr (t_transfer t))) by done. rewrite Htag. solve_Permutation.
    + simpl. apply map_Forall_insert_2; [|done]. apply Forall_app. split; [|by constructor].
      unfold deque_of. destruct (m_epInFlightTransfers d !! a) as [q|] eqn:Hq; [|constructor].
      exact (Hf a q Hq).
Qed.

Lemma submitTransfer_synced a dir p n w d r d' :
  0 <= a < 256 -> synced d -> submitTransfer a dir p n w d = Some (r, d') -> synced d'.
Proof.
  intros Ha [Hc Hg]%synced_agrees Hs. apply synced_agrees.
  split; [by apply submitTransfer_owed in Hs as (_ & Hx & _); auto|]. unfold submitTransfer in Hs.
  apply E_bind_cases in Hs as [(tok & d1 & Ht & Hs)|(c & Ht & _)]; apply new_token_eq in Ht as [[= ->] ->].
  assert (Hg1 : agrees (set_nextToken (m_nextToken d + 1) d)) by done.
  apply E_bind_cases in Hs as [(u & d2 & Hu & Hs)|(c & Hu & ->)];
    assert (Hg2 := same_held_agrees _ _ (new_transfer_held _ _ _ _ _ _ _ _ Hu) Hg1); [|done].
  apply new_transfer_endpoint in Hu; [|done].
  apply E_bind_cases in Hs as [(x & d3 & Hd & [= <- <-])|(c & Hd & ->)];
    exact (dispatch_agrees a (mkTransfer (m_nextToken d) u) _ _ _ Ha Hu Hg2 Hd).
Qed.

(** [submitTransfer] as the callers use it. *)
Lemma submit_synced a dir p n w d r d' :
  synced d -> (t ← submitTransfer (u8 a) dir p n w; mret (t_token t)) d = Some (r, d') -> synced d'.
Proof.
  intros Hd Hs. apply E_bind_cases in Hs as [(t & d1 & Ht & [= <- <-])|(c & Ht & ->)];
    eapply submitTransfer_synced; [apply u8_byte|done|exact Ht|apply u8_byte|done|exact Ht].
Qed.

Lemma set_lib_synced w d : synced d -> lu_held w = lu_held (m_libusb d) -> synced (set_lib w d).
Proof. intros [Hc Hh Hf] He. split; simpl; [done|by rewrite He|done]. Qed.
Lemma set_completed_synced l d : synced d -> synced (set_completed l d).
Proof. by intros [? ? ?]. Qed.
Lemma set_flag_synced b d : synced d -> synced (set_flag b d).
Proof. by intros [? ? ?]. Qed.
Lemma cancelTransfers_synced d : synced d -> synced (cancelTransfers d).
Proof. intros Hd. apply cancelTransfers_ready, Hd. Qed.

(** Nothing waits in the queue of the device. *)
Definition synced_unqueued d : Prop := synced d /\ m_queuedTransfers d = [].
Definition handled_state (h : handled) : option Dev :=
  match h with HReturn d | HError _ d => Some d | HNever => None end.

Lemma handle_events_synced n d d' :
  synced_unqueued d -> handled_state (handle_events n d) = Some d' -> synced_unqueued d'.
Proof.
  revert d. induction n as [|n IH]; intros d [Hs Hq]; simpl; [done|].
  pose proof (handle_event_law (m_completedFlag d) (m_libusb d)) as Hl.
  destruct (libusb_handle_event _ _) as [ep ptr st k data w|w|err w|]; simpl; [|intros [= <-]..|done].
  - apply IH. destruct (move_completed_synced ep ptr st k data d w Hs Hq Hl) as (Hs' & Hq' & _). by split.
  - split; [|done]. by apply set_lib_synced.
  - split; [|done]. by apply set_lib_synced.
Qed.
Lemma wait_completed_synced n d d' :
  synced_unqueued d -> handled_state (wait_completed n d) = Some d' -> synced_unqueued d'.
Proof.
  revert d. induction n as [|n IH]; intros d Hd; cbn [wait_completed];
    destruct (m_completedTransfers d); try done; try by intros [= <-].
  assert (Hf : synced_unqueued (set_flag false d)) by (by destruct Hd as [[? ? ?] ?]).
  pose proof (fun d1 => handle_events_synced (event_fuel d) (set_flag false d) d1 Hf) as Hh.
  destruct (handle_events _ _) as [d1|err d1|]; [|intros [= <-]|done]; [by apply IH, Hh|by apply Hh].
Qed.
Lemma pop_synced (t : Transfer P) rest d :
  synced_unqueued d ->
  synced_unqueued (set_lib (libusb_free_transfer (u_ptr (t_transfer t)) (m_libusb d)) (set_completed rest d)).
Proof.
  intros [Hs Hq]. split; [|done]. apply set_lib_synced; [by apply set_completed_synced|].
  by destruct (free_transfer_law (u_ptr (t_transfer t)) (m_libusb d)) as [-> _].
Qed.
Lemma completeTransfer_synced d :
  synced_unqueued d ->
  match completeTransfer d with CToken _ d' | CThrow d' => synced_unqueued d' | _ => True end.
Proof.
  intros Hd. unfold completeTransfer. destruct (_ && _); [done|].
  pose proof (wait_completed_synced (event_fuel d) d) as Hw.
  destruct (wait_completed _ _) as [d1|err d1|]; [|by apply Hw|done].
  unfold pop_completed. destruct (m_completedTransfers d1); [done|]. by apply pop_synced, Hw.
Qed.
Lemma forToken_synced n token d :
  synced_unqueued d ->
  match completeTransfer_forToken n token d with CToken _ d' | CThrow d' => synced_unqueued d' | _ => True end.
Proof.
  revert d. induction n as [|n IH]; intros d Hd; cbn [completeTransfer_forToken];
    destruct (rotate_to _ _ _) as [[t rest]|]; try done; try by apply pop_synced.
  assert (Hf : synced_unqueued (set_flag false d)) by (by destruct Hd as [[? ? ?] ?]).
  pose proof (fun d1 => handle_events_synced (event_fuel d) (set_flag false d) d1 Hf) as Hh.
  destruct (handle_events _ _) as [d1|err d1|]; [by apply IH, Hh| |done].
  destruct (err =? LIBUSB_ERROR_TIMEOUT); [by apply IH, Hh|by apply Hh].
Qed.

(** ** Sessions that never queue *)

(** The operations on the transfers of an open device. *)
Definition transfer_op (o : op (P := P)) : Prop :=
  match o with OConnect | ODisconnect => False | _ => True end.
(** No transfer has to wait in the queue before or after any operation: no
    endpoint is given more than [MAX_IN_FLIGHT] of them at a time. *)
Fixpoint never_queued (os : list (op (P := P))) d : Prop :=
  m_queuedTransfers d = [] /\
  match os with
  | [] => True
  | o :: os' => match run_op o d with Some (_, _, d') => never_queued os' d' | None => True end
  end.

Lemma run_op_synced o d acc ret d' :
  transfer_op o -> synced_unqueued d -> run_op o d = Some (acc, ret, d') -> synced d'.
Proof.
  intros Ho Hd Hr. assert (Hsub : forall r : option (result Z * Dev),
    (forall x d1, r = Some (x, d1) -> synced d1) -> submitted r = Some (acc, ret, d') -> synced d').
  { intros [[[t|c] d1]|] Hs; intros [=]; subst; by eapply Hs. }
  destruct o as [|ep p n|ep p n|ep p n| | |waits token|]; try done; simpl in Hr.
  - eapply Hsub; [|exact Hr]. intros x d1. apply submit_synced, Hd.
  - eapply Hsub; [|exact Hr]. intros x d1. apply submit_synced, Hd.
  - eapply Hsub; [|exact Hr]. intros x d1. apply submit_synced, Hd.
  - injection Hr as _ _ <-. apply cancelTransfers_synced, Hd.
  - pose proof (completeTransfer_synced d Hd) as Hc.
    destruct (completeTransfer d); try done; injection Hr as _ _ <-; (apply Hc || apply Hd).
  - pose proof (forToken_synced waits token d Hd) as Hc.
    destruct (completeTransfer_forToken _ _ d); try done; injection Hr as _ _ <-; (apply Hc || apply Hd).
Qed.
Lemma run_ops_synced os d acc ret d' :
  Forall transfer_op os -> never_queued os d -> synced d -> run_ops os d = Some (acc, ret, d') -> synced d'.
Proof.
  revert d acc ret. induction os as [|o os IH]; intros d acc ret Ho Hn Hd; simpl; [by intros [= _ _ <-]|].
  inversion Ho as [|? ? Ho1 Ho2]; subst. destruct Hn as [Hq Hn].
  destruct (run_op o d) as [[[acc1 ret1] d1]|] eqn:Hr; [|done]. simpl.
  destruct (run_ops os d1) as [[[acc2 ret2] d2]|] eqn:Hrs; [|done]. simpl. intros [= _ _ <-].
  eapply IH; [done|exact Hn| |exact Hrs]. by eapply run_op_synced.
Qed.

(** C32: on a device that was just opened, over a libusb that holds then none of
    its transfers, calls back for every transfer that was cancelled, and does so
    once, and after any submissions, completions and cancellations in which no
    transfer had to wait in the queue of the device: once [cancelTransfers] was
    called, as many calls of [completeTransfer] as there are transfers return
    them all, each once, and then none is pending, so the loop of a client that
    waits for what it cancelled comes to its end; and if libusb accepted what it
    was given, every transfer ever submitted has come back.  (With more than
    [MAX_IN_FLIGHT] transfers for an endpoint it can fail: [transfer_misfiled].) *)
Theorem cancelled_transfers_return id serial w d0 os acc ret d :
  connect (dev_create id serial w) = Some (Val tt, d0) -> lu_held (m_libusb d0) = [] ->
  Forall transfer_op os -> never_queued os d0 ->
  run_ops os d0 = Some (acc, ret, d) ->
  exists back d', run_ops (OCancel :: repeat OComplete (length (owed d))) d = Some ([], back, d') /\
    back ≡ₚ owed_tokens d /\ NoDup acc /\
    (accepting (W := W) (P := P) -> acc ≡ₚ ret ++ back) /\
    pendingTransfers d' = 0 /\ completeTransfer d' = CNone.
Proof.
  intros Hc Hh Ho Hn Hr. assert (Hb := connect_book _ _ _ Hc). assert (Hb' := Hb).
  apply same_book_owed in Hb' as (Hw & _ & Hcd).
  assert (Hc0 : counted (dev_create id serial w)) by (split; [done|intros ep; done]).
  assert (Hi0 : m_epInFlightTransfers d0 = ∅) by (unfold same_book, book in Hb; by injection Hb).
  assert (Hs0 : synced d0).
  { split; [by apply Hcd| |rewrite Hi0; apply map_Forall_empty].
    rewrite Hh. unfold in_flight, deque_of. rewrite Hi0.
    assert (He : forall l : list Z, (l ≫= fun ep => default [] ((∅ : gmap Z (list (Transfer P))) !! ep)) = []).
    { induction l as [|x l IH]; [done|]. simpl. rewrite lookup_empty. exact IH. }
    by rewrite He. }
  assert (Hs := run_ops_synced os d0 acc ret d Ho Hn Hs0 Hr).
  apply run_ops_accounts in Hr as [[(lost & Ht & Ha) _ _ _] Hnd].
  destruct (cancelled_drain d Hs) as (back & d' & Hd & Hp & Hz & He).
  exists back, d'. split; [done|]. split; [done|]. split; [done|]. split; [|done].
  intros Hacc. rewrite (Ha Hacc) in Ht. unfold owed_tokens in Ht at 1. rewrite Hw in Ht.
  change (map x_token (owed (dev_create id serial w))) with (@nil Z) in Ht. rewrite app_nil_r in Ht.
  by rewrite Ht, Hp.
Qed.
End sync.

(** ** On the scripted libusb *)

Lemma find_cancelled_picks c l ep p :
  find_cancelled c l = Some (ep, p) -> existsb (Z.eqb p) c = true /\ exists r, pick_held p l = Some (ep, r).
Proof.
  induction l as [|[e q] l IH]; simpl; [done|]. destruct (existsb (Z.eqb q) c) eqn:Hq.
  - intros [= -> ->]. split; [done|]. rewrite Z.eqb_refl. eauto.
  - intros Hf. destruct (IH Hf) as [Hp [r Hr]]. split; [done|].
    destruct (Z.eqb_spec q p) as [->|]; [by rewrite Hq in Hp|]. rewrite Hr. simpl. eauto.
Qed.

#[export] Instance script_sync_laws : SyncLaws script_usb Z.
Proof.
  split.
  - done.
  - intros u w. simpl. destruct (ul_room w) as [[|n]|]; simpl; [done|..]; by rewrite Permutation_app_comm.
  - intros flag w. simpl. destruct flag; [done|].
    assert (Hd : match (match '(ep, ptr) ← find_cancelled (ul_cancelled w) (ul_held w);
        Some (ep, ptr, LIBUSB_TRANSFER_CANCELLED, @nil Z, ul_script w) with
      | Some (ep, ptr, st, data, rest) => Some (ep, ptr)
      | None => None end) with
      | Some (ep, ptr) => exists r, pick_held ptr (ul_held w) = Some (ep, r)
      | None => True end).
    { destruct (find_cancelled _ _) as [[ep ptr]|] eqn:Hf; simpl; [|done]. by apply find_cancelled_picks in Hf as [_ ?]. }
    assert (Hgo : forall ep ptr r, pick_held ptr (ul_held w) = Some (ep, r) ->
      ul_held w ≡ₚ (ep, ptr) :: (default (0, []) (pick_held ptr (ul_held w))).2)
      by (intros ep ptr r Hp; rewrite Hp; by apply pick_held_perm).
    destruct (ul_script w) as [|[[ptr st] data] rest].
    + destruct (find_cancelled _ _) as [[ep ptr]|]; simpl in *; [|done]. destruct Hd as [r Hr]. by eapply Hgo.
    + destruct (pick_held ptr (ul_held w)) as [[ep r]|] eqn:Hp; simpl.
      * rewrite Hp. simpl. by apply pick_held_perm.
      * destruct (find_cancelled _ _) as [[ep ptr']|]; simpl in *; [|done]. destruct Hd as [r Hr]. by eapply Hgo.
Qed.

(** Three reads on an open device, one of which libusb has completed. *)
Definition busy_ops : list (op (P := Z)) :=
  [OQueuedRead 0x81 100 16; OQueuedRead 0x81 101 16; ORead 0x82 200 8; OComplete].
Definition busy_new : script_linux := usb_new [(2, LIBUSB_TRANSFER_COMPLETED, [1; 2])] None.
Fixpoint unqueued (os : list (op (P := Z))) (d : script_linux) : bool :=
  match m_queuedTransfers d with
  | [] => match os with
          | [] => true
          | o :: os' => match run_op o d with Some (_, _, d') => unqueued os' d' | None => true end
          end
  | _ => false
  end.
Lemma unqueued_never os d : unqueued os d = true -> never_queued os d.
Proof.
  revert d. induction os as [|o os IH]; intros d; simpl; destruct (m_queuedTransfers d); try done.
  intros Hu. split; [done|]. destruct (run_op o d) as [[[a r] d1]|]; [by apply IH|done].
Qed.
Definition busy_start : script_linux := dev_create script_id [65; 66] busy_new.
Definition busy_facts (d : script_linux) : option (bool * list Z * nat) :=
  p ← connect d;
  q ← run_ops busy_ops p.2;
  Some (match p.1 with Val _ => bool_decide (ul_held (m_libusb p.2) = []) | Fail _ => false end && unqueued busy_ops p.2,
        q.1.2, length (owed q.2)).
Lemma busy_run : busy_facts busy_start = Some (true, [1], 2%nat).
Proof. vm_compute. reflexivity. Qed.
Lemma busy_facts_inv start ret n :
  busy_facts start = Some (true, ret, n) ->
  exists d0 acc d, connect start = Some (Val tt, d0) /\ lu_held (m_libusb d0) = [] /\
    never_queued busy_ops d0 /\ run_ops busy_ops d0 = Some (acc, ret, d) /\ length (owed d) = n.
Proof.
  unfold busy_facts. intros Hall.
  destruct (connect _) as [[r d0]|] eqn:Hc; [|discriminate Hall]. cbn [fst snd mbind option_bind] in Hall.
  destruct (run_ops busy_ops d0) as [[[acc ret1] d]|] eqn:Hr; [|discriminate Hall].
  cbn [fst snd mbind option_bind] in Hall. apply (inj Some), pair_eq in Hall as [Hall Hl].
  apply pair_eq in Hall as [Hb Hret]. apply andb_prop in Hb as [Hb Hu]. destruct r as [[]|]; [|discriminate Hb].
  apply bool_decide_eq_true_1 in Hb. subst ret1. exists d0, acc, d. split_and!; try done. by apply unqueued_never.
Qed.

Lemma cancelled_transfers_return_witness :
  exists d0 acc d back d', connect busy_start = Some (Val tt, d0) /\
    run_ops busy_ops d0 = Some (acc, [1], d) /\ length (owed d) = 2%nat /\
    run_ops (OCancel :: repeat OComplete 2) d = Some ([], back, d') /\
    back ≡ₚ owed_tokens d /\ pendingTransfers d' = 0.
Proof.
  destruct (busy_facts_inv _ _ _ busy_run) as (d0 & acc & d & Hc & Hh & Hn & Hr & Hl).
  destruct (cancelled_transfers_return script_id [65; 66] busy_new d0 busy_ops acc [1] d Hc Hh
    ltac:(repeat constructor) Hn Hr) as (back & d' & Hd & Hp & _ & _ & Hz & _).
  rewrite Hl in Hd. exists d0, acc, d, back, d'. by split_and!.
Defined.
