(* ===== verification/UsbTransport.v ===== *)
(** The transport class over the USB device class: the thread that reads
    ([listen]) and the thread that calls [send] and [disconnect]
    ([client/cdebug/cswp_client_plat_if.cpp]) on one [USBDeviceLinux]
    ([client/plat_usb_if/usb_device_linux.cpp]), in any interleaving.

    Both wait in [completeTransfer_forToken], each for its own transfer, and
    whoever is in libusb completes the transfers of both.  A turn is what a
    thread does between two releases of the lock of the device; in libusb, one
    event. *)
From S2P Require Import Prelude Wire CswpTypes CswpBuffer Memory ClientCommands ClientState UsbIf PlatIf UsbDev UsbScript UsbDevInv UsbDrain.

(** Where the reading thread is: at the head of its loop, about to submit a
    transfer, looking for its transfer among the completed ones, in libusb, or at
    its end. *)
Inductive reader := RTop | RSubmit | RFind (token : Z) | RPump (token : Z) | REnd.
(** Where the caller is: in no call, in [send] with a message of [size] bytes,
    or in [disconnect], about to cancel the transfers or waiting for the reading
    thread. *)
Inductive caller := CIdle | CFind (token size : Z) | CPump (token size : Z) | CCancel | CJoin.

Section transport.
Context {W P : Type} `{LibUSB W P}.
Abbreviation Dev := (USBDeviceLinux W P).

(** The buffer of the reading thread, which is on its stack, and that of the
    message sent.  [u_left]: the transfers whose thread left the wait by an
    exception, so that their buffer is gone; it is no part of the program. *)
Context (read_buf cmd_buf : P).
Record duo := mkDuo {
  u_base : CSWPBase Dev;
  u_reader : reader;
  u_caller : caller;
  u_left : list (xfer P);
}.
Implicit Types s : duo.
Implicit Types d : Dev.

Definition device s : Dev := io (u_base s).
Definition with_dev d s : duo := mkDuo (set_io d (u_base s)) (u_reader s) (u_caller s) (u_left s).
Definition with_reader r s : duo := mkDuo (u_base s) r (u_caller s) (u_left s).
Definition with_caller c s : duo := mkDuo (u_base s) (u_reader s) c (u_left s).
Definition with_base b s : duo := mkDuo b (u_reader s) (u_caller s) (u_left s).
Definition leave token p s : duo := mkDuo (u_base s) (u_reader s) (u_caller s) (mkX token p :: u_left s).

(** ** [completeTransfer_forToken] in turns *)

(** The loop over the completed transfers; without success the flag is
    cleared. *)
Definition find_token (token : Z) d : option (Transfer P) * Dev :=
  match rotate_to token (m_completedTransfers d) [] with
  | Some (t, rest) =>
      (Some t, set_lib (libusb_free_transfer (u_ptr (t_transfer t)) (m_libusb d)) (set_completed rest d))
  | None => (None, set_flag false d)
  end.

(** In libusb: it handles an event and goes on, returns, or fails. *)
Inductive pumped := Handled d | Returned d | Failed d.
Definition pump d : pumped :=
  match libusb_handle_event (m_completedFlag d) (m_libusb d) with
  | EvDone ep ptr st n data w => Handled (transfer_complete (u8 ep) ptr st n data (set_lib w d))
  | EvReturn w => Returned (set_lib w d)
  | EvError err w => if err =? LIBUSB_ERROR_TIMEOUT then Returned (set_lib w d) else Failed (set_lib w d)
  | EvNever => Handled d
  end.

(** ** The reading thread *)

(** What it does with a transfer that has completed. *)
Definition sort_read (st : Transfer_Status) (data : list Z) (b : CSWPBase Dev) : CSWPBase Dev * reader :=
  match st with
  | Transfer_CANCELLED | Transfer_NODATA => (b, RTop)
  | Transfer_SUCCESS =>
      (if is_async_msg data then set_asyncQ (asyncQ b ++ [data]) b else set_respQ (respQ b ++ [data]) b, RTop)
  | _ => (set_thread (readThread b) false b, REnd)
  end.
(** [catch (...)] *)
Definition reader_throws s : duo :=
  with_reader REnd (with_base (set_thread (readThread (u_base s)) false (u_base s)) s).

Definition reader_turn s : option duo :=
  match u_reader s with
  | RTop => Some (with_reader (if readThread_running (u_base s) then RSubmit else REnd) s)
  | RSubmit =>
      match submitReadTransfer (m_epRsp (u_base s)) read_buf CSWP_REQ_RSP_BUFFER_SIZE (device s) with
      | Some (Val token, d) => Some (with_reader (RFind token) (with_dev d s))
      | Some (Fail _, d) => Some (reader_throws (with_dev d s))
      | None => None
      end
  | RFind token =>
      match find_token token (device s) with
      | (Some t, d) =>
          let '(b, r) := sort_read (map_libusb_status (u_status (t_transfer t))) (u_data (t_transfer t))
                           (set_io d (u_base s)) in
          Some (with_reader r (with_base b s))
      | (None, d) => Some (with_reader (RPump token) (with_dev d s))
      end
  | RPump token =>
      match pump (device s) with
      | Handled d => Some (with_dev d s)
      | Returned d => Some (with_reader (RFind token) (with_dev d s))
      | Failed d => Some (leave token read_buf (reader_throws (with_dev d s)))
      end
  | REnd => Some s
  end.

(** ** The caller *)

(** What a call returns. *)
Definition reply := option (outcome Z).
Definition returns (r : outcome Z) s : option (reply * duo) := Some (Some r, with_caller CIdle s).
Definition goes_on c s : option (reply * duo) := Some (None, with_caller c s).
Definition usb_error : outcome Z := USBException (bytes_of "USB").

Definition start_send (size : Z) s : option (reply * duo) :=
  if m_epCmd (u_base s) <? 0 then returns (Ret CSWP_NOT_INITIALIZED) s
  else
    match submitWriteTransfer (m_epCmd (u_base s)) cmd_buf size (device s) with
    | Some (Val token, d) => goes_on (CFind token size) (with_dev d s)
    | Some (Fail _, d) => returns usb_error (with_dev d s)
    | None => None
    end.
Definition sent_ok (t : Transfer P) (size : Z) : bool :=
  bool_decide (map_libusb_status (u_status (t_transfer t)) = Transfer_SUCCESS) &&
  (size <=? u64 (actual_length (t_transfer t))).

Definition end_disconnect s : option (reply * duo) :=
  returns (Ret 0) (if m_usb (u_base s) then with_dev (UsbDev.disconnect (device s)) s else s).
Definition start_disconnect s : option (reply * duo) :=
  if readThread_running (u_base s) then
    goes_on CCancel (with_base (set_thread (readThread (u_base s)) false (u_base s)) s)
  else end_disconnect s.
Definition cancel_disconnect s : option (reply * duo) :=
  let s1 := with_dev (cancelTransfers (device s)) s in
  if readThread (u_base s) then goes_on CJoin s1 else end_disconnect s1.

Inductive command := ASend (size : Z) | ADisconnect.
Definition caller_turn (c : command) s : option (reply * duo) :=
  match u_caller s with
  | CIdle => match c with ASend size => start_send size s | ADisconnect => start_disconnect s end
  | CFind token size =>
      match find_token token (device s) with
      | (Some t, d) =>
          returns (if sent_ok t size then Ret CSWP_SUCCESS
                   else CDebugEx CSWP_TXFAILED (bytes_of "Failed to send command")) (with_dev d s)
      | (None, d) => goes_on (CPump token size) (with_dev d s)
      end
  | CPump token size =>
      match pump (device s) with
      | Handled d => Some (None, with_dev d s)
      | Returned d => goes_on (CFind token size) (with_dev d s)
      | Failed d => returns usb_error (leave token cmd_buf (with_dev d s))
      end
  | CCancel => cancel_disconnect s
  | CJoin =>
      match u_reader s with
      | REnd => end_disconnect (with_base (set_thread false (readThread_running (u_base s)) (u_base s)) s)
      | _ => Some (None, s)
      end
  end.

(** ** The system

    In no call, [ACall] starts one; in a call it goes on whatever the argument. *)
Inductive turn := AReader | ACaller (c : command).
Definition turn_step (t : turn) s : option (reply * duo) :=
  match t with
  | AReader => s' ← reader_turn s; Some (None, s')
  | ACaller c => caller_turn c s
  end.
Fixpoint run_turns (ts : list turn) s : option (list reply * duo) :=
  match ts with
  | [] => Some ([], s)
  | t :: ts' =>
      '(a, s1) ← turn_step t s;
      '(l, s2) ← run_turns ts' s1;
      Some (a :: l, s2)
  end.

(** ** The transfers of the device *)

(** [xs] are the transfers of the device, all given to libusb. *)
Record holds (xs : list (xfer P)) d : Prop := {
  ho_owed : owed d ≡ₚ xs;
  ho_tokens : NoDup (map x_token xs);
  ho_next : Forall (fun x => x_token x < m_nextToken d) xs;
  ho_queue : m_queuedTransfers d = [];
  ho_counted : counted d;
}.

Lemma holds_perm xs ys d : xs ≡ₚ ys -> holds xs d -> holds ys d.
Proof.
  intros Hp [Ho Ht Hn Hq Hc]. constructor; try done; [by rewrite <- Hp|by rewrite <- Hp|by rewrite <- Hp].
Qed.
Lemma holds_same xs d d' :
  owed d' ≡ₚ owed d -> m_nextToken d' = m_nextToken d -> m_queuedTransfers d' = m_queuedTransfers d ->
  (counted d -> counted d') -> holds xs d -> holds xs d'.
Proof. intros Ho Hn Hq Hc [? ? ? ? ?]. constructor; rewrite ?Ho, ?Hn, ?Hq; auto. Qed.
Lemma holds_book xs d d' : same_book d d' -> holds xs d -> holds xs d'.
Proof.
  intros Hb. destruct (same_book_owed d d' Hb) as (Ho & Hn & Hc). unfold same_book, book in Hb.
  apply holds_same; [by rewrite Ho|done|congruence|done].
Qed.

Lemma deque_small a d : 0 <= a < 256 -> (length (deque_of a d) <= length (owed d))%nat.
Proof.
  intros Ha. destruct (in_flight_split a d Ha) as (A & B & E & _). unfold owed, owed_transfers.
  rewrite length_map, !length_app, E, !length_app. lia.
Qed.
(** With room on its endpoint a transfer does not wait in the queue. *)
Lemma submit_unqueued a dir p n w d r d' :
  0 <= a < 256 -> len (owed d) < MAX_IN_FLIGHT -> submitTransfer a dir p n w d = Some (r, d') ->
  m_queuedTransfers d' = m_queuedTransfers d.
Proof.
  intros Ha Hl Hs. unfold submitTransfer in Hs.
  apply E_bind_cases in Hs as [(tok & d1 & Ht & Hs)|(c & Ht & _)]; apply new_token_eq in Ht as [[= ->] ->].
  apply E_bind_cases in Hs as [(u & d2 & Hu & Hs)|(c & Hu & ->)];
    assert (Hb := new_transfer_book _ _ _ _ _ _ _ _ Hu);
    destruct (same_book_owed _ _ Hb) as (Ho & _ & _); unfold same_book, book in Hb; simpl in Hb; [|congruence].
  assert (Hq : m_queuedTransfers d2 = m_queuedTransfers d) by congruence. rewrite <- Hq.
  pose proof (deque_small a d2 Ha) as Hd. rewrite Ho in Hd.
  change (owed (set_nextToken _ d)) with (owed d) in Hd.
  assert (Hr : forall r' d3, dispatch a (mkTransfer (m_nextToken d) u) d2 = Some (r', d3) ->
    m_queuedTransfers d3 = m_queuedTransfers d2).
  { intros r' d3. unfold dispatch. rewrite (E_bind_val _ _ _ _ _ eq_refl).
    rewrite (proj2 (Z.ltb_lt _ _)) by lia. unfold mbind at 1, E_bind, on_lib.
    destruct (libusb_submit_transfer _ _) as [err wl]. destruct (err <? 0); by intros [= _ <-]. }
  apply E_bind_cases in Hs as [(x & d3 & Hd3 & [= _ <-])|(c & Hd3 & _)]; by eapply Hr.
Qed.

Lemma holds_submit xs a dir p n w d r d' :
  0 <= a < 256 -> len xs < MAX_IN_FLIGHT -> holds xs d -> submitTransfer a dir p n w d = Some (r, d') ->
  match r with Val t => holds (mkX (t_token t) p :: xs) d' | Fail _ => holds xs d' end.
Proof.
  intros Ha Hl [Ho Ht Hn Hq Hc] Hs.
  assert (Hqd : m_queuedTransfers d' = []).
  { rewrite <- Hq. eapply submit_unqueued; [done| |done]. by rewrite Ho. }
  apply submitTransfer_owed in Hs as (Hnx & Hcx & Hr); [|done]. specialize (Hcx Hc).
  assert (Hn' : Forall (fun x => x_token x < m_nextToken d') xs)
    by (eapply list.Forall_impl; [exact Hn|simpl; lia]).
  destruct r as [t|]; [|constructor; try done; by rewrite Hr].
  destruct Hr as [Hx Hr]. unfold xfer_of in Hx. injection Hx as Hx1 Hx2.
  constructor; [| | |done|done].
  - rewrite Hr, Ho. unfold xfer_of. by rewrite Hx2.
  - simpl. constructor; [|done]. rewrite Hx1. intros (y & Hy & Hin)%list_elem_of_In%in_map_iff.
    apply list_elem_of_In in Hin. pose proof (proj1 (list.Forall_forall _ _) Hn y Hin). simpl in *. lia.
  - constructor; [simpl; lia|done].
Qed.

Lemma rotate_to_token token l seen t rest :
  rotate_to token l seen = Some (t, rest) -> t_token (P := P) t = token.
Proof.
  revert seen. induction l as [|t0 l IH]; intros seen; simpl; [done|].
  destruct (Z.eqb_spec (t_token t0) token); [by intros [= <- _]|apply IH].
Qed.

Lemma holds_find token p xs d :
  holds (mkX token p :: xs) d ->
  match find_token token d with
  | (Some t, d') => xfer_of t = mkX token p /\ holds xs d'
  | (None, d') => holds (mkX token p :: xs) d'
  end.
Proof.
  intros Hh. unfold find_token. destruct (rotate_to _ _ _) as [[t rest]|] eqn:E;
    [|by eapply holds_same; [..|exact Hh]].
  pose proof (rotate_to_token _ _ _ _ _ E) as Ht. apply rotate_to_perm in E. simpl in E.
  destruct Hh as [Ho Hnd Hn Hq Hc].
  set (d' := set_lib _ _).
  assert (Hod : owed d ≡ₚ xfer_of t :: owed d').
  { unfold owed, owed_transfers, d'. change (in_flight (set_lib _ _)) with (in_flight d). simpl.
    rewrite E, !map_app. simpl. solve_Permutation. }
  assert (Hx : xfer_of t = mkX token p).
  { assert (Hin : xfer_of t ∈ mkX token p :: xs) by (rewrite <- Ho, Hod; constructor).
    apply elem_of_cons in Hin as [|Hin]; [done|]. simpl in Hnd. apply list.NoDup_cons in Hnd as [Hni _].
    destruct Hni. apply list_elem_of_In, in_map_iff. exists (xfer_of t). split; [done|]. by apply list_elem_of_In. }
  split; [done|]. constructor.
  - rewrite Ho, Hx in Hod. by apply Permutation_cons_inv in Hod.
  - simpl in Hnd. by apply list.NoDup_cons in Hnd as [_ ?].
  - by apply list.Forall_cons in Hn as [_ ?].
  - done.
  - done.
Qed.

Lemma holds_pump xs d :
  holds xs d -> match pump d with Handled d' | Returned d' | Failed d' => holds xs d' end.
Proof.
  intros Hh. unfold pump. destruct (libusb_handle_event _ _) as [ep ptr st n data w|w|err w|]; try done.
  - pose proof (transfer_complete_evolves (u8 ep) ptr st n data (set_lib w d) (u8_byte ep)) as [_ Hn Hc].
    unfold transfer_complete in *. set (d1 := move_completed _ _ _ _ _ _) in *.
    assert (Hq : m_queuedTransfers d1 = []).
    { transitivity (m_queuedTransfers d); [|by destruct Hh]. unfold d1, move_completed. by destruct (find_transfer _ _). }
    rewrite Hq in *. simpl in *. eapply holds_same; [| | | |exact Hh]; [|done|by rewrite Hq; destruct Hh|done].
    unfold d1. rewrite move_completed_owed by apply u8_byte. done.
  - by eapply holds_same; [..|exact Hh].
  - destruct (err =? _); by eapply holds_same; [..|exact Hh].
Qed.

Lemma holds_cancel xs d : holds xs d -> holds xs (cancelTransfers d).
Proof.
  intros Hh. destruct (cancelTransfers_owed d) as (Ho & Hn & Hc).
  eapply holds_same; [exact Ho|exact Hn| |exact Hc|exact Hh]. by rewrite (ho_queue _ _ Hh).
Qed.

(** ** Every transfer has its waiter *)

Definition reader_waits (r : reader) : list (xfer P) :=
  match r with RFind token | RPump token => [mkX token read_buf] | RTop | RSubmit | REnd => [] end.
Definition caller_waits (c : caller) : list (xfer P) :=
  match c with CFind token _ | CPump token _ => [mkX token cmd_buf] | CIdle | CCancel | CJoin => [] end.
Definition waited s : list (xfer P) := reader_waits (u_reader s) ++ caller_waits (u_caller s).
Definition kept s : Prop := u_left s = [] -> holds (waited s) (device s).

Lemma reader_waits_short r : (length (reader_waits r) <= 1)%nat.
Proof. destruct r; simpl; lia. Qed.
Lemma caller_waits_short c : (length (caller_waits c) <= 1)%nat.
Proof. destruct c; simpl; lia. Qed.
Lemma waited_short s : len (waited s) < MAX_IN_FLIGHT.
Proof.
  unfold waited. rewrite length_app. pose proof (reader_waits_short (u_reader s)).
  pose proof (caller_waits_short (u_caller s)). unfold MAX_IN_FLIGHT. lia.
Qed.

(** [submitTransfer] as the two threads call it. *)
Lemma holds_submitted xs a dir p n w d r d' :
  len xs < MAX_IN_FLIGHT -> holds xs d ->
  (t ← submitTransfer (u8 a) dir p n w; mret (t_token t)) d = Some (r, d') ->
  match r with Val token => holds (mkX token p :: xs) d' | Fail _ => holds xs d' end.
Proof.
  intros Hl Hh Hs. apply E_bind_cases in Hs as [(t & d1 & Ht & [= <- <-])|(c & Ht & ->)];
    by apply (holds_submit xs _ _ _ _ _ _ _ _ (u8_byte a) Hl Hh) in Ht.
Qed.

Lemma sort_read_spec st data b b' r :
  sort_read st data b = (b', r) -> io b' = io b /\ reader_waits r = [].
Proof. destruct st; simpl; intros [= <- <-]; try done. by destruct (is_async_msg data). Qed.

Lemma reader_turn_kept s s' : kept s -> reader_turn s = Some s' -> kept s'.
Proof.
  intros Hk. pose proof (waited_short s) as Hl. unfold kept, waited, device in *.
  unfold reader_turn, device. destruct (u_reader s) as [| |token|token|] eqn:Hr; cbn [reader_waits app] in *.
  - intros [= <-]. by destruct (readThread_running (u_base s)).
  - destruct (submitReadTransfer _ _ _ _) as [[[token|c] d]|] eqn:Hs; [| |done]; intros [= <-] Hleft;
      exact (holds_submitted _ _ _ _ _ _ _ _ _ Hl (Hk Hleft) Hs).
  - destruct (find_token token (io (u_base s))) as [[t|] d] eqn:Hf.
    + destruct (sort_read _ _ _) as [b r] eqn:Hsr. intros [= <-] Hleft.
      apply sort_read_spec in Hsr as [Hio Hw]. simpl. rewrite Hio, Hw.
      pose proof (holds_find token read_buf _ _ (Hk Hleft)) as Hh. rewrite Hf in Hh. apply Hh.
    + intros [= <-] Hleft. pose proof (holds_find token read_buf _ _ (Hk Hleft)) as Hh. by rewrite Hf in Hh.
  - destruct (pump (io (u_base s))) as [d|d|d] eqn:Hp; intros [= <-] Hleft; try done;
      pose proof (holds_pump _ _ (Hk Hleft)) as Hh; rewrite Hp in Hh; simpl; by rewrite ?Hr.
  - intros [= <-]. by rewrite Hr.
Qed.

Lemma end_disconnect_kept s a s' :
  (u_left s = [] -> holds (reader_waits (u_reader s)) (device s)) -> end_disconnect s = Some (a, s') -> kept s'.
Proof.
  intros Hk [= _ <-] Hleft. unfold waited. simpl. rewrite app_nil_r.
  destruct (m_usb (u_base s)); simpl in *; [|by apply Hk]. eapply holds_book; [|by apply Hk]. done.
Qed.

Lemma caller_turn_kept c s a s' : kept s -> caller_turn c s = Some (a, s') -> kept s'.
Proof.
  intros Hk. pose proof (waited_short s) as Hl. unfold kept, waited, device in Hk, Hl.
  assert (Hcons : forall token, u_caller s <> CIdle -> caller_waits (u_caller s) = [mkX token cmd_buf] ->
    u_left s = [] -> holds (mkX token cmd_buf :: reader_waits (u_reader s)) (device s)).
  { intros token _ Hc Hleft. eapply holds_perm; [|by apply Hk]. rewrite Hc. by rewrite Permutation_app_comm. }
  unfold caller_turn. destruct (u_caller s) as [|token size|token size| |] eqn:Hc; cbn [caller_waits] in *;
    rewrite ?app_nil_r in *.
  - destruct c as [size|].
    + unfold start_send. destruct (_ <? 0); [intros [= _ <-] Hleft; unfold waited; simpl; rewrite app_nil_r; by apply Hk|].
      destruct (submitWriteTransfer _ _ _ _) as [[[token|c] d]|] eqn:Hs; [| |done]; intros [= _ <-] Hleft;
        pose proof (holds_submitted _ _ _ _ _ _ _ _ _ Hl (Hk Hleft) Hs) as Hh; unfold waited; simpl;
        rewrite ?app_nil_r; [|done]. eapply holds_perm; [|exact Hh]. by rewrite Permutation_app_comm.
    + unfold start_disconnect. destruct (readThread_running (u_base s)); [|by apply end_disconnect_kept].
      intros [= _ <-] Hleft. unfold waited. simpl. rewrite app_nil_r. by apply Hk.
  - destruct (find_token token (device s)) as [[t|] d] eqn:Hf; intros [= _ <-] Hleft;
      pose proof (holds_find token cmd_buf _ _ (Hcons token ltac:(done) eq_refl Hleft)) as Hh; rewrite Hf in Hh;
      unfold waited; simpl; rewrite ?app_nil_r; [by destruct Hh|].
    eapply holds_perm; [|exact Hh]. by rewrite Permutation_app_comm.
  - destruct (pump (device s)) as [d|d|d] eqn:Hp; intros [= _ <-] Hleft; try done;
      pose proof (holds_pump _ _ (Hk Hleft)) as Hh; unfold device in Hp; rewrite Hp in Hh;
      unfold waited; simpl; by rewrite ?Hc.
  - unfold cancel_disconnect. destruct (readThread (u_base s)).
    + intros [= _ <-] Hleft. unfold waited. simpl. rewrite app_nil_r. by apply holds_cancel, Hk.
    + apply end_disconnect_kept. intros Hleft. by apply holds_cancel, Hk.
  - destruct (u_reader s) eqn:Hr; try (intros [= _ <-]; unfold kept, waited; rewrite Hc, Hr; simpl; by rewrite ?app_nil_r).
    apply end_disconnect_kept. simpl. rewrite Hr. done.
Qed.

(** What every turn preserves holds in the end. *)
Lemma run_turns_invariant (I : duo -> Prop) :
  (forall s s', I s -> reader_turn s = Some s' -> I s') ->
  (forall c s a s', I s -> caller_turn c s = Some (a, s') -> I s') ->
  forall ts s l s', I s -> run_turns ts s = Some (l, s') -> I s'.
Proof.
  intros Hr Hc. induction ts as [|t ts IH]; intros s l s' Hs; simpl; [by intros [= _ <-]|].
  destruct (turn_step t s) as [[a s1]|] eqn:Ht; [|done]. simpl.
  destruct (run_turns ts s1) as [[l1 s2]|] eqn:Hrun; [|done]. intros [= _ <-]. eapply IH; [|exact Hrun].
  destruct t as [|c]; simpl in Ht; [|by eapply Hc].
  destruct (reader_turn s) as [s3|] eqn:Hx; [|done]. injection Ht as _ <-. by eapply Hr.
Qed.
Lemma run_turns_kept ts s l s' : kept s -> run_turns ts s = Some (l, s') -> kept s'.
Proof. apply run_turns_invariant; [apply reader_turn_kept|apply caller_turn_kept]. Qed.

(** Just connected: the device has no transfers, and the reading thread is at
    the head of its loop. *)
Record connected s : Prop := {
  co_device : holds [] (device s);
  co_reader : u_reader s = RTop;
  co_caller : u_caller s = CIdle;
  co_left : u_left s = [];
}.

(** ** The reading thread has ended when [disconnect] returns *)

(** A turn of the caller in a call of [disconnect]. *)
Definition disconnecting (c : command) s : Prop :=
  match u_caller s with CCancel | CJoin => True | CIdle => c = ADisconnect | _ => False end.

(** The thread was started and is to go on until [disconnect] says otherwise,
    or it has ended by itself. *)
Record joinable s : Prop := {
  jn_started : readThread_running (u_base s) = true -> readThread (u_base s) = true;
  jn_running : match u_caller s with
               | CCancel | CJoin => readThread_running (u_base s) = false
               | _ => readThread_running (u_base s) = true \/ u_reader s = REnd
               end;
  jn_cancel : u_caller s = CCancel -> readThread (u_base s) = true;
}.

Lemma reader_turn_joinable s s' : joinable s -> reader_turn s = Some s' -> joinable s'.
Proof.
  intros [H1 H2 H3]. unfold reader_turn. destruct (u_reader s) as [| |token|token|] eqn:Hr.
  - intros [= <-]. destruct (readThread_running (u_base s)) eqn:E; constructor; simpl; rewrite ?E; auto;
      destruct (u_caller s); auto; destruct H2; congruence.
  - destruct (submitReadTransfer _ _ _ _) as [[[token|c] d]|]; [| |done]; intros [= <-]; constructor; simpl; auto;
      destruct (u_caller s); auto; destruct H2; auto; congruence.
  - destruct (find_token _ _) as [[t|] d].
    + destruct (sort_read _ _ _) as [b r] eqn:Hs. intros [= <-].
      assert (Hb : readThread b = readThread (u_base s) /\
        (readThread_running b = readThread_running (u_base s) \/ readThread_running b = false /\ r = REnd)).
      { unfold sort_read in Hs. destruct (map_libusb_status _); injection Hs as <- <-; auto.
        by destruct (is_async_msg _); auto. }
      destruct Hb as [Hb1 Hb2]. constructor; simpl; rewrite ?Hb1; auto.
      * intros E. apply H1. destruct Hb2 as [<-|[? _]]; congruence.
      * destruct Hb2 as [->|[-> ->]]; destruct (u_caller s); auto; destruct H2; auto; congruence.
    + intros [= <-]. constructor; simpl; auto; destruct (u_caller s); auto; destruct H2; auto; congruence.
  - destruct (pump _) as [d|d|d]; intros [= <-]; constructor; simpl; auto; rewrite ?Hr;
      destruct (u_caller s); auto; destruct H2; auto; congruence.
  - intros [= <-]. constructor; rewrite ?Hr; auto.
Qed.
Lemma caller_turn_joinable c s a s' : joinable s -> caller_turn c s = Some (a, s') -> joinable s'.
Proof.
  intros [H1 H2 H3]. unfold caller_turn. destruct (u_caller s) as [|token size|token size| |] eqn:Hc.
  - destruct c as [size|].
    + unfold start_send. destruct (_ <? 0); [intros [= _ <-]; by constructor|].
      destruct (submitWriteTransfer _ _ _ _) as [[[token|c] d]|]; [| |done]; intros [= _ <-]; by constructor.
    + unfold start_disconnect. destruct (readThread_running (u_base s)) eqn:E.
      * intros [= _ <-]. constructor; simpl; auto; done.
      * destruct H2 as [|H2]; [done|]. intros [= _ <-]. destruct (m_usb (u_base s)); constructor; simpl; auto; congruence.
  - destruct (find_token _ _) as [[t|] d]; intros [= _ <-]; by constructor.
  - destruct (pump _) as [d|d|d]; intros [= _ <-]; constructor; simpl; rewrite ?Hc; auto; done.
  - unfold cancel_disconnect. rewrite H3 by done. intros [= _ <-]. constructor; simpl; auto; done.
  - destruct (u_reader s) eqn:Hr; try (intros [= _ <-]; constructor; rewrite ?Hc, ?Hr; auto; done).
    intros [= _ <-]. simpl. destruct (m_usb (u_base s)); constructor; simpl; auto; congruence.
Qed.
(** So the turn in which [disconnect] returns finds the thread at its end. *)
Lemma disconnect_joins c s r s' :
  joinable s -> disconnecting c s -> caller_turn c s = Some (Some r, s') ->
  u_reader s' = REnd /\ u_caller s' = CIdle /\ u_left s' = u_left s.
Proof.
  intros [H1 H2 H3]. unfold disconnecting, caller_turn. destruct (u_caller s); try done.
  - intros ->. unfold start_disconnect. destruct (readThread_running (u_base s)); [done|]. destruct H2 as [|H2]; [done|].
    intros [= _ <-]. by destruct (m_usb (u_base s)).
  - intros _. unfold cancel_disconnect. rewrite H3 by done. done.
  - intros _. destruct (u_reader s) eqn:Hr; try done. intros [= _ <-]. simpl. by destruct (m_usb (u_base s)).
Qed.

(** C38: the transport over the USB device class, with its two threads in any
    interleaving and libusb calling back in any order: as long as libusb reports
    no error to a thread that waits ([u_left]), the transfers of the device are
    exactly those that a thread waits for, into the buffer of that thread; none
    is left to the queue; what a thread finds under its token was read into its
    own buffer; and in the turn in which a call of [disconnect] returns, the
    reading thread has ended and the device has no transfer left, so none that
    points into a buffer that is gone. *)
Theorem transfers_have_waiters ts s l s' :
  connected s -> readThread (u_base s) = true -> readThread_running (u_base s) = true ->
  run_turns ts s = Some (l, s') -> u_left s' = [] ->
  owed (device s') ≡ₚ waited s' /\ NoDup (map x_token (waited s')) /\
  m_queuedTransfers (device s') = [] /\
  (forall token t d, u_reader s' = RFind token -> find_token token (device s') = (Some t, d) ->
    xfer_of t = mkX token read_buf) /\
  (forall c r s2, disconnecting c s' -> caller_turn c s' = Some (Some r, s2) ->
    u_reader s2 = REnd /\ owed (device s2) = []).
Proof.
  intros Hco Hth Hgo Hrun Hleft. pose proof Hco as [Hd Hr Hc Hl].
  assert (Hk : kept s) by (intros _; unfold waited; by rewrite Hr, Hc).
  pose proof (run_turns_kept _ _ _ _ Hk Hrun) as Hk'. pose proof (Hk' Hleft) as Hh. pose proof Hh as [Ho Hn _ Hq _].
  assert (Hj : joinable s') by (eapply (run_turns_invariant joinable);
    [exact reader_turn_joinable|exact caller_turn_joinable| |exact Hrun];
    constructor; [done|rewrite Hc; by left|by rewrite Hc]).
  split_and!; try done.
  - intros token t d Hf Hfind. unfold waited in Hh. rewrite Hf in Hh. simpl in Hh.
    pose proof (holds_find token read_buf _ _ Hh) as Hx'. rewrite Hfind in Hx'. by destruct Hx'.
  - intros c r s2 Hdi Ht. destruct (disconnect_joins c s' r s2 Hj Hdi Ht) as (He & Hi & Hl2). split; [done|].
    pose proof (caller_turn_kept c s' _ s2 Hk' Ht ltac:(congruence)) as Hh2. destruct Hh2 as [Ho2 _ _ _ _].
    unfold waited in Ho2. rewrite He, Hi in Ho2. by apply Permutation_nil_r in Ho2.
Qed.
End transport.

Section facts.
Context {W P : Type} `{LibUSB W P} (read_buf cmd_buf : P).
Implicit Types s : duo (W := W) (P := P).

(** While the reading thread is to go on, its turns are steps of [listen] in
    [PlatIf.v], or do not touch the queues. *)
Lemma reader_is_listen s s' :
  readThread_running (u_base s) = true -> reader_turn read_buf s = Some s' ->
  exists d, (u_base s' = set_io d (u_base s) /\ (u_reader s' = REnd -> u_reader s = REnd)) \/
    exists e, u_base s' = listen e (set_io d (u_base s)).
Proof.
  intros Hrun. unfold reader_turn. rewrite Hrun. destruct (u_reader s) as [| |token|token|] eqn:Hr.
  - intros [= <-]. exists (device s). left. split; [|done]. unfold device. simpl. by destruct (u_base s).
  - destruct (submitReadTransfer _ _ _ _) as [[[token|c] d]|]; [| |done]; intros [= <-]; exists d.
    + by left.
    + right. exists ReadThrow. unfold listen. simpl. by rewrite Hrun.
  - destruct (find_token token (device s)) as [[t|] d].
    + destruct (sort_read _ _ _) as [b r] eqn:Hs. intros [= <-]. exists d. right.
      exists (ReadDone (map_libusb_status (u_status (t_transfer t))) (u_data (t_transfer t))).
      unfold listen. simpl. rewrite Hrun. unfold sort_read in Hs.
      destruct (map_libusb_status _); by injection Hs as <- <-.
    + intros [= <-]. exists d. by left.
  - destruct (pump (device s)) as [d|d|d]; intros [= <-]; exists d.
    + left. split; [done|]. simpl. congruence.
    + by left.
    + right. exists ReadThrow. unfold listen. simpl. by rewrite Hrun.
  - intros [= <-]. exists (device s). left. split; [|done]. unfold device. by destruct (u_base s).
Qed.

(** When libusb reports an error to a thread that waits, the thread leaves, and
    the device still has its transfer, into the stack of the thread. *)
Lemma error_leaves_transfer s s' token d xs :
  u_reader s = RPump token -> holds (mkX token read_buf :: xs) (device s) -> pump (device s) = Failed d ->
  reader_turn read_buf s = Some s' ->
  u_reader s' = REnd /\ mkX token read_buf ∈ owed (device s').
Proof.
  intros Hr Hh Hp. unfold reader_turn. rewrite Hr, Hp. intros [= <-]. split; [done|].
  pose proof (holds_pump _ _ Hh) as Hd. rewrite Hp in Hd. simpl. rewrite (ho_owed _ _ Hd). constructor.
Qed.
End facts.

(** ** A session *)

Definition duo_start (script : list (Z * libusb_status * list Z)) : duo (W := script_usb) (P := Z) :=
  mkDuo (mkBase ex_usb (-1) 1 0x81 true true true [] []
    (match connect (usb_new script None) with Some (_, d) => d | None => usb_new script None end)) RTop CIdle [].
Lemma duo_connected script : connected (duo_start script).
Proof.
  assert (Hd : same_book (usb_new script None) (device (duo_start script))) by reflexivity.
  constructor; try done. eapply holds_book; [exact Hd|]. constructor; try done; try constructor.
  all: done.
Qed.

(** A message is sent while the reading thread waits, its response arrives, the
    caller starts to disconnect, and the reading thread comes to its end. *)
Definition duo_turns : list turn :=
  [AReader; AReader; AReader; ACaller (ASend 3); ACaller (ASend 3); ACaller (ASend 3); ACaller (ASend 3); ACaller (ASend 3);
   AReader; AReader; AReader; AReader; AReader; AReader; AReader; AReader; AReader;
   ACaller ADisconnect; ACaller ADisconnect; AReader; AReader; AReader; AReader; AReader].
Definition duo_script : list (Z * libusb_status * list Z) :=
  [(2, LIBUSB_TRANSFER_COMPLETED, [1; 2; 3]); (1, LIBUSB_TRANSFER_COMPLETED, [9; 8])].

Lemma transfers_have_waiters_witness :
  exists l s' s2, run_turns 100 200 duo_turns (duo_start duo_script) = Some (l, s') /\
    omap id l = [Ret 0] /\ respQ (u_base s') = [[9; 8]] /\ u_caller s' = CJoin /\
    caller_turn 200 ADisconnect s' = Some (Some (Ret 0), s2) /\ owed (device s2) = [].
Proof.
  eexists _, _, _. split; [vm_compute; reflexivity|]. split; [reflexivity|]. split; [reflexivity|]. split; [reflexivity|].
  split; [vm_compute; reflexivity|].
  refine (proj2 (proj2 (proj2 (proj2 (proj2 (transfers_have_waiters 100 200 duo_turns (duo_start duo_script) _ _
    (duo_connected duo_script) _ _ _ _)))) ADisconnect (Ret 0) _ _ _));
    [reflexivity|reflexivity|vm_compute; reflexivity|reflexivity|exact I|vm_compute; reflexivity].
Defined.

(** A wake-up is lost: the reading thread handles the completion of the message
    in libusb, does not find its own transfer, and clears the flag before the
    caller enters libusb.  The message is sent, but the caller sleeps until
    something else happens. *)
Definition lost_turns : list turn :=
  [AReader; AReader; AReader; ACaller (ASend 3); ACaller (ASend 3); AReader; AReader; AReader].
Example lost_wakeup :
  match run_turns 100 200 lost_turns (duo_start [(2, LIBUSB_TRANSFER_COMPLETED, [1; 2; 3])]) with
  | Some (_, s) =>
      u_caller s = CPump 1 3 /\ map t_token (m_completedTransfers (device s)) = [1] /\
      m_completedFlag (device s) = false /\ pump (device s) = Handled (device s)
  | None => False
  end.
Proof. vm_compute. by split_and!. Qed.
