(* ===== verification/UsbJoin.v ===== *)
(** [disconnect] over USB returns: no wake-up is lost for good between the two
    threads of [UsbTransport.v], the device and libusb agree ([UsbSync.v]), and
    once its transfer is cancelled the reading thread comes to its end. *)
From S2P Require Import Prelude Wire CswpTypes CswpBuffer Memory ClientCommands ClientState UsbIf PlatIf UsbDev UsbScript UsbDevInv UsbDrain UsbSync UsbTransport.

(** ** No wake-up is lost for good *)

Section awake.
Context {W P : Type} `{LibUSB W P} (read_buf cmd_buf : P).
Abbreviation Dev := (USBDeviceLinux W P).
Implicit Types s : duo (W := W) (P := P).
Implicit Types d : Dev.

Definition done_tokens d : list Z := map t_token (m_completedTransfers d).

(** The token of a thread that is in libusb, and of one that waits at all. *)
Definition reader_pumps (r : reader) : option Z := match r with RPump t => Some t | _ => None end.
Definition reader_token (r : reader) : option Z := match r with RPump t | RFind t => Some t | _ => None end.
Definition caller_pumps (c : caller) : option Z := match c with CPump t _ => Some t | _ => None end.
Definition caller_token (c : caller) : option Z := match c with CPump t _ | CFind t _ => Some t | _ => None end.

(** If the transfer of a thread in libusb has completed, then the flag is set,
    or the other thread waits for a transfer that has not completed. *)
Definition wakes (me other : option Z) d : Prop :=
  forall token, me = Some token -> (token ∈ done_tokens d) ->
    m_completedFlag d = true \/ (exists t, other = Some t /\ t ∉ done_tokens d).
Definition awake s : Prop :=
  wakes (reader_pumps (u_reader s)) (caller_token (u_caller s)) (device s) /\
  wakes (caller_pumps (u_caller s)) (reader_token (u_reader s)) (device s).

(** What a turn does to the completed transfers and to the flag. *)
Definition quiet d d' : Prop := done_tokens d' = done_tokens d /\ m_completedFlag d' = m_completedFlag d.
Lemma wakes_quiet me other d d' : quiet d d' -> wakes me other d -> wakes me other d'.
Proof. unfold wakes. intros [-> ->]. done. Qed.
Lemma wakes_flag me other d : m_completedFlag d = true -> wakes me other d.
Proof. intros Hf token _ _. by left. Qed.
Lemma wakes_none other d : wakes None other d.
Proof. by intros token [=]. Qed.
(** A thread that does not wait cannot be what the other one relies on. *)
Lemma wakes_alone me other d : wakes me None d -> wakes me other d.
Proof. intros Hw token Hm Hd. destruct (Hw token Hm Hd) as [|(t & [=] & _)]. by left. Qed.

Lemma rotate_to_none token (l seen : list (Transfer P)) :
  rotate_to token l seen = None -> token ∉ map t_token l.
Proof.
  revert seen. induction l as [|t l IH]; intros seen; simpl; [intros _; apply not_elem_of_nil|].
  destruct (Z.eqb_spec (t_token t) token) as [|Hne]; [done|]. intros Hr. apply not_elem_of_cons.
  split; [congruence|by eapply IH].
Qed.
Lemma find_fails token d d' :
  find_token token d = (None, d') -> (token ∉ done_tokens d') /\ done_tokens d' = done_tokens d.
Proof.
  unfold find_token. destruct (rotate_to _ _ _) as [[t rest]|] eqn:E; [done|]. intros [= <-].
  split; [by eapply rotate_to_none|done].
Qed.
Lemma find_takes token d t d' :
  find_token token d = (Some t, d') ->
  token ∈ done_tokens d /\ m_completedFlag d' = m_completedFlag d /\
  forall x, x ∈ done_tokens d' -> x ∈ done_tokens d.
Proof.
  unfold find_token. destruct (rotate_to _ _ _) as [[t0 rest]|] eqn:E; [|done]. intros [= -> <-].
  pose proof (rotate_to_token _ _ _ _ _ E) as Ht. apply rotate_to_perm in E. simpl in E.
  assert (Hp : done_tokens d ≡ₚ t_token t :: map t_token rest) by (unfold done_tokens; by rewrite E).
  split; [rewrite Hp, Ht; constructor|]. split; [done|]. intros x Hx. rewrite Hp. by right.
Qed.

(** The thread [other] takes its transfer, or looks for it in vain. *)
Lemma wakes_taken me token d t d' :
  find_token token d = (Some t, d') -> wakes me (Some token) d -> wakes me None d'.
Proof.
  intros (Hin & Hf & Hsub)%find_takes Hw x Hm Hx. destruct (Hw x Hm (Hsub x Hx)) as [Hfl|(t0 & [= <-] & Hn)].
  - left. by rewrite Hf.
  - done.
Qed.
Lemma wakes_failed me token d d' :
  find_token token d = (None, d') -> wakes me (Some token) d'.
Proof. intros [Hn _]%find_fails x _ _. right. by exists token. Qed.
Lemma wakes_own token other d d' : find_token token d = (None, d') -> wakes (Some token) other d'.
Proof. intros [Hn _]%find_fails x [= <-] Hx. done. Qed.

Lemma pump_wakes d :
  m_queuedTransfers d = [] ->
  match pump d with
  | Handled d' => quiet d d' \/ m_completedFlag d' = true
  | Returned d' | Failed d' => quiet d d'
  end.
Proof.
  intros Hq. unfold pump. destruct (libusb_handle_event _ _) as [ep ptr st n data w|w|err w|]; [|done| |by left].
  - assert (Hqm : m_queuedTransfers (move_completed (u8 ep) ptr st n data (set_lib w d)) = [])
      by (unfold move_completed; by destruct (find_transfer _ _)).
    unfold transfer_complete. rewrite Hqm. simpl. unfold move_completed.
    destruct (find_transfer _ _); [by right|by left].
  - by destruct (err =? _).
Qed.

#[export] Instance quiet_preorder : PreOrder quiet.
Proof. unfold quiet. split; [by intros d|intros d1 d2 d3 [] []; split; congruence]. Qed.
Lemma on_lib_quiet {A} (f : W -> A * W) : within quiet (on_lib f : E Dev A).
Proof. intros d r d'. unfold on_lib. destruct (f (m_libusb d)) as [a w]. by intros [= <- <-]. Qed.
Lemma submit_quiet a dir p n w : within quiet (submitTransfer a dir p n w : E Dev (Transfer P)).
Proof.
  unfold submitTransfer, new_token, new_transfer, createTransfer, dispatch, throw_if.
  within_with ltac:(first [done | apply within_ret | apply within_fail | apply within_ub | apply within_gets
                          | apply on_lib_quiet]).
Qed.
Lemma submitted_quiet a dir p n w d r d' :
  (t ← submitTransfer a dir p n w; mret (t_token t)) d = Some (r, d') -> quiet d d'.
Proof. apply within_bind; [apply submit_quiet|intros t; apply within_ret]. Qed.
Lemma cancel_quiet d : m_queuedTransfers d = [] -> quiet d (cancelTransfers d).
Proof. intros Hq. unfold quiet, done_tokens, cancelTransfers. simpl. rewrite Hq. by rewrite app_nil_r. Qed.

Definition sound s : Prop := u_left s = [] -> awake s.
Lemma quiet_sound me other d d' : wakes me other d -> quiet d d' -> wakes me other d'.
Proof. intros Hw Hq. by eapply wakes_quiet. Qed.

(** A turn in libusb. *)
Lemma pump_sound me other d d' :
  (quiet d d' \/ m_completedFlag d' = true) -> wakes me other d -> wakes me other d'.
Proof. intros [Hq|Hf]; [by apply wakes_quiet|by intros _; apply wakes_flag]. Qed.

Lemma reader_turn_sound s s' :
  kept read_buf cmd_buf s -> sound s -> reader_turn read_buf s = Some s' -> sound s'.
Proof.
  intros Hk Hs. unfold sound, awake, device in *.
  unfold reader_turn, device. destruct (u_reader s) as [| |token|token|] eqn:Hr; cbn [reader_pumps reader_token] in *.
  - intros [= <-] Hl. destruct (Hs Hl) as [_ Hc1].
    destruct (readThread_running (u_base s)); (split; [apply wakes_none|exact Hc1]).
  - destruct (submitReadTransfer _ _ _ _) as [[[token|c] d]|] eqn:Hsub; [| |done]; intros [= <-] Hl;
      destruct (Hs Hl) as [Hr1 Hc1]; apply submitted_quiet in Hsub; simpl; (split; [apply wakes_none|]);
      (eapply wakes_quiet; [exact Hsub|]); by eapply wakes_alone.
  - destruct (find_token token (io (u_base s))) as [[t|] d] eqn:Hf.
    + destruct (sort_read _ _ _) as [b r] eqn:Hsr. intros [= <-] Hl. destruct (Hs Hl) as [_ Hc1].
      apply sort_read_spec with (read_buf := read_buf) in Hsr as [Hio Hw]. simpl. rewrite Hio.
      destruct r; try done; (split; [apply wakes_none|]); by eapply wakes_taken.
    + intros [= <-] Hl. simpl. split; [by eapply wakes_own|by eapply wakes_failed].
  - assert (Hp : u_left s = [] -> match pump (io (u_base s)) with
        | Handled d' => quiet (io (u_base s)) d' \/ m_completedFlag d' = true
        | Returned d' | Failed d' => quiet (io (u_base s)) d' end)
      by (intros Hl; apply pump_wakes, (Hk Hl)).
    destruct (pump (io (u_base s))) as [d|d|d]; intros [= <-] Hl; try done;
      destruct (Hs Hl) as [Hr1 Hc1]; specialize (Hp Hl); simpl; rewrite ?Hr; cbn [reader_pumps reader_token].
    + split; by eapply pump_sound.
    + split; [apply wakes_none|]. by eapply wakes_quiet.
  - intros [= <-]. by rewrite Hr.
Qed.

Lemma caller_turn_sound c s a s' :
  kept read_buf cmd_buf s -> sound s -> caller_turn cmd_buf c s = Some (a, s') -> sound s'.
Proof.
  intros Hk Hs. unfold sound, awake, device in *.
  assert (Hend : forall x a x', u_left x = u_left s -> u_reader x = u_reader s ->
    (u_left s = [] -> quiet (io (u_base s)) (io (u_base x))) ->
    caller_token (u_caller s) = None -> end_disconnect x = Some (a, x') -> u_left x' = [] ->
    wakes (reader_pumps (u_reader x')) None (io (u_base x')) /\ wakes None (reader_token (u_reader x')) (io (u_base x'))).
  { intros x a0 x' Hl Hr Hio Hct [= _ <-] Hl'. split; [|apply wakes_none].
    assert (Hl0 : u_left s = []) by (rewrite <- Hl; by destruct (m_usb (u_base x))).
    destruct (Hs Hl0) as [Hs1 _]. rewrite Hct in Hs1. specialize (Hio Hl0).
    destruct (m_usb (u_base x)); simpl; rewrite Hr; by eapply wakes_quiet. }
  unfold caller_turn. destruct (u_caller s) as [|token size|token size| |] eqn:Hc; cbn [caller_pumps caller_token] in *.
  - destruct c as [size|].
    + unfold start_send. destruct (_ <? 0); [by intros [= _ <-] Hl; simpl; apply Hs|].
      destruct (submitWriteTransfer _ _ _ _) as [[[token|c] d]|] eqn:Hsub; [| |done]; intros [= _ <-] Hl;
        destruct (Hs Hl) as [Hr1 Hc1]; apply submitted_quiet in Hsub; simpl; (split; [|apply wakes_none]);
        (eapply wakes_quiet; [exact Hsub|]); by eapply wakes_alone.
    + unfold start_disconnect. destruct (readThread_running (u_base s)).
      * intros [= _ <-] Hl. simpl. destruct (Hs Hl) as [Hr1 _]. by split; [|apply wakes_none].
      * intros E Hl. assert (u_caller s' = CIdle) as Hi by (by injection E as _ <-). rewrite Hi.
        by eapply Hend; [| |intros _; reflexivity|..].
  - destruct (find_token token (device s)) as [[t|] d] eqn:Hf; intros [= _ <-] Hl; destruct (Hs Hl) as [Hr1 _]; simpl.
    + split; [by eapply wakes_taken|apply wakes_none].
    + split; [by eapply wakes_failed|by eapply wakes_own].
  - assert (Hp : u_left s = [] -> match pump (device s) with
        | Handled d' => quiet (device s) d' \/ m_completedFlag d' = true
        | Returned d' | Failed d' => quiet (device s) d' end)
      by (intros Hl; apply pump_wakes, (Hk Hl)).
    destruct (pump (device s)) as [d|d|d]; intros [= _ <-] Hl; try done;
      destruct (Hs Hl) as [Hr1 Hc1]; specialize (Hp Hl); simpl; rewrite ?Hc; cbn [caller_pumps caller_token].
    + split; by eapply pump_sound.
    + split; [by eapply wakes_quiet|apply wakes_none].
  - unfold cancel_disconnect. assert (Hq : u_left s = [] -> quiet (device s) (cancelTransfers (device s)))
      by (intros Hl; apply cancel_quiet, (Hk Hl)).
    destruct (readThread (u_base s)).
    + intros [= _ <-] Hl. destruct (Hs Hl) as [Hr1 _]. split; [|apply wakes_none].
      by eapply wakes_quiet; [apply (Hq Hl)|].
    + intros E Hl. assert (u_caller s' = CIdle) as Hi by (by injection E as _ <-). rewrite Hi.
      by apply (Hend (with_dev (cancelTransfers (device s)) s) a s').
  - destruct (u_reader s) eqn:Hr; try (intros [= _ <-]; rewrite Hc, Hr; done).
    intros E Hl. assert (u_caller s' = CIdle) as Hi by (by injection E as _ <-). rewrite Hi.
    eapply Hend; [| | | |exact E|exact Hl]; try done.
Qed.
End awake.

(** ** What holds while the thread is running *)

Section agree.
Context {W P : Type} `{SyncLaws W P} (read_buf cmd_buf : P).
Abbreviation Dev := (USBDeviceLinux W P).
Implicit Types s : duo (W := W) (P := P).
Implicit Types d : Dev.

(** In [disconnect] the flag of the loop is false. *)
Definition stopped s : Prop :=
  match u_caller s with CCancel | CJoin => readThread_running (u_base s) = false | _ => True end.
Lemma reader_turn_stops s s' :
  reader_turn read_buf s = Some s' ->
  u_caller s' = u_caller s /\ (readThread_running (u_base s) = false -> readThread_running (u_base s') = false).
Proof.
  unfold reader_turn. destruct (u_reader s) as [| |token|token|].
  - by intros [= <-].
  - destruct (submitReadTransfer _ _ _ _) as [[[token|c] d]|]; [| |done]; by intros [= <-].
  - destruct (find_token token (device s)) as [[t|] d]; [|by intros [= <-]].
    destruct (sort_read _ _ _) as [b r] eqn:Hs. intros [= <-]. split; [done|]. simpl. unfold sort_read in Hs.
    destruct (map_libusb_status _); injection Hs as <- <-; try done. by destruct (is_async_msg _).
  - destruct (pump (device s)); by intros [= <-].
  - by intros [= <-].
Qed.
Lemma caller_turn_stops c s a s' : stopped s -> caller_turn cmd_buf c s = Some (a, s') -> stopped s'.
Proof.
  unfold stopped, caller_turn, start_send, start_disconnect, cancel_disconnect, end_disconnect, returns, goes_on.
  intros Hs Hc. repeat case_match; simplify_eq/=; first [done|congruence].
Qed.

Lemma find_token_synced token d : synced d -> synced (find_token token d).2.
Proof.
  intros Hd. unfold find_token. destruct (rotate_to _ _ _) as [[t rest]|]; simpl; [|by apply set_flag_synced].
  apply (set_lib_synced _ (set_completed rest d)); [by apply set_completed_synced|].
  simpl. by destruct (free_transfer_law (u_ptr (t_transfer t)) (m_libusb d)) as [-> _].
Qed.
Lemma pump_synced d :
  synced d -> m_queuedTransfers d = [] ->
  match pump d with Handled d' | Returned d' | Failed d' => synced d' end.
Proof.
  intros Hd Hq. unfold pump. pose proof (handle_event_law (m_completedFlag d) (m_libusb d)) as Hl.
  destruct (libusb_handle_event _ _) as [ep ptr st n data w|w|err w|]; [|by apply set_lib_synced| |done].
  - by destruct (move_completed_synced ep ptr st n data d w Hd Hq Hl) as [? _].
  - destruct (err =? _); by apply set_lib_synced.
Qed.

(** Until [disconnect] has joined the thread, there is one to join, and the
    device and libusb agree. *)
Definition watched s : Prop :=
  readThread_running (u_base s) = true \/ u_caller s = CCancel \/ u_caller s = CJoin.
Definition linked s : Prop :=
  watched s -> readThread (u_base s) = true /\ (u_left s = [] -> synced (device s)).

Lemma sort_read_thread st data (b b' : CSWPBase Dev) r :
  sort_read st data b = (b', r) -> readThread b' = readThread b /\ io b' = io b.
Proof. destruct st; simpl; intros [= <- <-]; try done. by destruct (is_async_msg data). Qed.

Lemma reader_turn_linked s s' :
  kept read_buf cmd_buf s -> linked s -> reader_turn read_buf s = Some s' -> linked s'.
Proof.
  intros Hk Hn Ht Hw. destruct (reader_turn_stops s s' Ht) as [Hc Hrun].
  assert (Hw0 : watched s).
  { unfold watched in *. rewrite Hc in Hw. destruct Hw as [Hw|Hw]; [left|by right].
    apply not_false_iff_true. intros Hf. apply Hrun in Hf. congruence. }
  destruct (Hn Hw0) as [Hth Hsy]. revert Ht. unfold reader_turn.
  destruct (u_reader s) as [| |token|token|].
  - by intros [= <-].
  - destruct (submitReadTransfer _ _ _ _) as [[[token|c] d]|] eqn:Hs; [| |done]; intros [= <-]; (split; [done|]);
      intros Hl; exact (submit_synced _ _ _ _ _ _ _ _ (Hsy Hl) Hs).
  - pose proof (find_token_synced token (device s)) as Hf. destruct (find_token token (device s)) as [[t|] d].
    + destruct (sort_read _ _ _) as [b r] eqn:Hs. apply sort_read_thread in Hs as [Hb Hio]. intros [= <-].
      unfold device. simpl. rewrite Hb, Hio. split; [done|]. intros Hl. by apply Hf, Hsy.
    + intros [= <-]. split; [done|]. intros Hl. by apply Hf, Hsy.
  - assert (Hp : u_left s = [] -> match pump (device s) with Handled d' | Returned d' | Failed d' => synced d' end)
      by (intros Hl; apply pump_synced; [by apply Hsy|apply (Hk Hl)]).
    destruct (pump (device s)); intros [= <-]; (split; [done|]); intros Hl; by apply Hp.
  - by intros [= <-].
Qed.

Lemma caller_turn_linked c s a s' :
  kept read_buf cmd_buf s -> stopped s -> linked s -> caller_turn cmd_buf c s = Some (a, s') -> linked s'.
Proof.
  intros Hk Hst Hn Ht Hw. pose proof (caller_turn_stops c s a s' Hst Ht) as Hst'. revert Ht. unfold caller_turn.
  assert (Hpre : watched s -> u_left s = [] -> synced (device s)) by (intros Hx; apply Hn, Hx).
  assert (Hend : forall x, readThread_running (u_base x) = false -> end_disconnect x = Some (a, s') -> False).
  { intros x Hx [= _ <-]. unfold watched in Hw. simpl in Hw. destruct (m_usb (u_base x)); simpl in Hw;
      destruct Hw as [Hw|[Hw|Hw]]; congruence. }
  unfold stopped in Hst. destruct (u_caller s) as [|token size|token size| |] eqn:Hc.
  - destruct c as [size|].
    + unfold start_send. destruct (_ <? 0); [|destruct (submitWriteTransfer _ _ _ _) as [[[token|code] d]|] eqn:Hs; [| |done]];
        intros [= _ <-]; (assert (Hw0 : watched s) by (destruct Hw as [Hw|[[=]|[=]]]; by left));
        destruct (Hn Hw0) as [Hth Hsy]; (split; [done|]); intros Hl; try exact (Hsy Hl);
        exact (submit_synced _ _ _ _ _ _ _ _ (Hsy Hl) Hs).
    + unfold start_disconnect. destruct (readThread_running (u_base s)) eqn:Hrun; [|intros E; by destruct (Hend _ Hrun E)].
      intros [= _ <-]. exact (Hn (or_introl Hrun)).
  - pose proof (find_token_synced token (device s)) as Hf.
    destruct (find_token token (device s)) as [[t|] d]; intros [= _ <-];
      (assert (Hw0 : watched s) by (destruct Hw as [Hw|[[=]|[=]]]; by left));
      destruct (Hn Hw0) as [Hth Hsy]; (split; [done|]); intros Hl; by apply Hf, Hsy.
  - assert (Hp : watched s -> u_left s = [] ->
      match pump (device s) with Handled d' | Returned d' | Failed d' => synced d' end)
      by (intros Hx Hl; apply pump_synced; [by apply Hpre|apply (Hk Hl)]).
    destruct (pump (device s)); intros [= _ <-];
      (assert (Hw0 : watched s) by (destruct Hw as [Hw|[Hw|Hw]]; [by left|simpl in Hw; congruence..]));
      (split; [apply Hn, Hw0|]); intros Hl; try done; by apply Hp.
  - assert (Hw0 : watched s) by (right; by left). destruct (Hn Hw0) as [Hth Hsy].
    unfold cancel_disconnect. rewrite Hth. intros [= _ <-]. split; [done|].
    intros Hl. by apply cancelTransfers_synced, Hsy.
  - destruct (u_reader s); try (intros [= _ <-]; apply Hn; by right; right).
    intros E. exfalso. eapply Hend; [|exact E]. exact Hst.
Qed.

(** All invariants of a session. *)
Record sane s : Prop := {
  sa_kept : kept read_buf cmd_buf s;
  sa_sound : sound s;
  sa_stopped : stopped s;
  sa_linked : linked s;
}.
Lemma run_turns_sane ts s l s' : sane s -> run_turns read_buf cmd_buf ts s = Some (l, s') -> sane s'.
Proof.
  apply run_turns_invariant.
  - intros s1 s2 [Hk Hs Ht Hn] E. constructor;
      [by eapply reader_turn_kept|by eapply reader_turn_sound| |by eapply reader_turn_linked].
    apply reader_turn_stops in E as [Hc Hr]. unfold stopped in *. rewrite Hc. by destruct (u_caller s1); auto.
  - intros c s1 a s2 [Hk Hs Ht Hn] E. constructor;
      [by eapply caller_turn_kept|by eapply caller_turn_sound|by eapply caller_turn_stops|by eapply caller_turn_linked].
Qed.
Lemma connected_sane s : connected s -> readThread (u_base s) = true -> synced (device s) -> sane s.
Proof.
  intros [Hd Hr Hc Hl] Ht Hsy. constructor.
  - intros _. unfold waited. by rewrite Hr, Hc.
  - intros _. unfold awake. rewrite Hr, Hc. split; apply wakes_none.
  - unfold stopped. by rewrite Hc.
  - by intros _.
Qed.
End agree.

(** ** The end of the reading thread *)

Section join.
Context {W P : Type} `{SyncLaws W P} (read_buf cmd_buf : P).
Abbreviation Dev := (USBDeviceLinux W P).
Implicit Types s : duo (W := W) (P := P).
Implicit Types d : Dev.

(** [disconnect] has cancelled the transfers and waits. *)
Record joining s : Prop := {
  jo_caller : u_caller s = CJoin;
  jo_reader : u_reader s <> RSubmit;
  jo_running : readThread_running (u_base s) = false;
  jo_ready : ready (device s);
  jo_left : u_left s = [];
  jo_kept : kept read_buf cmd_buf s;
  jo_sound : sound s;
}.

(** How many turns the reading thread has left at most. *)
Definition turns_left s : nat :=
  match u_reader s with
  | REnd => 0
  | RTop => 1
  | RSubmit => 6
  | RFind token => if decide (token ∈ done_tokens (device s)) then 2 else 5
  | RPump token =>
      if decide (token ∈ done_tokens (device s)) then 3
      else if m_completedFlag (device s) then 6 else 4
  end.

Lemma joining_step s s' :
  joining s -> reader_turn read_buf s = Some s' -> ready (device s') -> u_left s' = [] ->
  readThread_running (u_base s') = false -> u_caller s' = u_caller s -> u_reader s' <> RSubmit -> joining s'.
Proof.
  intros [? ? ? ? ? ? ?] Hs Hr Hl Hrun Hc Hns. constructor; try done; [congruence|by eapply reader_turn_kept|].
  by eapply reader_turn_sound.
Qed.

Lemma find_ready token d : ready d -> ready (find_token token d).2.
Proof.
  intros Hr. unfold find_token. destruct (rotate_to _ _ _) as [[t rest]|]; simpl; [|by apply set_flag_ready].
  destruct (free_transfer_law (u_ptr (t_transfer t)) (m_libusb d)) as [Hh Hl].
  apply (set_lib_ready _ (set_completed rest d)); [|done|by rewrite Hl, (re_live _ Hr)].
  by destruct Hr as [[? ? ?] ? ?].
Qed.

(** The one transfer of the device is completed or in flight. *)
Lemma one_transfer token d :
  holds [mkX token read_buf] d ->
  (token ∈ done_tokens d /\ in_flight d = []) \/ ((token ∉ done_tokens d) /\ in_flight d <> []).
Proof.
  intros [Ho _ _ Hq _]. unfold owed, owed_transfers in Ho. rewrite Hq in Ho. simpl in Ho. rewrite map_app in Ho.
  assert (Hd : done_tokens d = map x_token (map xfer_of (m_completedTransfers d))) by (unfold done_tokens; by rewrite map_map).
  rewrite Hd. destruct (in_flight d) as [|t l]; simpl in Ho.
  - left. split; [|done]. rewrite Ho. simpl. constructor.
  - right. split; [|done]. apply Permutation_length in Ho as Hlen. simpl in Hlen. rewrite length_app in Hlen.
    destruct (m_completedTransfers d); [apply not_elem_of_nil|simpl in Hlen; lia].
Qed.

Lemma pump_ready token d :
  ready d -> holds [mkX token read_buf] d -> (token ∈ done_tokens d -> m_completedFlag d = true) ->
  match pump d with
  | Handled d' => ready d' /\ m_completedFlag d' = true /\ token ∈ done_tokens d' /\ token ∉ done_tokens d
  | Returned d' => ready d' /\ m_completedFlag d = true /\ done_tokens d' = done_tokens d
  | Failed _ => False
  end.
Proof.
  intros Hr Hh Hflag. unfold pump.
  assert (Hcond : m_completedFlag d = true \/ lu_held (m_libusb d) <> []).
  { destruct (one_transfer token d Hh) as [[Hin _]|[_ Hne]]; [left; auto|right].
    intros Hn. assert (Hx := sy_held _ (re_synced _ Hr)). rewrite Hn in Hx. apply Permutation_nil_l in Hx.
    by destruct (in_flight d). }
  assert (Hev := event_law (m_completedFlag d) _ (re_live _ Hr) Hcond).
  destruct (libusb_handle_event _ _) as [ep ptr st n data w|w|err w|]; try done.
  - destruct Hev as [Hp Hw].
    destruct (move_completed_ready ep ptr st n data d w Hr Hp Hw) as (Hr' & Ho & Hlen & Hfl & _).
    set (d' := transfer_complete _ _ _ _ _ _) in *.
    assert (Hi : in_flight d <> []) by (by destruct (in_flight d)).
    destruct (one_transfer token d Hh) as [[_ ?]|[Hn _]]; [done|].
    assert (Hh' : holds [mkX token read_buf] d').
    { destruct Hh as [Ho0 Ht0 Hn0 Hq0 Hc0].
      constructor; [by rewrite Ho|done| |apply (re_queue _ Hr')|apply (sy_counted _ (re_synced _ Hr'))].
      assert (Hev' := transfer_complete_evolves (u8 ep) ptr st n data (set_lib w d) (u8_byte ep)).
      fold d' in Hev'. by rewrite (ev_next _ _ Hev'). }
    split; [done|]. split; [done|]. split; [|done].
    destruct (one_transfer token d' Hh') as [[? _]|[_ Hi']]; [done|].
    assert (length (in_flight d) = 1%nat).
    { apply Permutation_length in Ho as Hl1. destruct Hh as [Hoo _ _ Hqq _]. apply Permutation_length in Hoo.
      unfold owed in Hoo. rewrite owed_ready, length_map, length_app in Hoo by done. simpl in Hoo. lia. }
    destruct (in_flight d'); [done|simpl in *; lia].
  - destruct Hev as (Hf & Hl & Hw). split; [by apply set_lib_ready|done].
Qed.

Lemma reader_nears_end s :
  joining s -> u_reader s <> REnd ->
  exists s', reader_turn read_buf s = Some s' /\ joining s' /\ (turns_left s' < turns_left s)%nat.
Proof.
  intros Hj Hne. pose proof Hj as [Hc Hns Hrun Hr Hl Hk Hs]. specialize (Hk Hl). destruct (Hs Hl) as [Hwake _].
  unfold waited in Hk. rewrite Hc in Hk. simpl in Hk. rewrite app_nil_r in Hk.
  destruct (u_reader s) as [| |token|token|] eqn:Hrd; [|done| | |done]; cbn [reader_waits reader_pumps] in Hk, Hwake.
  - exists (with_reader REnd s).
    assert (E : reader_turn read_buf s = Some (with_reader REnd s)) by (unfold reader_turn; by rewrite Hrd, Hrun).
    split; [done|]. split; [by eapply joining_step|]. unfold turns_left. rewrite Hrd. simpl. lia.
  - pose proof (find_ready token (device s) Hr) as Hr'.
    destruct (find_token token (device s)) as [[t|] d] eqn:Hf; simpl in Hr'.
    + destruct (sort_read (map_libusb_status (u_status (t_transfer t))) (u_data (t_transfer t))
        (set_io d (u_base s))) as [b r] eqn:Hsr.
      assert (E : reader_turn read_buf s = Some (with_reader r (with_base b s)))
        by (unfold reader_turn; by rewrite Hrd, Hf, Hsr).
      exists (with_reader r (with_base b s)). split; [done|].
      assert (Hb : io b = d /\ readThread_running b = false /\ (r = RTop \/ r = REnd)).
      { unfold sort_read in Hsr. destruct (map_libusb_status _); injection Hsr as <- <-; try (by auto).
        destruct (is_async_msg _); auto. }
      destruct Hb as (Hio & Hb & Hr2). split; [eapply joining_step; try done; [unfold device; simpl; by rewrite Hio|simpl; by destruct Hr2 as [-> | ->]]|].
      apply find_takes in Hf as [Hin _]. unfold turns_left. rewrite Hrd, decide_True by done.
      destruct Hr2 as [-> | ->]; simpl; lia.
    + assert (E : reader_turn read_buf s = Some (with_reader (RPump token) (with_dev d s)))
        by (unfold reader_turn; by rewrite Hrd, Hf).
      exists (with_reader (RPump token) (with_dev d s)). split; [done|]. split; [by eapply joining_step|].
      assert (Hfl : m_completedFlag d = false)
        by (unfold find_token in Hf; destruct (rotate_to _ _ _) as [[]|]; [done|by injection Hf as <-]).
      apply find_fails in Hf as [Hn Heq]. unfold turns_left. rewrite Hrd. cbn.
      rewrite !decide_False by (rewrite <- ?Heq; done). rewrite Hfl. lia.
  - assert (Hfl : token ∈ done_tokens (device s) -> m_completedFlag (device s) = true).
    { intros Hin. destruct (Hwake token eq_refl Hin) as [|(t & Ht & _)]; [done|]. by rewrite Hc in Ht. }
    pose proof (pump_ready token (device s) Hr Hk Hfl) as Hp.
    destruct (pump (device s)) as [d|d|d] eqn:Hpump; [| |done].
    + destruct Hp as (Hr' & Hf' & Hin & Hn).
      assert (E : reader_turn read_buf s = Some (with_dev d s)) by (unfold reader_turn; by rewrite Hrd, Hpump).
      exists (with_dev d s). split; [done|]. split; [by eapply joining_step; try done; cbn; rewrite Hrd|]. unfold turns_left. cbn. rewrite Hrd.
      rewrite decide_True by done. rewrite decide_False by done. destruct (m_completedFlag _); lia.
    + destruct Hp as (Hr' & Hf' & Heq).
      assert (E : reader_turn read_buf s = Some (with_reader (RFind token) (with_dev d s)))
        by (unfold reader_turn; by rewrite Hrd, Hpump).
      exists (with_reader (RFind token) (with_dev d s)). split; [done|]. split; [by eapply joining_step|].
      unfold turns_left. cbn. rewrite Hrd, Heq, Hf'. case_decide; lia.
Qed.

Lemma reader_ends n s :
  joining s -> (turns_left s <= n)%nat ->
  exists s', run_turns read_buf cmd_buf (repeat AReader n) s = Some (repeat None n, s') /\ joining s' /\ u_reader s' = REnd.
Proof.
  revert s. induction n as [|n IH]; intros s Hj Hn.
  - exists s. split; [done|]. split; [done|]. unfold turns_left in Hn.
    pose proof (jo_reader _ Hj). destruct (u_reader s); [lia|lia|..]; repeat case_match; try done; lia.
  - destruct (u_reader s) eqn:Hr.
    5: { destruct (IH s Hj) as (s' & E & Hj' & He); [unfold turns_left; rewrite Hr; lia|]. exists s'. split; [|done].
         simpl. unfold reader_turn at 1. rewrite Hr. simpl. by rewrite E. }
    all: destruct (reader_nears_end s Hj) as (s1 & E1 & Hj1 & Hlt); [by rewrite Hr|];
      destruct (IH s1 Hj1) as (s' & E & Hj' & He); [lia|]; exists s'; split; [|done];
      simpl; rewrite E1; simpl; by rewrite E.
Qed.

Lemma turns_left_bound s : (turns_left s <= 6)%nat.
Proof. unfold turns_left. repeat case_match; lia. Qed.

Lemma run_turns_app ts1 ts2 s l1 s1 l2 s2 :
  run_turns read_buf cmd_buf ts1 s = Some (l1, s1) -> run_turns read_buf cmd_buf ts2 s1 = Some (l2, s2) ->
  run_turns read_buf cmd_buf (ts1 ++ ts2) s = Some (l1 ++ l2, s2).
Proof.
  revert s l1. induction ts1 as [|t ts1 IH]; intros s l1; simpl; [by intros [= <- <-] ->|].
  destruct (turn_step _ _ t s) as [[a s3]|]; [|done]. simpl.
  destruct (run_turns _ _ ts1 s3) as [[l3 s4]|] eqn:E; [|done]. intros [= <- <-] E2.
  by rewrite (IH s3 l3 E E2).
Qed.

(** A session up to the point where [disconnect] cancels. *)
Lemma sane_joins s :
  sane read_buf cmd_buf s -> u_left s = [] -> u_caller s = CCancel -> u_reader s <> RSubmit ->
  exists s1, caller_turn cmd_buf ADisconnect s = Some (None, s1) /\ joining s1.
Proof.
  intros [Hk Hs Ht Hn] Hl Hc Hns. destruct (Hn (or_intror (or_introl Hc))) as [Hth Hsy].
  unfold stopped in Ht. rewrite Hc in Ht.
  assert (E : caller_turn cmd_buf ADisconnect s =
    Some (None, with_caller CJoin (with_dev (cancelTransfers (device s)) s)))
    by (unfold caller_turn; rewrite Hc; unfold cancel_disconnect; by rewrite Hth).
  eexists. split; [exact E|]. constructor; try done; [by apply cancelTransfers_ready, Hsy| |].
  - by eapply caller_turn_kept.
  - by eapply caller_turn_sound.
Qed.

(** C39: [disconnect] returns. After any session with any interleaving in which
    libusb has reported no error to a thread that waits ([u_left]: after such an
    error a transfer stays behind, see [error_leaves_transfer]), when
    [disconnect] has told the reading thread to stop and cancels the transfers,
    wherever that thread is - at the head of its loop, looking for its transfer,
    in libusb, or at its end - it ends after at most six turns of its own,
    without a turn of the caller in between, the join then returns 0, and the
    device has no transfer left: the cancelled transfer is handled and found, no
    wake-up is missed. Not so only when the thread has tested the flag and has
    not yet submitted its transfer. The laws of libusb: it holds what it accepts
    until it calls back for it, a cancelled transfer completes, and an event or a
    set flag ends the wait. *)
Theorem disconnect_returns ts s0 l s :
  connected s0 -> readThread (u_base s0) = true -> synced (device s0) ->
  run_turns read_buf cmd_buf ts s0 = Some (l, s) ->
  u_left s = [] -> u_caller s = CCancel -> u_reader s <> RSubmit ->
  exists s', run_turns read_buf cmd_buf (ACaller ADisconnect :: repeat AReader 6 ++ [ACaller ADisconnect]) s =
      Some (None :: repeat None 6 ++ [Some (Ret 0)], s') /\
    u_reader s' = REnd /\ u_caller s' = CIdle /\ readThread (u_base s') = false /\ owed (device s') = [].
Proof.
  intros Hco Hth Hsy Hrun Hl Hc Hns.
  destruct (sane_joins s (run_turns_sane _ _ _ _ _ _ (connected_sane _ _ _ Hco Hth Hsy) Hrun) Hl Hc Hns) as (s1 & E1 & Hj).
  destruct (reader_ends 6 s1 Hj (turns_left_bound s1)) as (s2 & E2 & Hj2 & He).
  destruct (caller_turn cmd_buf ADisconnect s2) as [[a s3]|] eqn:E3;
    [|by unfold caller_turn in E3; rewrite (jo_caller _ Hj2), He in E3].
  assert (Ea : a = Some (Ret 0) /\ u_reader s3 = REnd /\ u_caller s3 = CIdle /\
    readThread (u_base s3) = false /\ u_left s3 = []).
  { unfold caller_turn, end_disconnect, returns in E3. rewrite (jo_caller _ Hj2), He in E3.
    injection E3 as <- <-. simpl. destruct (m_usb (u_base s2)); split_and!; first [done|by apply He|by apply Hj2]. }
  destruct Ea as (-> & Hr3 & Hc3 & Hth3 & Hl3). exists s3.
  pose proof (caller_turn_kept _ _ _ _ _ _ (jo_kept _ Hj2) E3 Hl3) as Hh.
  unfold waited in Hh. rewrite Hr3, Hc3 in Hh. split.
  - change (run_turns read_buf cmd_buf ([ACaller ADisconnect] ++ (repeat AReader 6 ++ [ACaller ADisconnect])) s =
      Some ([None] ++ (repeat None 6 ++ [Some (Ret 0)]), s3)).
    eapply run_turns_app; [cbn [run_turns turn_step]; rewrite E1; reflexivity|].
    eapply run_turns_app; [exact E2|]. cbn [run_turns turn_step]. by rewrite E3.
  - split_and!; try done. apply Permutation_nil_r, (ho_owed _ _ Hh).
Qed.
End join.

(** A transfer that is not cancelled: the reading thread has tested the flag and
    submits its transfer after [disconnect] has cancelled.  The caller waits
    until the transfer times out. *)
Definition late_turns : list turn := [AReader; ACaller ADisconnect; ACaller ADisconnect; AReader; AReader].
Example late_submit :
  match run_turns 100 200 late_turns (duo_start []) with
  | Some (_, s) =>
      u_caller s = CJoin /\ u_reader s = RPump 0 /\ owed_tokens (device s) = [0] /\
      lu_live (m_libusb (device s)) <> []
  | None => False
  end.
Proof. vm_compute. by split_and!. Qed.

(** The reading thread is in libusb when the caller disconnects. *)
Definition pump_turns : list turn := [AReader; AReader; AReader; ACaller ADisconnect].
Definition at_pump (p : list reply * duo (W := script_usb) (P := Z)) :=
  (u_reader p.2, bool_decide (u_left p.2 = []), u_caller p.2).
Lemma pump_run : at_pump <$> run_turns 100 200 pump_turns (duo_start []) = Some (RPump 0, true, CCancel).
Proof. vm_compute. reflexivity. Qed.

Lemma disconnect_returns_witness :
  exists l s s', run_turns 100 200 pump_turns (duo_start []) = Some (l, s) /\ u_reader s = RPump 0 /\
    run_turns 100 200 (ACaller ADisconnect :: repeat AReader 6 ++ [ACaller ADisconnect]) s =
      Some (None :: repeat None 6 ++ [Some (Ret 0)], s') /\ owed (device s') = [].
Proof.
  destruct (fmap_Some_1 _ _ _ pump_run) as ([l s] & E & Hf). unfold at_pump in Hf. cbn [snd] in Hf.
  injection Hf as Hr Hl Hc. symmetry in Hl. apply bool_decide_eq_true_1 in Hl.
  destruct (disconnect_returns 100 200 pump_turns (duo_start []) l s (duo_connected []) eq_refl)
    as (s' & H1 & _ & _ & _ & H2); [|exact E|done|done|by rewrite <- Hr|].
  - apply synced_agrees. split; [apply (co_device _ (duo_connected []))|]. split; [done|by vm_compute].
  - exists l, s, s'. by split_and!.
Defined.
